(** * PlanSo tool: extraction, normalisation, persistence and query

    A shallow embedding of [reference/PlanSo/tool.py].  Python strings are
    modelled as Rocq [string]s (sequences of 8-bit characters); the character
    classes [\d], [\s], [str.strip] and [str.lower] are those of Python on
    ASCII text ([ascii_text]), where Python's own are wider on other text.
    A theorem that says what a function rejects, keeps or changes assumes
    ASCII text for that reason; so does one that relies on [int()], which
    from Python 3.11 on refuses more than 4300 digits, or on SQLite, which
    stores integers of 64 bits.  Code that can raise lives in the [res]
    monad, and [try]/[except] is [try_except]. *)

From Stdlib Require Import Ascii ZArith NArith Lia.
From stdpp Require Import gmap strings pretty list fin_maps.

Local Open Scope stdpp_scope.

(** ** Exceptions *)

Inductive exn : Type :=
  | TypeError
  | ValueError
  | RuntimeError (msg : string)
  | ReError (msg : string)
  | OperationalError.

Inductive res (A : Type) : Type :=
  | Ok (a : A)
  | Raise (e : exn).
Arguments Ok {A} a.
Arguments Raise {A} e.

Global Instance res_ret : MRet res := fun A a => Ok a.
Global Instance res_bind : MBind res := fun A B k m =>
  match m with
  | Ok a => k a
  | Raise e => Raise e
  end.

(** [try: m except Exception: h] *)
Definition try_except {A : Type} (m : res A) (h : exn → res A) : res A :=
  match m with
  | Ok a => Ok a
  | Raise e => h e
  end.

Definition returns {A : Type} (m : res A) : Prop := ∃ a, m = Ok a.

(** ** Characters and strings *)

Module Chr.

Definition code (c : ascii) : N := N_of_ascii c.

Definition between (lo hi : N) (c : ascii) : bool :=
  ((lo <=? code c) && (code c <=? hi))%N.

(** [\d] *)
Definition is_digit : ascii → bool := between 48 57.
Definition is_upper : ascii → bool := between 65 90.
Definition is_lower : ascii → bool := between 97 122.
Definition is_alpha (c : ascii) : bool := is_upper c || is_lower c.
(** [[A-Za-z0-9]] *)
Definition is_alnum (c : ascii) : bool := is_alpha c || is_digit c.

(** [str.isspace] and [\s] on the ASCII range: tab, LF, VT, FF, CR,
    FS, GS, RS, US and space. *)
Definition is_space (c : ascii) : bool :=
  between 9 13 c || between 28 32 c.

(** The whitespace that [int()] and [float()] skip around an ASCII text: tab,
    LF, VT, FF, CR and space. *)
Definition is_c_space (c : ascii) : bool :=
  between 9 13 c || between 32 32 c.

(** A character of the ASCII range. *)
Definition is_ascii : ascii → bool := between 0 127.

Definition digit_val (c : ascii) : N := (code c - 48)%N.
Definition of_digit (n : N) : ascii := ascii_of_N (48 + n mod 10).

Definition lower (c : ascii) : ascii :=
  if is_upper c then ascii_of_N (code c + 32) else c.

End Chr.

Module Str.

Fixpoint all (p : ascii → bool) (s : string) : bool :=
  match s with
  | EmptyString => true
  | String c s' => p c && all p s'
  end.

Definition is_empty (s : string) : bool :=
  match s with EmptyString => true | _ => false end.

Fixpoint lstrip (s : string) : string :=
  match s with
  | EmptyString => EmptyString
  | String c s' => if Chr.is_space c then lstrip s' else s
  end.

Fixpoint rstrip (s : string) : string :=
  match s with
  | EmptyString => EmptyString
  | String c s' =>
      let r := rstrip s' in
      if Chr.is_space c && is_empty r then EmptyString else String c r
  end.

(** [s.strip()] *)
Definition strip (s : string) : string := rstrip (lstrip s).

(** [s] without the whitespace that [int()] and [float()] skip at its two
    ends *)
Fixpoint lstrip_c (s : string) : string :=
  match s with
  | EmptyString => EmptyString
  | String c s' => if Chr.is_c_space c then lstrip_c s' else s
  end.

Fixpoint rstrip_c (s : string) : string :=
  match s with
  | EmptyString => EmptyString
  | String c s' =>
      let r := rstrip_c s' in
      if Chr.is_c_space c && is_empty r then EmptyString else String c r
  end.

Definition strip_c (s : string) : string := rstrip_c (lstrip_c s).

(** [s.replace(c, by)] for a one-character needle *)
Fixpoint replace_char (c : ascii) (by_ : string) (s : string) : string :=
  match s with
  | EmptyString => EmptyString
  | String a s' =>
      if Ascii.eqb a c then by_ +:+ replace_char c by_ s'
      else String a (replace_char c by_ s')
  end.

(** [s.lower()] on ASCII letters *)
Fixpoint lower (s : string) : string :=
  match s with
  | EmptyString => EmptyString
  | String c s' => String (Chr.lower c) (lower s')
  end.

(** [int(s)] for a string of decimal digits *)
Fixpoint digits_acc (acc : N) (s : string) : N :=
  match s with
  | EmptyString => acc
  | String c s' => digits_acc (10 * acc + Chr.digit_val c) s'
  end.
Definition digits_val : string → N := digits_acc 0.

(** ["%0<w>d" % n], for [n] below [10^w] *)
Fixpoint zero_pad (w : nat) (n : N) : string :=
  match w with
  | O => EmptyString
  | S w' => zero_pad w' (n / 10) +:+ String (Chr.of_digit n) EmptyString
  end.

End Str.

(** ** Regular-expression fragments

    The patterns of the source are sequences of bounded digit runs, literal
    characters and whitespace runs; no two adjacent pieces can match the same
    character, so the greedy left-to-right reading below decides them. *)

Module Re.

(** The longest prefix of at most [n] characters satisfying [p], and the
    rest. *)
Fixpoint take_upto (p : ascii → bool) (n : nat) (s : string) : string * string :=
  match n, s with
  | S n', String c s' =>
      if p c then
        let '(a, r) := take_upto p n' s' in (String c a, r)
      else (EmptyString, s)
  | _, _ => (EmptyString, s)
  end.

(** The longest prefix satisfying [p], and the rest. *)
Fixpoint span (p : ascii → bool) (s : string) : string * string :=
  match s with
  | String c s' =>
      if p c then let '(a, r) := span p s' in (String c a, r)
      else (EmptyString, s)
  | EmptyString => (EmptyString, EmptyString)
  end.

(** [\d{lo,hi}] *)
Definition digits (lo hi : nat) (s : string) : option (string * string) :=
  let '(a, r) := take_upto Chr.is_digit hi s in
  if (lo <=? String.length a)%nat then Some (a, r) else None.

(** a literal character *)
Definition lit (c : ascii) (s : string) : option string :=
  match s with
  | String a s' => if Ascii.eqb a c then Some s' else None
  | EmptyString => None
  end.

(** [\s+] *)
Definition spaces1 (s : string) : option string :=
  let '(a, r) := span Chr.is_space s in
  if Str.is_empty a then None else Some r.

(** end of a [fullmatch] *)
Definition eos (s : string) : option unit :=
  if Str.is_empty s then Some tt else None.

End Re.

(** ** Locale normaliser: dates *)

Module Date.

(** [datetime.date]; the constructor [make] raises [ValueError] outside the
    proleptic Gregorian calendar of the years 1 to 9999. *)
Record date : Type := mk { year : N; month : N; day : N }.

Definition is_leap (y : N) : bool :=
  ((y mod 4 =? 0) && (negb (y mod 100 =? 0) || (y mod 400 =? 0)))%N.

Definition days_in_month (y m : N) : N :=
  match m with
  | 1 | 3 | 5 | 7 | 8 | 10 | 12 => 31
  | 4 | 6 | 9 | 11 => 30
  | 2 => if is_leap y then 29 else 28
  | _ => 0
  end%N.

Definition valid (y m d : N) : bool :=
  ((1 <=? y) && (y <=? 9999) && (1 <=? m) && (m <=? 12)
   && (1 <=? d) && (d <=? days_in_month y m))%N.

Definition make (y m d : N) : res date :=
  if valid y m d then Ok (mk y m d) else Raise ValueError.

(** [date.isoformat()] *)
Definition isoformat (d : date) : string :=
  Str.zero_pad 4 (year d) +:+ "-" +:+ Str.zero_pad 2 (month d)
    +:+ "-" +:+ Str.zero_pad 2 (day d).

(** [datetime.datetime] with second resolution *)
Record datetime : Type :=
  mk_dt { on : date; hour : N; minute : N; second : N }.

Definition valid_time (hh mm ss : N) : bool :=
  ((hh <=? 23) && (mm <=? 59) && (ss <=? 59))%N.

Definition make_dt (y m d hh mm ss : N) : res datetime :=
  dt ← make y m d;
  if valid_time hh mm ss then Ok (mk_dt dt hh mm ss) else Raise ValueError.

(** [datetime.isoformat(timespec="seconds")] *)
Definition isoformat_dt (t : datetime) : string :=
  isoformat (on t) +:+ "T" +:+ Str.zero_pad 2 (hour t) +:+ ":"
    +:+ Str.zero_pad 2 (minute t) +:+ ":" +:+ Str.zero_pad 2 (second t).

End Date.

(** [re.fullmatch(r"\d{4}-\d{2}-\d{2}", s)] *)
Definition match_iso_date (s : string) : bool :=
  bool_decide (is_Some (
    '(_, r) ← Re.digits 4 4 s; r ← Re.lit "-" r;
    '(_, r) ← Re.digits 2 2 r; r ← Re.lit "-" r;
    '(_, r) ← Re.digits 2 2 r; Re.eos r)).

(** [re.fullmatch(r"(\d{1,2})\.(\d{1,2})\.(\d{4})", s)], with its groups *)
Definition match_de_date (s : string) : option (string * string * string) :=
  '(d, r) ← Re.digits 1 2 s; r ← Re.lit "." r;
  '(mo, r) ← Re.digits 1 2 r; r ← Re.lit "." r;
  '(y, r) ← Re.digits 4 4 r; _ ← Re.eos r;
  Some (d, mo, y).

(** [re.fullmatch(r"(\d{1,2})\.(\d{1,2})\.(\d{4})\s+(\d{1,2}):(\d{2}):(\d{2})", s)] *)
Definition match_de_datetime (s : string)
  : option (string * string * string * string * string * string) :=
  '(d, r) ← Re.digits 1 2 s; r ← Re.lit "." r;
  '(mo, r) ← Re.digits 1 2 r; r ← Re.lit "." r;
  '(y, r) ← Re.digits 4 4 r; r ← Re.spaces1 r;
  '(hh, r) ← Re.digits 1 2 r; r ← Re.lit ":" r;
  '(mm, r) ← Re.digits 2 2 r; r ← Re.lit ":" r;
  '(ss, r) ← Re.digits 2 2 r; _ ← Re.eos r;
  Some (d, mo, y, hh, mm, ss).

(** Returns [(iso_date, iso_datetime)]. *)
Definition _parse_german_date_or_datetime (s : string)
  : res (option string * option string) :=
  if Str.is_empty s then Ok (None, None) else
  let s := Str.strip s in
  if match_iso_date s then Ok (Some s, None) else
  match match_de_date s with
  | Some (d, mo, y) =>
      try_except
        (dt ← Date.make (Str.digits_val y) (Str.digits_val mo) (Str.digits_val d);
         Ok (Some (Date.isoformat dt), None))
        (fun _ => Ok (None, None))
  | None =>
      match match_de_datetime s with
      | Some (d, mo, y, hh, mm, ss) =>
          try_except
            (dt ← Date.make_dt (Str.digits_val y) (Str.digits_val mo)
                   (Str.digits_val d) (Str.digits_val hh) (Str.digits_val mm)
                   (Str.digits_val ss);
             Ok (Some (Date.isoformat (Date.on dt)), Some (Date.isoformat_dt dt)))
            (fun _ => Ok (None, None))
      | None => Ok (None, None)
      end
  end.

(** ** Locale normaliser: decimals *)

(** A Python [float] produced by [float(str)], kept as the decimal number the
    text denotes: [FDec neg m e] stands for the binary64 value nearest to
    [(-1)^neg * m * 10^e], an infinity when that number is out of range;
    [Binary64.of_float] computes it.  Rounding is a function of the number,
    so equal numbers give equal floats. *)
Inductive pyfloat : Type :=
  | FNan
  | FInf (neg : bool)
  | FDec (neg : bool) (m : N) (e : Z).

Module Float.

(** Underscores of a numeric literal: each one must sit between two digits;
    they are removed. [prev] is the previous character. *)
Fixpoint strip_underscores (prev : ascii) (s : string) : option string :=
  match s with
  | EmptyString => if Ascii.eqb prev "_" then None else Some EmptyString
  | String c s' =>
      if Ascii.eqb c "_" then
        if Chr.is_digit prev then strip_underscores c s' else None
      else if Ascii.eqb prev "_" && negb (Chr.is_digit c) then None
      else String c <$> strip_underscores c s'
  end.

Definition parse_sign (s : string) : bool * string :=
  match s with
  | String c r =>
      if Ascii.eqb c "-" then (true, r)
      else if Ascii.eqb c "+" then (false, r)
      else (false, s)
  | EmptyString => (false, s)
  end.

Definition is_e (c : ascii) : bool := Ascii.eqb c "e" || Ascii.eqb c "E".

(** [digits [. digits] | . digits], then an optional exponent
    [(e|E) [sign] digits], up to the end of the text *)
Definition parse_decimal (s : string) : option (N * Z) :=
  let '(ip, r) := Re.span Chr.is_digit s in
  let '(fp, r) :=
    match r with
    | String c r' =>
        if Ascii.eqb c "." then Re.span Chr.is_digit r' else (EmptyString, r)
    | EmptyString => (EmptyString, r)
    end in
  if Str.is_empty ip && Str.is_empty fp then None else
  let m := Str.digits_val (ip +:+ fp) in
  let sh := Z.of_nat (String.length fp) in
  match r with
  | EmptyString => Some (m, (- sh)%Z)
  | String c r' =>
      if is_e c then
        let '(eneg, ds) := parse_sign r' in
        if negb (Str.is_empty ds) && Str.all Chr.is_digit ds then
          let x := Z.of_N (Str.digits_val ds) in
          Some (m, ((if eneg then - x else x) - sh)%Z)
        else None
      else None
  end.

(** [float(s)] for an ASCII text [s] *)
Definition of_string (s : string) : res pyfloat :=
  match strip_underscores "000" (Str.strip_c s) with
  | None => Raise ValueError
  | Some t =>
      let '(neg, body) := parse_sign t in
      let w := Str.lower body in
      if String.eqb w "inf" || String.eqb w "infinity" then Ok (FInf neg)
      else if String.eqb w "nan" then Ok FNan
      else match parse_decimal body with
           | Some (m, e) => Ok (FDec neg m e)
           | None => Raise ValueError
           end
  end.

End Float.

(** ** binary64 *)

Module Binary64.

(** A binary64 value: not a number, an infinity, or [(-1)^neg * m * 2^e]
    with [0 <= m < 2^53] and [-1074 <= e <= 971], where [2^52 <= m] unless
    [e = -1074]. *)
Inductive t : Type :=
  | Nan
  | Inf (neg : bool)
  | Fin (neg : bool) (m : Z) (e : Z).

(** The integer nearest to [p / q], the even one of two equally near. *)
Definition div_half_even (p q : Z) : Z :=
  let d := (p / q)%Z in
  let r := (p mod q)%Z in
  if (2 * r <? q)%Z then d
  else if (q <? 2 * r)%Z then (d + 1)%Z
  else if Z.even d then d else (d + 1)%Z.

(** [p / (q * 2^k)] as a fraction of two integers *)
Definition scaled (p q k : Z) : Z * Z :=
  if (0 <=? k)%Z then (p, q * 2 ^ k)%Z else (p * 2 ^ (- k), q)%Z.

(** The exponent [l] of [p / q], for [0 < p] and [0 < q]:
    [2^l <= p / q < 2^(l+1)]. *)
Definition bracket (p q : Z) : Z :=
  let l0 := (Z.log2 p - Z.log2 q)%Z in
  let '(a, b) := scaled p q l0 in
  if (a <? b)%Z then (l0 - 1)%Z else l0.

(** The binary64 value nearest to [p / q], for [0 <= p] and [0 < q]: round
    to nearest, ties to even, an infinity from [2^1024 - 2^970] on. *)
Definition nearest (neg : bool) (p q : Z) : t :=
  if (p =? 0)%Z then Fin neg 0 (-1074) else
  let l := bracket p q in
  let e := Z.max (l - 52) (-1074) in
  let '(a, b) := scaled p q e in
  let m := div_half_even a b in
  let '(m, e) := if (m =? 2 ^ 53)%Z then (2 ^ 52, e + 1)%Z else (m, e) in
  if (971 <? e)%Z then Inf neg else Fin neg m e.

(** The binary64 value of a [float]. *)
Definition of_float (f : pyfloat) : t :=
  match f with
  | FNan => Nan
  | FInf neg => Inf neg
  | FDec neg m e =>
      if (0 <=? e)%Z then nearest neg (Z.of_N m * 10 ^ e) 1
      else nearest neg (Z.of_N m) (10 ^ (- e))
  end.

End Binary64.

(** Convert German decimal strings like '11,30' to float(11.30).
    Returns None if conversion fails. *)
Definition _to_float_de (s : option string) : res (option pyfloat) :=
  match s with
  | None => Ok None
  | Some s =>
      let t := Str.strip s in
      if Str.is_empty t then Ok None else
      let t := Str.replace_char "," "." (Str.replace_char "." "" t) in
      try_except (f ← Float.of_string t; Ok (Some f)) (fun _ => Ok None)
  end.

(** ** Python values and dictionaries *)

(** A value of a decoded JSON object, as far as the code observes it.  Every
    value that is not [None], a [bool], an [int] or a [str] (a float, a list,
    a dict) is [VOther], given by its truth value, by what [int()] does on it
    and by its [str()]. *)
Inductive pyval : Type :=
  | VNone
  | VBool (b : bool)
  | VInt (z : Z)
  | VStr (s : string)
  | VOther (truth : bool) (as_int : res Z) (as_str : string).

Module Py.

(** [bool(v)] *)
Definition truthy (v : pyval) : bool :=
  match v with
  | VNone => false
  | VBool b => b
  | VInt z => negb (Z.eqb z 0)
  | VStr s => negb (Str.is_empty s)
  | VOther t _ _ => t
  end.

(** [a or b] *)
Definition or (a b : pyval) : pyval := if truthy a then a else b.

Definition str_of_Z (z : Z) : string :=
  match z with
  | Z0 => "0"
  | Zpos p => pretty (Npos p)
  | Zneg p => "-" +:+ pretty (Npos p)
  end.

(** [str(v)] *)
Definition str (v : pyval) : string :=
  match v with
  | VNone => "None"
  | VBool true => "True"
  | VBool false => "False"
  | VInt z => str_of_Z z
  | VStr s => s
  | VOther _ _ s => s
  end.

(** [int(s)] for an ASCII text of at most 4300 digits: surrounding
    whitespace, an optional sign, decimal digits with single underscores
    between them. *)
Definition int_of_string (s : string) : res Z :=
  let '(neg, body) := Float.parse_sign (Str.strip_c s) in
  match Float.strip_underscores "000" body with
  | Some ds =>
      if negb (Str.is_empty ds) && Str.all Chr.is_digit ds then
        let z := Z.of_N (Str.digits_val ds) in
        Ok (if neg then (- z)%Z else z)
      else Raise ValueError
  | None => Raise ValueError
  end.

(** [int(v)] *)
Definition int (v : pyval) : res Z :=
  match v with
  | VNone => Raise TypeError
  | VBool b => Ok (Z.b2z b)
  | VInt z => Ok z
  | VStr s => int_of_string s
  | VOther _ r _ => r
  end.

End Py.

(** A Python [dict]: an association list in insertion order, one entry per
    key when built with [set]. *)
Module PyDict.
Section dict.
Context {K V : Type} `{EqDecision K}.

(** [d.get(k)] *)
Fixpoint get (k : K) (d : list (K * V)) : option V :=
  match d with
  | [] => None
  | (k', v) :: d' => if decide (k = k') then Some v else get k d'
  end.

(** [k in d] *)
Definition mem (k : K) (d : list (K * V)) : bool :=
  match get k d with Some _ => true | None => false end.

(** [d[k] = v]: a present key keeps its place *)
Fixpoint set (k : K) (v : V) (d : list (K * V)) : list (K * V) :=
  match d with
  | [] => [(k, v)]
  | (k', v') :: d' =>
      if decide (k = k') then (k, v) :: d' else (k', v') :: set k v d'
  end.

(** [list(d.values())] *)
Definition values (d : list (K * V)) : list V := d.*2.
Definition keys (d : list (K * V)) : list K := d.*1.
End dict.
End PyDict.

Abbreviation dict K V := (list (K * V)) (only parsing).

(** [d.get(k)] on a JSON object: [None] for an absent key *)
Definition jget (k : string) (d : dict string pyval) : pyval :=
  default VNone (PyDict.get k d).

(** [d.get(k) or rest] on a [Dict[str, str]] *)
Definition sget_or (k : string) (d : dict string string) (rest : string) : string :=
  match PyDict.get k d with
  | Some s => if Str.is_empty s then rest else s
  | None => rest
  end.

(** ** Keyword search: [re.search(..., re.IGNORECASE)] *)

Module Search.

Fixpoint prefix (p s : string) : bool :=
  match p, s with
  | EmptyString, _ => true
  | String a p', String b s' => Ascii.eqb a b && prefix p' s'
  | String _ _, EmptyString => false
  end.

(** [needle in s] *)
Fixpoint contains (needle s : string) : bool :=
  prefix needle s ||
  match s with
  | EmptyString => false
  | String _ s' => contains needle s'
  end.

(** Case folding of the text before matching: ASCII letters, and the
    two-byte UTF-8 letters U+00C0..U+00DE (which include the umlauts of the
    keywords) go to lower case. *)
Fixpoint fold_case (s : string) : string :=
  match s with
  | EmptyString => EmptyString
  | String c s' =>
      match s' with
      | String d s'' =>
          if Ascii.eqb c "195" && Chr.between 128 158 d
             && negb (Ascii.eqb d "151") then
            String c (String (ascii_of_N (Chr.code d + 32)) (fold_case s''))
          else String (Chr.lower c) (fold_case s')
      | EmptyString => String (Chr.lower c) EmptyString
      end
  end.

(** The text before the first line feed: what [.*] can run over. *)
Fixpoint line (s : string) : string :=
  match s with
  | EmptyString => EmptyString
  | String c s' => if Ascii.eqb c "010" then EmptyString else String c (line s')
  end.

(** [a.*b] somewhere in [s], for folded literals [a] and [b] *)
Fixpoint contains_gap (a b s : string) : bool :=
  (prefix a s && contains b (line (String.substring (String.length a) (String.length s) s))) ||
  match s with
  | EmptyString => false
  | String _ s' => contains_gap a b s'
  end.

(** one alternative of a pattern *)
Inductive alt : Type :=
  | Lit (w : string)
  | Gap (a b : string).

Definition alt_in (s : string) (a : alt) : bool :=
  match a with
  | Lit w => contains w s
  | Gap a b => contains_gap a b s
  end.

(** [re.search("(a1|a2|...)", s, re.IGNORECASE)] *)
Definition search_any (alts : list alt) (s : string) : bool :=
  existsb (alt_in (fold_case s)) alts.

End Search.

(** [o or rest] for an optional string [o] *)
Definition or_s (o : option string) (rest : string) : string :=
  match o with
  | Some s => if Str.is_empty s then rest else s
  | None => rest
  end.

(** ** Domain records *)

(** The opaque [raw] payload of a part, serialised by [json.dumps]. *)
#[local] Unset Elimination Schemes.
Inductive json : Type :=
  | JNull
  | JBool (b : bool)
  | JNum (z : Z)
  | JStr (s : string)
  | JArr (l : list json)
  | JObj (l : list (string * json)).
#[local] Set Elimination Schemes.

(** One parsed part, with the keys [_parse_parts_from_html] gives it. *)
Module Part.
Record t : Type := mk {
  part_no : string;
  description : string;
  lead_no : string;
  order_no : string;
  row_id : option string;
  part_id : option string;
  qty : option pyfloat;
  price_each : option pyfloat;
  price_total : option pyfloat;
  status : string;
  status_code : string;
  status_icon : string;
  order_date : string;
  delivery_date : string;
  eta_date : string;
  is_missing : bool;
  is_to_order : bool;
  is_ordered : bool;
  is_delivered : bool;
  is_backorder : bool;
  is_mandatory : bool;
  is_price_checked : bool;
  raw : json
}.

(** [(p.get("part_no") or "", p.get("description") or "")] *)
Definition key (p : t) : string * string := (part_no p, description p).
End Part.

(** The canonical order row, one field per column of [orders]. *)
Module Order.
Record t : Type := mk {
  id : Z;
  short_name : string;
  plate : string;
  person : string;
  phone : string;
  email : string;
  damage : string;
  project_status : string;
  station_id : option Z;
  station_state : option string;
  shop_date : string;
  repair_date : string;
  finish_date : string;
  planned_delivery_date : string;
  parts_status : string;
  missing_parts : Z;
  est_hours_karo : option pyfloat;
  est_hours_lack : option pyfloat;
  est_hours_mech : option pyfloat;
  fields_json : string;
  vehicle_json : string;
  last_synced_at : string
}.
End Order.

(** ** Domain field mapper *)

(** [re.fullmatch(r"(\d+)\@([a-zA-Z_]+)", t)], with its groups *)
Definition match_station (t : string) : option (string * string) :=
  let '(ds, r) := Re.span Chr.is_digit t in
  if Str.is_empty ds then None else
  r ← Re.lit "@" r;
  if negb (Str.is_empty r)
     && Str.all (fun c => Chr.is_alpha c || Ascii.eqb c "_") r
  then Some (ds, r) else None.

(** station looks like "2@active" or "4@finished" or "6@active".
    Returns (station_id, station_state). *)
Definition parse_station (s : string) : option Z * option string :=
  if Str.is_empty s then (None, None) else
  match match_station (Str.strip s) with
  | None => (None, None)
  | Some (ds, w) => (Some (Z.of_N (Str.digits_val ds)), Some (Str.lower w))
  end.

Definition vehicle_mapping : list (string * string) :=
  [ ("VIN", "vin"); ("KBA", "kba"); ("Farbe Nummer", "color_code");
    ("Farbton", "color_name"); ("Kennzeichen", "plate");
    ("Kilometerstand", "mileage"); ("Fahrzeug", "vehicle");
    ("Klasse", "class"); ("Leasing/Flotte", "leasing") ].

(** [if parts_meta.get(attr) and key not in out: out[key] = str(...)] *)
Definition meta_default (parts_meta : dict string string) (attr key : string)
    (out : dict string string) : dict string string :=
  match PyDict.get attr parts_meta with
  | Some v =>
      if negb (Str.is_empty v) && negb (PyDict.mem key out)
      then PyDict.set key v out else out
  | None => out
  end.

Definition _extract_vehicle_info (visual_fields : dict string string)
    (parts_meta : option (dict string string)) : dict string string :=
  let out :=
    foldl (fun out '(label, key) =>
             let val := sget_or label visual_fields "" in
             if negb (Str.is_empty val) then PyDict.set key val out else out)
          [] vehicle_mapping in
  match parts_meta with
  | Some (e :: m) =>
      let parts_meta := e :: m in
      meta_default parts_meta "data-pnum" "order_no"
        (meta_default parts_meta "data-number_plate" "plate"
          (meta_default parts_meta "data-make" "make"
            (meta_default parts_meta "data-vin" "vin" out)))
  | _ => out
  end.

Definition no_parts_alts : list Search.alt :=
  [ Search.Lit "ohne eteile"; Search.Lit "ohne e-teile" ].

Definition missing_alts : list Search.alt :=
  [ Search.Lit "fehlt"; Search.Lit "offen"; Search.Lit "rückstand";
    Search.Lit "wartet"; Search.Gap "nicht" "da"; Search.Lit "backorder";
    Search.Lit "unvollständig" ].

(** The "missing parts" heuristics of [build_order_row]. *)
Definition missing_parts_of (parts_status_final : string)
    (parts_list : option (list Part.t)) : Z :=
  let missing_parts := 0%Z in
  let missing_parts :=
    (* re.search(r"(ohne e-?teile)", ...) *)
    if Search.search_any no_parts_alts parts_status_final then 0%Z
    (* re.search(r"(fehlt|offen|rückstand|wartet|nicht.*da|backorder|unvollständig)", ...) *)
    else if Search.search_any missing_alts parts_status_final then 1%Z
    else missing_parts in
  (* if we have a parts_list, refine *)
  match parts_list with
  | Some (p :: l) =>
      if existsb Part.is_missing (p :: l) then 1%Z else missing_parts
  | _ => missing_parts
  end.

Section Mapper.

(** [json.dumps(d, ensure_ascii=False)] on a [Dict[str, str]] *)
Variable json_dumps : dict string string → string.

(** [now] is the reading of the clock, [_now_iso()]. *)
Definition build_order_row (now : string) (proj : dict string pyval)
    (visual_fields : dict string string) (parts_status : string)
    (parts_list : option (list Part.t))
    (parts_meta : option (dict string string)) : res Order.t :=
  pid ← Py.int (jget "ID" proj);
  let short_name := Str.strip (Py.str (Py.or (jget "short_name" proj) (VStr ""))) in
  let '(station_id, station_state) :=
    parse_station (Py.str (Py.or (jget "station" proj) (VStr ""))) in
  let person := sget_or "Fahrername" visual_fields (sget_or "Halter" visual_fields "") in
  let phone := sget_or "Telefon" visual_fields (sget_or "Telefonnummer" visual_fields "") in
  let email := sget_or "Kunden E-Mail" visual_fields (sget_or "E-Mail" visual_fields "") in
  let damage :=
    sget_or "Kategorie" visual_fields
      (sget_or "Damage" visual_fields
         (Py.str (Py.or (jget "finish_date" proj) (VStr "")))) in
  let project_status := sget_or "Projekt-Status" visual_fields "" in
  d1 ← _parse_german_date_or_datetime (sget_or "Werkstattstart" visual_fields "");
  let shop_date := or_s d1.1 (sget_or "Werkstattstart" visual_fields "") in
  d2 ← _parse_german_date_or_datetime
         (sget_or "Fahrzeugeingang (Soll)" visual_fields
            (sget_or "Fahrzeugeingang (Ist)" visual_fields ""));
  let repair_date := or_s d2.1 "" in
  d3 ← _parse_german_date_or_datetime (sget_or "Termin Fertigstellung" visual_fields "");
  let finish_date := or_s d3.1 (sget_or "Termin Fertigstellung" visual_fields "") in
  d4 ← _parse_german_date_or_datetime (sget_or "Plan Auslieferung" visual_fields "");
  let planned_delivery := or_s d4.1 (sget_or "Plan Auslieferung" visual_fields "") in
  let eparts_status := sget_or "E-Teile Status" visual_fields "" in
  let parts_status_final :=
    if Str.is_empty parts_status then eparts_status else parts_status in
  let missing_parts := missing_parts_of parts_status_final parts_list in
  est_karo ← _to_float_de (Some (sget_or "Sollstunden Karo" visual_fields ""));
  est_lack ← _to_float_de (Some (sget_or "Sollstunden Lack" visual_fields ""));
  est_mech ← _to_float_de (Some (sget_or "Sollstunden Mech" visual_fields ""));
  let plate :=
    sget_or "Kennzeichen" visual_fields (sget_or "Fahrzeug" visual_fields short_name) in
  let vehicle_info := _extract_vehicle_info visual_fields parts_meta in
  Ok {| Order.id := pid;
        Order.short_name := short_name;
        Order.plate := plate;
        Order.person := person;
        Order.phone := phone;
        Order.email := email;
        Order.damage := damage;
        Order.project_status := project_status;
        Order.station_id := station_id;
        Order.station_state := station_state;
        Order.shop_date := shop_date;
        Order.repair_date := repair_date;
        Order.finish_date := finish_date;
        Order.planned_delivery_date := planned_delivery;
        Order.parts_status := parts_status_final;
        Order.missing_parts := Z.b2z (negb (Z.eqb missing_parts 0));
        Order.est_hours_karo := est_karo;
        Order.est_hours_lack := est_lack;
        Order.est_hours_mech := est_mech;
        Order.fields_json := json_dumps visual_fields;
        Order.vehicle_json := json_dumps vehicle_info;
        Order.last_synced_at := now |}.

End Mapper.

(** ** The three accepted date formats, stated on the text

    [digit_run lo hi s]: [s] is between [lo] and [hi] decimal digits. *)

Definition digit_run (lo hi : nat) (s : string) : Prop :=
  Str.all Chr.is_digit s = true ∧ (lo ≤ String.length s ≤ hi)%nat.

(** [dddd-dd-dd] *)
Definition iso_form (t : string) : Prop :=
  ∃ y m d, digit_run 4 4 y ∧ digit_run 2 2 m ∧ digit_run 2 2 d ∧
    t = y +:+ "-" +:+ m +:+ "-" +:+ d.

(** [D.M.YYYY], day and month of one or two digits *)
Definition de_date_form (t d mo y : string) : Prop :=
  digit_run 1 2 d ∧ digit_run 1 2 mo ∧ digit_run 4 4 y ∧
  t = d +:+ "." +:+ mo +:+ "." +:+ y.

(** [D.M.YYYY H:MM:SS], the two parts separated by a run of whitespace *)
Definition de_datetime_form (t d mo y hh mm ss : string) : Prop :=
  digit_run 1 2 d ∧ digit_run 1 2 mo ∧ digit_run 4 4 y ∧
  digit_run 1 2 hh ∧ digit_run 2 2 mm ∧ digit_run 2 2 ss ∧
  ∃ ws, ws ≠ "" ∧ Str.all Chr.is_space ws = true ∧
    t = d +:+ "." +:+ mo +:+ "." +:+ y +:+ ws +:+ hh +:+ ":" +:+ mm +:+ ":" +:+ ss.

(** An ISO date in the calendar sense: the ISO shape, naming a day that
    exists. *)
Definition is_calendar_iso_date (t : string) : bool :=
  match_iso_date t &&
  Date.valid (Str.digits_val (String.substring 0 4 t))
             (Str.digits_val (String.substring 5 2 t))
             (Str.digits_val (String.substring 8 2 t)).

(** ** Values that Python and the embedding read alike *)

(** A text of ASCII characters.  On such a text the character classes of
    the embedding are those of Python. *)
Definition ascii_text (s : string) : Prop := Str.all Chr.is_ascii s = true.

(** A text that [str.strip] trims as [Str.strip] does: what [Str.strip]
    leaves of it neither starts nor ends with a character outside ASCII. *)
Definition plain_ends (s : string) : Prop :=
  let t := Str.strip s in
  ascii_text (String.substring 0 1 t) ∧
  ascii_text (String.substring (String.length t - 1) 1 t).

(** A text or a number of at most 4300 digits: longer ones are refused by
    [int()] and [str()] from Python 3.11 on. *)
Definition small_value (v : pyval) : Prop :=
  match v with
  | VStr s | VOther _ _ s => (String.length s ≤ 4300)%nat
  | VInt z => (Z.abs z < 10 ^ 4300)%Z
  | _ => True
  end.

(** A value whose digits [int()] reads as [Py.int] does: when it is a text,
    or printed as one, an ASCII text. *)
Definition ascii_value (v : pyval) : Prop :=
  match v with
  | VStr s | VOther _ _ s => ascii_text s
  | _ => True
  end.

(** A project summary with such values, and with such an ["ID"] and such a
    ["station"], the two entries that are read as numbers. *)
Definition small_project (proj : dict string pyval) : Prop :=
  ascii_value (jget "ID" proj) ∧ ascii_value (jget "station" proj) ∧
  Forall (fun kv => small_value kv.2) proj.

(** An integer that SQLite stores: one of 64 bits. *)
Definition fits_int64 (z : Z) : Prop := (- 2 ^ 63 ≤ z < 2 ^ 63)%Z.

(** A row whose integers SQLite stores. *)
Definition storable (row : Order.t) : Prop :=
  fits_int64 (Order.id row) ∧
  match Order.station_id row with
  | Some z => fits_int64 z
  | None => True
  end.

(** ** Decimal texts in local notation *)

Module Float_spec.

(** A group of a number: digits, at least one. *)
Definition digit_group (g : string) : Prop :=
  g ≠ "" ∧ Str.all Chr.is_digit g = true.

(** Groups of digits separated by ".", a ",", and the decimals. *)
Definition thousands_form (s : string) (groups : list string) (cents : string) : Prop :=
  groups ≠ [] ∧ Forall digit_group groups ∧
  cents ≠ "" ∧ Str.all Chr.is_digit cents = true ∧
  s = String.concat "." groups +:+ "," +:+ cents.

Definition one_of (cs : list ascii) (c : ascii) : bool :=
  existsb (Ascii.eqb c) cs.

(** The characters of a number written with digits, separators and a sign. *)
Definition numeric_char (c : ascii) : bool :=
  Chr.is_digit c || Chr.is_space c || one_of ["."; ","; "+"; "-"]%char c.

(** The characters that can occur in a text [_to_float_de] converts: those
    of a number, the underscore, and the letters of an exponent and of
    [inf], [infinity] and [nan] in either case. *)
Definition convertible_char (c : ascii) : bool :=
  numeric_char c || Ascii.eqb c "_"
  || one_of ["e"; "i"; "n"; "f"; "t"; "y"; "a"]%char (Chr.lower c).

End Float_spec.

(** ** Runs joined by a separator *)

(** [(sep? p)*]: characters of the class [p], each one maybe after one
    [sep] *)
Inductive run_tail (p : ascii → bool) (sep : ascii) : string → Prop :=
  | run_tail_nil : run_tail p sep EmptyString
  | run_tail_char c s :
      p c = true → run_tail p sep s → run_tail p sep (String c s)
  | run_tail_sep c s :
      p c = true → run_tail p sep s → run_tail p sep (String sep (String c s)).

(** [p (sep? p)*]: runs of characters of the class [p], joined by single
    [sep]s *)
Definition joined_runs (p : ascii → bool) (sep : ascii) (s : string) : Prop :=
  ∃ c t, s = String c t ∧ p c = true ∧ run_tail p sep t.

(** ** Float literals *)

Module Literal.

(** [digitpart ::= digit (["_"] digit)*] *)
Definition digitpart : string → Prop := joined_runs Chr.is_digit "_".

(** [[sign]] *)
Definition sign (s : string) : Prop := s = "" ∨ s = "+" ∨ s = "-".

(** [number ::= [digitpart] "." digitpart | digitpart ["."]] *)
Definition number (t : string) : Prop :=
  (∃ a, digitpart a ∧ (t = a ∨ t = a +:+ ".")) ∨
  (∃ a b, (a = "" ∨ digitpart a) ∧ digitpart b ∧ t = a +:+ "." +:+ b).

(** [[exponent]], with [exponent ::= ("e" | "E") [sign] digitpart] *)
Definition exponent (x : string) : Prop :=
  x = "" ∨
  ∃ c sg a, Float.is_e c = true ∧ sign sg ∧ digitpart a ∧ x = String c (sg +:+ a).

(** [infinity | nan], in either case *)
Definition special (w : string) : Prop :=
  Str.lower w = "inf" ∨ Str.lower w = "infinity" ∨ Str.lower w = "nan".

(** [floatvalue ::= [sign] (number [exponent] | infinity | nan)]: the texts
    that [float()] converts, the whitespace around them aside. *)
Definition floatvalue (t : string) : Prop :=
  ∃ sg body, sign sg ∧ t = sg +:+ body ∧
    (special body ∨ ∃ num ex, number num ∧ exponent ex ∧ body = num +:+ ex).

(** What is left of a text after a run of digits with their underscores:
    nothing, or a character that is neither, and the rest. *)
Definition after_run (r s' : string) : Prop :=
  (r = "" ∧ s' = "") ∨
  ∃ c r' s'', r = String c r' ∧ s' = String c s'' ∧
    Chr.is_digit c = false ∧ Ascii.eqb c "_" = false ∧ Float.strip_underscores c s'' = Some r'.

End Literal.

(** The text that [_to_float_de] hands to [float()]: trimmed, without its
    points, its commas turned into points. *)
Definition point_notation (s : string) : string :=
  Str.replace_char "," "." (Str.replace_char "." "" (Str.strip s)).

(** The exponent of a literal without underscores, as [parse_decimal]
    reads it: nothing, or [e], a sign if any, and digits. *)
Definition plain_exponent (r : string) : Prop :=
  r = "" ∨
  ∃ c sg ds, r = String c (sg +:+ ds) ∧ Float.is_e c = true ∧ Literal.sign sg ∧
    ds ≠ "" ∧ Str.all Chr.is_digit ds = true.

(** ** Fragment parser: label/value fields

    The scan of the markup is given by what it yields, in order: each item
    is the text of a label (tags stripped, whitespace normalised) and the
    value read for it, [""] when there is none.

    With BeautifulSoup the items are elements of the tree: for
    [parse_visual_forms_plain_fields] the [.field] blocks, each with its
    first label and the value of its control; for
    [_parse_html_label_value_pairs] every [<label>] in document order, with
    the value of the control found for it.

    Without it the items are the matches of [re.finditer], which do not
    overlap: a match of [parse_visual_forms_plain_fields] runs from a
    [<label>] to the next [value="..."] or [<textarea>], and a match of
    [_parse_html_label_value_pairs] takes up to 600 characters after
    [</label>], in which the value is looked for.  A [<label>] inside the
    text that a match has taken is no item of the scan. *)

Definition label_hit : Type := string * string.

(** What the two scans of [_parse_html_label_value_pairs] yield on a
    fragment. *)
Record label_scan : Type := {
  (** [soup.find_all("label")] *)
  soup_labels : list label_hit;
  (** [re.finditer(r"<label[^>]*>(?P<label>.*?)</label>(?P<after>.{0,600})", ...)] *)
  regex_matches : list label_hit
}.

(** Parse the HTML form from visual_forms_plain and return label -> value.
    [bs4] tells whether BeautifulSoup is available; [hits] is what the scan
    that runs yields. *)
Definition parse_visual_forms_plain_fields (bs4 : bool) (hits : list label_hit)
  : dict string string :=
  if negb bs4 then
    (* if label and label not in out: out[label] = val *)
    foldl (fun out '(label, val) =>
             if negb (Str.is_empty label) && negb (PyDict.mem label out)
             then PyDict.set label val out else out)
          [] hits
  else
    (* if not label: continue ... out[label] = _normalize_whitespace(val) *)
    foldl (fun out '(label, val) =>
             if Str.is_empty label then out else PyDict.set label val out)
          [] hits.

(** The body of both loops of [_parse_html_label_value_pairs]:
    [if not label or label in out: continue], then
    [if val: out[label] = val]. *)
Definition keep_first_valued (out : dict string string) (hit : label_hit)
  : dict string string :=
  let '(label, val) := hit in
  if Str.is_empty label || PyDict.mem label out then out
  else if negb (Str.is_empty val) then PyDict.set label val out
  else out.

Definition _parse_html_label_value_pairs (bs4 : bool) (scan : label_scan)
  : dict string string :=
  if negb bs4 then
    (* for m in re.finditer(...) *)
    foldl keep_first_valued [] (regex_matches scan)
  else
    (* for lab in soup.find_all("label") *)
    foldl keep_first_valued [] (soup_labels scan).

(** The value of the first item of the scan with the label text
    [label]. *)
Fixpoint first_hit (label : string) (hits : list label_hit) : option string :=
  match hits with
  | [] => None
  | (l, v) :: hits' => if decide (label = l) then Some v else first_hit label hits'
  end.

(** The items that come with a value. *)
Definition valued (hits : list label_hit) : list label_hit :=
  filter (fun h => h.2 ≠ "") hits.

(** ** Parts-table sub-parser *)

(** What the markup scan of [_parse_parts_from_html] finds.  [table_parts]
    are the rows appended by step 1 (the parts table, read through
    BeautifulSoup or through the regular expressions), [table_meta] its table
    attributes; [tables] are the header texts and the cell texts of the rows
    of every [<table>]; [attr_hits] are the values of the bare
    [data-part...] attributes, in document order. *)
Record parts_view : Type := {
  bs4 : bool;
  table_parts : list Part.t;
  table_meta : dict string string;
  tables : list (list string * list (list string));
  attr_hits : list string
}.

(** [{f"col_{i}": v for i, v in enumerate(vals)}] *)
Definition positional_row (vals : list string) : dict string string :=
  foldl (fun row '(i, v) => PyDict.set ("col_" +:+ pretty (N.of_nat i)) v row)
        [] (imap (fun i v => (i, v)) vals).

(** [dict(zip(headers, vals))] when the counts agree, else positional keys *)
Definition table_row (headers vals : list string) : dict string string :=
  if negb (bool_decide (headers = [])) && (length headers =? length vals)%nat
  then foldl (fun row '(h, v) => PyDict.set h v row) [] (zip headers vals)
  else positional_row vals.

(** [row.get(k1) or row.get(k2) or ... or ""] *)
Definition first_of (row : dict string string) (ks : list string) : string :=
  foldr (fun k rest => sget_or k row rest) "" ks.

Definition generic_missing_alts : list Search.alt :=
  [ Search.Lit "offen"; Search.Lit "fehlt"; Search.Lit "rückstand";
    Search.Lit "backorder"; Search.Gap "nicht" "gelief" ].

(** The part of one row of a generic table, [None] when the row has neither
    part number nor description. *)
Definition generic_part (row : dict string string) : res (option Part.t) :=
  let part_no := first_of row ["Teilenummer"; "Teile-Nr."; "Teilenr."; "Part"; "col_0"] in
  let desc := first_of row ["Bezeichnung"; "Beschreibung"; "Description"; "col_1"] in
  qty ← _to_float_de (Some (first_of row ["Menge"; "Qty"; "col_2"]));
  let status := first_of row ["Status"; "col_3"] in
  let delivery_date := first_of row ["Lieferdatum"; "Geliefert"; "Delivery"] in
  let eta := first_of row ["ETA"; "Liefertermin"] in
  if Str.is_empty part_no && Str.is_empty desc then Ok None else
  dd ← _parse_german_date_or_datetime delivery_date;
  de ← _parse_german_date_or_datetime eta;
  Ok (Some {|
    Part.part_no := part_no;
    Part.description := desc;
    Part.lead_no := "";
    Part.order_no := "";
    Part.row_id := Some "";
    Part.part_id := Some "";
    Part.qty := qty;
    Part.price_each := None;
    Part.price_total := None;
    Part.status := status;
    Part.status_code := "";
    Part.status_icon := "";
    Part.order_date := "";
    Part.delivery_date := or_s dd.1 delivery_date;
    Part.eta_date := or_s de.1 eta;
    Part.is_missing := Search.search_any generic_missing_alts status;
    Part.is_to_order := false;
    Part.is_ordered := false;
    Part.is_delivered := false;
    Part.is_backorder := false;
    Part.is_mandatory := false;
    Part.is_price_checked := false;
    Part.raw := JObj (prod_map id JStr <$> row) |}).

(** The part of one bare [data-part...] attribute. *)
Definition attr_part (value : string) : Part.t :=
  {| Part.part_no := value;
     Part.description := "";
     Part.lead_no := "";
     Part.order_no := "";
     Part.row_id := Some "";
     Part.part_id := Some "";
     Part.qty := None;
     Part.price_each := None;
     Part.price_total := None;
     Part.status := "";
     Part.status_code := "";
     Part.status_icon := "";
     Part.order_date := "";
     Part.delivery_date := "";
     Part.eta_date := "";
     Part.is_missing := false;
     Part.is_to_order := false;
     Part.is_ordered := false;
     Part.is_delivered := false;
     Part.is_backorder := false;
     Part.is_mandatory := false;
     Part.is_price_checked := false;
     Part.raw := JObj [] |}.

(** [for p in parts: if key not in uniq: uniq[key] = p] *)
Definition uniq_first (parts : list Part.t) : dict (string * string) Part.t :=
  foldl (fun uniq p =>
           if PyDict.mem (Part.key p) uniq then uniq
           else PyDict.set (Part.key p) p uniq)
        [] parts.

(** [{key(p): p for p in parts}] *)
Definition uniq_comprehension (parts : list Part.t) : dict (string * string) Part.t :=
  foldl (fun uniq p => PyDict.set (Part.key p) p uniq) [] parts.

(** [parts] of step 2: the rows of every table, through [generic_part] *)
Definition generic_parts (tables : list (list string * list (list string)))
  : res (list Part.t) :=
  foldl (fun acc '(headers, rows) =>
           foldl (fun acc vals =>
                    parts ← acc;
                    if bool_decide (vals = []) then Ok parts else
                    p ← generic_part (table_row headers vals);
                    Ok (parts ++ option_list p))
                 acc rows)
        (Ok []) tables.

(** Returns (parts_list, meta). *)
Definition _parse_parts_from_html (v : parts_view)
  : res (list Part.t * dict string string) :=
  let meta := table_meta v in
  (* 1) PlanSo parts table *)
  let parts := table_parts v in
  if negb (bool_decide (parts = [])) then
    Ok (PyDict.values (uniq_first parts), meta)
  else
  (* 2) Generic table parsing *)
  parts ← (if bs4 v then generic_parts (tables v) else Ok []);
  (* 3) Regex pattern: data attributes only *)
  let parts :=
    if bool_decide (parts = []) then attr_part <$> attr_hits v else parts in
  Ok (PyDict.values (uniq_comprehension parts), meta).

(** The first and the last part of a list with a given key. *)
Definition first_with_key (k : string * string) (parts : list Part.t) : option Part.t :=
  find (fun p => bool_decide (Part.key p = k)) parts.

Definition last_with_key (k : string * string) (parts : list Part.t) : option Part.t :=
  first_with_key k (reverse parts).

(** A generic table with two rows for the part A1 / Door: delivered in the
    first row, missing in the second. *)
Definition two_rows_same_part : parts_view :=
  {| bs4 := true;
     table_parts := [];
     table_meta := [];
     tables := [ (["Teilenummer"; "Bezeichnung"; "Menge"; "Status"],
                  [ ["A1"; "Door"; "1,0"; "geliefert"];
                    ["A1"; "Door"; "2,0"; "fehlt"] ]) ];
     attr_hits := [] |}.

(** ** Persistence layer

    Each table is a finite map from its primary key to its row, which is what
    [PRIMARY KEY], [INSERT OR REPLACE] and [ON CONFLICT ... DO UPDATE] make
    of it. *)

Module Db.

(** A row of [parts]: the 24 values bound by [db_replace_parts]. *)
Record parts_row : Type := mk_parts_row {
  order_id : Z;
  part_no : string;
  description : string;
  lead_no : string;
  order_no : string;
  row_id : option string;
  part_id : option string;
  qty : option pyfloat;
  price_each : option pyfloat;
  price_total : option pyfloat;
  status : string;
  status_code : string;
  status_icon : string;
  order_date : string;
  delivery_date : string;
  eta_date : string;
  is_missing : Z;
  is_to_order : Z;
  is_ordered : Z;
  is_delivered : Z;
  is_backorder : Z;
  is_mandatory : Z;
  is_price_checked : Z;
  raw_json : string
}.

(** A row of [order_sections]. *)
Record section_row : Type := mk_section_row {
  s_order_id : Z;
  s_section : string;
  s_content_type : string;
  s_raw_text : string;
  s_data_json : string;
  s_last_synced_at : string
}.

Record t : Type := mk {
  orders : gmap Z Order.t;
  employees : gmap string string;
  parts : gmap (Z * string * string) parts_row;
  order_sections : gmap (Z * string) section_row
}.

Definition empty : t := mk ∅ ∅ ∅ ∅.

End Db.

(** One section as [_build_section_payload] returns it. *)
Record section_payload : Type := {
  content_type : string;
  raw_text : string;
  data_json : json
}.

(** [bool(v)] of a decoded JSON value *)
Definition json_truthy (v : json) : bool :=
  match v with
  | JNull => false
  | JBool b => b
  | JNum z => negb (Z.eqb z 0)
  | JStr s => negb (Str.is_empty s)
  | JArr l => negb (bool_decide (length l = 0%nat))
  | JObj l => negb (bool_decide (length l = 0%nat))
  end.

Section Persistence.

(** [json.dumps(v, ensure_ascii=False)] *)
Variable json_dumps : json → string.

Definition db_upsert_order (con : Db.t) (row : Order.t) : Db.t :=
  Db.mk (<[Order.id row := row]> (Db.orders con))
        (Db.employees con) (Db.parts con) (Db.order_sections con).

Definition db_upsert_employees (con : Db.t) (emp : dict string string) : Db.t :=
  Db.mk (Db.orders con)
        (foldl (fun tbl '(k, v) => <[k := v]> tbl) (Db.employees con) emp)
        (Db.parts con) (Db.order_sections con).

(** The values bound for one part. *)
Definition parts_row_of (order_id : Z) (p : Part.t) : Db.parts_row :=
  {| Db.order_id := order_id;
     Db.part_no := Part.part_no p;
     Db.description := Part.description p;
     Db.lead_no := Part.lead_no p;
     Db.order_no := Part.order_no p;
     Db.row_id := Part.row_id p;
     Db.part_id := Part.part_id p;
     Db.qty := Part.qty p;
     Db.price_each := Part.price_each p;
     Db.price_total := Part.price_total p;
     Db.status := Part.status p;
     Db.status_code := Part.status_code p;
     Db.status_icon := Part.status_icon p;
     Db.order_date := Part.order_date p;
     Db.delivery_date := Part.delivery_date p;
     Db.eta_date := Part.eta_date p;
     Db.is_missing := Z.b2z (Part.is_missing p);
     Db.is_to_order := Z.b2z (Part.is_to_order p);
     Db.is_ordered := Z.b2z (Part.is_ordered p);
     Db.is_delivered := Z.b2z (Part.is_delivered p);
     Db.is_backorder := Z.b2z (Part.is_backorder p);
     Db.is_mandatory := Z.b2z (Part.is_mandatory p);
     Db.is_price_checked := Z.b2z (Part.is_price_checked p);
     Db.raw_json := json_dumps (Part.raw p) |}.

(** [DELETE FROM parts WHERE order_id=?] *)
Definition delete_parts_of (order_id : Z)
    (tbl : gmap (Z * string * string) Db.parts_row)
  : gmap (Z * string * string) Db.parts_row :=
  filter (fun kv => kv.1.1.1 ≠ order_id) tbl.

(** [INSERT OR REPLACE INTO parts(...)], one part after the other *)
Definition insert_parts (order_id : Z) (parts : list Part.t)
    (tbl : gmap (Z * string * string) Db.parts_row)
  : gmap (Z * string * string) Db.parts_row :=
  foldl (fun tbl p =>
           <[(order_id, Part.part_no p, Part.description p)
               := parts_row_of order_id p]> tbl)
        tbl parts.

Definition db_replace_parts (con : Db.t) (order_id : Z) (parts : list Part.t) : Db.t :=
  Db.mk (Db.orders con) (Db.employees con)
        (insert_parts order_id parts (delete_parts_of order_id (Db.parts con)))
        (Db.order_sections con).

Definition section_row_of (now : string) (order_id : Z) (name : string)
    (payload : section_payload) : Db.section_row :=
  {| Db.s_order_id := order_id;
     Db.s_section := name;
     Db.s_content_type := content_type payload;
     Db.s_raw_text := raw_text payload;
     Db.s_data_json :=
       json_dumps (if json_truthy (data_json payload) then data_json payload
                   else JObj []);
     Db.s_last_synced_at := now |}.

(** [INSERT OR REPLACE INTO order_sections(...)] for every section; [now] is
    the reading of the clock. *)
Definition db_upsert_sections (now : string) (con : Db.t) (order_id : Z)
    (sections : dict string section_payload) : Db.t :=
  Db.mk (Db.orders con) (Db.employees con) (Db.parts con)
        (foldl (fun tbl '(name, payload) =>
                  <[(order_id, name) := section_row_of now order_id name payload]> tbl)
               (Db.order_sections con) sections).

End Persistence.

(** ** Sync orchestrator *)

(** What [sync_one] returns on success. *)
Record sync_ok : Type := {
  r_row : Order.t;
  r_emp_map : dict string string;
  r_parts_list : list Part.t;
  r_sections : dict string section_payload;
  r_warn : string
}.

(** The result of [sync_one]: [{"ok": True, ...}] or [{"ok": False, ...}]. *)
Inductive sync_result : Type :=
  | SyncOk (pid : Z) (short_name : string) (r : sync_ok)
  | SyncFail (pid : Z) (short_name : string) (error : exn).

(** The command line of [sync]. *)
Record sync_args : Type := {
  with_parts : bool;
  full : bool;
  include_binary : bool;
  jobs : Z
}.

(** What lies outside the tool: the remote application behind the session,
    the scan of the markup it returns, and the serialiser. A fetch raises on
    a transport error, on a status other than 200 and on a reply that is not
    a JSON object. *)
Record world : Type := {
  fetch_project_stations : res (list (dict string pyval));
  fetch_shop_view_single : Z → res json;
  fetch_visual_forms_plain : Z → res json;
  fetch_parts_deep :
    Z → res (string * list Part.t * dict string string * option json);
  fetch_order_sections :
    Z → string → dict string json → bool → res (dict string section_payload);
  (** [extract_employee_map_from_html] on the center content of a reply *)
  employee_map_of : json → res (dict string string);
  (** what the scan of the form fragment in the center content of a reply
      yields; [ReError msg] stands for an [re.error] whose [str()] is [msg] *)
  label_hits_of : json → res (list label_hit);
  bs4_available : bool;
  dumps_fields : dict string string → string;
  dumps_json : json → string
}.

Section Sync.

Variable w : world.
Variable args : sync_args.

(** The body of the [try] of [sync_one]. *)
Definition sync_one_body (now : string) (proj : dict string pyval) (pid : Z)
  : res sync_ok :=
  sv ← fetch_shop_view_single w pid;
  emp_map ← employee_map_of w sv;
  vf ← fetch_visual_forms_plain w pid;
  '(fields, warn) ←
    try_except
      (hits ← label_hits_of w vf;
       Ok (parse_visual_forms_plain_fields (bs4_available w) hits, ""))
      (fun e => match e with
                | ReError msg =>
                    Ok ([], "regex parse error in visual_forms_plain: " +:+ msg)
                | _ => Raise e
                end);
  '(parts_status, parts_list, parts_meta, parts_payload) ←
    (if with_parts args || full args then fetch_parts_deep w pid
     else Ok ("", [], [], None));
  row ← build_order_row (dumps_fields w) now proj fields parts_status
          (Some parts_list) (Some parts_meta);
  sections ←
    (if full args then
       let prefetched :=
         [("shop_view_single", sv); ("visual_forms_plain", vf)]
         ++ match parts_payload with
            | Some pp => [("parts", pp)]
            | None => []
            end in
       fetch_order_sections w pid
         (if Str.is_empty (Order.shop_date row) then Order.repair_date row
          else Order.shop_date row)
         prefetched (include_binary args)
     else Ok []);
  Ok {| r_row := row; r_emp_map := emp_map; r_parts_list := parts_list;
        r_sections := sections; r_warn := warn |}.

(** [pid] is converted outside the [try]. *)
Definition sync_one (now : string) (proj : dict string pyval) : res sync_result :=
  pid ← Py.int (jget "ID" proj);
  let short_name := Py.str (default (VStr "") (PyDict.get "short_name" proj)) in
  try_except
    (r ← sync_one_body now proj pid; Ok (SyncOk pid short_name r))
    (fun e => Ok (SyncFail pid short_name e)).

(** The state of the loop of [cmd_sync]: the store and the two counters. *)
Record sync_state : Type := {
  con : Db.t;
  ok : nat;
  fail : nat
}.

(** One result applied to the store and the counters.  The writes are those
    of SQLite on a row that is [storable]; they stand outside the [try] of
    [sync_one]. *)
Definition apply_result (now : string) (st : sync_state) (result : sync_result)
  : sync_state :=
  match result with
  | SyncOk pid _ r =>
      let con := con st in
      let con :=
        if bool_decide (r_emp_map r = []) then con
        else db_upsert_employees con (r_emp_map r) in
      let con :=
        if bool_decide (r_parts_list r = []) then con
        else db_replace_parts (dumps_json w) con pid (r_parts_list r) in
      let con :=
        if bool_decide (r_sections r = []) then con
        else db_upsert_sections (dumps_json w) now con pid (r_sections r) in
      let con := db_upsert_order con (r_row r) in
      {| con := con; ok := S (ok st); fail := fail st |}
  | SyncFail _ _ _ =>
      {| con := con st; ok := ok st; fail := S (fail st) |}
  end.

(** The records in the order their results are applied: submission order
    with one job, completion order with more. *)
Definition applied_order (projects completion : list (dict string pyval))
  : list (dict string pyval) :=
  if (jobs args <=? 1)%Z then projects else completion.

Definition sync_loop (now : string) (order : list (dict string pyval))
    (st : sync_state) : res sync_state :=
  foldl (fun acc p =>
           st ← acc;
           result ← sync_one now p;
           Ok (apply_result now st result))
        (Ok st) order.

(** Returns the final state and the exit code. [completion] is the order in
    which the workers finish. *)
Definition cmd_sync (now : string) (db : Db.t)
    (completion : list (dict string pyval)) : res (sync_state * Z) :=
  projects ← fetch_project_stations w;
  st ← sync_loop now (applied_order projects completion)
         {| con := db; ok := 0; fail := 0 |};
  Ok (st, if bool_decide (fail st = 0%nat) then 0%Z else 1%Z).

End Sync.

(** Two results of [sync_one] drawn from the same source data: the same
    order id, employees and parts, and the same section names. The clock
    readings they carry may differ. *)
Definition same_source (r1 r2 : sync_ok) : Prop :=
  Order.id (r_row r1) = Order.id (r_row r2) ∧
  r_emp_map r1 = r_emp_map r2 ∧
  r_parts_list r1 = r_parts_list r2 ∧
  PyDict.keys (r_sections r1) = PyDict.keys (r_sections r2).

(** ** A small remote application

    Three orders; the shop view of order 2 answers with a server error. *)

Definition demo_project (pid : Z) (name : string) : dict string pyval :=
  [("ID", VInt pid); ("short_name", VStr name); ("station", VStr "2@active")].

Definition demo_section : section_payload :=
  {| content_type := "application/json"; raw_text := "{}"; data_json := JObj [] |}.

Definition demo_world : world :=
  {| fetch_project_stations :=
       Ok [demo_project 1 "BB-SK 2307"; demo_project 2 "S-XY 12";
           demo_project 3 "M-AB 4711"];
     fetch_shop_view_single := fun pid =>
       if (pid =? 2)%Z then Raise (RuntimeError "shop_view_single HTTP 500")
       else Ok (JObj []);
     fetch_visual_forms_plain := fun _ => Ok (JObj []);
     fetch_parts_deep := fun _ => Ok ("", [attr_part "A1"], [], None);
     fetch_order_sections := fun _ _ _ _ => Ok [("parts", demo_section)];
     employee_map_of := fun _ => Ok [("166", "phika")];
     label_hits_of := fun _ => Ok [("Halter", "Erika")];
     bs4_available := true;
     dumps_fields := fun _ => "{}";
     dumps_json := fun _ => "{}" |}.

Definition demo_args : sync_args :=
  {| with_parts := true; full := true; include_binary := false; jobs := 1 |}.

(** [parts_status or visual_fields.get("E-Teile Status") or ""] *)
Definition final_parts_status (vf : dict string string) (ps : string) : string :=
  if Str.is_empty ps then sget_or "E-Teile Status" vf "" else ps.

Definition is_ok (result : sync_result) : bool :=
  match result with SyncOk _ _ _ => true | SyncFail _ _ _ => false end.

(** The row of a successful result carries the id of the result. *)
Definition well_keyed (result : sync_result) : Prop :=
  match result with
  | SyncOk pid _ r => Order.id (r_row r) = pid
  | SyncFail _ _ _ => True
  end.

(** ** Query engine *)

Module Tokens.

(** The scan of [re.findall(r"[A-Za-z0-9]+(?:-[A-Za-z0-9]+)*", raw)]: outside
    a token, inside one (with the text matched so far), or inside one and
    just past a hyphen that belongs to it only if a letter or digit
    follows. *)
Inductive state : Type :=
  | Idle
  | InTok (acc : string)
  | Hyph (acc : string).

Definition snoc (acc : string) (c : ascii) : string :=
  acc +:+ String c EmptyString.

Fixpoint scan (st : state) (s : string) : list string :=
  match s with
  | EmptyString =>
      match st with
      | Idle => []
      | InTok acc => [acc]
      | Hyph acc => [acc]
      end
  | String c s' =>
      match st with
      | Idle =>
          if Chr.is_alnum c then scan (InTok (String c EmptyString)) s'
          else scan Idle s'
      | InTok acc =>
          if Chr.is_alnum c then scan (InTok (snoc acc c)) s'
          else if Ascii.eqb c "-" then scan (Hyph acc) s'
          else acc :: scan Idle s'
      | Hyph acc =>
          if Chr.is_alnum c then scan (InTok (snoc (snoc acc "-") c)) s'
          else acc :: scan Idle s'
      end
  end.

Definition findall (raw : string) : list string := scan Idle raw.

(** [f'"{tok}"'] *)
Definition quote (tok : string) : string :=
  String "034" tok +:+ String "034" EmptyString.

(** [" AND ".join([f'"{tok}"' for tok in tokens])] *)
Definition fts_query (tokens : list string) : string :=
  String.concat " AND " (quote <$> tokens).

(** A character of a token: a letter, a digit or a hyphen. *)
Definition token_char (c : ascii) : bool := Chr.is_alnum c || Ascii.eqb c "-".

(** [t] occurs in [s] as it is. *)
Definition occurs_in (t s : string) : Prop :=
  ∃ before after, s = before +:+ t +:+ after.

End Tokens.

(** A value bound to a [?] of a statement. *)
Inductive sqlval : Type :=
  | SText (s : string)
  | SInt (z : Z).

(** The command line of [query]. *)
Record query_args : Type := {
  q_text : option string;
  q_plate : option string;
  q_person : option string;
  q_phone : option string;
  q_email : option string;
  q_status : option string;
  q_damage : option string;
  q_station : option Z;
  q_missing_parts : bool;
  q_after : option string;
  q_before : option string;
  q_finish_after : option string;
  q_finish_before : option string;
  q_limit : Z
}.

(** The store behind the connection: the full-text index, which answers
    [SELECT rowid FROM orders_fts WHERE orders_fts MATCH ? LIMIT 200] or
    raises, and the final [SELECT] over [orders]. *)
Record sql_backend : Type := {
  fts_match : string → res (list Z);
  execute : string → list sqlval → list Order.t
}.

(** The clauses and their parameters, as [cmd_query] collects them. *)
Definition filters : Type := list string * list sqlval.

(** [if val: where.append(f"{col} LIKE ?"); params.append(f"%{val}%")] *)
Definition like (col : string) (val : option string) (f : filters) : filters :=
  match val with
  | Some v =>
      if Str.is_empty v then f
      else (f.1 ++ [col +:+ " LIKE ?"], f.2 ++ [SText ("%" +:+ v +:+ "%")])
  | None => f
  end.

(** [if val: where.append(cond); params.append(val)] *)
Definition bound (cond : string) (val : option string) (f : filters) : filters :=
  match val with
  | Some v => if Str.is_empty v then f else (f.1 ++ [cond], f.2 ++ [SText v])
  | None => f
  end.

Definition structured_filters (a : query_args) : filters :=
  let f : filters := ([], []) in
  let f := like "plate" (q_plate a) f in
  let f := like "person" (q_person a) f in
  let f := like "phone" (q_phone a) f in
  let f := like "email" (q_email a) f in
  let f := like "project_status" (q_status a) f in
  let f := like "damage" (q_damage a) f in
  let f := match q_station a with
           | Some z => (f.1 ++ ["station_id = ?"], f.2 ++ [SInt z])
           | None => f
           end in
  let f := if q_missing_parts a then (f.1 ++ ["missing_parts = 1"], f.2) else f in
  let f := bound "shop_date >= ?" (q_after a) f in
  let f := bound "shop_date <= ?" (q_before a) f in
  let f := bound "finish_date >= ?" (q_finish_after a) f in
  let f := bound "finish_date <= ?" (q_finish_before a) f in
  f.

Definition like_fallback_clause : string :=
  "(short_name LIKE ? OR plate LIKE ? OR person LIKE ? OR phone LIKE ? OR email LIKE ?)".

(** The fallback: a LIKE scan of the raw text over five columns. *)
Definition like_fallback (raw : string) (f : filters) : filters :=
  (f.1 ++ [like_fallback_clause],
   f.2 ++ replicate 5 (SText ("%" +:+ raw +:+ "%"))).

(** [f"id IN ({','.join(['?'] * len(fts_rows))})"] *)
Definition id_in_clause (n : nat) : string :=
  "id IN (" +:+ String.concat "," (replicate n "?") +:+ ")".

(** The free-text part of [cmd_query]: the rows of the index, if it was
    asked and answered, and the filters after the fallback. *)
Definition free_text (b : sql_backend) (text : option string) (f : filters)
  : res (option (list Z) * filters) :=
  match text with
  | Some t =>
      if Str.is_empty t then Ok (None, f) else
      let raw := Str.strip t in
      let tokens := Tokens.findall raw in
      fts_rows ←
        (if bool_decide (tokens = []) then Ok None
         else
           try_except
             (rows ← fts_match b (Tokens.fts_query tokens); Ok (Some rows))
             (fun e => match e with
                       | OperationalError => Ok None
                       | _ => Raise e
                       end));
      if bool_decide (tokens = []) || bool_decide (fts_rows = Some [])
         || bool_decide (fts_rows = None)
      then Ok (fts_rows, like_fallback raw f)
      else Ok (fts_rows, f)
  | None => Ok (None, f)
  end.

(** The final [SELECT] over the clauses [f]: the statement, its parameters,
    and the rows it gets. *)
Definition select_orders (b : sql_backend) (a : query_args) (f : filters)
  : string * list sqlval * list Order.t :=
  let sql := "SELECT * FROM orders" in
  let sql :=
    if bool_decide (f.1 = []) then sql
    else sql +:+ " WHERE " +:+ String.concat " AND " f.1 in
  let sql := sql +:+ " ORDER BY shop_date DESC, id DESC LIMIT ?" in
  let params := f.2 ++ [SInt (q_limit a)] in
  (sql, params, execute b sql params).

(** [if fts_rows is not None and fts_rows: where.append("id IN (...)")] *)
Definition restrict_ids (fts_rows : option (list Z)) (f : filters) : filters :=
  match fts_rows with
  | Some (id :: ids) =>
      (f.1 ++ [id_in_clause (length (id :: ids))], f.2 ++ (SInt <$> (id :: ids)))
  | _ => f
  end.

Definition cmd_query (b : sql_backend) (a : query_args)
  : res (string * list sqlval * list Order.t) :=
  '(fts_rows, f) ← free_text b (q_text a) (structured_filters a);
  Ok (select_orders b a (restrict_ids fts_rows f)).

(** An order row, and a free-text query for a text. *)
Definition demo_row : Order.t :=
  {| Order.id := 1;
     Order.short_name := "BB-SK 2307";
     Order.plate := "BB-SK 2307";
     Order.person := "Erika";
     Order.phone := "";
     Order.email := "";
     Order.damage := "";
     Order.project_status := "Karo";
     Order.station_id := Some 2%Z;
     Order.station_state := Some "active";
     Order.shop_date := "2025-12-16";
     Order.repair_date := "";
     Order.finish_date := "";
     Order.planned_delivery_date := "";
     Order.parts_status := "";
     Order.missing_parts := 0;
     Order.est_hours_karo := None;
     Order.est_hours_lack := None;
     Order.est_hours_mech := None;
     Order.fields_json := "{}";
     Order.vehicle_json := "{}";
     Order.last_synced_at := "2025-12-16T12:08:59" |}.

Definition demo_query (text : string) : query_args :=
  {| q_text := Some text; q_plate := None; q_person := None; q_phone := None;
     q_email := None; q_status := None; q_damage := None; q_station := None;
     q_missing_parts := false; q_after := None; q_before := None;
     q_finish_after := None; q_finish_before := None; q_limit := 200 |}.

(** A token: not empty, of letters, digits and hyphens. *)
Definition good_token (tok : string) : Prop :=
  tok ≠ "" ∧ Str.all Tokens.token_char tok = true.

(** The text matched so far in a state of the scan. *)
Definition carried (st : Tokens.state) : string :=
  match st with
  | Tokens.Idle => ""
  | Tokens.InTok acc => acc
  | Tokens.Hyph acc => Tokens.snoc acc "-"
  end.

Definition good_state (st : Tokens.state) : Prop :=
  match st with
  | Tokens.Idle => True
  | Tokens.InTok acc | Tokens.Hyph acc => good_token acc
  end.

(** ** Text clean-up *)

Module Text.

(** [re.sub(r"[...]+", by, s)] for a class [p] of characters: every maximal
    run of characters of the class becomes one [by_]; [in_run] tells that the
    previous character was of the class. *)
Fixpoint collapse_runs (p : ascii → bool) (by_ : ascii) (in_run : bool)
    (s : string) : string :=
  match s with
  | EmptyString => EmptyString
  | String c s' =>
      if p c then
        if in_run then collapse_runs p by_ true s'
        else String by_ (collapse_runs p by_ true s')
      else String c (collapse_runs p by_ false s')
  end.

(** [s.lstrip(chars)], [s.rstrip(chars)] and [s.strip(chars)], the
    characters to strip given by [q] *)
Fixpoint lstrip_by (q : ascii → bool) (s : string) : string :=
  match s with
  | EmptyString => EmptyString
  | String c s' => if q c then lstrip_by q s' else s
  end.

Fixpoint rstrip_by (q : ascii → bool) (s : string) : string :=
  match s with
  | EmptyString => EmptyString
  | String c s' =>
      let r := rstrip_by q s' in
      if q c && Str.is_empty r then EmptyString else String c r
  end.

Definition strip_by (q : ascii → bool) (s : string) : string :=
  rstrip_by q (lstrip_by q s).

(** The characters of [s] that satisfy [p], in their order. *)
Fixpoint keep (p : ascii → bool) (s : string) : string :=
  match s with
  | EmptyString => EmptyString
  | String c s' => if p c then String c (keep p s') else keep p s'
  end.

(** Every character of the class [p] in [s] is a [by_], no two of them are
    adjacent, and with [prev] none stands at the start. *)
Fixpoint tidy (p : ascii → bool) (by_ : ascii) (prev : bool) (s : string) : bool :=
  match s with
  | EmptyString => true
  | String c s' =>
      if p c then Ascii.eqb c by_ && negb prev && tidy p by_ true s'
      else tidy p by_ false s'
  end.

(** [s.split()] for separators of the class [p]: the maximal runs of other
    characters, in their order; [cur] is the run read so far. *)
Fixpoint fields_from (p : ascii → bool) (cur : string) (s : string) : list string :=
  match s with
  | EmptyString => if Str.is_empty cur then [] else [cur]
  | String c s' =>
      if p c then
        if Str.is_empty cur then fields_from p EmptyString s'
        else cur :: fields_from p EmptyString s'
      else fields_from p (cur +:+ String c EmptyString) s'
  end.

Definition fields (p : ascii → bool) (s : string) : list string :=
  fields_from p EmptyString s.

End Text.

Definition _normalize_whitespace (s : string) : string :=
  Str.strip (Text.collapse_runs Chr.is_space " " false s).

(** [[a-z0-9]] *)
Definition slug_char (c : ascii) : bool := Chr.is_lower c || Chr.is_digit c.

Definition _slug (s : string) : string :=
  Text.strip_by (Ascii.eqb "_")
    (Text.collapse_runs (fun c => negb (slug_char c)) "_" false (Str.lower s)).

Definition not_space (c : ascii) : bool := negb (Chr.is_space c).

(** ** Network layer: addresses *)

Record ClientCfg : Type := {
  base_url : string;
  cookie_jar_path : string;
  env_path : string;
  user : option string;
  password : option string;
  timeout : Z
}.

Definition is_absolute_url (path_or_url : string) : bool :=
  Search.prefix "http://" path_or_url || Search.prefix "https://" path_or_url.

Definition _url (cfg : ClientCfg) (path_or_url : string) : string :=
  if is_absolute_url path_or_url then path_or_url
  else Text.rstrip_by (Ascii.eqb "/") (base_url cfg) +:+ "/"
         +:+ Text.lstrip_by (Ascii.eqb "/") path_or_url.

(** [n] times the character [c] *)
Fixpoint repeat_char (c : ascii) (n : nat) : string :=
  match n with
  | O => EmptyString
  | S n' => String c (repeat_char c n')
  end.

(** ** Dates of the section requests *)

Definition _normalize_iso_date (s : string) : res (option string) :=
  if Str.is_empty s then Ok None else
  '(iso, _) ← _parse_german_date_or_datetime s;
  (* iso or (s if re.fullmatch(r"\d{4}-\d{2}-\d{2}", s.strip()) else None) *)
  let rest := if match_iso_date (Str.strip s) then Some s else None in
  Ok (match iso with
      | Some i => if Str.is_empty i then rest else Some i
      | None => rest
      end).

(** [_dt.date.fromisoformat] on the text of an ISO date, [YYYY-MM-DD]: the
    three numbers, checked against the calendar.  Its only caller passes a
    result of [_normalize_iso_date], which has this shape up to whitespace
    around it; a text with such whitespace is refused. *)
Definition date_fromisoformat (s : string) : res Date.date :=
  if match_iso_date s then
    Date.make (Str.digits_val (String.substring 0 4 s))
              (Str.digits_val (String.substring 5 2 s))
              (Str.digits_val (String.substring 8 2 s))
  else Raise ValueError.

(** The day after [d]; there is none after 9999-12-31. *)
Definition next_day (d : Date.date) : option Date.date :=
  let '(Date.mk y m dd) := d in
  if (dd <? Date.days_in_month y m)%N then Some (Date.mk y m (dd + 1))
  else if (m <? 12)%N then Some (Date.mk y (m + 1) 1)
  else if (y <? 9999)%N then Some (Date.mk (y + 1) 1 1)
  else None.

(** [d + timedelta(days=n)] *)
Fixpoint add_days (n : nat) (d : Date.date) : option Date.date :=
  match n with
  | O => Some d
  | S n' => d' ← next_day d; add_days n' d'
  end.

(** Python's [OverflowError] on a date past the year 9999. *)
Definition overflow_error : exn := RuntimeError "OverflowError: date value out of range".

Definition _month_range (iso_date : string) : res (string * string) :=
  d ← date_fromisoformat iso_date;
  (* d.replace(day=1) *)
  let start := Date.mk (Date.year d) (Date.month d) 1 in
  match add_days 32 start with
  | Some later =>
      let next_month := Date.mk (Date.year later) (Date.month later) 1 in
      Ok (Date.isoformat start, Date.isoformat next_month)
  | None => Raise overflow_error
  end.

(** The first day of the month after the month [m] of the year [y]. *)
Definition first_of_next_month (y m : N) : Date.date :=
  if (m =? 12)%N then Date.mk (y + 1) 1 1 else Date.mk y (m + 1) 1.

(** ** The station token *)

(** [<digits>@<letters or underscores>] *)
Definition station_form (t ds w : string) : Prop :=
  ds ≠ "" ∧ Str.all Chr.is_digit ds = true ∧
  w ≠ "" ∧ Str.all (fun c => Chr.is_alpha c || Ascii.eqb c "_") w = true ∧
  t = ds +:+ "@" +:+ w.

(** ** The rows of the parts table *)

(** [all(x in h2 for x in inc) and all(x not in h2 for x in exc)] for the
    lower-cased header [h]; the case folding is that of the keyword search. *)
Definition header_matches (inc exc : list string) (h : string) : bool :=
  let h2 := Search.fold_case h in
  forallb (fun x => Search.contains x h2) inc
  && forallb (fun x => negb (Search.contains x h2)) exc.

(** The loop of [_header_index], from the index [i] on. *)
Fixpoint header_index_from (i : nat) (headers : list string)
    (inc exc : list string) : option nat :=
  match headers with
  | [] => None
  | h :: headers' =>
      if header_matches inc exc h then Some i
      else header_index_from (S i) headers' inc exc
  end.

Definition _header_index (headers : list string) (include exclude : list string)
  : option nat :=
  header_index_from 0 headers
    (Search.fold_case <$> include) (Search.fold_case <$> exclude).

(** [vals[idx] if idx is not None and idx < len(vals) else dflt] *)
Definition cell_at {A : Type} (idx : option nat) (vals : list A) (dflt : A) : A :=
  match idx with
  | Some i => default dflt (vals !! i)
  | None => dflt
  end.

(** One cell of a row: its text (tags stripped, whitespace normalised), its
    [data-prtnumber] attribute, and the two dates that
    [_parse_parts_date_values] reads from it. *)
Record cell : Type := {
  c_text : string;
  c_prtnumber : option string;
  c_dates : string * string
}.

(** One row of class [parts_single_row], as the scan finds it: its cells,
    the check boxes of class [spare_part_status] by action, the title of the
    status icon, the [data-status] attribute, both normalised, and the
    [data-] attributes of the row. *)
Record row_scan : Type := {
  row_cells : list cell;
  row_status_flags : dict string bool;
  row_status_icon : string;
  row_status_code : string;
  row_attrs : dict string string
}.

(** [bool(status_flags.get(action))] *)
Definition status_flag (status_flags : dict string bool) (action : string) : bool :=
  default false (PyDict.get action status_flags).

Definition row_missing_alts : list Search.alt :=
  [ Search.Lit "offen"; Search.Lit "fehlt"; Search.Lit "rückstand";
    Search.Lit "backorder" ].

(** The missing flag of a row, from its check boxes and its status text. *)
Definition row_is_missing (status_flags : dict string bool) (status_text : string)
  : bool :=
  let is_to_order := status_flag status_flags "order_parts" in
  let is_ordered := status_flag status_flags "bestellt" in
  let is_delivered := status_flag status_flags "delivered" in
  let is_backorder := status_flag status_flags "ruckstand" in
  let is_missing :=
    is_backorder || (negb is_delivered && (is_to_order || is_ordered)) in
  let is_missing :=
    if negb is_missing && Search.search_any row_missing_alts status_text
    then true else is_missing in
  let is_missing :=
    if is_delivered && negb is_backorder then false else is_missing in
  is_missing.

(** The column positions read from the headers of the table. *)
Record columns : Type := {
  idx_desc : option nat;
  idx_part_no : option nat;
  idx_lead_no : option nat;
  idx_price_each : option nat;
  idx_qty : option nat;
  idx_total : option nat;
  idx_date : option nat;
  idx_order_no : option nat
}.

Definition columns_of (headers : list string) : columns :=
  {| idx_desc := _header_index headers ["teil"] ["teile nr"];
     idx_part_no := _header_index headers ["teile"; "nr"] [];
     idx_lead_no := _header_index headers ["leit"; "nr"] [];
     idx_price_each := _header_index headers ["e.preis"] [];
     idx_qty := _header_index headers ["menge"] [];
     idx_total := _header_index headers ["g.preis"] [];
     idx_date := _header_index headers ["datum"] [];
     idx_order_no := _header_index headers ["a.nummer"] [] |}.

(** [_to_float_de(vals[idx]) if idx is not None and idx < len(vals) else None] *)
Definition float_at (idx : option nat) (vals : list string) : res (option pyfloat) :=
  match idx with
  | Some i =>
      match vals !! i with
      | Some v => _to_float_de (Some v)
      | None => Ok None
      end
  | None => Ok None
  end.

(** The part of one row of the parts table. *)
Definition table_part (headers : list string) (row : row_scan) : res Part.t :=
  let cols := columns_of headers in
  let tds := row_cells row in
  let vals := c_text <$> tds in
  let desc := cell_at (idx_desc cols) vals "" in
  let part_no :=
    match cell_at (idx_part_no cols) (Some <$> tds) None with
    | Some part_no_cell => or_s (c_prtnumber part_no_cell) (c_text part_no_cell)
    | None => ""
    end in
  let lead_no := cell_at (idx_lead_no cols) vals "" in
  qty ← float_at (idx_qty cols) vals;
  price_each ← float_at (idx_price_each cols) vals;
  price_total ← float_at (idx_total cols) vals;
  let order_no := cell_at (idx_order_no cols) vals "" in
  let '(order_date, delivery_date) :=
    cell_at (idx_date cols) (c_dates <$> tds) ("", "") in
  let status_flags := row_status_flags row in
  let status_icon := row_status_icon row in
  let status_code := row_status_code row in
  let status_text := if Str.is_empty status_icon then status_code else status_icon in
  Ok {| Part.part_no := part_no;
        Part.description := desc;
        Part.lead_no := lead_no;
        Part.order_no := order_no;
        Part.row_id := PyDict.get "data-id" (row_attrs row);
        Part.part_id := PyDict.get "data-partid" (row_attrs row);
        Part.qty := qty;
        Part.price_each := price_each;
        Part.price_total := price_total;
        Part.status := status_text;
        Part.status_code := status_code;
        Part.status_icon := status_icon;
        Part.order_date := order_date;
        Part.delivery_date := delivery_date;
        Part.eta_date := "";
        Part.is_missing := row_is_missing status_flags status_text;
        Part.is_to_order := status_flag status_flags "order_parts";
        Part.is_ordered := status_flag status_flags "bestellt";
        Part.is_delivered := status_flag status_flags "delivered";
        Part.is_backorder := status_flag status_flags "ruckstand";
        Part.is_mandatory := status_flag status_flags "mandatory";
        Part.is_price_checked := status_flag status_flags "price_checked";
        Part.raw :=
          JObj [ ("headers", JArr (JStr <$> headers));
                 ("row_attrs", JObj (prod_map id JStr <$> row_attrs row));
                 ("status_flags", JObj (prod_map id JBool <$> status_flags));
                 ("values", JArr (JStr <$> vals)) ] |}.

(** The rows of the parts table, those without cells skipped. *)
Definition table_parts_of (headers : list string) (rows : list row_scan)
  : res (list Part.t) :=
  foldl (fun acc row =>
           parts ← acc;
           if bool_decide (row_cells row = []) then Ok parts else
           p ← table_part headers row;
           Ok (parts ++ [p]))
        (Ok []) rows.

(** The row has no cell in the column [idx], or the headers name no such
    column. *)
Definition no_cell (idx : option nat) (row : row_scan) : Prop :=
  match idx with
  | Some i => (length (row_cells row) ≤ i)%nat
  | None => True
  end.

(** A row of two cells: delivered and ordered, with the status icon
    "offen". *)
Definition demo_row_scan : row_scan :=
  {| row_cells :=
       [ {| c_text := "Tür"; c_prtnumber := None; c_dates := ("", "") |};
         {| c_text := "A1"; c_prtnumber := Some "A 1"; c_dates := ("", "") |} ];
     row_status_flags := [("delivered", true); ("bestellt", true)];
     row_status_icon := "offen";
     row_status_code := "";
     row_attrs := [("data-id", "7")] |}.

(** ** Command line: the global options *)

Definition GLOBAL_FLAGS : list string :=
  ["--base-url"; "--cookie-jar"; "--env"; "--user"; "--password"; "--timeout"].

(** How [_extract_global_args] can end without a result: [SystemExit], or an
    exception of [int()]. *)
Inductive cli_exit : Type :=
  | SystemExit (msg : string)
  | Uncaught (e : exn).

(** The [while] loop of [_extract_global_args] on the arguments not yet
    read, with the options [g] and the other arguments [rest] found so
    far. *)
Fixpoint extract_global_loop (argv : list string) (g : dict string pyval)
    (rest : list string) : cli_exit + (dict string pyval * list string) :=
  match argv with
  | [] => inr (g, rest)
  | a :: argv' =>
      if bool_decide (a ∈ GLOBAL_FLAGS) then
        match argv' with
        | [] => inl (SystemExit ("Missing value for " +:+ a))
        | val :: argv'' =>
            if String.eqb a "--base-url" then
              extract_global_loop argv'' (PyDict.set "base_url" (VStr val) g) rest
            else if String.eqb a "--cookie-jar" then
              extract_global_loop argv'' (PyDict.set "cookie_jar" (VStr val) g) rest
            else if String.eqb a "--env" then
              extract_global_loop argv'' (PyDict.set "env" (VStr val) g) rest
            else if String.eqb a "--user" then
              extract_global_loop argv'' (PyDict.set "user" (VStr val) g) rest
            else if String.eqb a "--password" then
              extract_global_loop argv'' (PyDict.set "password" (VStr val) g) rest
            else if String.eqb a "--timeout" then
              match Py.int_of_string val with
              | Ok z =>
                  extract_global_loop argv'' (PyDict.set "timeout" (VInt z) g) rest
              | Raise e => inl (Uncaught e)
              end
            else extract_global_loop argv'' g rest
        end
      else extract_global_loop argv' g (rest ++ [a])
  end.

Definition _extract_global_args (argv : list string)
  : cli_exit + (dict string pyval * list string) :=
  extract_global_loop argv [] [].

(** The keys of the options. *)
Definition global_keys : list string :=
  ["base_url"; "cookie_jar"; "env"; "user"; "password"; "timeout"].

(** The remote application of [demo_world], its second record without an
    ID. *)
Definition demo_world_no_id : world :=
  {| fetch_project_stations :=
       Ok [demo_project 1 "BB-SK 2307"; [("short_name", VStr "S-XY 12")];
           demo_project 3 "M-AB 4711"];
     fetch_shop_view_single := fetch_shop_view_single demo_world;
     fetch_visual_forms_plain := fetch_visual_forms_plain demo_world;
     fetch_parts_deep := fetch_parts_deep demo_world;
     fetch_order_sections := fetch_order_sections demo_world;
     employee_map_of := employee_map_of demo_world;
     label_hits_of := label_hits_of demo_world;
     bs4_available := bs4_available demo_world;
     dumps_fields := dumps_fields demo_world;
     dumps_json := dumps_json demo_world |}.

(** [sync] without [--with-parts] and [--full] *)
Definition plain_args : sync_args :=
  {| with_parts := false; full := false; include_binary := false; jobs := 1 |}.

(** The world [w] with a scan of the form fragment that finds no label. *)
Definition without_labels (w : world) : world :=
  {| fetch_project_stations := fetch_project_stations w;
     fetch_shop_view_single := fetch_shop_view_single w;
     fetch_visual_forms_plain := fetch_visual_forms_plain w;
     fetch_parts_deep := fetch_parts_deep w;
     fetch_order_sections := fetch_order_sections w;
     employee_map_of := employee_map_of w;
     label_hits_of := fun _ => Ok [];
     bs4_available := bs4_available w;
     dumps_fields := dumps_fields w;
     dumps_json := dumps_json w |}.

(** [demo_world] with a scan of the form fragment that raises [re.error]. *)
Definition demo_world_re_error : world :=
  {| fetch_project_stations := fetch_project_stations demo_world;
     fetch_shop_view_single := fun _ => Ok (JObj []);
     fetch_visual_forms_plain := fetch_visual_forms_plain demo_world;
     fetch_parts_deep := fetch_parts_deep demo_world;
     fetch_order_sections := fetch_order_sections demo_world;
     employee_map_of := employee_map_of demo_world;
     label_hits_of := fun _ => Raise (ReError "missing ), unterminated subpattern");
     bs4_available := bs4_available demo_world;
     dumps_fields := dumps_fields demo_world;
     dumps_json := dumps_json demo_world |}.

(** The result [r] with the warning [warn]. *)
Definition with_warn (warn : string) (r : sync_ok) : sync_ok :=
  {| r_row := r_row r; r_emp_map := r_emp_map r; r_parts_list := r_parts_list r;
     r_sections := r_sections r; r_warn := warn |}.

(** The order [o] has the same row, parts and sections in both stores. *)
Definition same_order_data (o : Z) (c1 c2 : Db.t) : Prop :=
  Db.orders c1 !! o = Db.orders c2 !! o ∧
  (∀ pn d, Db.parts c1 !! (o, pn, d) = Db.parts c2 !! (o, pn, d)) ∧
  (∀ name, Db.order_sections c1 !! (o, name) = Db.order_sections c2 !! (o, name)).

(** Every order, employee and section of [c1] is in [c2], maybe with other
    values. *)
Definition nothing_deleted (c1 c2 : Db.t) : Prop :=
  (∀ o, is_Some (Db.orders c1 !! o) → is_Some (Db.orders c2 !! o)) ∧
  (∀ k, is_Some (Db.employees c1 !! k) → is_Some (Db.employees c2 !! k)) ∧
  (∀ k, is_Some (Db.order_sections c1 !! k) → is_Some (Db.order_sections c2 !! k)).

(** ** The statement of a query *)

(** [s.count(c)] *)
Fixpoint count_char (c : ascii) (s : string) : nat :=
  match s with
  | EmptyString => O
  | String a s' => (if Ascii.eqb a c then 1 else 0) + count_char c s'
  end.

(** The clauses that [cmd_query] can put into a statement, the list of ids
    of the index aside. *)
Definition clause_templates : list string :=
  [ "plate LIKE ?"; "person LIKE ?"; "phone LIKE ?"; "email LIKE ?";
    "project_status LIKE ?"; "damage LIKE ?"; "station_id = ?";
    "missing_parts = 1"; "shop_date >= ?"; "shop_date <= ?";
    "finish_date >= ?"; "finish_date <= ?"; like_fallback_clause ].

Definition is_template (c : string) : Prop :=
  c ∈ clause_templates ∨ ∃ n, c = id_in_clause n.

(** The clauses are templates, with as many [?] as there are values. *)
Definition well_formed_filters (f : filters) : Prop :=
  Forall is_template f.1 ∧
  sum_list_with (count_char "?") f.1 = length f.2.

(** The parts that the scan of [_parse_parts_from_html] starts from: the
    rows of the parts table, or else those of the generic tables, or else
    the bare attributes. *)
Definition scanned_parts (v : parts_view) : res (list Part.t) :=
  if negb (bool_decide (table_parts v = [])) then Ok (table_parts v) else
  parts ← (if bs4 v then generic_parts (tables v) else Ok []);
  Ok (if bool_decide (parts = []) then attr_part <$> attr_hits v else parts).

(** [row.get(k) or ""] for the positional key of the column [i] *)
Definition col_key (i : nat) : string := "col_" +:+ pretty (N.of_nat i).

(** Every entry of the dictionary stands under the key of its part. *)
Definition keyed (uniq : dict (string * string) Part.t) : Prop :=
  Forall (fun kp => kp.1 = Part.key kp.2) uniq.

(** ** Where the vehicle summary takes its values from *)

(** The value of the field [label] of the form, if it is not empty. *)
Definition field_value (visual_fields : dict string string) (label : string)
  : option string :=
  let v := sget_or label visual_fields "" in
  if Str.is_empty v then None else Some v.

(** The attribute [attr] of the parts table, if it is not empty. *)
Definition meta_value (parts_meta : option (dict string string)) (attr : string)
  : option string :=
  match parts_meta with
  | Some m =>
      match PyDict.get attr m with
      | Some v => if Str.is_empty v then None else Some v
      | None => None
      end
  | None => None
  end.

(** [a] if there is one, else [b] *)
Definition or_else {A : Type} (a b : option A) : option A :=
  match a with Some _ => a | None => b end.

(** The form field from which [_extract_vehicle_info] fills the key, and the
    attribute of the parts table from which it fills it otherwise. *)
Definition vehicle_label (key : string) : option string :=
  fst <$> find (fun lk => bool_decide (lk.2 = key)) vehicle_mapping.

Definition vehicle_attr (key : string) : option string :=
  if decide (key = "vin") then Some "data-vin"
  else if decide (key = "make") then Some "data-make"
  else if decide (key = "plate") then Some "data-number_plate"
  else if decide (key = "order_no") then Some "data-pnum"
  else None.

(** ** The rows of a generic table *)

(** The value that the last entry with the key [k] gives, in a list of
    entries whose keys are read through [kf]. *)
Fixpoint last_value {A K V : Type} `{EqDecision K} (kf : A → K) (k : K)
    (l : list (A * V)) : option V :=
  match l with
  | [] => None
  | (a, v) :: l' =>
      match last_value kf k l' with
      | Some v' => Some v'
      | None => if decide (k = kf a) then Some v else None
      end
  end.

(** ** The section snapshots of an order *)

Module Sections.

(** A reply of the remote application, as [add_section] reads it:
    [r.status_code], [r.text or ""] and
    [r.headers.get("content-type") or ""]. *)
Record response : Type := {
  status_code : Z;
  text : string;
  content_type_header : string
}.

(** The names of the sections left out unless binaries are asked for. *)
Definition binary_sections : list string := ["images"; "documents"].

(** The requests of the tabs of an order, in the order they are made: the
    name of the section, the method, the parameters. *)
Definition tab_requests (pid table_id : string)
  : list (string * string * dict string string) :=
  [ ("shop_view_single", "GET",
     [("m", "resourceplanner_shop_view_single"); ("svsurl", "false");
      ("ID", pid); ("opentab", "")]);
    ("visual_forms_plain", "POST",
     [("m", "visual_forms_plain"); ("tableID", table_id);
      ("submode", "update"); ("dataID", pid);
      ("call_back_class", "resourceplanner_single_project_wrapper");
      ("callback", "")]);
    ("shop_view", "GET",
     [("m", "resourceplanner_get_shop_view"); ("get_fields", "false"); ("ID", pid)]);
    ("damaged_areas", "GET",
     [("m", "resourceplanner_shop_view_get_damagedareas"); ("ID", pid)]);
    ("details", "GET", [("m", "resourceplanner_shop_view_get_details"); ("ID", pid)]);
    ("documents", "GET",
     [("m", "resourceplanner_shop_view_get_documents"); ("ID", pid)]);
    ("images", "GET", [("m", "resourceplanner_shop_view_get_images"); ("ID", pid)]);
    ("invoice", "GET", [("m", "resourceplanner_shop_view_get_invoice"); ("ID", pid)]);
    ("parts", "GET", [("m", "resourceplanner_shop_view_get_parts"); ("ID", pid)]);
    ("planung", "GET", [("m", "resourceplanner_shop_view_get_planung"); ("ID", pid)]);
    ("projects", "GET",
     [("m", "resourceplanner_shop_view_get_projects"); ("ID", pid)]);
    ("rental_car", "GET",
     [("m", "resourceplanner_shop_view_get_rental_car"); ("ID", pid)]);
    ("setting", "GET", [("m", "resourceplanner_shop_view_get_setting"); ("ID", pid)]);
    ("stamped_timings", "GET",
     [("m", "resourceplanner_shop_view_get_stamped_timings"); ("ID", pid)]);
    ("stats", "GET", [("m", "resourceplanner_shop_view_get_stats"); ("ID", pid)]);
    ("todo_list", "GET",
     [("m", "resourceplanner_shop_view_get_todo_list"); ("ID", pid)]);
    ("work", "GET", [("m", "resourceplanner_shop_view_get_work"); ("ID", pid)]);
    ("zusammenfassung", "GET",
     [("m", "resourceplanner_shop_view_get_zusammenfassung"); ("ID", pid)]) ].

(** The two requests that depend on the date of the order. *)
Definition distribution_request (pid date_iso : string)
  : string * string * dict string string :=
  ("distribution", "GET",
   [("m", "resourceplanner_shop_view_get_dist_html"); ("shop_date", date_iso);
    ("projectID", pid)]).

Definition rental_car_data_request (pid month_from month_to : string)
  : string * string * dict string string :=
  ("rental_car_data", "GET",
   [("m", "resourceplanner_shop_view_get_rental_car_data"); ("booked_lei_id", "");
    ("projectID", pid); ("timeshift", "-60"); ("from", month_from);
    ("to", month_to)]).

(** [date_iso], and [month_from] and [month_to] when there is a date. *)
Definition section_dates (shop_date : option string)
  : res (option string * option (string * string)) :=
  date_iso ← _normalize_iso_date (or_s shop_date "");
  match date_iso with
  | Some d =>
      if Str.is_empty d then Ok (date_iso, None)
      else month ← _month_range d; Ok (date_iso, Some month)
  | None => Ok (date_iso, None)
  end.

Section fetch.

(** [_req(sess, cfg, method, "/do", params=params)] *)
Variable _req : string → dict string string → res response.
(** [_build_section_payload(text, content_type)] *)
Variable _build_section_payload : string → string → res section_payload.
(** [json.dumps(v, ensure_ascii=False)] *)
Variable json_dumps : json → string.

Definition add_section (include_binaries : bool)
    (prefetched : option (dict string json))
    (sections : dict string section_payload)
    (request : string * string * dict string string)
  : res (dict string section_payload) :=
  let '(name, method, params) := request in
  if negb include_binaries && bool_decide (name ∈ binary_sections)
  then Ok sections else
  match PyDict.get name (default [] prefetched) with
  | Some j =>
      payload ← _build_section_payload (json_dumps j) "application/json";
      Ok (PyDict.set name payload sections)
  | None =>
      try_except
        (r ← _req method params;
         if negb (status_code r =? 200)%Z then Ok sections else
         payload ← _build_section_payload (text r) (content_type_header r);
         Ok (PyDict.set name payload sections))
        (fun _ => Ok sections)
  end.

(** [add_section] for each request of a list, in turn *)
Definition add_sections (include_binaries : bool)
    (prefetched : option (dict string json))
    (requests : list (string * string * dict string string))
    (sections : dict string section_payload)
  : res (dict string section_payload) :=
  foldl (fun acc request =>
           sections ← acc;
           add_section include_binaries prefetched sections request)
        (Ok sections) requests.

Definition fetch_order_sections (project_id : Z) (shop_date : option string)
    (prefetched : option (dict string json)) (table_id : Z)
    (include_binaries : bool) : res (dict string section_payload) :=
  let pid := Py.str_of_Z project_id in
  '(date_iso, month) ← section_dates shop_date;
  sections ← add_sections include_binaries prefetched
                (tab_requests pid (Py.str_of_Z table_id)) [];
  sections ←
    match date_iso with
    | Some d =>
        if Str.is_empty d then Ok sections
        else add_section include_binaries prefetched sections
               (distribution_request pid d)
    | None => Ok sections
    end;
  match month with
  | Some (month_from, month_to) =>
      if negb (Str.is_empty month_from) && negb (Str.is_empty month_to)
      then add_section include_binaries prefetched sections
             (rental_car_data_request pid month_from month_to)
      else Ok sections
  | None => Ok sections
  end.

(** The requests that [fetch_order_sections] makes for the dates [dates]. *)
Definition requests_of (pid table_id : string)
    (dates : option string * option (string * string))
  : list (string * string * dict string string) :=
  tab_requests pid table_id
  ++ match dates.1 with
     | Some d => if Str.is_empty d then [] else [distribution_request pid d]
     | None => []
     end
  ++ match dates.2 with
     | Some (month_from, month_to) =>
         if negb (Str.is_empty month_from) && negb (Str.is_empty month_to)
         then [rental_car_data_request pid month_from month_to] else []
     | None => []
     end.

End fetch.

(** An application that answers every request with the status 500. *)
Definition failing_req (method : string) (params : dict string string)
  : res response :=
  Ok {| status_code := 500; text := ""; content_type_header := "" |}.

(** A payload builder that keeps the text. *)
Definition plain_payload (text content_type : string) : res section_payload :=
  Ok {| content_type := content_type; raw_text := text; data_json := JObj [] |}.

End Sections.

(** The names of all sections. *)
Definition section_names : list string :=
  [ "shop_view_single"; "visual_forms_plain"; "shop_view"; "damaged_areas";
    "details"; "documents"; "images"; "invoice"; "parts"; "planung";
    "projects"; "rental_car"; "setting"; "stamped_timings"; "stats";
    "todo_list"; "work"; "zusammenfassung"; "distribution"; "rental_car_data" ].

(** The request gets no reply with the status 200. *)
Definition request_fails (req : string → dict string string → res Sections.response)
    (method : string) (params : dict string string) : Prop :=
  match req method params with
  | Ok r => Sections.status_code r ≠ 200%Z
  | Raise _ => True
  end.

(** ** The [.env] reader *)

Module Env.

(** [s.split(c, 1)] when [c] is in [s]: the text before the first [c] and the
    text after it. *)
Fixpoint partition (c : ascii) (s : string) : option (string * string) :=
  match s with
  | EmptyString => None
  | String a s' =>
      if Ascii.eqb a c then Some (EmptyString, s')
      else '(k, v) ← partition c s'; Some (String a k, v)
  end.

(** [s.endswith(c)] *)
Fixpoint ends_with (c : ascii) (s : string) : bool :=
  match s with
  | EmptyString => false
  | String a EmptyString => Ascii.eqb a c
  | String _ s' => ends_with c s'
  end.

(** [s[:-1]] *)
Fixpoint drop_last (s : string) : string :=
  match s with
  | EmptyString => EmptyString
  | String _ EmptyString => EmptyString
  | String a s' => String a (drop_last s')
  end.

(** [s[1:-1]] *)
Definition inner (s : string) : string :=
  match s with
  | EmptyString => EmptyString
  | String _ s' => drop_last s'
  end.

(** [s.startswith(c) and s.endswith(c)] *)
Definition quoted_by (c : ascii) (s : string) : bool :=
  Search.prefix (String c EmptyString) s && ends_with c s.

(** One line of the file: the key and the value it sets, if any. *)
Definition line (raw : string) : option (string * string) :=
  let line := Str.strip raw in
  if Str.is_empty line || Search.prefix "#" line then None else
  match partition "=" line with
  | None => None
  | Some (k, v) =>
      let k := Str.strip k in
      let v := Text.strip_by (Ascii.eqb ";") (Str.strip v) in
      let v := if quoted_by "'" v || quoted_by "034" v then inner v else v in
      Some (k, v)
  end.

End Env.

(** [lines] are the lines of the file, [None] when there is no such
    file. *)
Definition _load_env_file (lines : option (list string)) : dict string string :=
  match lines with
  | None => []
  | Some lines =>
      foldl (fun env raw =>
               match Env.line raw with
               | Some (k, v) => PyDict.set k v env
               | None => env
               end)
            [] lines
  end.

(** A character of a key: no whitespace, no [=], no [#]. *)
Definition key_char (c : ascii) : bool :=
  negb (Chr.is_space c) && negb (Ascii.eqb c "=") && negb (Ascii.eqb c "#").

(** A character of a value written without quotes: no whitespace, no
    semicolon, no quote. *)
Definition bare_char (c : ascii) : bool :=
  negb (Chr.is_space c) && negb (Ascii.eqb c ";")
  && negb (Ascii.eqb c "'") && negb (Ascii.eqb c "034").

(** [v] between two quote characters [q] *)
Definition in_quotes (q : ascii) (v : string) : string :=
  String q (v +:+ String q EmptyString).

(** ** The payload of a section *)

Definition _looks_like_html (s : string) : bool :=
  let s2 := Str.lstrip s in
  Search.prefix "<!DOCTYPE" s2 || Search.prefix "<html" s2
  || Search.prefix "<div" s2 || Search.prefix "<" s2.

(** [{k: v for k, v in d.items() if k != key}] *)
Definition without_key (key : string) (d : dict string json) : dict string json :=
  filter (fun kv => kv.1 ≠ key) d.

(** [d.get(key) or ""] on a decoded JSON object *)
Definition jget_or_empty (key : string) (d : dict string json) : json :=
  match PyDict.get key d with
  | Some v => if json_truthy v then v else JStr ""
  | None => JStr ""
  end.

(** [if meta: data_json["meta"] = meta] *)
Definition with_meta (data_json : dict string json) (meta : dict string json)
  : dict string json :=
  if bool_decide (meta = []) then data_json
  else PyDict.set "meta" (JObj meta) data_json.

Section Payload.

(** [_safe_json_loads]: the decoded value, [None] when the text is no
    JSON; an object is given by its entries, one for each key. *)
Variable _safe_json_loads : string → option json.
(** [_parse_html_snapshot], on the value it is given. *)
Variable _parse_html_snapshot : json → res json.

(** The JSON decoder is tried when the content type names JSON or the text
    starts with a brace or a bracket. *)
Definition tries_json (text content_type : string) : bool :=
  Search.contains "application/json" (Str.lower content_type)
  || (let t := Str.strip text in Search.prefix "{" t || Search.prefix "[" t).

(** [sections[k] = ...] for one entry of an [html] object *)
Definition section_entry (sections : dict string json) (k : string) (v : json)
  : res (dict string json) :=
  match v with
  | JObj vo =>
      let content := jget_or_empty "content" vo in
      parsed ← _parse_html_snapshot content;
      Ok (PyDict.set k
            (JObj [("meta", JObj (without_key "content" vo)); ("parsed", parsed)])
            sections)
  | _ => Ok (PyDict.set k v sections)
  end.

Definition _build_section_payload (text content_type : string)
  : res section_payload :=
  let j := if tries_json text content_type then _safe_json_loads text else None in
  data_json ←
    match j with
    | Some (JObj jo) =>
        match PyDict.get "html" jo with
        | Some (JStr html) =>
            parsed ← _parse_html_snapshot (JStr html);
            Ok (with_meta [("parsed", parsed)] (without_key "html" jo))
        | Some (JObj ho) =>
            sections ←
              foldl (fun acc '(k, v) => sections ← acc; section_entry sections k v)
                    (Ok []) ho;
            Ok (with_meta [("sections", JObj sections)] (without_key "html" jo))
        | _ => Ok [("json", JObj jo)]
        end
    | Some (JArr l) => Ok [("json", JArr l)]
    | _ =>
        if _looks_like_html text then
          parsed ← _parse_html_snapshot (JStr text);
          Ok [("parsed", parsed)]
        else Ok [("text", JStr text)]
    end;
  Ok {| content_type := content_type; raw_text := text;
        data_json := JObj data_json |}.

End Payload.

(** The shapes of [data_json]: its keys. *)
Definition payload_shapes : list (list string) :=
  [ ["parsed"]; ["parsed"; "meta"]; ["sections"]; ["sections"; "meta"];
    ["json"]; ["text"] ].

(** A decoder that knows the empty object and the empty list, and a
    snapshot that keeps the text. *)
Definition demo_loads (s : string) : option json :=
  if String.eqb s "{}" then Some (JObj [])
  else if String.eqb s "[]" then Some (JArr [])
  else None.

Definition demo_snapshot (html : json) : res json :=
  Ok (JObj [("fields", html)]).

(** ** The tokens of a free text, stated on the text *)

(** [[A-Za-z0-9]+(?:-[A-Za-z0-9]+)*]: runs of letters and digits, joined by
    single hyphens *)
Definition is_token : string → Prop := joined_runs Chr.is_alnum "-".

(** A match cannot go on into [rest]: [rest] starts neither with a letter
    or digit, nor with a hyphen and a letter or digit. *)
Definition token_ends (rest : string) : Prop :=
  match rest with
  | EmptyString => True
  | String c r =>
      Chr.is_alnum c = false ∧
      (c = "-"%char → match r with
                      | String d _ => Chr.is_alnum d = false
                      | EmptyString => True
                      end)
  end.

(** The matches of [re.findall] in a text: each match starts at the first
    letter or digit after the match before it, and goes on as far as the
    pattern allows. *)
Inductive tokenised : string → list string → Prop :=
  | tokenised_nil s :
      Str.all (fun c => negb (Chr.is_alnum c)) s = true → tokenised s []
  | tokenised_cons junk tok rest toks :
      Str.all (fun c => negb (Chr.is_alnum c)) junk = true →
      is_token tok → token_ends rest → tokenised rest toks →
      tokenised (junk +:+ tok +:+ rest) (tok :: toks).

(** ** The full-text index, as far as the tool asks it

    A query of SQLite's FTS5 that is a conjunction of strings in double
    quotes, ["a" AND "b" ...], asks for the rows that hold every string as a
    phrase. *)

Module Fts.

(** The reader stands before a string, inside one (with the text read so
    far), after one, or inside the operator (with what is left of it). *)
Inductive state : Type :=
  | Before
  | Inside (acc : string)
  | After
  | Operator (todo : string).

Fixpoint read (st : state) (q : string) : option (list string) :=
  match q with
  | EmptyString =>
      match st with
      | After => Some []
      | _ => None
      end
  | String c q' =>
      match st with
      | Before => if Ascii.eqb c "034" then read (Inside EmptyString) q' else None
      | Inside acc =>
          if Ascii.eqb c "034" then cons acc <$> read After q'
          else read (Inside (acc +:+ String c EmptyString)) q'
      | After => if Ascii.eqb c " " then read (Operator "AND ") q' else None
      | Operator (String x todo) =>
          if Ascii.eqb c x then
            if Str.is_empty todo then read Before q' else read (Operator todo) q'
          else None
      | Operator EmptyString => None
      end
  end.

(** The strings of a query that is a conjunction of quoted strings; [None]
    for any other text. *)
Definition phrases (q : string) : option (list string) := read Before q.

End Fts.

(** The index of [b] reads a conjunction of quoted strings as these
    strings, and answers with the rows that [lookup] finds for them. *)
Definition index_reads (lookup : list string → list Z) (b : sql_backend) : Prop :=
  ∀ q phrases, Fts.phrases q = Some phrases → fts_match b q = Ok (lookup phrases).

(** ** A store with the table [orders] and its index *)

Module Store.

(** The words of a text, as the index cuts them on ASCII text: its maximal
    runs of letters and digits, in lower case. *)
Definition words (s : string) : list string :=
  Text.fields (fun c => negb (Chr.is_alnum c)) (Str.lower s).

Fixpoint starts_with (l1 l2 : list string) : bool :=
  match l1, l2 with
  | [], _ => true
  | x :: l1', y :: l2' => String.eqb x y && starts_with l1' l2'
  | _ :: _, [] => false
  end.

(** The items of [l1] stand in [l2], one after the other. *)
Fixpoint has_run (l1 l2 : list string) : bool :=
  starts_with l1 l2
  || match l2 with
     | [] => false
     | _ :: l2' => has_run l1 l2'
     end.

(** The columns of [orders_fts]. *)
Definition indexed (row : Order.t) : list string :=
  [ Order.short_name row; Order.plate row; Order.person row; Order.phone row;
    Order.email row; Order.damage row; Order.project_status row;
    Order.parts_status row ].

(** A row holds a phrase when the words of the phrase stand one after the
    other in one of the indexed columns. *)
Definition holds (row : Order.t) (phrase : string) : bool :=
  existsb (fun col => has_run (words phrase) (words col)) (indexed row).

(** [SELECT rowid FROM orders_fts WHERE orders_fts MATCH ? LIMIT 200] for a
    conjunction of phrases *)
Definition lookup (rows : list Order.t) (phrases : list string) : list Z :=
  take 200 (Order.id <$> filter (fun row => forallb (holds row) phrases = true) rows).

(** [text LIKE pat] on ASCII text: [%] stands for any text, [_] for any
    character, and letters match in either case. *)
Fixpoint like_match (pat : string) : string → bool :=
  match pat with
  | EmptyString => Str.is_empty
  | String c pat' =>
      if Ascii.eqb c "%" then
        fix any (text : string) : bool :=
          like_match pat' text
          || match text with
             | EmptyString => false
             | String _ text' => any text'
             end
      else fun text =>
        match text with
        | EmptyString => false
        | String d text' =>
            (Ascii.eqb c "_" || Ascii.eqb (Chr.lower c) (Chr.lower d))
            && like_match pat' text'
        end
  end.

(** The columns of the LIKE scan. *)
Definition scanned (row : Order.t) : list string :=
  [ Order.short_name row; Order.plate row; Order.person row; Order.phone row;
    Order.email row ].

Definition select_head : string := "SELECT * FROM orders WHERE ".
Definition select_tail : string := " ORDER BY shop_date DESC, id DESC LIMIT ?".

(** The two statements that a free-text query without other filters ends
    in, run on a table whose rows are listed by shop date and id, both
    descending, the order that the statements ask for; no other statement
    is run on this store. *)
Definition run (rows : list Order.t) (sql : string) (params : list sqlval)
  : list Order.t :=
  let n := (length params - 1)%nat in
  let limit := match last params with
               | Some (SInt z) => Z.to_nat z
               | _ => O
               end in
  if String.eqb sql (select_head +:+ like_fallback_clause +:+ select_tail) then
    take limit
      (filter (fun row =>
                 existsb (fun cv => match cv.2 with
                                    | SText pat => like_match pat cv.1
                                    | SInt _ => false
                                    end)
                         (zip (scanned row) params) = true) rows)
  else if String.eqb sql (select_head +:+ id_in_clause n +:+ select_tail) then
    take limit
      (filter (fun row =>
                 existsb (fun v => match v with
                                   | SInt z => Z.eqb z (Order.id row)
                                   | SText _ => false
                                   end)
                         (take n params) = true) rows)
  else [].

(** The store with the rows [rows]: its index raises on a query that is no
    conjunction of quoted strings. *)
Definition backend (rows : list Order.t) : sql_backend :=
  {| fts_match := fun q =>
       match Fts.phrases q with
       | Some phrases => Ok (lookup rows phrases)
       | None => Raise OperationalError
       end;
     execute := run rows |}.

End Store.

(** * Properties *)

(** ** Strings *)

Section string_facts.

Implicit Types (s t a b r : string) (c : ascii) (p : ascii → bool).

Lemma str_app_cons c s t : String c s +:+ t = String c (s +:+ t).
Proof. reflexivity. Qed.

Lemma str_app_nil_l s : "" +:+ s = s.
Proof. reflexivity. Qed.

Lemma str_app_nil_r s : s +:+ "" = s.
Proof. induction s as [|c s IH]; [done | by rewrite str_app_cons, IH]. Qed.

Lemma str_app_assoc a b r : (a +:+ b) +:+ r = a +:+ (b +:+ r).
Proof. induction a as [|c a IH]; [done | by rewrite !str_app_cons, IH]. Qed.

Lemma str_length_app a b :
  String.length (a +:+ b) = (String.length a + String.length b)%nat.
Proof. induction a as [|c a IH]; [done | by rewrite str_app_cons; simpl; rewrite IH]. Qed.

Lemma is_empty_true s : Str.is_empty s = true ↔ s = "".
Proof. by destruct s. Qed.

Lemma is_empty_false s : Str.is_empty s = false ↔ s ≠ "".
Proof. by destruct s. Qed.

Lemma all_app p a b : Str.all p (a +:+ b) = Str.all p a && Str.all p b.
Proof.
  induction a as [|c a IH]; [done |].
  rewrite str_app_cons. simpl. by rewrite IH, andb_assoc.
Qed.

Lemma all_impl p q s :
  (∀ c, p c = true → q c = true) → Str.all p s = true → Str.all q s = true.
Proof.
  intros Hpq. induction s as [|c s IH]; simpl; [done |].
  intros [Hc Hs]%andb_true_iff. rewrite (Hpq _ Hc). by apply IH.
Qed.

(** Equal-length prefixes of equal strings are equal. *)
Lemma str_app_inj_length a a' b b' :
  String.length a = String.length a' →
  a +:+ b = a' +:+ b' → a = a' ∧ b = b'.
Proof.
  revert a'. induction a as [|c a IH]; intros [|c' a']; try done.
  rewrite !str_app_cons. simpl.
  intros [= Hl] [= -> Happ]. destruct (IH _ Hl Happ) as [-> ->]. done.
Qed.

Lemma lstrip_id c s : Chr.is_space c = false → Str.lstrip (String c s) = String c s.
Proof. intros H. simpl. by rewrite H. Qed.

Lemma rstrip_no_space s :
  Str.all (fun c => negb (Chr.is_space c)) s = true → Str.rstrip s = s.
Proof.
  induction s as [|c s IH]; simpl; [done |].
  intros [Hc Hs]%andb_true_iff. rewrite (IH Hs).
  apply negb_true_iff in Hc. by rewrite Hc.
Qed.

Lemma strip_no_space s :
  Str.all (fun c => negb (Chr.is_space c)) s = true → Str.strip s = s.
Proof.
  intros H. unfold Str.strip.
  assert (Str.lstrip s = s) as ->; [| by apply rstrip_no_space].
  destruct s as [|c s]; simpl in *; [done |].
  apply andb_true_iff in H as [Hc _]. apply negb_true_iff in Hc. by rewrite Hc.
Qed.

Lemma lstrip_empty s : Str.all Chr.is_space s = true → Str.lstrip s = "".
Proof.
  induction s as [|c s IH]; simpl; [done |].
  intros [Hc Hs]%andb_true_iff. rewrite Hc. by apply IH.
Qed.

Lemma digit_not_space c : Chr.is_digit c = true → Chr.is_space c = false.
Proof.
  unfold Chr.is_digit, Chr.is_space, Chr.between.
  intros H. apply andb_true_iff in H as [H1 H2].
  apply N.leb_le in H1. apply N.leb_le in H2.
  apply orb_false_iff; split; apply andb_false_iff.
  - right. apply N.leb_gt. lia.
  - right. apply N.leb_gt. lia.
Qed.

End string_facts.

(** ** Pattern pieces *)

Ltac snorm := rewrite ?str_app_assoc, ?str_app_cons, ?str_app_nil_l.

Section regex_facts.

Implicit Types (s t a b r ds : string) (c : ascii) (p : ascii → bool).

Lemma take_upto_app_stop p n ds c r :
  Str.all p ds = true → (String.length ds ≤ n)%nat → p c = false →
  Re.take_upto p n (ds +:+ String c r) = (ds, String c r).
Proof.
  revert n. induction ds as [|x ds IH]; intros n Hall Hlen Hc.
  - rewrite str_app_nil_l. destruct n; simpl; [done | by rewrite Hc].
  - rewrite str_app_cons. simpl in Hall, Hlen.
    apply andb_true_iff in Hall as [Hx Hall].
    destruct n as [|n]; [lia |]. simpl. rewrite Hx.
    rewrite IH; [done | done | lia | done].
Qed.

Lemma take_upto_app_full p ds r :
  Str.all p ds = true →
  Re.take_upto p (String.length ds) (ds +:+ r) = (ds, r).
Proof.
  induction ds as [|x ds IH]; intros Hall.
  - by destruct r.
  - rewrite str_app_cons. simpl in *.
    apply andb_true_iff in Hall as [Hx Hall]. by rewrite Hx, IH.
Qed.

Lemma take_upto_all p n ds :
  Str.all p ds = true → (String.length ds ≤ n)%nat →
  Re.take_upto p n ds = (ds, "").
Proof.
  revert n. induction ds as [|x ds IH]; intros n Hall Hlen.
  - by destruct n.
  - simpl in *. apply andb_true_iff in Hall as [Hx Hall].
    destruct n as [|n]; [lia |]. simpl. rewrite Hx, IH; [done | done | lia].
Qed.

Lemma take_upto_inv p n s a r :
  Re.take_upto p n s = (a, r) →
  s = a +:+ r ∧ Str.all p a = true ∧ (String.length a ≤ n)%nat.
Proof.
  revert s a r. induction n as [|n IH]; intros s a r.
  - simpl. destruct s; intros [= <- <-]; simpl; auto with lia.
  - destruct s as [|x s]; simpl.
    + intros [= <- <-]; simpl; auto with lia.
    + destruct (p x) eqn:Hx.
      * destruct (Re.take_upto p n s) as [a' r'] eqn:Ht.
        intros [= <- <-]. destruct (IH _ _ _ Ht) as (-> & Hall & Hlen).
        rewrite str_app_cons. simpl. rewrite Hx, Hall. auto with lia.
      * intros [= <- <-]; simpl; auto with lia.
Qed.

Lemma span_app_stop p ds c r :
  Str.all p ds = true → p c = false →
  Re.span p (ds +:+ String c r) = (ds, String c r).
Proof.
  induction ds as [|x ds IH]; intros Hall Hc.
  - rewrite str_app_nil_l. simpl. by rewrite Hc.
  - rewrite str_app_cons. simpl in *.
    apply andb_true_iff in Hall as [Hx Hall]. by rewrite Hx, IH.
Qed.

Lemma span_all p ds : Str.all p ds = true → Re.span p ds = (ds, "").
Proof.
  induction ds as [|x ds IH]; intros Hall; [done |].
  simpl in *. apply andb_true_iff in Hall as [Hx Hall]. by rewrite Hx, IH.
Qed.

Lemma span_inv p s a r :
  Re.span p s = (a, r) →
  s = a +:+ r ∧ Str.all p a = true ∧
  match r with String c _ => p c = false | EmptyString => True end.
Proof.
  revert a r. induction s as [|x s IH]; intros a r; simpl.
  - intros [= <- <-]. done.
  - destruct (p x) eqn:Hx.
    + destruct (Re.span p s) as [a' r'] eqn:Hs. intros [= <- <-].
      destruct (IH _ _ eq_refl) as (-> & Hall & Hr).
      rewrite str_app_cons. simpl. by rewrite Hx, Hall.
    + intros [= <- <-]. done.
Qed.

Lemma digits_app_stop lo hi ds c r :
  digit_run lo hi ds → Chr.is_digit c = false →
  Re.digits lo hi (ds +:+ String c r) = Some (ds, String c r).
Proof.
  intros [Hall [Hlo Hhi]] Hc. unfold Re.digits.
  rewrite take_upto_app_stop by done.
  by apply Nat.leb_le in Hlo as ->.
Qed.

Lemma digits_exact n ds r :
  digit_run n n ds → Re.digits n n (ds +:+ r) = Some (ds, r).
Proof.
  intros [Hall [Hlo Hhi]]. unfold Re.digits.
  assert (n = String.length ds) as -> by lia.
  rewrite take_upto_app_full by done.
  by rewrite Nat.leb_refl.
Qed.

Lemma digits_end lo hi ds :
  digit_run lo hi ds → Re.digits lo hi ds = Some (ds, "").
Proof.
  intros [Hall [Hlo Hhi]]. unfold Re.digits.
  rewrite take_upto_all by done.
  by apply Nat.leb_le in Hlo as ->.
Qed.

(** A digit run too short for the pattern, ended by another character. *)
Lemma digits_short lo hi lo' hi' ds c r :
  digit_run lo' hi' ds → (hi' < lo)%nat → (hi' ≤ hi)%nat →
  Chr.is_digit c = false →
  Re.digits lo hi (ds +:+ String c r) = None.
Proof.
  intros [Hall [Hlo Hhi]] Hlt Hle Hc. unfold Re.digits.
  rewrite take_upto_app_stop; [| done | lia | done].
  destruct (lo <=? String.length ds)%nat eqn:E; [| done].
  apply Nat.leb_le in E. lia.
Qed.

Lemma digits_inv lo hi s a r :
  Re.digits lo hi s = Some (a, r) → s = a +:+ r ∧ digit_run lo hi a.
Proof.
  unfold Re.digits.
  destruct (Re.take_upto Chr.is_digit hi s) as [a' r'] eqn:Ht.
  destruct (lo <=? String.length a')%nat eqn:E; [| done].
  intros [= <- <-]. apply Nat.leb_le in E.
  destruct (take_upto_inv _ _ _ _ _ Ht) as (-> & Hall & Hlen).
  by repeat split.
Qed.

Lemma lit_inv c s r : Re.lit c s = Some r → s = String c r.
Proof.
  destruct s as [|x s]; simpl; [done |].
  destruct (Ascii.eqb x c) eqn:E; [| done].
  apply Ascii.eqb_eq in E as ->. by intros [= ->].
Qed.

Lemma eos_inv s u : Re.eos s = Some u → s = "".
Proof. by destruct s. Qed.

Lemma spaces1_inv s r :
  Re.spaces1 s = Some r →
  ∃ ws, ws ≠ "" ∧ Str.all Chr.is_space ws = true ∧ s = ws +:+ r.
Proof.
  unfold Re.spaces1. destruct (Re.span Chr.is_space s) as [a r'] eqn:Hs.
  destruct (Str.is_empty a) eqn:E; [done |]. intros [= <-].
  destruct (span_inv _ _ _ _ Hs) as (-> & Hall & _).
  exists a. by apply is_empty_false in E.
Qed.

Lemma spaces1_app_digit ws c r :
  ws ≠ "" → Str.all Chr.is_space ws = true → Chr.is_digit c = true →
  Re.spaces1 (ws +:+ String c r) = Some (String c r).
Proof.
  intros Hne Hall Hc. unfold Re.spaces1.
  rewrite span_app_stop; [| done | by apply digit_not_space].
  by apply is_empty_false in Hne as ->.
Qed.

End regex_facts.

(** ** Date patterns against the date formats *)

Section date_patterns.

Implicit Types (s t d mo y hh mm ss : string).

(** One step of a pattern that matched: name the piece and the rest. *)
Ltac matched H :=
  lazymatch type of H with
  | context [Re.digits ?lo ?hi ?s] =>
      let E := fresh "E" in
      destruct (Re.digits lo hi s) as [[? ?]|] eqn:E; simpl in H;
      [apply digits_inv in E as [-> ?] | done]
  | context [Re.lit ?c ?s] =>
      let E := fresh "E" in
      destruct (Re.lit c s) eqn:E; simpl in H;
      [apply lit_inv in E; try subst | done]
  | context [Re.spaces1 ?s] =>
      let E := fresh "E" in
      destruct (Re.spaces1 s) eqn:E; simpl in H;
      [apply spaces1_inv in E as (? & ? & ? & ->) | done]
  | context [Re.eos ?s] =>
      let E := fresh "E" in
      destruct (Re.eos s) eqn:E; simpl in H;
      [apply eos_inv in E as -> | done]
  end.

Lemma match_iso_date_complete t : iso_form t → match_iso_date t = true.
Proof.
  intros (y & m & d & Hy & Hm & Hd & ->). unfold match_iso_date.
  apply bool_decide_eq_true. snorm.
  rewrite digits_exact by done. simpl.
  rewrite digits_exact by done. simpl.
  rewrite digits_end by done. simpl. done.
Qed.

Lemma match_iso_date_sound t : match_iso_date t = true → iso_form t.
Proof.
  unfold match_iso_date. intros H%bool_decide_eq_true. destruct H as [u H].
  do 6 matched H. rewrite str_app_nil_r.
  exists s, s0, s2. do 3 (split; [done |]). by snorm.
Qed.

Lemma match_de_date_complete t d mo y :
  de_date_form t d mo y → match_de_date t = Some (d, mo, y).
Proof.
  intros (Hd & Hmo & Hy & ->). unfold match_de_date. snorm.
  rewrite digits_app_stop by done. simpl.
  rewrite digits_app_stop by done. simpl.
  rewrite digits_end by done. simpl. done.
Qed.

Lemma match_de_date_sound t d mo y :
  match_de_date t = Some (d, mo, y) → de_date_form t d mo y.
Proof.
  unfold match_de_date. intros H. do 6 matched H.
  injection H as <- <- <-. rewrite str_app_nil_r.
  do 3 (split; [done |]). by snorm.
Qed.

Lemma space_run_head ws r :
  ws ≠ "" → Str.all Chr.is_space ws = true →
  ∃ c r', ws +:+ r = String c r' ∧ Chr.is_digit c = false.
Proof.
  destruct ws as [|c ws]; [done |]. intros _ [Hc _]%andb_true_iff.
  exists c, (ws +:+ r). split; [done |].
  destruct (Chr.is_digit c) eqn:E; [| done].
  apply digit_not_space in E. congruence.
Qed.

Lemma digit_run_head lo hi ds r :
  digit_run (S lo) hi ds →
  ∃ c r', ds +:+ r = String c r' ∧ Chr.is_digit c = true.
Proof.
  intros [Hall [Hlo _]]. destruct ds as [|c ds]; simpl in *; [lia |].
  apply andb_true_iff in Hall as [Hc _]. by exists c, (ds +:+ r).
Qed.

Lemma match_de_datetime_complete t d mo y hh mm ss :
  de_datetime_form t d mo y hh mm ss →
  match_de_datetime t = Some (d, mo, y, hh, mm, ss).
Proof.
  intros (Hd & Hmo & Hy & Hhh & Hmm & Hss & ws & Hne & Hws & ->).
  unfold match_de_datetime. snorm.
  rewrite digits_app_stop by done. simpl.
  rewrite digits_app_stop by done. simpl.
  rewrite digits_exact by done. simpl.
  destruct (digit_run_head 0 2 hh (String ":" (mm +:+ String ":" ss)) Hhh)
    as (c & r' & Heq & Hc).
  rewrite Heq, spaces1_app_digit by done. simpl. rewrite <- Heq.
  rewrite digits_app_stop by done. simpl.
  rewrite digits_exact by done. simpl.
  rewrite digits_end by done. simpl. done.
Qed.

Lemma match_de_datetime_sound t d mo y hh mm ss :
  match_de_datetime t = Some (d, mo, y, hh, mm, ss) →
  de_datetime_form t d mo y hh mm ss.
Proof.
  unfold match_de_datetime. intros H. do 12 matched H.
  injection H as <- <- <- <- <- <-. rewrite str_app_nil_r.
  do 6 (split; [done |]). eexists. do 2 (split; [eassumption |]). by snorm.
Qed.

(** The formats exclude one another. *)
Lemma de_date_not_iso t d mo y : de_date_form t d mo y → match_iso_date t = false.
Proof.
  intros (Hd & Hmo & Hy & ->). unfold match_iso_date.
  apply bool_decide_eq_false. snorm.
  rewrite (digits_short 4 4 1 2) by (done || lia). simpl.
  by intros [? ?].
Qed.

Lemma de_datetime_not_iso t d mo y hh mm ss :
  de_datetime_form t d mo y hh mm ss → match_iso_date t = false.
Proof.
  intros (Hd & Hmo & Hy & Hhh & Hmm & Hss & ws & Hne & Hws & ->).
  unfold match_iso_date. apply bool_decide_eq_false. snorm.
  rewrite (digits_short 4 4 1 2) by (done || lia). simpl.
  by intros [? ?].
Qed.

Lemma de_datetime_not_de_date t d mo y hh mm ss :
  de_datetime_form t d mo y hh mm ss → match_de_date t = None.
Proof.
  intros (Hd & Hmo & Hy & Hhh & Hmm & Hss & ws & Hne & Hws & ->).
  unfold match_de_date. snorm.
  rewrite digits_app_stop by done. simpl.
  rewrite digits_app_stop by done. simpl.
  rewrite digits_exact by done. simpl.
  destruct (space_run_head ws (hh +:+ String ":" (mm +:+ String ":" ss)) Hne Hws)
    as (c & r' & -> & _).
  done.
Qed.

Lemma iso_form_nonempty t : iso_form t → Str.is_empty t = false.
Proof.
  intros (y & m & d & [_ [Hy _]] & _ & _ & ->).
  destruct y; simpl in *; [lia | done].
Qed.

Lemma de_date_form_nonempty t d mo y : de_date_form t d mo y → Str.is_empty t = false.
Proof.
  intros ([_ [Hd _]] & _ & _ & ->). destruct d; simpl in *; [lia | done].
Qed.

Lemma de_datetime_form_nonempty t d mo y hh mm ss :
  de_datetime_form t d mo y hh mm ss → Str.is_empty t = false.
Proof.
  intros ([_ [Hd _]] & _ & _ & _ & _ & _ & ws & _ & _ & ->).
  destruct d; simpl in *; [lia | done].
Qed.

Lemma strip_nonempty s : Str.is_empty (Str.strip s) = false → Str.is_empty s = false.
Proof. by destruct s. Qed.

Lemma parse_date_returns s : returns (_parse_german_date_or_datetime s).
Proof.
  unfold _parse_german_date_or_datetime, returns.
  destruct (Str.is_empty s); [by eexists |].
  destruct (match_iso_date _); [by eexists |].
  destruct (match_de_date _) as [[[d mo] y]|].
  - destruct (Date.make _ _ _); simpl; by eexists.
  - destruct (match_de_datetime _) as [[[[[[d mo] y] hh] mm] ss]|]; [| by eexists].
    destruct (Date.make_dt _ _ _ _ _ _); simpl; by eexists.
Qed.

End date_patterns.

(** C8 (as amended): [_parse_german_date_or_datetime] never raises; on a
    trimmed ASCII input it accepts the shape dddd-dd-dd, returned as it is
    and not checked against the calendar, D.M.YYYY naming a day that exists,
    converted to the ISO date, and D.M.YYYY H:MM:SS naming a day and a time
    that exist, converted to the ISO date and the ISO datetime; every other
    ASCII input gives (None, None). *)
Theorem parse_date_formats (s : string) :
  ascii_text s →
  let t := Str.strip s in
  let dv := Str.digits_val in
  returns (_parse_german_date_or_datetime s) ∧
  (iso_form t → _parse_german_date_or_datetime s = Ok (Some t, None)) ∧
  (∀ d mo y, de_date_form t d mo y →
     _parse_german_date_or_datetime s =
       if Date.valid (dv y) (dv mo) (dv d)
       then Ok (Some (Date.isoformat (Date.mk (dv y) (dv mo) (dv d))), None)
       else Ok (None, None)) ∧
  (∀ d mo y hh mm ss, de_datetime_form t d mo y hh mm ss →
     _parse_german_date_or_datetime s =
       if Date.valid (dv y) (dv mo) (dv d) && Date.valid_time (dv hh) (dv mm) (dv ss)
       then let dt := Date.mk_dt (Date.mk (dv y) (dv mo) (dv d)) (dv hh) (dv mm) (dv ss) in
            Ok (Some (Date.isoformat (Date.on dt)), Some (Date.isoformat_dt dt))
       else Ok (None, None)) ∧
  (¬ iso_form t → (∀ d mo y, ¬ de_date_form t d mo y) →
   (∀ d mo y hh mm ss, ¬ de_datetime_form t d mo y hh mm ss) →
     _parse_german_date_or_datetime s = Ok (None, None)).
Proof.
  intros _ t dv. split; [apply parse_date_returns |].
  unfold _parse_german_date_or_datetime. fold t.
  split; [| split; [| split]].
  - intros H. rewrite (strip_nonempty s (iso_form_nonempty _ H)).
    by rewrite match_iso_date_complete.
  - intros d mo y H. rewrite (strip_nonempty s (de_date_form_nonempty _ _ _ _ H)).
    rewrite (de_date_not_iso _ _ _ _ H), (match_de_date_complete _ _ _ _ H).
    unfold Date.make. fold dv. by destruct (Date.valid _ _ _).
  - intros d mo y hh mm ss H.
    rewrite (strip_nonempty s (de_datetime_form_nonempty _ _ _ _ _ _ _ H)).
    rewrite (de_datetime_not_iso _ _ _ _ _ _ _ H),
      (de_datetime_not_de_date _ _ _ _ _ _ _ H),
      (match_de_datetime_complete _ _ _ _ _ _ _ H).
    unfold Date.make_dt, Date.make. fold dv.
    destruct (Date.valid _ _ _); simpl; [| done].
    by destruct (Date.valid_time _ _ _).
  - intros Hiso Hde Hdt. destruct (Str.is_empty s); [done |].
    destruct (match_iso_date t) eqn:E1.
    { by apply match_iso_date_sound in E1. }
    destruct (match_de_date t) as [[[d mo] y]|] eqn:E2.
    { apply match_de_date_sound in E2. by destruct (Hde d mo y). }
    destruct (match_de_datetime t) as [[[[[[d mo] y] hh] mm] ss]|] eqn:E3; [| done].
    apply match_de_datetime_sound in E3. by destruct (Hdt d mo y hh mm ss).
Qed.

(** The trimmed text ["2025-13-45"] names no day of the calendar and is in
    neither local format, and it is given back as the ISO date. *)
Lemma parse_date_shape_only :
  is_calendar_iso_date "2025-13-45" = false ∧
  match_de_date "2025-13-45" = None ∧
  match_de_datetime "2025-13-45" = None ∧
  _parse_german_date_or_datetime "2025-13-45" = Ok (Some "2025-13-45", None).
Proof. repeat split; vm_compute; reflexivity. Qed.

Lemma parse_date_formats_witness :
  _parse_german_date_or_datetime " 16.12.2025 12:08:59 "
    = Ok (Some "2025-12-16", Some "2025-12-16T12:08:59").
Proof.
  pose proof (parse_date_formats " 16.12.2025 12:08:59 " eq_refl) as H.
  destruct H as (_ & _ & _ & H & _).
  rewrite (H "16" "12" "2025" "12" "08" "59"); [reflexivity |].
  repeat split; try (simpl; lia).
  exists " ". repeat split. discriminate.
Defined.

(** ** Decimal conversion *)

Section decimal_facts.

Implicit Types (s t a b r ds : string) (c : ascii) (p q : ascii → bool).

Lemma replace_char_app c by_ a b :
  Str.replace_char c by_ (a +:+ b)
    = Str.replace_char c by_ a +:+ Str.replace_char c by_ b.
Proof.
  induction a as [|x a IH]; [done |].
  rewrite str_app_cons. simpl. rewrite IH.
  destruct (Ascii.eqb x c); [by rewrite str_app_assoc | done].
Qed.

Lemma replace_char_absent c by_ s :
  Str.all (fun x => negb (Ascii.eqb x c)) s = true →
  Str.replace_char c by_ s = s.
Proof.
  induction s as [|x s IH]; [done |]. simpl.
  intros [Hx Hs]%andb_true_iff. apply negb_true_iff in Hx.
  by rewrite Hx, IH.
Qed.

Lemma digits_val_app a b :
  Str.digits_val (a +:+ b)
    = (Str.digits_val a * 10 ^ N.of_nat (String.length b) + Str.digits_val b)%N.
Proof.
  unfold Str.digits_val.
  assert (∀ b acc, Str.digits_acc acc b
            = (acc * 10 ^ N.of_nat (String.length b) + Str.digits_acc 0 b)%N) as Hacc.
  { clear. induction b as [|x b IH]; intros acc.
    - simpl. lia.
    - simpl Str.digits_acc. rewrite (IH (10 * acc + _)%N), (IH (10 * 0 + _)%N).
      change (String.length (String x b)) with (S (String.length b)).
      rewrite Nat2N.inj_succ, N.pow_succ_r'. lia. }
  revert b. induction a as [|x a IH]; intros b.
  - rewrite str_app_nil_l. simpl. lia.
  - rewrite str_app_cons. simpl Str.digits_acc.
    rewrite (Hacc (a +:+ b)), (Hacc a (10 * 0 + _)%N), IH, str_length_app.
    rewrite Nat2N.inj_add, N.pow_add_r. lia.
Qed.

Lemma strip_underscores_absent prev s :
  Ascii.eqb prev "_" = false →
  Str.all (fun x => negb (Ascii.eqb x "_")) s = true →
  Float.strip_underscores prev s = Some s.
Proof.
  revert prev. induction s as [|x s IH]; intros prev Hprev; simpl.
  - by rewrite Hprev.
  - intros [Hx Hs]%andb_true_iff. apply negb_true_iff in Hx.
    rewrite Hx, Hprev. simpl. by rewrite IH.
Qed.

Lemma strip_underscores_chars p prev s u :
  Float.strip_underscores prev s = Some u →
  p "_"%char = true → Str.all p u = true → Str.all p s = true.
Proof.
  intros Hs Hp. revert prev u Hs. induction s as [|x s IH]; intros prev u; simpl.
  - done.
  - destruct (Ascii.eqb x "_") eqn:Hx.
    + apply Ascii.eqb_eq in Hx as ->. rewrite Hp.
      destruct (Chr.is_digit prev); [| done]. apply IH.
    + destruct (Ascii.eqb prev "_" && negb (Chr.is_digit x)); [done |].
      destruct (Float.strip_underscores x s) as [u'|] eqn:Hu; [| done].
      simpl. intros [= <-]. simpl. intros [-> Hu']%andb_true_iff.
      by apply (IH _ _ Hu).
Qed.

Lemma lstrip_chars p s :
  (∀ c, Chr.is_space c = true → p c = true) →
  Str.all p (Str.lstrip s) = true → Str.all p s = true.
Proof.
  intros Hsp. induction s as [|x s IH]; [done |]. simpl.
  destruct (Chr.is_space x) eqn:Hx.
  - intros H. by rewrite (Hsp _ Hx), IH.
  - done.
Qed.

Lemma rstrip_chars p s :
  (∀ c, Chr.is_space c = true → p c = true) →
  Str.all p (Str.rstrip s) = true → Str.all p s = true.
Proof.
  intros Hsp. induction s as [|x s IH]; [done |]. simpl.
  destruct (Chr.is_space x && Str.is_empty (Str.rstrip s)) eqn:Hx.
  - apply andb_true_iff in Hx as [Hx He]. apply is_empty_true in He.
    intros _. rewrite (Hsp _ Hx). apply IH. by rewrite He.
  - simpl. intros [-> H]%andb_true_iff. by apply IH.
Qed.

Lemma strip_chars p s :
  (∀ c, Chr.is_space c = true → p c = true) →
  Str.all p (Str.strip s) = true → Str.all p s = true.
Proof.
  intros Hsp H. apply lstrip_chars; [done |]. by apply rstrip_chars.
Qed.

Lemma c_space_is_space c : Chr.is_c_space c = true → Chr.is_space c = true.
Proof.
  unfold Chr.is_c_space, Chr.is_space, Chr.between.
  intros [H|H]%orb_true_iff; apply andb_true_iff in H as [H1 H2];
    apply N.leb_le in H1, H2; apply orb_true_iff; [left | right];
    apply andb_true_iff; split; apply N.leb_le; lia.
Qed.

Lemma strip_c_no_space s :
  Str.all (fun c => negb (Chr.is_space c)) s = true → Str.strip_c s = s.
Proof.
  intros H.
  assert (Str.all (fun c => negb (Chr.is_c_space c)) s = true) as Hc.
  { eapply all_impl; [| exact H]. intros c Hc. apply negb_true_iff.
    apply negb_true_iff in Hc. destruct (Chr.is_c_space c) eqn:E; [| done].
    apply c_space_is_space in E. congruence. }
  clear H. unfold Str.strip_c.
  assert (Str.lstrip_c s = s) as ->.
  { destruct s as [|c s]; simpl in *; [done |].
    apply andb_true_iff in Hc as [Hc _]. apply negb_true_iff in Hc. by rewrite Hc. }
  induction s as [|c s IH]; simpl in *; [done |].
  apply andb_true_iff in Hc as [Hc Hs]. rewrite (IH Hs).
  apply negb_true_iff in Hc. by rewrite Hc.
Qed.

Lemma strip_c_chars p s :
  (∀ c, Chr.is_c_space c = true → p c = true) →
  Str.all p (Str.strip_c s) = true → Str.all p s = true.
Proof.
  intros Hsp. unfold Str.strip_c.
  assert (∀ u, Str.all p (Str.rstrip_c u) = true → Str.all p u = true) as Hr.
  { induction u as [|x u IH]; [done |]. simpl.
    destruct (Chr.is_c_space x && Str.is_empty (Str.rstrip_c u)) eqn:Hx.
    - apply andb_true_iff in Hx as [Hx He]. apply is_empty_true in He.
      intros _. rewrite (Hsp _ Hx). apply IH. by rewrite He.
    - simpl. intros [-> H]%andb_true_iff. by apply IH. }
  intros H%Hr. clear Hr. induction s as [|x s IH]; [done |]. simpl in *.
  destruct (Chr.is_c_space x) eqn:Hx.
  - by rewrite (Hsp _ Hx), IH.
  - done.
Qed.

Lemma replace_char_chars p q c by_ s :
  (∀ x, p x = true → q x = true) → q c = true →
  Str.all p (Str.replace_char c by_ s) = true → Str.all q s = true.
Proof.
  intros Hpq Hc. induction s as [|x s IH]; [done |]. simpl.
  destruct (Ascii.eqb x c) eqn:Hx.
  - apply Ascii.eqb_eq in Hx as ->. rewrite all_app.
    intros [_ H]%andb_true_iff. by rewrite Hc, IH.
  - simpl. intros [Hx' H]%andb_true_iff. by rewrite (Hpq _ Hx'), IH.
Qed.

Lemma lower_chars q s :
  Str.all q (Str.lower s) = Str.all (fun c => q (Chr.lower c)) s.
Proof. induction s as [|x s IH]; [done |]. simpl. by rewrite IH. Qed.

Lemma parse_sign_chars p s neg body :
  Float.parse_sign s = (neg, body) →
  p "+"%char = true → p "-"%char = true →
  Str.all p body = true → Str.all p s = true.
Proof.
  intros Hs Hplus Hminus Hb. destruct s as [|x s]; [by injection Hs as _ <- |].
  unfold Float.parse_sign in Hs.
  destruct (Ascii.eqb x "-") eqn:E1.
  { apply Ascii.eqb_eq in E1 as ->. injection Hs as _ <-. simpl. by rewrite Hminus. }
  destruct (Ascii.eqb x "+") eqn:E2.
  { apply Ascii.eqb_eq in E2 as ->. injection Hs as _ <-. simpl. by rewrite Hplus. }
  by injection Hs as _ <-.
Qed.

End decimal_facts.

Section float_of_string_facts.

Implicit Types (s t a b r ds : string) (c : ascii) (p q : ascii → bool).

Lemma parse_decimal_chars p s m e :
  Float.parse_decimal s = Some (m, e) →
  (∀ c, Chr.is_digit c = true → p c = true) →
  p "."%char = true → p "e"%char = true → p "E"%char = true →
  p "+"%char = true → p "-"%char = true →
  Str.all p s = true.
Proof.
  intros H Hd Hdot He HE Hplus Hminus. unfold Float.parse_decimal in H.
  destruct (Re.span Chr.is_digit s) as [ip r] eqn:H1.
  apply span_inv in H1 as (-> & Hip & _).
  rewrite all_app, (all_impl _ _ _ Hd Hip). simpl.
  assert (∀ r2, (if Str.is_empty r2 then True else
            match r2 with
            | String c r' =>
                Float.is_e c = true ∧
                ∃ eneg ds, Float.parse_sign r' = (eneg, ds) ∧
                           Str.all Chr.is_digit ds = true
            | EmptyString => True
            end) → Str.all p r2 = true) as Htail.
  { intros [|c r']; simpl; [done |]. intros (Hc & eneg & ds & Hs & Hds).
    apply andb_true_iff. split.
    - unfold Float.is_e in Hc. apply orb_true_iff in Hc as [Hc|Hc];
        apply Ascii.eqb_eq in Hc; by subst.
    - apply (parse_sign_chars _ _ _ _ Hs); [done | done |].
      by apply (all_impl _ _ _ Hd). }
  assert (∀ fp r2 ip',
    (if Str.is_empty ip' && Str.is_empty fp then None else
     match r2 with
     | EmptyString => Some (Str.digits_val (ip' +:+ fp), (- Z.of_nat (String.length fp))%Z)
     | String c r' =>
         if Float.is_e c then
           let '(eneg, ds) := Float.parse_sign r' in
           if negb (Str.is_empty ds) && Str.all Chr.is_digit ds then
             let x := Z.of_N (Str.digits_val ds) in
             Some (Str.digits_val (ip' +:+ fp),
                   ((if eneg then - x else x) - Z.of_nat (String.length fp))%Z)
           else None
         else None
     end) = Some (m, e) → Str.all p r2 = true) as Hexp.
  { intros fp r2 ip' H'. apply Htail.
    destruct (Str.is_empty ip' && Str.is_empty fp); [done |].
    destruct r2 as [|c r']; [done |]. simpl.
    destruct (Float.is_e c); [| done]. split; [done |].
    destruct (Float.parse_sign r') as [eneg ds].
    destruct (negb (Str.is_empty ds) && Str.all Chr.is_digit ds) eqn:E; [| done].
    apply andb_true_iff in E as [_ E]. by exists eneg, ds. }
  destruct r as [|c r']; [done |].
  destruct (Ascii.eqb c ".") eqn:Hc.
  - apply Ascii.eqb_eq in Hc as ->.
    destruct (Re.span Chr.is_digit r') as [fp r2] eqn:H2.
    apply span_inv in H2 as (-> & Hfp & _).
    simpl. rewrite Hdot, all_app, (all_impl _ _ _ Hd Hfp). simpl.
    by apply (Hexp fp r2 ip).
  - by apply (Hexp "" (String c r') ip).
Qed.

Lemma float_of_string_chars s f :
  Float.of_string s = Ok f → Str.all Float_spec.convertible_char s = true.
Proof.
  unfold Float.of_string.
  destruct (Float.strip_underscores _ _) as [t|] eqn:Ht; [| done].
  destruct (Float.parse_sign t) as [neg body] eqn:Hs.
  intros H.
  apply strip_c_chars.
  { intros c Hc%c_space_is_space.
    unfold Float_spec.convertible_char, Float_spec.numeric_char.
    rewrite Hc. by rewrite orb_true_r. }
  apply (strip_underscores_chars _ _ _ _ Ht); [done |].
  apply (parse_sign_chars _ _ _ _ Hs); [done | done |].
  set (letters := Float_spec.one_of ["e"; "i"; "n"; "f"; "t"; "y"; "a"]%char).
  assert (∀ w, Str.lower body = w → Str.all letters w = true →
            Str.all Float_spec.convertible_char body = true) as Hword.
  { intros w Hw Hall. rewrite <- Hw, lower_chars in Hall.
    eapply all_impl; [| exact Hall]. intros c Hc. simpl in Hc.
    unfold Float_spec.convertible_char. fold letters. rewrite Hc.
    by rewrite orb_true_r. }
  destruct (String.eqb (Str.lower body) "inf") eqn:E1.
  { apply String.eqb_eq in E1. by apply (Hword _ E1). }
  destruct (String.eqb (Str.lower body) "infinity") eqn:E2.
  { apply String.eqb_eq in E2. by apply (Hword _ E2). }
  simpl in H.
  destruct (String.eqb (Str.lower body) "nan") eqn:E3.
  { apply String.eqb_eq in E3. by apply (Hword _ E3). }
  destruct (Float.parse_decimal body) as [[m e]|] eqn:Hd; [| done].
  apply (parse_decimal_chars _ _ _ _ Hd); try done.
  intros c Hc. unfold Float_spec.convertible_char, Float_spec.numeric_char.
  by rewrite Hc.
Qed.

Lemma to_float_returns (o : option string) : returns (_to_float_de o).
Proof.
  unfold _to_float_de, returns. destruct o as [s|]; [| by eexists].
  destruct (Str.is_empty _); [by eexists |].
  destruct (Float.of_string _); simpl; by eexists.
Qed.

Lemma to_float_chars s f :
  _to_float_de (Some s) = Ok (Some f) →
  Str.all Float_spec.convertible_char s = true.
Proof.
  unfold _to_float_de. destruct (Str.is_empty _); [done |].
  destruct (Float.of_string _) as [f'|] eqn:Hf; [| done].
  intros _. apply float_of_string_chars in Hf.
  apply strip_chars.
  { intros c Hc. unfold Float_spec.convertible_char, Float_spec.numeric_char.
    rewrite Hc. by rewrite orb_true_r. }
  eapply (replace_char_chars Float_spec.convertible_char); [| | 
    eapply (replace_char_chars Float_spec.convertible_char); [| | exact Hf]];
    done.
Qed.

End float_of_string_facts.

(** ** Float literals *)

Section literal_facts.

Implicit Types (s t u v w a b r ds : string) (c prev q : ascii).

Lemma digit_not_underscore c : Chr.is_digit c = true → Ascii.eqb c "_" = false.
Proof.
  intros H. destruct (Ascii.eqb c "_") eqn:E; [| done].
  apply Ascii.eqb_eq in E. by subst.
Qed.

Lemma su_tail_inv s prev v ds r :
  Float.strip_underscores prev s = Some v → Re.span Chr.is_digit v = (ds, r) →
  Chr.is_digit prev = true ∨ Ascii.eqb prev "_" = true →
  ∃ a s', s = a +:+ s' ∧
    (if Ascii.eqb prev "_" then joined_runs Chr.is_digit "_" a
     else run_tail Chr.is_digit "_" a) ∧
    (ds = "" ↔ a = "") ∧ Literal.after_run r s'.
Proof.
  revert prev v ds r. induction s as [|c s IH]; intros prev v ds r Hsu Hspan Hprev.
  - simpl in Hsu. destruct (Ascii.eqb prev "_") eqn:E; [done |].
    injection Hsu as <-. injection Hspan as <- <-.
    exists "", "". split; [done |]. split; [constructor |]. split; [done |]. by left.
  - simpl in Hsu. destruct (Ascii.eqb c "_") eqn:Ec.
    + apply Ascii.eqb_eq in Ec as ->.
      destruct (Chr.is_digit prev) eqn:Ep; [| done].
      destruct (IH "_"%char v ds r Hsu Hspan (or_intror eq_refl))
        as (a & s' & -> & Ha & Hds & Hafter).
      simpl in Ha. destruct Ha as (d & t & -> & Hd & Ht).
      exists (String "_" (String d t)), s'. split; [done |].
      rewrite (digit_not_underscore _ Ep).
      split; [by constructor |]. split; [| done].
      split; [| done]. intros Hd0. apply Hds in Hd0. discriminate.
    + destruct (Ascii.eqb prev "_" && negb (Chr.is_digit c)) eqn:E2; [done |].
      destruct (Float.strip_underscores c s) as [v'|] eqn:Hv'; [| done].
      injection Hsu as <-. simpl in Hspan.
      destruct (Chr.is_digit c) eqn:Ed.
      * destruct (Re.span Chr.is_digit v') as [ds' r'] eqn:Hs'.
        injection Hspan as <- <-.
        destruct (IH c v' ds' r' Hv' Hs' (or_introl Ed))
          as (a & s' & -> & Ha & _ & Hafter).
        rewrite Ec in Ha.
        exists (String c a), s'. split; [done |]. split.
        { destruct (Ascii.eqb prev "_"); [by exists c, a | by constructor]. }
        split; [done | done].
      * injection Hspan as <- <-.
        rewrite andb_true_r in E2. rewrite E2.
        exists "", (String c s). split; [done |]. split; [constructor |].
        split; [done |]. right. by exists c, v', s.
Qed.

Lemma su_run_inv s prev v ds r :
  Float.strip_underscores prev s = Some v → Re.span Chr.is_digit v = (ds, r) →
  Chr.is_digit prev = false → Ascii.eqb prev "_" = false →
  ∃ a s', s = a +:+ s' ∧ (a = "" ∨ joined_runs Chr.is_digit "_" a) ∧
    (ds = "" ↔ a = "") ∧ Literal.after_run r s'.
Proof.
  intros Hsu Hspan Hp Hu. destruct s as [|c s].
  - simpl in Hsu. rewrite Hu in Hsu. injection Hsu as <-. injection Hspan as <- <-.
    exists "", "". split; [done |]. split; [by left |]. split; [done |]. by left.
  - simpl in Hsu. rewrite Hp, Hu in Hsu.
    destruct (Ascii.eqb c "_") eqn:Ec; [done |]. simpl in Hsu.
    destruct (Float.strip_underscores c s) as [v'|] eqn:Hv'; [| done].
    injection Hsu as <-. simpl in Hspan.
    destruct (Chr.is_digit c) eqn:Ed.
    + destruct (Re.span Chr.is_digit v') as [ds' r'] eqn:Hs'.
      injection Hspan as <- <-.
      destruct (su_tail_inv s c v' ds' r' Hv' Hs' (or_introl Ed))
        as (a & s' & -> & Ha & _ & Hafter).
      rewrite Ec in Ha.
      exists (String c a), s'. split; [done |].
      split; [right; by exists c, a |]. split; [done | done].
    + injection Hspan as <- <-.
      exists "", (String c s). split; [done |]. split; [by left |].
      split; [done |]. right. by exists c, v', s.
Qed.

(** Without digits there is no underscore to remove. *)
Lemma su_no_digit s prev v :
  Float.strip_underscores prev s = Some v → Chr.is_digit prev = false →
  Str.all (fun c => negb (Chr.is_digit c)) v = true → s = v.
Proof.
  revert prev v. induction s as [|c s IH]; intros prev v Hsu Hp Hv.
  - simpl in Hsu. by destruct (Ascii.eqb prev "_"); [| injection Hsu as <-].
  - simpl in Hsu. rewrite Hp in Hsu.
    destruct (Ascii.eqb c "_") eqn:Ec; [done |].
    destruct (Ascii.eqb prev "_" && negb (Chr.is_digit c)); [done |].
    destruct (Float.strip_underscores c s) as [v'|] eqn:Hv'; [| done].
    injection Hsu as <-. simpl in Hv. apply andb_true_iff in Hv as [Hc Hv].
    apply negb_true_iff in Hc. by rewrite (IH c v' Hv' Hc Hv).
Qed.

Lemma su_sign_inv u v neg body :
  Float.strip_underscores "000" u = Some v → Float.parse_sign v = (neg, body) →
  ∃ sg w q, Literal.sign sg ∧ u = sg +:+ w ∧ Float.strip_underscores q w = Some body ∧
    Chr.is_digit q = false ∧ Ascii.eqb q "_" = false.
Proof.
  intros Hsu Hsign. destruct u as [|c u].
  - injection Hsu as <-. injection Hsign as _ <-.
    exists "", "", "000"%char. repeat split; by left.
  - pose proof Hsu as Hsu0. simpl in Hsu.
    destruct (Ascii.eqb c "_") eqn:Ec; [done |]. simpl in Hsu.
    destruct (Float.strip_underscores c u) as [v'|] eqn:Hv'; [| done].
    injection Hsu as <-. unfold Float.parse_sign in Hsign.
    destruct (Ascii.eqb c "-") eqn:E1.
    { apply Ascii.eqb_eq in E1 as ->. injection Hsign as _ <-.
      exists "-", u, "-"%char. repeat split; [by right; right | done]. }
    destruct (Ascii.eqb c "+") eqn:E2.
    { apply Ascii.eqb_eq in E2 as ->. injection Hsign as _ <-.
      exists "+", u, "+"%char. repeat split; [by right; left | done]. }
    injection Hsign as _ <-.
    exists "", (String c u), "000"%char. repeat split; [by left | done].
Qed.

Lemma su_exponent_inv c w r eneg ds :
  Float.strip_underscores c w = Some r → Float.is_e c = true → Float.parse_sign r = (eneg, ds) →
  ds ≠ "" → Str.all Chr.is_digit ds = true →
  ∃ sg a, Literal.sign sg ∧ Literal.digitpart a ∧ w = sg +:+ a.
Proof.
  intros Hsu He Hsign Hne Hall.
  assert (Chr.is_digit c = false ∧ Ascii.eqb c "_" = false) as [Hcd Hcu].
  { unfold Float.is_e in He. apply orb_true_iff in He as [E|E];
      apply Ascii.eqb_eq in E; by subst. }
  assert (∀ q w' , Float.strip_underscores q w' = Some ds → Chr.is_digit q = false →
            Ascii.eqb q "_" = false → Literal.digitpart w') as Hdigits.
  { intros q w' Hsu' Hp Hu.
    destruct (su_run_inv w' q ds ds "" Hsu' (span_all _ _ Hall) Hp Hu)
      as (a & s' & -> & Ha & Hds & Hafter).
    destruct Hafter as [[_ ->]|(? & ? & ? & ? & _)]; [| done].
    rewrite str_app_nil_r. destruct Ha as [->|Ha]; [| done].
    by destruct Hne, (proj2 Hds). }
  destruct w as [|x w].
  - simpl in Hsu. rewrite Hcu in Hsu. injection Hsu as <-.
    injection Hsign as _ <-. done.
  - pose proof Hsu as Hsu0. simpl in Hsu. rewrite Hcd, Hcu in Hsu.
    destruct (Ascii.eqb x "_") eqn:Ex; [done |]. simpl in Hsu.
    destruct (Float.strip_underscores x w) as [v'|] eqn:Hv'; [| done].
    injection Hsu as <-. unfold Float.parse_sign in Hsign.
    destruct (Ascii.eqb x "-") eqn:E1.
    { apply Ascii.eqb_eq in E1 as ->. injection Hsign as _ <-.
      exists "-", w. split; [by right; right |]. split; [| done].
      by apply (Hdigits "-"%char). }
    destruct (Ascii.eqb x "+") eqn:E2.
    { apply Ascii.eqb_eq in E2 as ->. injection Hsign as _ <-.
      exists "+", w. split; [by right; left |]. split; [| done].
      by apply (Hdigits "+"%char). }
    injection Hsign as _ <-.
    exists "", (String x w). split; [by left |]. split; [| done].
    by apply (Hdigits c).
Qed.

Lemma lower_digit c : Chr.is_digit (Chr.lower c) = Chr.is_digit c.
Proof. destruct c as [[] [] [] [] [] [] [] []]; vm_compute; reflexivity. Qed.

Lemma lower_underscore c : Ascii.eqb (Chr.lower c) "_" = Ascii.eqb c "_".
Proof. destruct c as [[] [] [] [] [] [] [] []]; vm_compute; reflexivity. Qed.

Lemma lower_all (p : ascii → bool) s :
  (∀ c, p (Chr.lower c) = p c) → Str.all p (Str.lower s) = Str.all p s.
Proof. intros Hp. induction s as [|c s IH]; [done |]. simpl. by rewrite Hp, IH. Qed.

Lemma special_no_digit w :
  Literal.special w → Str.all (fun c => negb (Chr.is_digit c)) w = true.
Proof.
  intros H.
  rewrite <- (lower_all (fun c => negb (Chr.is_digit c)) w)
    by (intros c; by rewrite lower_digit).
  by destruct H as [-> | [-> | ->]].
Qed.

Lemma special_no_underscore w :
  Literal.special w → Str.all (fun c => negb (Ascii.eqb c "_")) w = true.
Proof.
  intros H.
  rewrite <- (lower_all (fun c => negb (Ascii.eqb c "_")) w)
    by (intros c; by rewrite lower_underscore).
  by destruct H as [-> | [-> | ->]].
Qed.

Lemma special_test w :
  Literal.special w ↔
  String.eqb (Str.lower w) "inf" || String.eqb (Str.lower w) "infinity"
  || String.eqb (Str.lower w) "nan" = true.
Proof.
  unfold Literal.special. rewrite !orb_true_iff, !String.eqb_eq. tauto.
Qed.

(** What [float()] converts is a float literal. *)
Lemma of_string_literal t f :
  Float.of_string t = Ok f → Literal.floatvalue (Str.strip_c t).
Proof.
  unfold Float.of_string.
  destruct (Float.strip_underscores "000" (Str.strip_c t)) as [v|] eqn:Hv; [| done].
  destruct (Float.parse_sign v) as [neg body] eqn:Hsign.
  destruct (su_sign_inv _ _ _ _ Hv Hsign) as (sg & w & q & Hsg & -> & Hw & Hp & Hu).
  intros H. exists sg, w. split; [done |]. split; [done |].
  destruct (String.eqb (Str.lower body) "inf" || String.eqb (Str.lower body) "infinity"
            || String.eqb (Str.lower body) "nan") eqn:Hsp.
  { apply special_test in Hsp. left.
    by rewrite (su_no_digit _ _ _ Hw Hp (special_no_digit _ Hsp)). }
  right.
  assert (∃ m e, Float.parse_decimal body = Some (m, e)) as (m & e & Hd).
  { apply orb_false_iff in Hsp as [Hsp Hnan].
    rewrite Hsp, Hnan in H.
    destruct (Float.parse_decimal body) as [[m e]|]; [by eexists _, _ | done]. }
  clear H Hsp. unfold Float.parse_decimal in Hd.
  destruct (Re.span Chr.is_digit body) as [ip r1] eqn:H1.
  destruct (su_run_inv _ _ _ _ _ Hw H1 Hp Hu) as (a & w1 & -> & Ha & Hip & Hafter1).
  (* the exponent, after the number [num] *)
  assert (∀ c w2 r', Float.is_e c = true → Float.strip_underscores c w2 = Some r' →
            (let '(eneg, ds) := Float.parse_sign r' in
             negb (Str.is_empty ds) && Str.all Chr.is_digit ds) = true →
            Literal.exponent (String c w2)) as Hexp.
  { intros c w2 r' He Hsu Hok. destruct (Float.parse_sign r') as [eneg ds] eqn:Hs.
    apply andb_true_iff in Hok as [Hne Hall]. apply negb_true_iff, is_empty_false in Hne.
    destruct (su_exponent_inv _ _ _ _ _ Hsu He Hs Hne Hall) as (sg' & a' & ? & ? & ->).
    right. by exists c, sg', a'. }
  destruct Hafter1 as [[-> ->]|(c & r' & w2 & -> & -> & Hcd & Hcu & Hw2)].
  - (* digits only *)
    simpl in Hd. rewrite andb_true_r in Hd.
    destruct (Str.is_empty ip) eqn:Ei; [done |]. apply is_empty_false in Ei.
    destruct Ha as [->|Ha]; [by destruct Ei, (proj2 Hip) |].
    exists a, "". split; [left; exists a; by split; [| left] |].
    split; [by left | done].
  - destruct (Ascii.eqb c ".") eqn:Ec.
    + apply Ascii.eqb_eq in Ec as ->.
      destruct (Re.span Chr.is_digit r') as [fp r2] eqn:H2.
      destruct (su_run_inv _ _ _ _ _ Hw2 H2 eq_refl eq_refl)
        as (b & w3 & -> & Hb & Hfp & Hafter2).
      destruct (Str.is_empty ip && Str.is_empty fp) eqn:Eboth; [done |].
      assert (Literal.number (a +:+ "." +:+ b)) as Hnum.
      { destruct Hb as [->|Hb].
        - destruct Ha as [->|Ha].
          + rewrite (proj2 Hip eq_refl), (proj2 Hfp eq_refl) in Eboth. done.
          + left. exists a. split; [done |]. right. by rewrite str_app_nil_r.
        - right. by exists a, b. }
      destruct Hafter2 as [[-> ->]|(c2 & r2' & w4 & -> & -> & _ & _ & Hw4)].
      * exists (a +:+ "." +:+ b), "". split; [done |]. split; [by left |].
        by rewrite !str_app_nil_r.
      * destruct (Float.is_e c2) eqn:He; [| done].
        exists (a +:+ "." +:+ b), (String c2 w4). split; [done |].
        split; [| by rewrite !str_app_assoc].
        apply (Hexp c2 w4 r2' He Hw4).
        destruct (Float.parse_sign r2') as [eneg ds].
        by destruct (negb (Str.is_empty ds) && Str.all Chr.is_digit ds).
    + simpl in Hd. rewrite andb_true_r in Hd.
      destruct (Str.is_empty ip) eqn:Ei; [done |]. apply is_empty_false in Ei.
      destruct Ha as [->|Ha]; [by destruct Ei, (proj2 Hip) |].
      destruct (Float.is_e c) eqn:He; [| done].
      exists a, (String c w2). split; [left; exists a; by split; [| left] |].
      split; [| done].
      apply (Hexp c w2 r' He Hw2).
      destruct (Float.parse_sign r') as [eneg ds].
      by destruct (negb (Str.is_empty ds) && Str.all Chr.is_digit ds).
Qed.

End literal_facts.

Section literal_complete.

Implicit Types (s t u v w a b r ds ip fp ex : string) (c prev q : ascii).

Lemma su_class q1 q2 s :
  Chr.is_digit q1 = Chr.is_digit q2 → Ascii.eqb q1 "_" = Ascii.eqb q2 "_" →
  Float.strip_underscores q1 s = Float.strip_underscores q2 s.
Proof.
  intros H1 H2. destruct s as [|c s]; simpl; [by rewrite H2 | by rewrite H1, H2].
Qed.

Lemma su_char c prev s :
  Ascii.eqb c "_" = false → Ascii.eqb prev "_" = false →
  Float.strip_underscores prev (String c s)
  = String c <$> Float.strip_underscores c s.
Proof. intros Hc Hp. simpl. by rewrite Hc, Hp. Qed.

Lemma keep_all (p : ascii → bool) s : Str.all p (Text.keep p s) = true.
Proof.
  induction s as [|c s IH]; [done |]. simpl.
  destruct (p c) eqn:E; [| done]. simpl. by rewrite E.
Qed.

Lemma su_tail_fwd a :
  run_tail Chr.is_digit "_" a → ∀ prev s, Chr.is_digit prev = true →
  Float.strip_underscores prev (a +:+ s)
  = String.append (Text.keep Chr.is_digit a) <$> Float.strip_underscores "0" s.
Proof.
  induction 1 as [|c t Hc _ IH|c t Hc _ IH]; intros prev s Hp.
  - rewrite str_app_nil_l.
    rewrite (su_class prev "0" s Hp (digit_not_underscore _ Hp)).
    by destruct (Float.strip_underscores "0" s).
  - rewrite str_app_cons. simpl.
    rewrite (digit_not_underscore _ Hc), Hc, andb_false_r.
    rewrite (IH c s Hc). by destruct (Float.strip_underscores "0" s).
  - rewrite !str_app_cons. simpl.
    rewrite Hp, (digit_not_underscore _ Hc), Hc. simpl.
    rewrite (IH c s Hc). by destruct (Float.strip_underscores "0" s).
Qed.

Lemma su_joined_fwd a prev s :
  joined_runs Chr.is_digit "_" a → Ascii.eqb prev "_" = false →
  Float.strip_underscores prev (a +:+ s)
  = String.append (Text.keep Chr.is_digit a) <$> Float.strip_underscores "0" s.
Proof.
  intros (c & t & -> & Hc & Ht) Hp. rewrite str_app_cons.
  rewrite (su_char _ _ _ (digit_not_underscore _ Hc) Hp).
  rewrite (su_tail_fwd t Ht c s Hc). simpl. rewrite Hc.
  by destruct (Float.strip_underscores "0" s).
Qed.

Lemma joined_digits a :
  joined_runs Chr.is_digit "_" a →
  Text.keep Chr.is_digit a ≠ "" ∧ Str.all Chr.is_digit (Text.keep Chr.is_digit a) = true.
Proof.
  intros (c & t & -> & Hc & _). split; [| apply keep_all].
  simpl. by rewrite Hc.
Qed.

Lemma sign_cases sg :
  Literal.sign sg →
  sg = "" ∨ ∃ c, sg = String c "" ∧ (Ascii.eqb c "-" || Ascii.eqb c "+" = true) ∧
                 Ascii.eqb c "_" = false.
Proof.
  intros [->|[->| ->]]; [by left | right; by exists "+"%char | right; by exists "-"%char].
Qed.

Lemma parse_sign_plain c s :
  Ascii.eqb c "-" = false → Ascii.eqb c "+" = false →
  Float.parse_sign (String c s) = (false, String c s).
Proof. intros H1 H2. unfold Float.parse_sign. by rewrite H1, H2. Qed.

Lemma parse_sign_signed sg s :
  Literal.sign sg →
  (sg = "" → match s with
             | String c _ => Ascii.eqb c "-" = false ∧ Ascii.eqb c "+" = false
             | EmptyString => True
             end) →
  ∃ neg, Float.parse_sign (sg +:+ s) = (neg, s).
Proof.
  intros [->|[->| ->]] Hs; [| by exists false | by exists true].
  exists false. rewrite str_app_nil_l. destruct s as [|c s]; [done |].
  destruct (Hs eq_refl) as [H1 H2]. by apply parse_sign_plain.
Qed.

Lemma digit_not_sign c :
  Chr.is_digit c = true → Ascii.eqb c "-" = false ∧ Ascii.eqb c "+" = false.
Proof.
  intros H. split.
  - destruct (Ascii.eqb c "-") eqn:E; [| done]. apply Ascii.eqb_eq in E. by subst.
  - destruct (Ascii.eqb c "+") eqn:E; [| done]. apply Ascii.eqb_eq in E. by subst.
Qed.

(** The exponent of a literal, once its underscores are removed. *)
Lemma su_exponent_fwd ex :
  Literal.exponent ex →
  ∃ ex', plain_exponent ex' ∧
    ∀ prev, Ascii.eqb prev "_" = false → Float.strip_underscores prev ex = Some ex'.
Proof.
  intros [->|(c & sg & a & He & Hsg & Ha & ->)].
  { exists "". split; [by left |]. intros prev Hp. simpl. by rewrite Hp. }
  assert (Ascii.eqb c "_" = false) as Hcu.
  { unfold Float.is_e in He. apply orb_true_iff in He as [E|E];
      apply Ascii.eqb_eq in E; by subst. }
  destruct (joined_digits a Ha) as [Hne Hall].
  exists (String c (sg +:+ Text.keep Chr.is_digit a)). split.
  { right. by exists c, sg, (Text.keep Chr.is_digit a). }
  intros prev Hp. rewrite (su_char _ _ _ Hcu Hp).
  rewrite <- (str_app_nil_r a).
  destruct (sign_cases sg Hsg) as [->|(x & -> & _ & Hxu)].
  - rewrite !str_app_nil_l, (su_joined_fwd a c "" Ha Hcu). simpl.
    by rewrite !str_app_nil_r.
  - rewrite !str_app_cons, !str_app_nil_l, (su_char _ _ _ Hxu Hcu).
    rewrite (su_joined_fwd a x "" Ha Hxu). simpl. by rewrite !str_app_nil_r.
Qed.

Lemma plain_exponent_head r :
  plain_exponent r →
  match r with
  | String c _ => Chr.is_digit c = false ∧ Ascii.eqb c "." = false
  | EmptyString => True
  end.
Proof.
  intros [->|(c & sg & ds & -> & He & _)]; [done |].
  unfold Float.is_e in He. apply orb_true_iff in He as [E|E];
    apply Ascii.eqb_eq in E; by subst.
Qed.

Lemma plain_exponent_reads r :
  plain_exponent r →
  match r with
  | EmptyString => True
  | String c r' =>
      Float.is_e c = true ∧
      ∃ eneg ds, Float.parse_sign r' = (eneg, ds) ∧
                 negb (Str.is_empty ds) && Str.all Chr.is_digit ds = true
  end.
Proof.
  intros [->|(c & sg & ds & -> & He & Hsg & Hne & Hall)]; [done |].
  split; [done |].
  destruct (parse_sign_signed sg ds Hsg) as [neg Hs].
  { intros _. destruct ds as [|d ds]; [done |].
    simpl in Hall. apply andb_true_iff in Hall as [Hd _]. by apply digit_not_sign. }
  exists neg, ds. split; [done |].
  apply is_empty_false in Hne. by rewrite Hne, Hall.
Qed.

(** [parse_decimal] reads digits, maybe a point and digits, and an
    exponent. *)
Lemma parse_decimal_whole ip r :
  ip ≠ "" → Str.all Chr.is_digit ip = true → plain_exponent r →
  ∃ m e, Float.parse_decimal (ip +:+ r) = Some (m, e).
Proof.
  intros Hne Hip Hr. unfold Float.parse_decimal.
  pose proof (plain_exponent_head r Hr) as Hhead.
  pose proof (plain_exponent_reads r Hr) as Hreads.
  apply is_empty_false in Hne.
  destruct r as [|c r'].
  - rewrite str_app_nil_r, span_all by done. simpl. rewrite Hne. simpl. by eexists _, _.
  - destruct Hhead as [Hcd Hcp]. rewrite span_app_stop by done.
    rewrite Hcp, Hne. simpl.
    destruct Hreads as (He & eneg & ds & Hs & Hok). rewrite He, Hs, Hok.
    by eexists _, _.
Qed.

Lemma parse_decimal_point ip fp r :
  Str.all Chr.is_digit ip = true → Str.all Chr.is_digit fp = true →
  Str.is_empty ip && Str.is_empty fp = false → plain_exponent r →
  ∃ m e, Float.parse_decimal (ip +:+ "." +:+ fp +:+ r) = Some (m, e).
Proof.
  intros Hip Hfp Hne Hr. unfold Float.parse_decimal.
  pose proof (plain_exponent_head r Hr) as Hhead.
  pose proof (plain_exponent_reads r Hr) as Hreads.
  change (ip +:+ "." +:+ fp +:+ r) with (ip +:+ String "." (fp +:+ r)).
  rewrite span_app_stop by done. rewrite Ascii.eqb_refl.
  destruct r as [|c r'].
  - rewrite str_app_nil_r, span_all by done. rewrite Hne. by eexists _, _.
  - destruct Hhead as [Hcd Hcp]. rewrite span_app_stop by done.
    rewrite Hne.
    destruct Hreads as (He & eneg & ds & Hs & Hok). rewrite He, Hs, Hok.
    by eexists _, _.
Qed.

(** A number and its exponent, once the underscores are removed, and what
    [parse_decimal] makes of them. *)
Lemma su_number_fwd num ex prev :
  Literal.number num → Literal.exponent ex → Ascii.eqb prev "_" = false →
  ∃ c body, Float.strip_underscores prev (num +:+ ex) = Some (String c body) ∧
    (Chr.is_digit c = true ∨ c = "."%char) ∧
    ∃ m e, Float.parse_decimal (String c body) = Some (m, e).
Proof.
  intros Hnum Hex Hp.
  destruct (su_exponent_fwd ex Hex) as (ex' & Hplain & Hsu).
  assert (∀ a, joined_runs Chr.is_digit "_" a →
            ∃ c x, Text.keep Chr.is_digit a = String c x ∧ Chr.is_digit c = true)
    as Hhead.
  { intros a (c & t & -> & Hc & _). simpl. rewrite Hc. by eexists _, _. }
  destruct Hnum as [(a & Ha & [->| ->])|(a & b & Ha & Hb & ->)].
  - (* digits *)
    destruct (joined_digits a Ha) as [Hne Hall].
    destruct (Hhead a Ha) as (c & x & Hk & Hc).
    exists c, (x +:+ ex'). rewrite <- str_app_cons, <- Hk.
    split; [| split; [by left | by apply parse_decimal_whole]].
    rewrite (su_joined_fwd a prev ex Ha Hp), (Hsu "0"%char eq_refl). done.
  - (* digits and a point *)
    destruct (joined_digits a Ha) as [Hne Hall].
    destruct (Hhead a Ha) as (c & x & Hk & Hc).
    exists c, (x +:+ "." +:+ ex'). rewrite <- str_app_cons, <- Hk.
    split; [| split; [by left |]].
    + rewrite str_app_assoc, (su_joined_fwd a prev _ Ha Hp). snorm.
      rewrite (su_char "." "0" ex eq_refl eq_refl), (Hsu "."%char eq_refl).
      simpl. by snorm.
    + apply (parse_decimal_point _ "" ex'); [done | done | | done].
      apply is_empty_false in Hne. by rewrite Hne.
  - (* digits or none, a point and digits *)
    destruct (joined_digits b Hb) as [Hbne Hball].
    assert (Float.strip_underscores "." (b +:+ ex)
            = Some (Text.keep Chr.is_digit b +:+ ex')) as Hb'.
    { rewrite (su_joined_fwd b "." ex Hb eq_refl), (Hsu "0"%char eq_refl). done. }
    apply is_empty_false in Hbne.
    destruct Ha as [->|Ha].
    + exists "."%char, (Text.keep Chr.is_digit b +:+ ex').
      split; [| split; [by right |]].
      * snorm. rewrite (su_char "." prev _ eq_refl Hp), Hb'. done.
      * apply (parse_decimal_point "" _ ex'); [done | done | | done].
        by rewrite Hbne.
    + destruct (joined_digits a Ha) as [Hne Hall].
      destruct (Hhead a Ha) as (c & x & Hk & Hc).
      exists c, (x +:+ "." +:+ Text.keep Chr.is_digit b +:+ ex').
      rewrite <- str_app_cons, <- Hk.
      split; [| split; [by left |]].
      * rewrite !str_app_assoc, (su_joined_fwd a prev _ Ha Hp). snorm.
        rewrite (su_char "." "0" _ eq_refl eq_refl), Hb'. simpl. by snorm.
      * apply parse_decimal_point; [done | done | | done].
        by rewrite Hbne, andb_false_r.
Qed.

Lemma not_special_head c body (w : string) :
  Chr.is_digit c = true ∨ c = "."%char →
  w = "inf" ∨ w = "infinity" ∨ w = "nan" →
  String.eqb (Str.lower (String c body)) w = false.
Proof.
  intros Hc Hw. apply String.eqb_neq. simpl. intros H.
  assert (Chr.is_digit (Chr.lower c) = true ∨ Chr.lower c = "."%char) as Hl.
  { destruct Hc as [Hc| ->]; [left; by rewrite lower_digit | by right]. }
  destruct Hw as [->|[->| ->]]; injection H as H _; rewrite H in Hl;
    by destruct Hl.
Qed.

(** A float literal is converted. *)
Lemma literal_of_string t :
  Literal.floatvalue (Str.strip_c t) → ∃ f, Float.of_string t = Ok f.
Proof.
  intros (sg & w & Hsg & Ht & Hw). unfold Float.of_string. rewrite Ht.
  destruct Hw as [Hsp|(num & ex & Hnum & Hex & ->)].
  - (* inf, infinity, nan *)
    rewrite strip_underscores_absent; [| done |].
    2:{ rewrite all_app, (special_no_underscore w Hsp), andb_true_r.
        by destruct Hsg as [->|[->| ->]]. }
    destruct (parse_sign_signed sg w Hsg) as [neg ->].
    { intros _. destruct w as [|c w]; [done |].
      split; (destruct (Ascii.eqb c _) eqn:E; [| done]);
        apply Ascii.eqb_eq in E; subst c;
        destruct Hsp as [H|[H|H]]; discriminate H. }
    apply special_test in Hsp.
    destruct (String.eqb (Str.lower w) "inf" || String.eqb (Str.lower w) "infinity");
      [by eexists |].
    simpl in Hsp. rewrite Hsp. by eexists.
  - (* a number *)
    assert (∃ q, Ascii.eqb q "_" = false ∧
              Float.strip_underscores "000" (sg +:+ num +:+ ex)
              = String.append sg <$> Float.strip_underscores q (num +:+ ex))
      as (q & Hq & ->).
    { destruct (sign_cases sg Hsg) as [->|(x & -> & _ & Hxu)].
      - exists "000"%char. split; [done |]. rewrite str_app_nil_l.
        by destruct (Float.strip_underscores "000" (num +:+ ex)).
      - exists x. split; [done |].
        rewrite str_app_cons, str_app_nil_l, (su_char x "000" _ Hxu eq_refl).
        by destruct (Float.strip_underscores x (num +:+ ex)). }
    destruct (su_number_fwd num ex q Hnum Hex Hq) as (c & body & -> & Hc & m & e & Hd).
    simpl fmap.
    destruct (parse_sign_signed sg (String c body) Hsg) as [neg ->].
    { intros _. destruct Hc as [Hc| ->]; [by apply digit_not_sign | done]. }
    rewrite !(not_special_head c body) by auto.
    simpl. rewrite Hd. by eexists.
Qed.

End literal_complete.

(** [float()] converts exactly the float literals. *)
Lemma float_of_string_literal t :
  (∃ f, Float.of_string t = Ok f) ↔ Literal.floatvalue (Str.strip_c t).
Proof.
  split; [intros [f Hf]; by apply (of_string_literal t f) | apply literal_of_string].
Qed.

Section thousands.

Implicit Types (s t a b r ds g cents : string) (c : ascii) (groups : list string).

Lemma digit_no (x : ascii) s :
  Chr.is_digit x = false → Str.all Chr.is_digit s = true →
  Str.all (fun c => negb (Ascii.eqb c x)) s = true.
Proof.
  intros Hx. apply all_impl. intros c Hc. apply negb_true_iff.
  destruct (Ascii.eqb c x) eqn:E; [| done].
  apply Ascii.eqb_eq in E. congruence.
Qed.

Lemma digits_no_space s :
  Str.all Chr.is_digit s = true →
  Str.all (fun c => negb (Chr.is_space c)) s = true.
Proof.
  apply all_impl. intros c Hc. by rewrite (digit_not_space _ Hc).
Qed.

Lemma concat_groups_digits groups :
  Forall Float_spec.digit_group groups → Str.all Chr.is_digit (String.concat "" groups) = true.
Proof.
  induction 1 as [|g gs [_ Hg] _ IH]; [done |].
  destruct gs as [|g' gs]; [done |].
  change (String.concat "" (g :: g' :: gs))
    with (g +:+ "" +:+ String.concat "" (g' :: gs)).
  by rewrite str_app_nil_l, all_app, Hg, IH.
Qed.

Lemma concat_groups_nonempty groups :
  groups ≠ [] → Forall Float_spec.digit_group groups → String.concat "" groups ≠ "".
Proof.
  intros Hne Hall. destruct Hall as [|g gs [Hg _] _]; [done |].
  destruct gs as [|g' gs]; [done |].
  change (String.concat "" (g :: g' :: gs))
    with (g +:+ "" +:+ String.concat "" (g' :: gs)).
  by destruct g.
Qed.

Lemma replace_dot_groups groups :
  Forall Float_spec.digit_group groups →
  Str.replace_char "." "" (String.concat "." groups) = String.concat "" groups.
Proof.
  induction 1 as [|g gs [_ Hg] _ IH]; [done |].
  destruct gs as [|g' gs].
  - simpl. by apply replace_char_absent, digit_no.
  - change (String.concat "." (g :: g' :: gs))
      with (g +:+ "." +:+ String.concat "." (g' :: gs)).
    change (String.concat "" (g :: g' :: gs))
      with (g +:+ "" +:+ String.concat "" (g' :: gs)).
    rewrite !replace_char_app, IH.
    rewrite (replace_char_absent _ _ g) by by apply digit_no.
    done.
Qed.

Lemma groups_no_space groups :
  Forall Float_spec.digit_group groups →
  Str.all (fun c => negb (Chr.is_space c)) (String.concat "." groups) = true.
Proof.
  induction 1 as [|g gs [_ Hg] _ IH]; [done |].
  destruct gs as [|g' gs].
  - simpl. by apply digits_no_space.
  - change (String.concat "." (g :: g' :: gs))
      with (g +:+ "." +:+ String.concat "." (g' :: gs)).
    by rewrite !all_app, IH, digits_no_space.
Qed.

Lemma groups_no_comma groups :
  Forall Float_spec.digit_group groups →
  Str.all (fun c => negb (Ascii.eqb c ",")) (String.concat "" groups) = true.
Proof. intros H. by apply digit_no, concat_groups_digits. Qed.

(** [float] of digits, a point and digits *)
Lemma float_of_plain_decimal w cents :
  w ≠ "" → Str.all Chr.is_digit w = true → Str.all Chr.is_digit cents = true →
  Float.of_string (w +:+ "." +:+ cents)
    = Ok (FDec false (Str.digits_val (w +:+ cents))
               (- Z.of_nat (String.length cents))).
Proof.
  intros Hne Hw Hc. unfold Float.of_string.
  rewrite strip_c_no_space.
  2:{ by rewrite !all_app, (digits_no_space w), (digits_no_space cents). }
  rewrite strip_underscores_absent; [| done |].
  2:{ by rewrite !all_app, (digit_no "_" w), (digit_no "_" cents). }
  destruct w as [|x w]; [done |]. simpl in Hw.
  apply andb_true_iff in Hw as [Hx Hw].
  assert (Ascii.eqb x "-" = false) as Hm.
  { destruct (Ascii.eqb x "-") eqn:E; [| done]. apply Ascii.eqb_eq in E. by subst. }
  assert (Ascii.eqb x "+" = false) as Hp.
  { destruct (Ascii.eqb x "+") eqn:E; [| done]. apply Ascii.eqb_eq in E. by subst. }
  assert (Chr.lower x = x) as Hlow.
  { unfold Chr.lower. destruct (Chr.is_upper x) eqn:E; [| done].
    exfalso. revert Hx E. unfold Chr.is_digit, Chr.is_upper, Chr.between.
    intros [_ H1%N.leb_le]%andb_true_iff [H2%N.leb_le _]%andb_true_iff. lia. }
  rewrite !str_app_cons. unfold Float.parse_sign. rewrite Hm, Hp.
  assert (∀ y rest w', Chr.is_digit y = false →
            String.eqb (Str.lower (String x rest)) (String y w') = false) as Hno.
  { intros y rest w' Hy. simpl. rewrite Hlow.
    destruct (Ascii.eqb x y) eqn:E; [| done].
    apply Ascii.eqb_eq in E. congruence. }
  rewrite str_app_nil_l.
  rewrite (Hno "i"%char _ "nf"), (Hno "i"%char _ "nfinity"), (Hno "n"%char _ "an")
    by done.
  simpl orb. cbv iota.
  unfold Float.parse_decimal.
  rewrite <- str_app_cons.
  rewrite (span_app_stop Chr.is_digit (String x w) "." cents);
    [| by simpl; rewrite Hx | done].
  simpl. rewrite span_all by done. simpl. done.
Qed.

Lemma to_float_thousands s groups cents :
  Float_spec.thousands_form s groups cents →
  _to_float_de (Some s)
    = Ok (Some (FDec false
                  (Str.digits_val (String.concat "" groups)
                     * 10 ^ N.of_nat (String.length cents)
                   + Str.digits_val cents)
                  (- Z.of_nat (String.length cents)))).
Proof.
  intros (Hne & Hgroups & Hcne & Hcents & ->). unfold _to_float_de.
  rewrite strip_no_space.
  2:{ by rewrite !all_app, groups_no_space, (digits_no_space cents). }
  assert (Str.is_empty (String.concat "." groups +:+ "," +:+ cents) = false) as ->.
  { apply is_empty_false. intros H. apply (f_equal String.length) in H.
    rewrite !str_length_app in H. simpl in H. lia. }
  rewrite !replace_char_app, replace_dot_groups by done.
  rewrite (replace_char_absent "." "" cents) by by apply digit_no.
  rewrite (replace_char_absent "," "." (String.concat "" groups))
    by by apply groups_no_comma.
  rewrite (replace_char_absent "," "." cents) by by apply digit_no.
  change (Str.replace_char "." "" ",") with ",".
  change (Str.replace_char "," "." ",") with ".".
  rewrite float_of_plain_decimal;
    [| by apply concat_groups_nonempty | by apply concat_groups_digits | done].
  simpl. by rewrite digits_val_app.
Qed.

End thousands.

Lemma floatvalue_nonempty : ¬ Literal.floatvalue "".
Proof. intros H. by destruct (literal_of_string "" H). Qed.

Lemma to_float_none_iff s :
  _to_float_de (Some s) = Ok None ↔
  ¬ Literal.floatvalue (Str.strip_c (point_notation s)).
Proof.
  unfold _to_float_de, point_notation.
  destruct (Str.is_empty (Str.strip s)) eqn:E.
  - apply is_empty_true in E. rewrite E. split; [| done].
    intros _. apply floatvalue_nonempty.
  - rewrite <- float_of_string_literal.
    destruct (Float.of_string _) as [f|e]; simpl.
    + split; [done |]. intros H. destruct H. by exists f.
    + split; [| done]. by intros _ [f Hf].
Qed.

(** ** Rounding to binary64 *)

Section binary64_facts.
Local Open Scope Z_scope.

Lemma div_half_even_spec p q :
  0 < q →
  2 * Z.abs (Binary64.div_half_even p q * q - p) ≤ q ∧
  (2 * Z.abs (Binary64.div_half_even p q * q - p) = q →
   Z.even (Binary64.div_half_even p q) = true).
Proof.
  intros Hq. unfold Binary64.div_half_even.
  pose proof (Z.div_mod p q ltac:(lia)) as Hdm.
  pose proof (Z.mod_pos_bound p q Hq) as Hr.
  set (d := p / q) in *. set (r := p mod q) in *.
  destruct (Z.ltb_spec (2 * r) q); [split; [nia | intros; nia] |].
  destruct (Z.ltb_spec q (2 * r)); [split; [nia | intros; nia] |].
  destruct (Z.even d) eqn:E; [split; [nia | done] |].
  split; [nia |]. intros _.
  replace (d + 1) with (Z.succ d) by lia.
  by rewrite Z.even_succ, <- Z.negb_even, E.
Qed.

Lemma scaled_shift p q k j :
  0 ≤ j →
  (Binary64.scaled p q (k - j)).1 * (Binary64.scaled p q k).2
  = (Binary64.scaled p q k).1 * (Binary64.scaled p q (k - j)).2 * 2 ^ j.
Proof.
  intros Hj. unfold Binary64.scaled.
  destruct (Z.leb_spec 0 k), (Z.leb_spec 0 (k - j)); simpl; try lia.
  - assert (2 ^ k = 2 ^ (k - j) * 2 ^ j) as ->; [| ring].
    rewrite <- Z.pow_add_r by lia. f_equal. lia.
  - assert (2 ^ j = 2 ^ (- (k - j)) * 2 ^ k) as ->; [| ring].
    rewrite <- Z.pow_add_r by lia. f_equal. lia.
  - assert (2 ^ (- (k - j)) = 2 ^ (- k) * 2 ^ j) as ->; [| ring].
    rewrite <- Z.pow_add_r by lia. f_equal. lia.
Qed.

Lemma scaled_pos p q k :
  0 < p → 0 < q →
  0 < (Binary64.scaled p q k).1 ∧ 0 < (Binary64.scaled p q k).2.
Proof.
  intros Hp Hq. unfold Binary64.scaled.
  destruct (Z.leb_spec 0 k); simpl.
  - pose proof (Z.pow_pos_nonneg 2 k ltac:(lia) ltac:(lia)). nia.
  - pose proof (Z.pow_pos_nonneg 2 (- k) ltac:(lia) ltac:(lia)). nia.
Qed.

Lemma bracket_spec p q :
  0 < p → 0 < q →
  (Binary64.scaled p q (Binary64.bracket p q)).2 ≤ (Binary64.scaled p q (Binary64.bracket p q)).1
  ∧ (Binary64.scaled p q (Binary64.bracket p q)).1 < 2 * (Binary64.scaled p q (Binary64.bracket p q)).2.
Proof.
  intros Hp Hq. unfold Binary64.bracket.
  destruct (Z.log2_spec p Hp) as [Hp1 Hp2], (Z.log2_spec q Hq) as [Hq1 Hq2].
  rewrite Z.pow_succ_r in Hp2, Hq2 by apply Z.log2_nonneg.
  pose proof (Z.log2_nonneg p) as Hlp. pose proof (Z.log2_nonneg q) as Hlq.
  set (lp := Z.log2 p) in *. set (lq := Z.log2 q) in *.
  set (l0 := lp - lq).
  destruct (Binary64.scaled p q l0) as [a b] eqn:E.
  unfold Binary64.scaled in E |- *.
  destruct (Z.leb_spec 0 l0) as [H0|H0].
  - injection E as <- <-.
    assert (2 ^ lp = 2 ^ lq * 2 ^ l0) as HP.
    { rewrite <- Z.pow_add_r by lia. f_equal. lia. }
    pose proof (Z.pow_pos_nonneg 2 l0 ltac:(lia) ltac:(lia)) as Hl0.
    destruct (Z.ltb_spec p (q * 2 ^ l0)) as [Hlt|Hge].
    + destruct (Z.leb_spec 0 (l0 - 1)) as [H1|H1]; simpl.
      * assert (2 ^ l0 = 2 * 2 ^ (l0 - 1)) as Hx.
        { rewrite <- Z.pow_succ_r by lia. f_equal. lia. }
        rewrite Hx in HP, Hlt, Hl0.
        pose proof (Z.pow_pos_nonneg 2 (l0 - 1) ltac:(lia) ltac:(lia)).
        nia.
      * assert (l0 = 0) as Hz by lia. rewrite Hz in *. simpl in *. nia.
    + destruct (Z.leb_spec 0 l0); [| lia]. simpl. nia.
  - injection E as <- <-.
    assert (2 ^ lq = 2 ^ lp * 2 ^ (- l0)) as HQ.
    { rewrite <- Z.pow_add_r by lia. f_equal. lia. }
    pose proof (Z.pow_pos_nonneg 2 (- l0) ltac:(lia) ltac:(lia)) as Hl0.
    destruct (Z.ltb_spec (p * 2 ^ (- l0)) q) as [Hlt|Hge].
    + destruct (Z.leb_spec 0 (l0 - 1)); [lia |]. simpl.
      replace (- (l0 - 1)) with (Z.succ (- l0)) by lia.
      rewrite Z.pow_succ_r by lia. nia.
    + destruct (Z.leb_spec 0 l0); [lia |]. simpl. nia.
Qed.

(** [Binary64.nearest] gives a value in normal form that is nearest to
    [p / q]: within half a unit of its last place, the even one of two
    equally near, and within a quarter of that unit when it is a power of
    two above [p / q], where the values below stand twice as close; it gives
    an infinity only from [2^1024 - 2^970] on. *)
Lemma nearest_spec neg p q :
  0 < p → 0 < q →
  match Binary64.nearest neg p q with
  | Binary64.Nan => False
  | Binary64.Inf n => n = neg ∧ (2 ^ 1024 - 2 ^ 970) * q ≤ p
  | Binary64.Fin n m e =>
      n = neg ∧ 0 ≤ m < 2 ^ 53 ∧ -1074 ≤ e ≤ 971 ∧ (2 ^ 52 ≤ m ∨ e = -1074) ∧
      let a := (Binary64.scaled p q e).1 in
      let b := (Binary64.scaled p q e).2 in
      2 * Z.abs (m * b - a) ≤ b ∧
      (2 * Z.abs (m * b - a) = b → Z.even m = true) ∧
      (m = 2 ^ 52 → -1074 < e → a < m * b → 4 * (m * b - a) ≤ b)
  end.
Proof.
  intros Hp Hq. unfold Binary64.nearest.
  destruct (Z.eqb_spec p 0) as [|_]; [lia |].
  destruct (bracket_spec p q Hp Hq) as [Hl1 Hl2].
  set (l := Binary64.bracket p q) in *. cbv zeta.
  set (e := Z.max (l - 52) (-1074)).
  pose proof (scaled_pos p q l Hp Hq) as [Hal Hbl].
  pose proof (scaled_pos p q e Hp Hq) as [Ha Hb].
  pose proof (scaled_pos p q (l - 52) Hp Hq) as [Han Hbn].
  pose proof (scaled_shift p q l 52 ltac:(lia)) as Hs1.
  set (al := (Binary64.scaled p q l).1) in *.
  set (bl := (Binary64.scaled p q l).2) in *.
  set (an := (Binary64.scaled p q (l - 52)).1) in *.
  set (bn := (Binary64.scaled p q (l - 52)).2) in *.
  assert (2 ^ 52 * bn ≤ an ∧ an < 2 ^ 53 * bn) as [Hn1 Hn2].
  { change (2 ^ 53) with (2 * 2 ^ 52). set (K := 2 ^ 52) in *.
    assert (0 < K) by done. clearbody K an bn al bl.
    assert (0 < bn * K) as HbK by nia.
    rewrite <- Z.mul_assoc in Hs1. set (BK := bn * K) in *.
    assert (K * bn = BK) as -> by (unfold BK; ring).
    replace (2 * K * bn) with (2 * BK) by (unfold BK; ring). clearbody BK.
    split.
    - apply (Z.mul_le_mono_pos_r _ _ bl); [done |]. nia.
    - apply (Z.mul_lt_mono_pos_r bl); [done |]. nia. }
  clearbody al bl. clear Hs1.
  destruct (Binary64.scaled p q e) as [a b] eqn:Ee. simpl in Ha, Hb.
  destruct (div_half_even_spec a b Hb) as [Hm1 Hm2].
  set (m := Binary64.div_half_even a b) in *. clearbody m.
  destruct (Z.max_spec (l - 52) (-1074)) as [[Hlt He]|[Hge He]]; fold e in He.
  - (* subnormal *)
    assert (a < 2 ^ 52 * b) as Hab.
    { pose proof (scaled_shift p q e (e - (l - 52)) ltac:(lia)) as Hs2.
      replace (e - (e - (l - 52))) with (l - 52) in Hs2 by lia.
      fold an bn in Hs2. rewrite Ee in Hs2. simpl in Hs2.
      assert (2 ≤ 2 ^ (e - (l - 52))) as Hj.
      { change 2 with (2 ^ 1) at 1. apply Z.pow_le_mono_r; lia. }
      set (J := 2 ^ (e - (l - 52))) in *. clearbody J an bn.
      change (2 ^ 53) with (2 * 2 ^ 52) in Hn2. set (K := 2 ^ 52) in *.
      assert (0 < K) by done. clearbody K.
      assert (an * b < 2 * K * bn * b) as H1
        by (apply Z.mul_lt_mono_pos_r; done).
      assert (a * J < 2 * K * b) as H2.
      { apply (Z.mul_lt_mono_pos_r bn); [done |]. lia. }
      assert (a * 2 ≤ a * J) as H3 by (apply Z.mul_le_mono_nonneg_l; lia).
      lia. }
    assert (0 ≤ m ≤ 2 ^ 52) as Hmr.
    { set (K := 2 ^ 52) in *. assert (0 < K) by done. clearbody K. nia. }
    destruct (Z.eqb_spec m (2 ^ 53)) as [Hm|_]; [lia |].
    destruct (Z.ltb_spec 971 e); [lia |].
    rewrite Ee. simpl.
    split_and!; try done; try lia.
  - (* normal *)
    assert (e = l - 52) as Hel by lia.
    assert (2 ^ 52 * b ≤ a ∧ a < 2 ^ 53 * b) as [Hab1 Hab2].
    { unfold an, bn in Hn1, Hn2. rewrite <- Hel, Ee in Hn1, Hn2. done. }
    assert (2 ^ 52 ≤ m ≤ 2 ^ 53) as Hmr.
    { change (2 ^ 53) with (2 * 2 ^ 52) in *. set (K := 2 ^ 52) in *.
      assert (0 < K) by done. clearbody K. nia. }
    destruct (Z.eqb_spec m (2 ^ 53)) as [Hm|Hm].
    + destruct (Z.ltb_spec 971 (e + 1)) as [Hov|Hin].
      * split; [done |].
        unfold Binary64.scaled in Ee. destruct (Z.leb_spec 0 e); [| lia].
        injection Ee as <- <-.
        assert (2 ^ 971 ≤ 2 ^ e) as Hpow by (apply Z.pow_le_mono_r; lia).
        replace (2 ^ 1024 - 2 ^ 970) with ((2 ^ 54 - 1) * 2 ^ 970) by done.
        change (2 ^ 971) with (2 * 2 ^ 970) in Hpow.
        subst m. set (E := 2 ^ e) in *. set (T := 2 ^ 970) in *.
        assert (0 < T) by done. clearbody E T.
        change (2 ^ 53) with 9007199254740992 in *.
        change (2 ^ 54 - 1) with 18014398509481983. nia.
      * pose proof (scaled_shift p q (e + 1) 1 ltac:(lia)) as Hs3.
        replace (e + 1 - 1) with e in Hs3 by lia. rewrite Ee in Hs3. simpl in Hs3.
        pose proof (scaled_pos p q (e + 1) Hp Hq) as [Ha' Hb'].
        set (a' := (Binary64.scaled p q (e + 1)).1) in *.
        set (b' := (Binary64.scaled p q (e + 1)).2) in *.
        assert (4 * Z.abs (2 ^ 52 * b' - a') ≤ b') as Hq4.
        { subst m. change (2 ^ 53) with (2 * 2 ^ 52) in *. set (K := 2 ^ 52) in *.
          assert (0 < K) by done. clearbody K a' b'. nia. }
        split_and!; try done; try lia.
    + destruct (Z.ltb_spec 971 e) as [Hov|Hin].
      * split; [done |].
        unfold Binary64.scaled in Ee. destruct (Z.leb_spec 0 e); [| lia].
        injection Ee as <- <-.
        assert (2 ^ 972 ≤ 2 ^ e) as Hpow by (apply Z.pow_le_mono_r; lia).
        assert (2 ^ 1024 - 2 ^ 970 ≤ 2 ^ 52 * 2 ^ 972) as Hc by done.
        set (E := 2 ^ e) in *. set (A := 2 ^ 1024 - 2 ^ 970) in *.
        set (B := 2 ^ 972) in *. set (K := 2 ^ 52) in *.
        assert (0 < K) by done. assert (0 < B) by done. clearbody E A B K. nia.
      * rewrite Ee. simpl. split_and!; try done; try lia.
Qed.

End binary64_facts.

(** C7 (as amended): [_to_float_de] never raises; a text of digit groups
    separated by ".", a "," and decimals converts to the binary64 float
    nearest to the groups read as one integer plus the decimals as a
    fraction; an ASCII text gives None exactly when, trimmed, without its
    points and with its commas turned into points, it is no float literal;
    so a text holding any character that cannot occur in such a literal (not
    a digit, separator, sign, underscore, whitespace, nor a letter of an
    exponent or of inf, infinity, nan) gives None. *)
Theorem to_float_de_converts :
  (∀ o, returns (_to_float_de o)) ∧
  (∀ s groups cents, Float_spec.thousands_form s groups cents →
     ∃ f, _to_float_de (Some s) = Ok (Some f) ∧
          Binary64.of_float f
          = Binary64.nearest false
              (Z.of_N (Str.digits_val (String.concat "" groups))
                 * 10 ^ Z.of_nat (String.length cents)
               + Z.of_N (Str.digits_val cents))
              (10 ^ Z.of_nat (String.length cents))) ∧
  (∀ s, ascii_text s →
     _to_float_de (Some s) = Ok None ↔
     ¬ Literal.floatvalue (Str.strip_c (point_notation s))) ∧
  (∀ s, ascii_text s → Str.all Float_spec.convertible_char s = false →
     _to_float_de (Some s) = Ok None).
Proof.
  split; [apply to_float_returns |]. split; [| split].
  - intros s groups cents H. eexists. split.
    + by apply to_float_thousands.
    + destruct H as (_ & _ & Hne & _). simpl.
      destruct cents as [|c cents]; [done |].
      change (- Z.of_nat (String.length (String c cents)))%Z
        with (Z.neg (Pos.of_succ_nat (String.length cents))).
      cbv iota beta. simpl Z.leb. cbv iota.
      rewrite N2Z.inj_add, N2Z.inj_mul, N2Z.inj_pow, nat_N_Z. reflexivity.
  - intros s _. apply to_float_none_iff.
  - intros s _ Hs. destruct (to_float_returns (Some s)) as [[f|] Hr]; [| done].
    apply to_float_chars in Hr. congruence.
Qed.

(** ["1.234,56"] converts to the float 1234.56, that is
    5429652300748554 * 2^-42. *)
Lemma to_float_de_converts_witness :
  ∃ f, _to_float_de (Some "1.234,56") = Ok (Some f) ∧
       Binary64.of_float f = Binary64.Fin false 5429652300748554 (-42).
Proof.
  destruct (proj1 (proj2 to_float_de_converts) "1.234,56" ["1"; "234"] "56")
    as (f & Hf & Hb).
  - split; [discriminate |]. split.
    + repeat constructor; discriminate.
    + repeat split. discriminate.
  - exists f. split; [exact Hf |]. rewrite Hb. vm_compute. reflexivity.
Defined.

(** ["nan"] holds no character of a number, and converts to a float. *)
Lemma to_float_de_nan :
  Str.all Float_spec.numeric_char "nan" = false ∧
  _to_float_de (Some "nan") = Ok (Some FNan).
Proof. split; reflexivity. Qed.

Example to_float_de_eleven_thirty :
  ∃ f, _to_float_de (Some "11,30") = Ok (Some f) ∧
       Binary64.of_float f = Binary64.Fin false 6361334473660826 (-49).
Proof. eexists. split; [reflexivity | vm_compute; reflexivity]. Qed.

(** Rounding to binary64: 0.1; 2^53 + 1 and 2^53 + 3, halfway between two
    floats; the smallest float and half of it; the largest float and the
    first number that rounds to an infinity. *)
Example binary64_rounding :
  Binary64.nearest false 1 10 = Binary64.Fin false 7205759403792794 (-56) ∧
  Binary64.nearest false (2 ^ 53 + 1) 1 = Binary64.Fin false (2 ^ 52) 1 ∧
  Binary64.nearest false (2 ^ 53 + 3) 1 = Binary64.Fin false (2 ^ 52 + 2) 1 ∧
  Binary64.nearest true 1 (2 ^ 1074) = Binary64.Fin true 1 (-1074) ∧
  Binary64.nearest true 1 (2 ^ 1075) = Binary64.Fin true 0 (-1074) ∧
  Binary64.nearest false ((2 ^ 53 - 1) * 2 ^ 971) 1
    = Binary64.Fin false (2 ^ 53 - 1) 971 ∧
  Binary64.nearest false (2 ^ 1024 - 2 ^ 970 - 1) 1
    = Binary64.Fin false (2 ^ 53 - 1) 971 ∧
  Binary64.nearest false (2 ^ 1024 - 2 ^ 970) 1 = Binary64.Inf false.
Proof. repeat split; vm_compute; reflexivity. Qed.

(** A group of 400 digits is out of range: the float is an infinity. *)
Example to_float_de_out_of_range :
  ∃ f, _to_float_de (Some (String.concat "" (replicate 400 "9") +:+ ",0")) = Ok (Some f) ∧
       Binary64.of_float f = Binary64.Inf false.
Proof. eexists. split; [vm_compute; reflexivity | vm_compute; reflexivity]. Qed.

(** ** Dictionaries *)

Section pydict_facts.

Context {K V : Type} `{EqDecision K}.
Implicit Types (k : K) (v : V) (d : list (K * V)).

Lemma get_set k v d k' :
  PyDict.get k' (PyDict.set k v d)
    = if decide (k' = k) then Some v else PyDict.get k' d.
Proof.
  induction d as [|[k0 v0] d IH]; simpl.
  - by destruct (decide (k' = k)).
  - destruct (decide (k = k0)) as [->|Hne]; simpl.
    + by destruct (decide (k' = k0)).
    + rewrite IH. destruct (decide (k' = k0)) as [->|]; [| done].
      by destruct (decide (k0 = k)) as [->|].
Qed.

Lemma mem_get k d : PyDict.mem k d = bool_decide (is_Some (PyDict.get k d)).
Proof.
  unfold PyDict.mem. destruct (PyDict.get k d); symmetry.
  - by apply bool_decide_eq_true.
  - apply bool_decide_eq_false. by intros [? ?].
Qed.

Lemma keys_set k v d :
  PyDict.keys (PyDict.set k v d)
    = if PyDict.mem k d then PyDict.keys d else PyDict.keys d ++ [k].
Proof.
  unfold PyDict.keys, PyDict.mem. induction d as [|[k0 v0] d IH]; [done |].
  cbn [PyDict.set PyDict.get].
  destruct (decide (k = k0)) as [->|Hne]; [done |].
  rewrite !fmap_cons, IH. by destruct (PyDict.get k d).
Qed.

Lemma mem_keys k d : PyDict.mem k d = true ↔ k ∈ PyDict.keys d.
Proof.
  unfold PyDict.keys, PyDict.mem. induction d as [|[k0 v0] d IH].
  - split; [done | by intros ?%elem_of_nil].
  - cbn [PyDict.get]. rewrite fmap_cons. cbn [fst].
    destruct (decide (k = k0)) as [->|Hne].
    + split; [intros _; apply list_elem_of_here | done].
    + rewrite IH. split; [apply list_elem_of_further |].
      intros [?|?]%elem_of_cons; [congruence | done].
Qed.

Lemma keys_set_nodup k v d :
  NoDup (PyDict.keys d) → NoDup (PyDict.keys (PyDict.set k v d)).
Proof.
  intros Hnd. rewrite keys_set. destruct (PyDict.mem k d) eqn:Hm; [done |].
  apply NoDup_app. split; [done |]. split; [| apply NoDup_singleton].
  intros x Hx ->%list_elem_of_singleton.
  apply mem_keys in Hx. congruence.
Qed.

End pydict_facts.

(** ** Label collisions *)

Section labels.

Implicit Types (label val : string) (hits : list label_hit) (out : dict string string).

Lemma label_pairs_from out hits label :
  label ≠ "" →
  PyDict.get label (foldl keep_first_valued out hits)
  = match PyDict.get label out with
    | Some v => Some v
    | None => first_hit label (valued hits)
    end.
Proof.
  intros Hne. revert out.
  induction hits as [|[l v] hits IH]; intros out; simpl.
  - by destruct (PyDict.get label out).
  - rewrite IH. unfold valued. rewrite filter_cons. simpl.
    destruct (Str.is_empty l) eqn:El; simpl.
    { apply is_empty_true in El as ->.
      destruct (PyDict.get label out); [done |].
      destruct (decide (v ≠ "")); [| done]. simpl.
      by destruct (decide (label = "")). }
    rewrite mem_get. destruct (PyDict.get l out) as [v0|] eqn:Hl; simpl.
    { destruct (PyDict.get label out) eqn:Hlab; [done |].
      destruct (decide (v ≠ "")); [| done]. simpl.
      destruct (decide (label = l)) as [->|]; [congruence | done]. }
    destruct (Str.is_empty v) eqn:Ev; simpl.
    { apply is_empty_true in Ev as ->.
      destruct (decide ("" ≠ "")); [done |]. done. }
    apply is_empty_false in Ev.
    destruct (decide (v ≠ "")); [| done]. simpl.
    rewrite get_set. destruct (decide (label = l)) as [->|]; [| done].
    by rewrite Hl.
Qed.

Lemma label_fields_regex_from out hits label :
  label ≠ "" →
  PyDict.get label
    (foldl (fun out '(label, val) =>
              if negb (Str.is_empty label) && negb (PyDict.mem label out)
              then PyDict.set label val out else out) out hits)
  = match PyDict.get label out with
    | Some v => Some v
    | None => first_hit label hits
    end.
Proof.
  intros Hne. revert out.
  induction hits as [|[l v] hits IH]; intros out; simpl.
  - by destruct (PyDict.get label out).
  - rewrite IH.
    destruct (Str.is_empty l) eqn:El; simpl.
    { apply is_empty_true in El as ->.
      destruct (PyDict.get label out); [done |].
      by destruct (decide (label = "")). }
    rewrite mem_get. destruct (PyDict.get l out) as [v0|] eqn:Hl; simpl.
    { destruct (PyDict.get label out) eqn:Hlab; [done |].
      destruct (decide (label = l)) as [->|]; [congruence | done]. }
    rewrite get_set. destruct (decide (label = l)) as [->|]; [| done].
    by rewrite Hl.
Qed.

End labels.

(** C5 (as amended): in [_parse_html_label_value_pairs], with either
    strategy, a label text keeps the value of the first item of the scan
    that has it and a value, and the items after it are ignored; in the
    regular-expression strategy of [parse_visual_forms_plain_fields] a label
    text keeps the value of the first item of the scan that has it. *)
Theorem label_collisions (scan : label_scan) (hits : list label_hit) (label : string) :
  label ≠ "" →
  PyDict.get label (_parse_html_label_value_pairs true scan)
    = first_hit label (valued (soup_labels scan)) ∧
  PyDict.get label (_parse_html_label_value_pairs false scan)
    = first_hit label (valued (regex_matches scan)) ∧
  PyDict.get label (parse_visual_forms_plain_fields false hits)
    = first_hit label hits.
Proof.
  intros Hne. split_and!.
  - unfold _parse_html_label_value_pairs. simpl. by rewrite label_pairs_from.
  - unfold _parse_html_label_value_pairs. simpl. by rewrite label_pairs_from.
  - unfold parse_visual_forms_plain_fields. simpl.
    by rewrite label_fields_regex_from.
Qed.

Lemma label_collisions_witness :
  PyDict.get "Halter" (_parse_html_label_value_pairs true
      {| soup_labels := [("Halter", ""); ("Halter", "Erika"); ("Halter", "Max")];
         regex_matches := [("Halter", "")] |}) = Some "Erika" ∧
  PyDict.get "Halter" (_parse_html_label_value_pairs false
      {| soup_labels := [("Halter", ""); ("Halter", "Erika"); ("Halter", "Max")];
         regex_matches := [("Halter", "")] |}) = None ∧
  PyDict.get "Halter" (parse_visual_forms_plain_fields false
      [("Halter", ""); ("Halter", "Erika"); ("Halter", "Max")]) = Some "".
Proof.
  destruct (label_collisions
              {| soup_labels := [("Halter", ""); ("Halter", "Erika"); ("Halter", "Max")];
                 regex_matches := [("Halter", "")] |}
              [("Halter", ""); ("Halter", "Erika"); ("Halter", "Max")] "Halter")
    as (H1 & H2 & H3); [discriminate |].
  split_and!; [rewrite H1 | rewrite H2 | rewrite H3]; reflexivity.
Defined.

(** A first label without a value loses to a later one in
    [_parse_html_label_value_pairs], with the tree as with the regular
    expression (there the second label stands more than 600 characters
    after the first), and the tree strategy of
    [parse_visual_forms_plain_fields] keeps the last of two labels. *)
Lemma label_collision_later_wins :
  first_hit "Halter" [("Halter", ""); ("Halter", "Erika")] = Some "" ∧
  PyDict.get "Halter" (_parse_html_label_value_pairs false
      {| soup_labels := [("Halter", ""); ("Halter", "Erika")];
         regex_matches := [("Halter", ""); ("Halter", "Erika")] |}) = Some "Erika" ∧
  PyDict.get "Halter" (_parse_html_label_value_pairs true
      {| soup_labels := [("Halter", ""); ("Halter", "Erika")];
         regex_matches := [("Halter", ""); ("Halter", "Erika")] |}) = Some "Erika" ∧
  first_hit "Halter" [("Halter", "Max"); ("Halter", "Erika")] = Some "Max" ∧
  PyDict.get "Halter" (parse_visual_forms_plain_fields true
      [("Halter", "Max"); ("Halter", "Erika")]) = Some "Erika".
Proof. repeat split; reflexivity. Qed.

(** ** Parts deduplication *)

Section dedup.

Implicit Types (p : Part.t) (parts : list Part.t) (k : string * string)
  (uniq : dict (string * string) Part.t).

Lemma uniq_first_from uniq parts k :
  PyDict.get k
    (foldl (fun uniq p =>
              if PyDict.mem (Part.key p) uniq then uniq
              else PyDict.set (Part.key p) p uniq) uniq parts)
  = match PyDict.get k uniq with
    | Some p => Some p
    | None => first_with_key k parts
    end.
Proof.
  revert uniq. induction parts as [|p parts IH]; intros uniq; simpl.
  - by destruct (PyDict.get k uniq).
  - rewrite IH. unfold first_with_key. simpl.
    unfold PyDict.mem.
    destruct (PyDict.get (Part.key p) uniq) as [p0|] eqn:Hp.
    + destruct (PyDict.get k uniq) eqn:Hk; [done |].
      rewrite bool_decide_eq_false_2; [done | congruence].
    + rewrite get_set. destruct (decide (k = Part.key p)) as [->|Hne].
      * by rewrite Hp, bool_decide_eq_true_2.
      * by rewrite bool_decide_eq_false_2.
Qed.

Lemma first_with_key_app k parts parts' :
  first_with_key k (parts ++ parts')
    = match first_with_key k parts with
      | Some p => Some p
      | None => first_with_key k parts'
      end.
Proof.
  unfold first_with_key. induction parts as [|p parts IH]; simpl; [done |].
  by destruct (bool_decide (Part.key p = k)).
Qed.

Lemma uniq_comprehension_from uniq parts k :
  PyDict.get k (foldl (fun uniq p => PyDict.set (Part.key p) p uniq) uniq parts)
  = match last_with_key k parts with
    | Some p => Some p
    | None => PyDict.get k uniq
    end.
Proof.
  revert uniq. induction parts as [|p parts IH]; intros uniq; simpl; [done |].
  rewrite IH, get_set. unfold last_with_key.
  rewrite reverse_cons, first_with_key_app.
  destruct (first_with_key k (reverse parts)); [done |].
  unfold first_with_key. simpl.
  destruct (decide (k = Part.key p)) as [->|Hne].
  - by rewrite bool_decide_eq_true_2.
  - by rewrite bool_decide_eq_false_2.
Qed.

End dedup.

(** C6: the parts-table path keeps, for every (part number, description),
    the first row; the dictionary comprehension of the generic-table and
    data-attribute paths keeps the last one; and on a generic table with two
    rows for one part the parser gives back the second row. *)
Theorem parts_dedup_by_path :
  (∀ parts k, PyDict.get k (uniq_first parts) = first_with_key k parts) ∧
  (∀ parts k, PyDict.get k (uniq_comprehension parts) = last_with_key k parts) ∧
  ∃ p1 p2,
    generic_part (table_row ["Teilenummer"; "Bezeichnung"; "Menge"; "Status"]
                            ["A1"; "Door"; "1,0"; "geliefert"]) = Ok (Some p1) ∧
    generic_part (table_row ["Teilenummer"; "Bezeichnung"; "Menge"; "Status"]
                            ["A1"; "Door"; "2,0"; "fehlt"]) = Ok (Some p2) ∧
    Part.key p1 = Part.key p2 ∧
    Part.qty p1 = Some (FDec false 10 (-1)) ∧ Part.is_missing p1 = false ∧
    Part.qty p2 = Some (FDec false 20 (-1)) ∧ Part.is_missing p2 = true ∧
    _parse_parts_from_html two_rows_same_part = Ok ([p2], []).
Proof.
  split; [| split].
  - intros parts k. unfold uniq_first. by rewrite uniq_first_from.
  - intros parts k. unfold uniq_comprehension. rewrite uniq_comprehension_from.
    by destruct (last_with_key k parts).
  - eexists _, _. repeat split; vm_compute; reflexivity.
Qed.

(** ** Domain field mapper *)

Section mapper_facts.

Variable json_dumps : dict string string → string.

Local Arguments _to_float_de : simpl never.
Local Arguments _parse_german_date_or_datetime : simpl never.

Implicit Types (proj : dict string pyval) (vf : dict string string)
  (ps now : string) (pl : option (list Part.t)) (pm : option (dict string string)).

Lemma build_order_row_ok now proj vf ps pl pm pid :
  Py.int (jget "ID" proj) = Ok pid →
  ∃ row, build_order_row json_dumps now proj vf ps pl pm = Ok row ∧
         Order.id row = pid ∧
         Order.parts_status row = final_parts_status vf ps ∧
         Order.missing_parts row
           = Z.b2z (negb (missing_parts_of (final_parts_status vf ps) pl =? 0)%Z).
Proof.
  intros Hid. unfold build_order_row. rewrite Hid. simpl.
  destruct (parse_station _) as [sid sst].
  repeat match goal with
  | |- context [_parse_german_date_or_datetime ?x] =>
      let r := fresh "r" in let Hr := fresh "Hr" in
      destruct (parse_date_returns x) as [r Hr]; rewrite Hr; simpl
  | |- context [_to_float_de ?x] =>
      let r := fresh "r" in let Hr := fresh "Hr" in
      destruct (to_float_returns x) as [r Hr]; rewrite Hr; simpl
  end.
  eexists. split; [reflexivity |]. done.
Qed.

Lemma build_order_row_raise now proj vf ps pl pm e :
  Py.int (jget "ID" proj) = Raise e →
  build_order_row json_dumps now proj vf ps pl pm = Raise e.
Proof. intros Hid. unfold build_order_row. by rewrite Hid. Qed.

Lemma missing_parts_of_cases psf pl :
  Z.b2z (negb (missing_parts_of psf pl =? 0)%Z)
  = if existsb Part.is_missing (default [] pl) then 1%Z
    else if Search.search_any no_parts_alts psf then 0%Z
    else if Search.search_any missing_alts psf then 1%Z else 0%Z.
Proof.
  unfold missing_parts_of.
  generalize (Search.search_any no_parts_alts psf) as a.
  generalize (Search.search_any missing_alts psf) as b. intros b a.
  destruct pl as [[|p l]|]; simpl default.
  - simpl. by destruct a, b.
  - destruct (existsb Part.is_missing (p :: l)); [done |]. by destruct a, b.
  - simpl. by destruct a, b.
Qed.

End mapper_facts.

(** C4 (as amended): the missing-parts flag of the order row is 1 when some
    part of the parts list is missing, whatever the parts status says;
    otherwise it is 0 when the status says that no parts are involved, else
    1 when the status matches a missing keyword, else 0.  So a status that
    says no parts are involved gives 0 when no part of the list is missing. *)
Theorem missing_parts_flag json_dumps now proj vf ps pl pm row :
  build_order_row json_dumps now proj vf ps pl pm = Ok row →
  let psf := Order.parts_status row in
  psf = final_parts_status vf ps ∧
  Order.missing_parts row
    = (if existsb Part.is_missing (default [] pl) then 1
       else if Search.search_any no_parts_alts psf then 0
       else if Search.search_any missing_alts psf then 1 else 0)%Z ∧
  (Search.search_any no_parts_alts psf = true →
   existsb Part.is_missing (default [] pl) = false →
   Order.missing_parts row = 0%Z).
Proof.
  intros Hrow psf.
  destruct (Py.int (jget "ID" proj)) as [pid|e] eqn:Hid.
  - destruct (build_order_row_ok json_dumps now proj vf ps pl pm pid Hid)
      as (row' & Hrow' & _ & Hps & Hmp).
    assert (row' = row) as -> by congruence.
    assert (Order.missing_parts row
            = (if existsb Part.is_missing (default [] pl) then 1
               else if Search.search_any no_parts_alts psf then 0
               else if Search.search_any missing_alts psf then 1 else 0)%Z) as Hflag.
    { rewrite Hmp, missing_parts_of_cases. unfold psf. by rewrite Hps. }
    split; [done |]. split; [done |].
    intros Hno Hnone. by rewrite Hflag, Hnone, Hno.
  - rewrite (build_order_row_raise _ _ _ _ _ _ _ _ Hid) in Hrow. done.
Qed.

Lemma missing_parts_flag_witness :
  ∃ row,
    build_order_row (fun _ => "{}") "2025-12-16T12:08:59"
      [("ID", VInt 4711); ("short_name", VStr "BB-SK 2307")]
      [("E-Teile Status", "Ohne E-Teile")] "" (Some []) None = Ok row ∧
    Order.missing_parts row = 0%Z.
Proof.
  eexists. split; [vm_compute; reflexivity |].
  refine (proj2 (proj2 (missing_parts_flag (fun _ => "{}") "2025-12-16T12:08:59"
            [("ID", VInt 4711); ("short_name", VStr "BB-SK 2307")]
            [("E-Teile Status", "Ohne E-Teile")] "" (Some []) None _ _)) _ _);
    vm_compute; reflexivity.
Defined.

(** The parts status says that no parts are involved, one part of the list is
    missing, and the flag of the row is 1. *)
Lemma missing_parts_despite_no_parts :
  ∃ parts row,
    _parse_parts_from_html two_rows_same_part = Ok (parts, []) ∧
    build_order_row (fun _ => "{}") "2025-12-16T12:08:59"
      [("ID", VInt 4711)] [] "Ohne E-Teile" (Some parts) None = Ok row ∧
    Search.search_any no_parts_alts (Order.parts_status row) = true ∧
    Order.missing_parts row = 1%Z.
Proof. eexists _, _. repeat split; vm_compute; reflexivity. Qed.

(** C9 (as amended): for a project whose values are texts and numbers of at
    most 4300 digits, its ["ID"] and its ["station"] ASCII texts if they
    are texts,
    [build_order_row] returns a row, with the project's ID as its id, when
    [int()] accepts the ["ID"], whatever else is absent from the project,
    the fields, the parts list and the parts meta; when [int()] raises on the
    ["ID"] (as it does on an absent one), [build_order_row] raises the same
    exception. *)
Theorem build_order_row_total json_dumps now proj vf ps pl pm :
  small_project proj →
  (∀ pid, Py.int (jget "ID" proj) = Ok pid →
     ∃ row, build_order_row json_dumps now proj vf ps pl pm = Ok row ∧
            Order.id row = pid) ∧
  (∀ e, Py.int (jget "ID" proj) = Raise e →
     build_order_row json_dumps now proj vf ps pl pm = Raise e).
Proof.
  intros _. split.
  - intros pid Hid.
    destruct (build_order_row_ok json_dumps now proj vf ps pl pm pid Hid)
      as (row & Hrow & Hpid & _).
    by exists row.
  - intros e. apply build_order_row_raise.
Qed.

Lemma build_order_row_total_witness :
  ∃ row, build_order_row (fun _ => "{}") "2025-12-16T12:08:59"
           [("ID", VStr "4711")] [] "" None None = Ok row ∧
         Order.id row = 4711%Z.
Proof.
  destruct (build_order_row_total (fun _ => "{}") "2025-12-16T12:08:59"
              [("ID", VStr "4711")] [] "" None None) as [H _].
  - split_and!; [reflexivity | reflexivity |]. apply Forall_singleton. simpl. lia.
  - apply H. reflexivity.
Defined.

(** A project without ["ID"]: [int(None)] raises [TypeError]. *)
Lemma build_order_row_missing_id :
  build_order_row (fun _ => "{}") "2025-12-16T12:08:59"
    [("short_name", VStr "BB-SK 2307"); ("station", VStr "4@finished")]
    [("Halter", "Erika")] "" None None = Raise TypeError.
Proof. reflexivity. Qed.

(** ** Persistence *)

Section table_facts.

Context `{Countable K} {V X : Type}.

Lemma find_over_app {A} (q : A → bool) (l1 l2 : list A) :
  find q (l1 ++ l2)
  = match find q l1 with
    | Some x => Some x
    | None => find q l2
    end.
Proof. induction l1 as [|x l1 IH]; simpl; [done |]. by destruct (q x). Qed.

(** A table after a run of [INSERT OR REPLACE]: a key holds the last value
    inserted at it. *)
Lemma lookup_foldl_insert (f : gmap K V → X → gmap K V) (key : X → K)
    (val : X → V) (tbl : gmap K V) (l : list X) (k : K) :
  (∀ tbl x, f tbl x = <[key x := val x]> tbl) →
  foldl f tbl l !! k
  = match find (fun x => bool_decide (key x = k)) (reverse l) with
    | Some x => Some (val x)
    | None => tbl !! k
    end.
Proof.
  intros Hf. revert tbl. induction l as [|x l IH]; intros tbl; simpl; [done |].
  rewrite IH, Hf, reverse_cons, find_over_app.
  destruct (find _ (reverse l)); [done |]. simpl.
  destruct (decide (key x = k)) as [<-|Hne].
  - by rewrite bool_decide_eq_true_2, lookup_insert_eq.
  - by rewrite bool_decide_eq_false_2, lookup_insert_ne.
Qed.

End table_facts.

Section persistence_facts.

Variable json_dumps : json → string.

Implicit Types (con : Db.t) (oid : Z) (parts : list Part.t)
  (sections : dict string section_payload).

Lemma find_dict_get {A} (d : dict string A) (k : string) :
  find (fun x => bool_decide (x.1 = k)) d
  = match PyDict.get k d with
    | Some v => Some (k, v)
    | None => None
    end.
Proof.
  induction d as [|[k0 v0] d IH]; simpl; [done |].
  destruct (decide (k = k0)) as [->|Hne].
  - by rewrite bool_decide_eq_true_2.
  - rewrite bool_decide_eq_false_2 by done. apply IH.
Qed.

Lemma get_none_keys {A} (d : dict string A) (k : string) :
  PyDict.get k d = None ↔ k ∉ PyDict.keys d.
Proof.
  rewrite <- mem_keys. unfold PyDict.mem. by destruct (PyDict.get k d).
Qed.

Lemma lookup_delete_parts_of oid tbl oid' pn d :
  delete_parts_of oid tbl !! (oid', pn, d)
  = if decide (oid' = oid) then None else tbl !! (oid', pn, d).
Proof.
  unfold delete_parts_of. destruct (decide (oid' = oid)) as [->|Hne].
  - apply map_lookup_filter_None. right. intros x _ Hx. by apply Hx.
  - destruct (tbl !! (oid', pn, d)) as [x|] eqn:Hx.
    + by apply map_lookup_filter_Some.
    + apply map_lookup_filter_None. by left.
Qed.

Lemma lookup_insert_parts oid parts tbl oid' pn d :
  insert_parts json_dumps oid parts tbl !! (oid', pn, d)
  = if decide (oid' = oid) then
      match last_with_key (pn, d) parts with
      | Some p => Some (parts_row_of json_dumps oid p)
      | None => tbl !! (oid, pn, d)
      end
    else tbl !! (oid', pn, d).
Proof.
  unfold insert_parts.
  rewrite (lookup_foldl_insert _
             (fun p => (oid, Part.part_no p, Part.description p))
             (parts_row_of json_dumps oid)) by done.
  unfold last_with_key, first_with_key.
  induction (reverse parts) as [|p l IH]; simpl.
  - by destruct (decide (oid' = oid)) as [->|].
  - destruct (decide (oid' = oid)) as [->|Hne].
    + unfold Part.key.
      destruct (decide ((Part.part_no p, Part.description p) = (pn, d))) as [Heq|Hne].
      * injection Heq as <- <-. by rewrite !bool_decide_eq_true_2.
      * rewrite !bool_decide_eq_false_2; [done | done | congruence].
    + rewrite bool_decide_eq_false_2 by congruence. done.
Qed.

Lemma lookup_replace_parts con oid parts oid' pn d :
  Db.parts (db_replace_parts json_dumps con oid parts) !! (oid', pn, d)
  = if decide (oid' = oid)
    then parts_row_of json_dumps oid <$> last_with_key (pn, d) parts
    else Db.parts con !! (oid', pn, d).
Proof.
  simpl. rewrite lookup_insert_parts, !lookup_delete_parts_of.
  destruct (decide (oid' = oid)) as [->|Hne].
  - rewrite decide_True by done. by destruct (last_with_key (pn, d) parts).
  - done.
Qed.

Lemma lookup_upsert_sections now con oid sections oid' name :
  Db.order_sections (db_upsert_sections json_dumps now con oid sections)
    !! (oid', name)
  = if decide (oid' = oid) then
      match PyDict.get name (reverse sections) with
      | Some payload => Some (section_row_of json_dumps now oid name payload)
      | None => Db.order_sections con !! (oid, name)
      end
    else Db.order_sections con !! (oid', name).
Proof.
  simpl.
  rewrite (lookup_foldl_insert _ (fun x => (oid, x.1))
             (fun x => section_row_of json_dumps now oid x.1 x.2)).
  2:{ by intros tbl [n p]. }
  induction (reverse sections) as [|[n p] l IH]; simpl.
  - by destruct (decide (oid' = oid)) as [->|].
  - destruct (decide (oid' = oid)) as [->|Hne].
    + destruct (decide (name = n)) as [->|Hn].
      * by rewrite bool_decide_eq_true_2.
      * rewrite bool_decide_eq_false_2 by congruence. done.
    + rewrite bool_decide_eq_false_2 by congruence. done.
Qed.

Lemma lookup_upsert_employees con emp (k : string) :
  Db.employees (db_upsert_employees con emp) !! k
  = match PyDict.get k (reverse emp) with
    | Some v => Some v
    | None => Db.employees con !! k
    end.
Proof.
  simpl. rewrite (lookup_foldl_insert _ fst snd).
  2:{ by intros tbl [n p]. }
  rewrite find_dict_get. by destruct (PyDict.get k (reverse emp)).
Qed.

Lemma keys_reverse {A} (d : dict string A) :
  PyDict.keys (reverse d) = reverse (PyDict.keys d).
Proof. unfold PyDict.keys. by rewrite fmap_reverse. Qed.

Lemma get_reverse_none {A B} (d1 : dict string A) (d2 : dict string B) k :
  PyDict.keys d1 = PyDict.keys d2 →
  PyDict.get k (reverse d2) = None → PyDict.get k (reverse d1) = None.
Proof.
  intros Hk. rewrite !get_none_keys, !keys_reverse, Hk. done.
Qed.

End persistence_facts.

Section resync_facts.

Variable w : world.

Implicit Types (st : sync_state) (r : sync_ok) (now sn : string) (pid : Z).

Lemma db_ext (c1 c2 : Db.t) :
  Db.orders c1 = Db.orders c2 → Db.employees c1 = Db.employees c2 →
  Db.parts c1 = Db.parts c2 → Db.order_sections c1 = Db.order_sections c2 →
  c1 = c2.
Proof. destruct c1, c2; simpl; by intros -> -> -> ->. Qed.

Lemma apply_ok_orders now st pid sn r :
  Db.orders (con (apply_result w now st (SyncOk pid sn r)))
  = <[Order.id (r_row r) := r_row r]> (Db.orders (con st)).
Proof.
  simpl. by destruct (bool_decide (r_emp_map r = [])),
    (bool_decide (r_parts_list r = [])), (bool_decide (r_sections r = [])).
Qed.

Lemma apply_ok_employees now st pid sn r :
  Db.employees (con (apply_result w now st (SyncOk pid sn r)))
  = Db.employees (db_upsert_employees (con st) (r_emp_map r)).
Proof.
  simpl. destruct (bool_decide (r_parts_list r = [])),
    (bool_decide (r_sections r = [])); simpl;
    by case_bool_decide as He; [rewrite He |].
Qed.

Lemma apply_ok_parts now st pid sn r :
  Db.parts (con (apply_result w now st (SyncOk pid sn r)))
  = if bool_decide (r_parts_list r = []) then Db.parts (con st)
    else Db.parts (db_replace_parts (dumps_json w) (con st) pid (r_parts_list r)).
Proof.
  simpl. by destruct (bool_decide (r_emp_map r = [])),
    (bool_decide (r_parts_list r = [])), (bool_decide (r_sections r = [])).
Qed.

Lemma apply_ok_sections now st pid sn r :
  Db.order_sections (con (apply_result w now st (SyncOk pid sn r)))
  = Db.order_sections
      (db_upsert_sections (dumps_json w) now (con st) pid (r_sections r)).
Proof.
  simpl. destruct (bool_decide (r_emp_map r = [])),
    (bool_decide (r_parts_list r = [])); simpl;
    by case_bool_decide as He; [rewrite He |].
Qed.

(** A second sync of an order from the same source data leaves the store as
    if only the second had run. *)
Lemma apply_result_again now1 now2 st pid sn1 sn2 r1 r2 :
  same_source r1 r2 →
  con (apply_result w now2 (apply_result w now1 st (SyncOk pid sn1 r1))
         (SyncOk pid sn2 r2))
  = con (apply_result w now2 st (SyncOk pid sn2 r2)).
Proof.
  intros (Hid & Hemp & Hparts & Hkeys).
  set (st1 := apply_result w now1 st (SyncOk pid sn1 r1)).
  apply db_ext.
  - rewrite !apply_ok_orders. unfold st1. rewrite apply_ok_orders, Hid.
    apply insert_insert_eq.
  - rewrite !apply_ok_employees.
    apply map_eq. intros k. rewrite !lookup_upsert_employees.
    destruct (PyDict.get k (reverse (r_emp_map r2))) eqn:H2; [done |].
    unfold st1. rewrite apply_ok_employees, lookup_upsert_employees, Hemp.
    by rewrite H2.
  - rewrite !apply_ok_parts.
    case_bool_decide as Hnil.
    { unfold st1. rewrite apply_ok_parts, Hparts.
      by rewrite bool_decide_eq_true_2. }
    apply map_eq. intros [[oid' pn] d]. rewrite !lookup_replace_parts.
    destruct (decide (oid' = pid)) as [->|Hne]; [done |].
    unfold st1. rewrite apply_ok_parts, Hparts.
    rewrite bool_decide_eq_false_2 by done.
    rewrite lookup_replace_parts. by rewrite decide_False.
  - rewrite !apply_ok_sections.
    apply map_eq. intros [oid' name]. rewrite !lookup_upsert_sections.
    destruct (decide (oid' = pid)) as [->|Hne].
    + destruct (PyDict.get name (reverse (r_sections r2))) eqn:H2; [done |].
      unfold st1. rewrite apply_ok_sections, lookup_upsert_sections.
      rewrite decide_True by done.
      by rewrite (get_reverse_none _ _ _ Hkeys H2).
    + unfold st1. rewrite apply_ok_sections, lookup_upsert_sections.
      by rewrite decide_False.
Qed.

End resync_facts.

(** C1 (as amended): [db_replace_parts] leaves for an order exactly the rows
    of the parts list it is given (one per part number and description, the
    last of the list), and no other order is touched; [db_upsert_sections]
    writes the rows of the sections it is given and keeps every other section
    of the order as it was; a synced result replaces the parts of its order
    only when its parts list is not empty; and a second sync of an order from
    the same source data leaves the store as if only the second had run. *)
Theorem resync_store :
  (∀ json_dumps con oid parts oid' pn d,
     Db.parts (db_replace_parts json_dumps con oid parts) !! (oid', pn, d)
     = if decide (oid' = oid)
       then parts_row_of json_dumps oid <$> last_with_key (pn, d) parts
       else Db.parts con !! (oid', pn, d)) ∧
  (∀ json_dumps now con oid sections oid' name,
     Db.order_sections (db_upsert_sections json_dumps now con oid sections)
       !! (oid', name)
     = if decide (oid' = oid) then
         match PyDict.get name (reverse sections) with
         | Some payload => Some (section_row_of json_dumps now oid name payload)
         | None => Db.order_sections con !! (oid, name)
         end
       else Db.order_sections con !! (oid', name)) ∧
  (∀ w now st pid sn r,
     Db.parts (con (apply_result w now st (SyncOk pid sn r)))
     = if bool_decide (r_parts_list r = []) then Db.parts (con st)
       else Db.parts (db_replace_parts (dumps_json w) (con st) pid (r_parts_list r))) ∧
  (∀ w now1 now2 st pid sn1 sn2 r1 r2,
     same_source r1 r2 →
     con (apply_result w now2 (apply_result w now1 st (SyncOk pid sn1 r1))
            (SyncOk pid sn2 r2))
     = con (apply_result w now2 st (SyncOk pid sn2 r2))).
Proof.
  split; [| split; [| split]].
  - apply lookup_replace_parts.
  - apply lookup_upsert_sections.
  - apply apply_ok_parts.
  - apply apply_result_again.
Qed.

Lemma resync_store_witness :
  ∃ r, sync_one demo_world demo_args "2025-12-16T12:08:59" (demo_project 1 "BB-SK 2307")
         = Ok (SyncOk 1 "BB-SK 2307" r) ∧
       ∀ st,
         con (apply_result demo_world "2025-12-17T08:00:00"
                (apply_result demo_world "2025-12-16T12:08:59" st
                   (SyncOk 1 "BB-SK 2307" r))
                (SyncOk 1 "BB-SK 2307" r))
         = con (apply_result demo_world "2025-12-17T08:00:00" st
                  (SyncOk 1 "BB-SK 2307" r)).
Proof.
  eexists. split; [vm_compute; reflexivity |].
  intros st. apply (proj2 (proj2 (proj2 resync_store))).
  repeat split.
Defined.

(** An order synced with the sections todo_list and parts, then with the
    section parts alone: the row of todo_list is still in the store. *)
Lemma sections_keep_residue :
  let first := [("todo_list", demo_section); ("parts", demo_section)] in
  let second := [("parts", demo_section)] in
  let con1 := db_upsert_sections (fun _ => "{}") "2025-12-16T12:08:59" Db.empty 1 first in
  let con2 := db_upsert_sections (fun _ => "{}") "2025-12-17T08:00:00" con1 1 second in
  PyDict.get "todo_list" second = None ∧
  Db.order_sections con2 !! (1%Z, "todo_list")
  = Some (section_row_of (fun _ => "{}") "2025-12-16T12:08:59" 1 "todo_list" demo_section).
Proof. split; [reflexivity |]. vm_compute. reflexivity. Qed.

(** ** Sync orchestrator *)

Section sync_facts.

Variable w : world.
Variable args : sync_args.

Implicit Types (st : sync_state) (r : sync_ok) (now sn : string) (pid : Z)
  (p q : dict string pyval) (order : list (dict string pyval))
  (result : sync_result) (results : list sync_result).

Lemma sync_one_well_keyed now p result :
  sync_one w args now p = Ok result → well_keyed result.
Proof.
  unfold sync_one. destruct (Py.int (jget "ID" p)) as [pid|e] eqn:Hid; [| done].
  simpl. destruct (sync_one_body w args now p pid) as [r|e] eqn:Hbody; simpl;
    intros [= <-]; [| done].
  simpl. unfold sync_one_body in Hbody.
  destruct (fetch_shop_view_single w pid) as [sv|]; [| done]. simpl in Hbody.
  destruct (employee_map_of w sv) as [emp|]; [| done]. simpl in Hbody.
  destruct (fetch_visual_forms_plain w pid) as [vf|]; [| done]. simpl in Hbody.
  destruct (try_except _ _) as [[fields warn]|]; [| done]. simpl in Hbody.
  destruct (if with_parts args || full args then _ else _)
    as [[[[ps pl] pm] pp]|]; [| done]. simpl in Hbody.
  destruct (build_order_row_ok (dumps_fields w) now p fields ps (Some pl) (Some pm)
              pid Hid) as (row & Hrow & Hrid & _).
  rewrite Hrow in Hbody. simpl in Hbody.
  destruct (if full args then _ else _) as [sections|]; [| done].
  simpl in Hbody. by injection Hbody as <-.
Qed.

Lemma sync_one_body_raises now p pid e :
  Py.int (jget "ID" p) = Ok pid → sync_one_body w args now p pid = Raise e →
  ∃ sn, sync_one w args now p = Ok (SyncFail pid sn e).
Proof.
  intros Hid Hbody. unfold sync_one. rewrite Hid. simpl.
  rewrite Hbody. simpl. by eexists.
Qed.

(** A fetch that raises ends the [try] of [sync_one]. *)
Lemma fetch_raises_body now p pid e :
  fetch_shop_view_single w pid = Raise e →
  sync_one_body w args now p pid = Raise e.
Proof. intros Hfetch. unfold sync_one_body. by rewrite Hfetch. Qed.

Lemma sync_loop_raise now order e :
  foldl (fun acc p =>
           st ← acc; result ← sync_one w args now p;
           Ok (apply_result w now st result)) (Raise e) order = Raise e.
Proof. induction order as [|p order IH]; simpl; [done | apply IH]. Qed.

Lemma sync_loop_results now order results st :
  Forall2 (fun q result => sync_one w args now q = Ok result) order results →
  sync_loop w args now order st = Ok (foldl (apply_result w now) st results).
Proof.
  unfold sync_loop. intros Hall. revert st.
  induction Hall as [|q result order results Hq _ IH]; intros st; simpl; [done |].
  rewrite Hq. simpl. apply IH.
Qed.

Lemma sync_loop_inv now order st st' :
  sync_loop w args now order st = Ok st' →
  ∃ results,
    Forall2 (fun q result => sync_one w args now q = Ok result) order results ∧
    st' = foldl (apply_result w now) st results.
Proof.
  unfold sync_loop. revert st. induction order as [|q order IH]; intros st; simpl.
  - intros [= <-]. by exists [].
  - destruct (sync_one w args now q) as [result|e] eqn:Hq; simpl.
    + intros (results & Hall & ->)%IH. exists (result :: results).
      split; [by constructor | done].
    + by rewrite sync_loop_raise.
Qed.

Lemma apply_counts now results st :
  ok (foldl (apply_result w now) st results)
    = (ok st + length (filter (fun x => is_ok x = true) results))%nat ∧
  fail (foldl (apply_result w now) st results)
    = (fail st + length (filter (fun x => is_ok x = false) results))%nat.
Proof.
  revert st. induction results as [|result results IH]; intros st; simpl.
  - split; lia.
  - destruct (IH (apply_result w now st result)) as [-> ->].
    rewrite !filter_cons. destruct result; simpl; split; lia.
Qed.

Lemma apply_present now results st pid sn r :
  Forall well_keyed results → SyncOk pid sn r ∈ results →
  ∃ row, Db.orders (con (foldl (apply_result w now) st results)) !! pid = Some row ∧
         Order.id row = pid.
Proof.
  induction results as [|result results IH] using rev_ind; intros Hkeyed Hin.
  - by apply elem_of_nil in Hin.
  - apply Forall_app in Hkeyed as [Hkeyed Hlast].
    apply (proj1 (Forall_singleton _ _)) in Hlast.
    rewrite foldl_snoc.
    destruct result as [pid' sn' r'|pid' sn' e'].
    + rewrite apply_ok_orders. simpl in Hlast.
      destruct (decide (pid = pid')) as [->|Hne].
      * exists (r_row r'). by rewrite Hlast, lookup_insert_eq.
      * rewrite lookup_insert_ne by congruence. apply IH; [done |].
        apply elem_of_app in Hin as [Hin|Hin]; [done |].
        apply list_elem_of_singleton in Hin. congruence.
    + simpl. apply IH; [done |].
      apply elem_of_app in Hin as [Hin|Hin]; [done |].
      by apply list_elem_of_singleton in Hin.
Qed.

Lemma outcomes_exist now order :
  Forall (fun q => ∃ qid sn r, sync_one w args now q = Ok (SyncOk qid sn r)) order →
  ∃ results,
    Forall2 (fun q result => sync_one w args now q = Ok result) order results ∧
    Forall (fun x => is_ok x = true) results.
Proof.
  induction 1 as [|q order (qid & sn & r & Hq) _ (results & Hall & Hok)].
  - by exists [].
  - exists (SyncOk qid sn r :: results). split; by constructor.
Qed.

Lemma outcomes_keyed now order results :
  Forall2 (fun q result => sync_one w args now q = Ok result) order results →
  Forall well_keyed results.
Proof.
  induction 1 as [|q result order results Hq _ IH]; constructor; [| done].
  by apply (sync_one_well_keyed now q).
Qed.

Lemma outcome_of now order results q result :
  Forall2 (fun q result => sync_one w args now q = Ok result) order results →
  q ∈ order → sync_one w args now q = Ok result → result ∈ results.
Proof.
  induction 1 as [|q' result' order results Hq _ IH]; intros Hin Hres.
  - by apply elem_of_nil in Hin.
  - apply elem_of_cons in Hin as [->|Hin].
    + rewrite Hq in Hres. injection Hres as ->. apply list_elem_of_here.
    + apply list_elem_of_further. by apply IH.
Qed.

Lemma filter_all {A} (P : A → Prop) `{∀ x, Decision (P x)} (l : list A) :
  Forall P l → filter P l = l.
Proof.
  induction 1 as [|x l Hx _ IH]; [done |].
  by rewrite filter_cons, decide_True, IH.
Qed.

Lemma filter_none {A} (P Q : A → Prop) `{∀ x, Decision (P x)} `{∀ x, Decision (Q x)}
    (l : list A) :
  (∀ x, P x → ¬ Q x) → Forall P l → filter Q l = [].
Proof.
  intros HPQ. induction 1 as [|x l Hx _ IH]; [done |].
  rewrite filter_cons, decide_False, IH; [done | by apply HPQ].
Qed.

End sync_facts.

Section isolation.

Variable w : world.
Variable args : sync_args.

Implicit Types (st : sync_state) (now : string)
  (p q : dict string pyval) (order : list (dict string pyval))
  (result : sync_result) (results : list sync_result).

Lemma outcome_source now order results result :
  Forall2 (fun q result => sync_one w args now q = Ok result) order results →
  result ∈ results → ∃ q, q ∈ order ∧ sync_one w args now q = Ok result.
Proof.
  induction 1 as [|q' result' order results Hq _ IH]; intros Hin.
  - by apply elem_of_nil in Hin.
  - apply elem_of_cons in Hin as [->|Hin].
    + exists q'. split; [apply list_elem_of_here | done].
    + destruct (IH Hin) as (q & Hq' & Hres). exists q.
      split; [by apply list_elem_of_further | done].
Qed.

Lemma applied_order_length projects completion :
  completion ≡ₚ projects →
  length (applied_order args projects completion) = length projects.
Proof.
  intros Hperm. unfold applied_order.
  destruct (jobs args <=? 1)%Z; [done | by rewrite Hperm].
Qed.

Lemma failures_counted now order results st :
  Forall2 (fun q result => sync_one w args now q = Ok result) order results →
  fail (foldl (apply_result w now) st results) ≠ fail st ↔
  ∃ q qid sn e, q ∈ order ∧ sync_one w args now q = Ok (SyncFail qid sn e).
Proof.
  intros Hall. destruct (apply_counts w now results st) as [_ ->]. split.
  - intros Hne.
    destruct (filter (fun x => is_ok x = false) results) as [|result l] eqn:Hf;
      [simpl in Hne; lia |].
    assert (result ∈ filter (fun x => is_ok x = false) results) as Hin
      by (rewrite Hf; apply list_elem_of_here).
    apply list_elem_of_filter in Hin as [Hfail Hin].
    destruct result as [|qid sn e]; [done |].
    destruct (outcome_source now _ _ _ Hall Hin) as (q & Hq & Hres).
    by exists q, qid, sn, e.
  - intros (q & qid & sn & e & Hq & Hres).
    pose proof (outcome_of w args now _ _ _ _ Hall Hq Hres) as Hin.
    assert (SyncFail qid sn e ∈ filter (fun x => is_ok x = false) results) as Hin'
      by (by apply list_elem_of_filter).
    destruct (filter _ results); [by apply elem_of_nil in Hin' | simpl; lia].
Qed.

End isolation.

(** C2: the project summaries have values of at most 4300 digits, ASCII
    IDs and ASCII station tokens, and the rows to write hold integers of 64
    bits.  When the [try] of
    one record raises, as it does when a fetch of the record raises, and
    every other record syncs, [cmd_sync] returns with N-1 successes and 1
    failure and a nonzero exit code, and every synced order has its row in
    the store, with one worker as with several; and whenever [cmd_sync]
    returns, its exit code is nonzero exactly when some record failed. *)
Theorem sync_failure_isolation (w : world) (args : sync_args) (now : string) :
  (∀ db completion projects pre p post pid e,
     fetch_project_stations w = Ok projects →
     Forall small_project projects →
     completion ≡ₚ projects →
     applied_order args projects completion = pre ++ p :: post →
     Py.int (jget "ID" p) = Ok pid →
     sync_one_body w args now p pid = Raise e →
     Forall (fun q => ∃ qid sn r, sync_one w args now q = Ok (SyncOk qid sn r))
            (pre ++ post) →
     (∀ q qid sn r, q ∈ pre ++ post →
        sync_one w args now q = Ok (SyncOk qid sn r) → storable (r_row r)) →
     ∃ st, cmd_sync w args now db completion = Ok (st, 1%Z) ∧
           ok st = (length projects - 1)%nat ∧ fail st = 1%nat ∧
           ∀ q qid sn r, q ∈ pre ++ post →
             sync_one w args now q = Ok (SyncOk qid sn r) →
             ∃ row, Db.orders (con st) !! qid = Some row ∧ Order.id row = qid) ∧
  (∀ db completion projects st code,
     fetch_project_stations w = Ok projects →
     Forall small_project projects →
     cmd_sync w args now db completion = Ok (st, code) →
     code ≠ 0%Z ↔
     ∃ q qid sn e, q ∈ applied_order args projects completion ∧
                   sync_one w args now q = Ok (SyncFail qid sn e)).
Proof.
  split.
  - intros db completion projects pre p post pid e Hfetch _ Hperm Horder Hid Hraise
      Hrest _.
    apply Forall_app in Hrest as [Hpre Hpost].
    destruct (outcomes_exist w args now pre Hpre) as (rpre & Hrpre & Hokpre).
    destruct (outcomes_exist w args now post Hpost) as (rpost & Hrpost & Hokpost).
    destruct (sync_one_body_raises w args now p pid e Hid Hraise) as (sn & Hp).
    set (results := rpre ++ SyncFail pid sn e :: rpost).
    assert (Forall2 (fun q result => sync_one w args now q = Ok result)
              (pre ++ p :: post) results) as Hall.
    { apply Forall2_app; [done |]. by constructor. }
    set (st0 := {| con := db; ok := 0; fail := 0 |}).
    exists (foldl (apply_result w now) st0 results).
    destruct (apply_counts w now results st0) as [Hok Hfail].
    assert (filter (fun x => is_ok x = true) results = rpre ++ rpost) as Hfok.
    { unfold results. rewrite filter_app, filter_cons, decide_False by done.
      by rewrite !filter_all. }
    assert (filter (fun x => is_ok x = false) results = [SyncFail pid sn e]) as Hffail.
    { unfold results. rewrite filter_app, filter_cons, decide_True by done.
      rewrite (filter_none (fun x => is_ok x = true) _ rpre),
        (filter_none (fun x => is_ok x = true) _ rpost); try done.
      all: intros x ->; done. }
    rewrite Hfok in Hok. rewrite Hffail in Hfail. simpl in Hok, Hfail.
    repeat split.
    + unfold cmd_sync. rewrite Hfetch. simpl. rewrite Horder.
      rewrite (sync_loop_results w args now _ results) by done. simpl.
      fold st0. rewrite Hfail. done.
    + rewrite Hok, length_app.
      rewrite <- (Forall2_length _ _ _ Hrpre), <- (Forall2_length _ _ _ Hrpost).
      rewrite <- (applied_order_length args projects completion Hperm), Horder.
      rewrite length_app. simpl. lia.
    + done.
    + intros q qid sn' r Hq Hres.
      apply (apply_present w now results st0 qid sn' r).
      * by apply (outcomes_keyed w args now (pre ++ p :: post)).
      * apply (outcome_of w args now (pre ++ p :: post) results q); [done | | done].
        apply elem_of_app in Hq as [Hq|Hq]; apply elem_of_app; [by left |].
        right. by apply list_elem_of_further.
  - intros db completion projects st code Hfetch _. unfold cmd_sync.
    rewrite Hfetch. simpl.
    destruct (sync_loop _ _ _ _ _) as [st'|] eqn:Hloop; [| done].
    simpl. intros [= <- <-].
    apply sync_loop_inv in Hloop as (results & Hall & ->).
    rewrite <- (failures_counted w args now _ _ {| con := db; ok := 0; fail := 0 |} Hall).
    simpl. case_bool_decide as Hz; [by rewrite Hz | done].
Qed.

Lemma sync_failure_isolation_witness :
  ∃ st,
    cmd_sync demo_world demo_args "2025-12-16T12:08:59" Db.empty
      [demo_project 1 "BB-SK 2307"; demo_project 2 "S-XY 12"; demo_project 3 "M-AB 4711"]
      = Ok (st, 1%Z) ∧
    ok st = 2%nat ∧ fail st = 1%nat ∧
    (∃ row, Db.orders (con st) !! 1%Z = Some row ∧ Order.id row = 1%Z) ∧
    (∃ row, Db.orders (con st) !! 3%Z = Some row ∧ Order.id row = 3%Z).
Proof.
  destruct (proj1 (sync_failure_isolation demo_world demo_args "2025-12-16T12:08:59")
              Db.empty
              [demo_project 1 "BB-SK 2307"; demo_project 2 "S-XY 12";
               demo_project 3 "M-AB 4711"]
              [demo_project 1 "BB-SK 2307"; demo_project 2 "S-XY 12";
               demo_project 3 "M-AB 4711"]
              [demo_project 1 "BB-SK 2307"] (demo_project 2 "S-XY 12")
              [demo_project 3 "M-AB 4711"] 2%Z
              (RuntimeError "shop_view_single HTTP 500"))
    as (st & Hrun & Hok & Hfail & Hrows).
  - reflexivity.
  - repeat (constructor; [split_and!; [reflexivity | reflexivity |] |]);
      repeat constructor; try (apply Z.ltb_lt); vm_compute; reflexivity.
  - reflexivity.
  - reflexivity.
  - reflexivity.
  - apply fetch_raises_body. reflexivity.
  - repeat constructor; eexists _, _, _; vm_compute; reflexivity.
  - intros q qid sn r Hq Hres.
    assert (Order.id (r_row r) ∈ [1; 3]%Z ∧ Order.station_id (r_row r) = Some 2%Z)
      as [Hr Hs].
    { apply elem_of_cons in Hq as [-> | Hq%list_elem_of_singleton]; [| subst q];
        vm_compute in Hres; injection Hres as <- <- <-; split;
        [apply list_elem_of_here | done
        | apply list_elem_of_further, list_elem_of_here | done]. }
    unfold storable, fits_int64. rewrite Hs.
    apply elem_of_cons in Hr as [-> | ->%list_elem_of_singleton]; simpl; lia.
  - exists st. split; [exact Hrun |]. split; [exact Hok |]. split; [exact Hfail |].
    split.
    + eapply (Hrows (demo_project 1 "BB-SK 2307")).
      * apply list_elem_of_here.
      * vm_compute. reflexivity.
    + eapply (Hrows (demo_project 3 "M-AB 4711")).
      * apply list_elem_of_further, list_elem_of_here.
      * vm_compute. reflexivity.
Defined.

(** ** Query engine *)

Section token_facts.

Implicit Types (s t acc tok before after : string) (c : ascii) (st : Tokens.state).

Lemma good_token_snoc acc c :
  good_token acc → Tokens.token_char c = true → good_token (Tokens.snoc acc c).
Proof.
  intros [Hne Hall] Hc. unfold Tokens.snoc. split.
  - by destruct acc.
  - rewrite all_app, Hall. simpl. by rewrite Hc.
Qed.

Lemma alnum_token_char c : Chr.is_alnum c = true → Tokens.token_char c = true.
Proof. intros Hc. unfold Tokens.token_char. by rewrite Hc. Qed.

Lemma scan_good st s : good_state st → Forall good_token (Tokens.scan st s).
Proof.
  revert st. induction s as [|c s IH]; intros st Hst; simpl.
  - destruct st; simpl in Hst; [apply Forall_nil_2 | ..];
      by apply Forall_singleton.
  - destruct st as [|acc|acc]; simpl in Hst.
    + destruct (Chr.is_alnum c) eqn:Hc; apply IH; [| done].
      simpl. split; [done |]. simpl. by rewrite (alnum_token_char c Hc).
    + destruct (Chr.is_alnum c) eqn:Hc.
      { apply IH. simpl. by apply good_token_snoc, alnum_token_char. }
      destruct (Ascii.eqb c "-"); [by apply IH |].
      constructor; [done | by apply IH].
    + destruct (Chr.is_alnum c) eqn:Hc.
      { apply IH. simpl. apply good_token_snoc; [| by apply alnum_token_char].
        by apply good_token_snoc. }
      constructor; [done | by apply IH].
Qed.

Lemma occurs_in_weaken tok s t : Tokens.occurs_in tok s → Tokens.occurs_in tok (t +:+ s).
Proof.
  intros (before & after & ->). exists (t +:+ before), after.
  by rewrite !str_app_assoc.
Qed.

Lemma occurs_in_prefix tok s : Tokens.occurs_in tok (tok +:+ s).
Proof. by exists "", s. Qed.

Lemma scan_occurs st s :
  Forall (fun tok => Tokens.occurs_in tok (carried st +:+ s)) (Tokens.scan st s).
Proof.
  revert st. induction s as [|c s IH]; intros st; simpl.
  - destruct st as [|acc|acc]; simpl; [apply Forall_nil_2 | ..].
    + apply Forall_singleton, occurs_in_prefix.
    + apply Forall_singleton. unfold Tokens.snoc. rewrite str_app_assoc.
      apply occurs_in_prefix.
  - destruct st as [|acc|acc]; simpl carried.
    + destruct (Chr.is_alnum c).
      * apply (IH (Tokens.InTok (String c ""))).
      * eapply Forall_impl; [apply (IH Tokens.Idle) |].
        intros tok Htok. simpl in Htok.
        by apply (occurs_in_weaken tok s (String c "")).
    + destruct (Chr.is_alnum c).
      { specialize (IH (Tokens.InTok (Tokens.snoc acc c))). simpl in IH.
        unfold Tokens.snoc in IH. by rewrite str_app_assoc in IH. }
      destruct (Ascii.eqb c "-") eqn:Hc.
      { apply Ascii.eqb_eq in Hc as ->.
        specialize (IH (Tokens.Hyph acc)). simpl in IH.
        unfold Tokens.snoc in IH. by rewrite str_app_assoc in IH. }
      constructor; [apply occurs_in_prefix |].
      eapply Forall_impl; [apply (IH Tokens.Idle) |].
      intros tok Htok. simpl in Htok.
      by apply (occurs_in_weaken tok s (acc +:+ String c "")) in Htok;
        rewrite str_app_assoc in Htok.
    + destruct (Chr.is_alnum c).
      { specialize (IH (Tokens.InTok (Tokens.snoc (Tokens.snoc acc "-") c))).
        simpl in IH. unfold Tokens.snoc in *. by rewrite !str_app_assoc in *. }
      constructor.
      { unfold Tokens.snoc. rewrite str_app_assoc. apply occurs_in_prefix. }
      eapply Forall_impl; [apply (IH Tokens.Idle) |].
      intros tok Htok. simpl in Htok.
      apply (occurs_in_weaken tok s (Tokens.snoc acc "-" +:+ String c "")) in Htok.
      by rewrite str_app_assoc in Htok.
Qed.

Lemma findall_tokens raw :
  Forall (fun tok => good_token tok ∧ Tokens.occurs_in tok raw) (Tokens.findall raw).
Proof.
  apply Forall_and. split.
  - by apply scan_good.
  - apply (scan_occurs Tokens.Idle raw).
Qed.

Lemma good_token_no_quote tok :
  good_token tok → Str.all (fun c => negb (Ascii.eqb c "034")) tok = true.
Proof.
  intros [_ Hall]. eapply all_impl; [| exact Hall].
  intros c Hc. apply negb_true_iff. destruct (Ascii.eqb c "034") eqn:E; [| done].
  apply Ascii.eqb_eq in E. by subst.
Qed.

End token_facts.

Section query_facts.

Variable b : sql_backend.

Implicit Types (a : query_args) (t : string) (f : filters).

Lemma free_text_cases t f :
  t ≠ "" →
  let raw := Str.strip t in
  let tokens := Tokens.findall raw in
  free_text b (Some t) f
  = if bool_decide (tokens = []) then Ok (None, like_fallback raw f)
    else match fts_match b (Tokens.fts_query tokens) with
         | Ok [] => Ok (Some [], like_fallback raw f)
         | Ok (id :: ids) => Ok (Some (id :: ids), f)
         | Raise OperationalError => Ok (None, like_fallback raw f)
         | Raise e => Raise e
         end.
Proof.
  intros Hne raw tokens. unfold free_text.
  apply is_empty_false in Hne. rewrite Hne. fold raw. fold tokens.
  case_bool_decide as Htok; [done |]. simpl.
  destruct (fts_match b (Tokens.fts_query tokens)) as [[|id ids]|e]; simpl; [done | done |].
  by destruct e.
Qed.

Lemma cmd_query_text a t :
  q_text a = Some t →
  cmd_query b a
  = ('(fts_rows, f) ← free_text b (Some t) (structured_filters a);
     Ok (select_orders b a (restrict_ids fts_rows f))).
Proof. intros Ht. unfold cmd_query. by rewrite Ht. Qed.

End query_facts.

Section tokenised_facts.

Implicit Types (s t acc tok rest junk : string) (c : ascii) (toks : list string).

Lemma run_tail_snoc (p : ascii → bool) (sep : ascii) t c :
  run_tail p sep t → p c = true → run_tail p sep (t +:+ String c "").
Proof.
  intros Ht Hc. induction Ht as [|d t Hd _ IH|d t Hd _ IH].
  - by repeat constructor.
  - rewrite str_app_cons. by constructor.
  - rewrite !str_app_cons. by constructor.
Qed.

Lemma run_tail_snoc_sep (p : ascii → bool) (sep : ascii) t c :
  run_tail p sep t → p c = true →
  run_tail p sep (t +:+ String sep (String c "")).
Proof.
  intros Ht Hc. induction Ht as [|d t Hd _ IH|d t Hd _ IH].
  - by repeat constructor.
  - rewrite str_app_cons. by constructor.
  - rewrite !str_app_cons. by constructor.
Qed.

Lemma token_snoc acc c :
  is_token acc → Chr.is_alnum c = true → is_token (Tokens.snoc acc c).
Proof.
  intros (d & t & -> & Hd & Ht) Hc. exists d, (t +:+ String c "").
  split; [done |]. split; [done |]. by apply run_tail_snoc.
Qed.

Lemma token_snoc_hyphen acc c :
  is_token acc → Chr.is_alnum c = true →
  is_token (Tokens.snoc (Tokens.snoc acc "-") c).
Proof.
  intros (d & t & -> & Hd & Ht) Hc. exists d, (t +:+ String "-" (String c "")).
  split; [by unfold Tokens.snoc; snorm |]. split; [done |].
  by apply run_tail_snoc_sep.
Qed.

Lemma tokenised_skip c s toks :
  Chr.is_alnum c = false → tokenised s toks → tokenised (String c s) toks.
Proof.
  intros Hc [s' Hs | junk tok rest toks' Hjunk Htok Hends Hrest].
  - constructor. simpl. by rewrite Hc.
  - rewrite <- str_app_cons. constructor; [| done | done | done].
    simpl. by rewrite Hc.
Qed.

(** The scan finds the matches. *)
Lemma scan_tokenised s :
  tokenised s (Tokens.scan Tokens.Idle s) ∧
  (∀ acc, is_token acc →
     ∃ tok rest, acc +:+ s = tok +:+ rest ∧ is_token tok ∧ token_ends rest ∧
       Tokens.scan (Tokens.InTok acc) s = tok :: Tokens.scan Tokens.Idle rest ∧
       tokenised rest (Tokens.scan Tokens.Idle rest)) ∧
  (∀ acc, is_token acc →
     ∃ tok rest, acc +:+ String "-" s = tok +:+ rest ∧ is_token tok ∧
       token_ends rest ∧
       Tokens.scan (Tokens.Hyph acc) s = tok :: Tokens.scan Tokens.Idle rest ∧
       tokenised rest (Tokens.scan Tokens.Idle rest)).
Proof.
  induction s as [|c s (IH1 & IH2 & IH3)].
  - split; [by constructor |]. split; intros acc Hacc.
    + exists acc, "". rewrite str_app_nil_r. repeat split; try done. by constructor.
    + exists acc, "-". repeat split; try done. by constructor.
  - assert (Chr.is_alnum c = false → tokenised (String c s) (Tokens.scan Tokens.Idle s))
      as Hskip by (intros Hc; by apply tokenised_skip).
    split; [| split].
    + simpl. destruct (Chr.is_alnum c) eqn:Hc; [| by apply Hskip].
      destruct (IH2 (String c "")) as (tok & rest & Heq & Htok & Hends & -> & Hrest).
      { exists c, "". repeat split; [done | constructor]. }
      rewrite str_app_cons, str_app_nil_l in Heq. rewrite Heq.
      by apply (tokenised_cons "").
    + intros acc Hacc. simpl. destruct (Chr.is_alnum c) eqn:Hc.
      { destruct (IH2 (Tokens.snoc acc c) (token_snoc _ _ Hacc Hc))
          as (tok & rest & Heq & H).
        exists tok, rest. split; [| done].
        unfold Tokens.snoc in Heq. by rewrite str_app_assoc in Heq. }
      destruct (Ascii.eqb c "-") eqn:Ec.
      { apply Ascii.eqb_eq in Ec as ->. apply (IH3 acc Hacc). }
      exists acc, (String c s). simpl. rewrite Hc.
      repeat split; try done; [| by apply Hskip].
      intros ->. done.
    + intros acc Hacc. simpl. destruct (Chr.is_alnum c) eqn:Hc.
      { destruct (IH2 _ (token_snoc_hyphen _ _ Hacc Hc)) as (tok & rest & Heq & H).
        exists tok, rest. split; [| done].
        unfold Tokens.snoc in Heq. by rewrite !str_app_assoc in Heq. }
      exists acc, (String "-" (String c s)). simpl. rewrite Hc.
      repeat split; try done.
      apply tokenised_skip; [done |]. by apply Hskip.
Qed.

Lemma scan_idle_junk junk s :
  Str.all (fun c => negb (Chr.is_alnum c)) junk = true →
  Tokens.scan Tokens.Idle (junk +:+ s) = Tokens.scan Tokens.Idle s.
Proof.
  induction junk as [|c junk IH]; [done |]. simpl.
  intros [Hc Hj]%andb_true_iff. apply negb_true_iff in Hc.
  rewrite ?str_app_cons. simpl. rewrite Hc. by apply IH.
Qed.

Lemma scan_idle_end rest :
  token_ends rest →
  ∀ acc, Tokens.scan (Tokens.InTok acc) rest = acc :: Tokens.scan Tokens.Idle rest.
Proof.
  intros Hends acc. destruct rest as [|c r]; [done |].
  destruct Hends as [Hc Hhyphen]. simpl. rewrite Hc.
  destruct (Ascii.eqb c "-") eqn:Ec; [| done].
  apply Ascii.eqb_eq in Ec. specialize (Hhyphen Ec).
  destruct r as [|d r]; [done |]. simpl. by rewrite Hhyphen.
Qed.

Lemma scan_tail t :
  run_tail Chr.is_alnum "-" t → ∀ acc rest, token_ends rest →
  Tokens.scan (Tokens.InTok acc) (t +:+ rest)
  = (acc +:+ t) :: Tokens.scan Tokens.Idle rest.
Proof.
  induction 1 as [|c t Hc _ IH|c t Hc _ IH]; intros acc rest Hends.
  - rewrite str_app_nil_l, str_app_nil_r. by apply scan_idle_end.
  - rewrite str_app_cons. simpl. rewrite Hc, (IH _ _ Hends).
    unfold Tokens.snoc. by rewrite str_app_assoc.
  - rewrite !str_app_cons. simpl.
    rewrite Hc, (IH _ _ Hends). unfold Tokens.snoc. by rewrite !str_app_assoc.
Qed.

(** The matches are what the scan finds. *)
Lemma tokenised_scan s toks : tokenised s toks → toks = Tokens.scan Tokens.Idle s.
Proof.
  induction 1 as [s Hs | junk tok rest toks Hjunk Htok Hends _ IH].
  - rewrite <- (str_app_nil_r s), scan_idle_junk by done. done.
  - rewrite scan_idle_junk by done.
    destruct Htok as (c & t & -> & Hc & Ht). rewrite str_app_cons. simpl.
    rewrite Hc, (scan_tail t Ht _ _ Hends). by rewrite IH.
Qed.

Lemma findall_tokenised raw toks : tokenised raw toks ↔ toks = Tokens.findall raw.
Proof.
  split; [apply tokenised_scan |]. intros ->. apply scan_tokenised.
Qed.

End tokenised_facts.

Section fts_facts.

Implicit Types (s t acc tok rest : string) (c : ascii) (toks : list string).

Lemma read_inside tok acc rest :
  Str.all (fun c => negb (Ascii.eqb c "034")) tok = true →
  Fts.read (Fts.Inside acc) (tok +:+ String "034" rest)
  = cons (acc +:+ tok) <$> Fts.read Fts.After rest.
Proof.
  revert acc. induction tok as [|c tok IH]; intros acc Hall.
  - rewrite str_app_nil_l, str_app_nil_r. done.
  - simpl in Hall. apply andb_true_iff in Hall as [Hc Hall].
    apply negb_true_iff in Hc. rewrite str_app_cons. simpl. rewrite Hc.
    rewrite (IH _ Hall). by rewrite str_app_assoc.
Qed.

Lemma read_quoted tok rest :
  Str.all (fun c => negb (Ascii.eqb c "034")) tok = true →
  Fts.read Fts.Before (Tokens.quote tok +:+ rest)
  = cons tok <$> Fts.read Fts.After rest.
Proof.
  intros Hall. unfold Tokens.quote. snorm. simpl.
  by rewrite (read_inside tok "" rest Hall).
Qed.

(** The index query reads back as the tokens it was built from. *)
Lemma phrases_fts_query toks :
  toks ≠ [] →
  Forall (fun tok => Str.all (fun c => negb (Ascii.eqb c "034")) tok = true) toks →
  Fts.phrases (Tokens.fts_query toks) = Some toks.
Proof.
  unfold Fts.phrases, Tokens.fts_query. intros Hne Hall.
  induction Hall as [|tok toks Htok Hall IH]; [done |]. clear Hne.
  destruct toks as [|tok' toks].
  - change (String.concat " AND " (Tokens.quote <$> [tok])) with (Tokens.quote tok).
    rewrite <- (str_app_nil_r (Tokens.quote tok)).
    by rewrite (read_quoted tok "" Htok).
  - change (String.concat " AND " (Tokens.quote <$> tok :: tok' :: toks))
      with (Tokens.quote tok +:+ " AND "
              +:+ String.concat " AND " (Tokens.quote <$> tok' :: toks)).
    rewrite (read_quoted tok _ Htok).
    change (Fts.read Fts.After (" AND " +:+ ?x)) with (Fts.read Fts.Before x).
    by rewrite IH.
Qed.

End fts_facts.

(** C3: the tokens of the free text are the matches of the token pattern in
    the trimmed text, runs of letters and digits joined by single hyphens;
    the index is asked for the conjunction of the tokens, each in double
    quotes, which reads back as these tokens: no character of the text is
    read as syntax of the query.  With no token, or when the index raises
    its error or finds no row, the query is the LIKE scan of the trimmed
    text over the five text columns; when the index finds rows, the query is
    restricted to these rows: to the rows that hold the tokens, for an index
    that answers a conjunction of quoted strings with the rows that hold
    them; the statement is given for a text that, trimmed, neither starts
    nor ends with a character outside ASCII.  An error of the index other
    than its own leaves [cmd_query], so
    [cmd_query] returns when the index raises no other.  An empty text is no
    free-text query: the statement gets no clause for it. *)
Theorem free_text_query_safe (b : sql_backend) (a : query_args) (t : string) :
  q_text a = Some t →
  let raw := Str.strip t in
  let tokens := Tokens.findall raw in
  let f := structured_filters a in
  let query :=
    String.concat " AND "
      ((fun tok => String "034" (tok +:+ String "034" EmptyString)) <$> tokens) in
  let fallback : filters :=
    (f.1 ++ ["(short_name LIKE ? OR plate LIKE ? OR person LIKE ? OR phone LIKE ? OR email LIKE ?)"],
     f.2 ++ replicate 5 (SText ("%" +:+ raw +:+ "%"))) in
  let restricted (ids : list Z) : filters :=
    (f.1 ++ ["id IN (" +:+ String.concat "," (replicate (length ids) "?") +:+ ")"],
     f.2 ++ (SInt <$> ids)) in
  (∀ toks, tokenised raw toks ↔ toks = tokens) ∧
  (tokens ≠ [] → Fts.phrases query = Some tokens) ∧
  (t = "" → cmd_query b a = Ok (select_orders b a f)) ∧
  (t ≠ "" → plain_ends t →
     cmd_query b a
     = if bool_decide (tokens = []) then Ok (select_orders b a fallback)
       else match fts_match b query with
            | Ok [] => Ok (select_orders b a fallback)
            | Ok ids => Ok (select_orders b a (restricted ids))
            | Raise OperationalError => Ok (select_orders b a fallback)
            | Raise e => Raise e
            end) ∧
  (∀ lookup, index_reads lookup b → t ≠ "" → plain_ends t → tokens ≠ [] →
     cmd_query b a
     = Ok (select_orders b a
             match lookup tokens with
             | [] => fallback
             | ids => restricted ids
             end)) ∧
  ((∀ e, fts_match b query = Raise e → e = OperationalError) →
     returns (cmd_query b a)).
Proof.
  intros Ht raw tokens f query fallback restricted.
  assert (Fts.phrases query = Some tokens ∨ tokens = []) as Hread.
  { destruct (decide (tokens = [])) as [|Hne]; [by right | left].
    apply (phrases_fts_query tokens Hne).
    eapply Forall_impl; [apply (findall_tokens raw) |].
    intros tok [Hgood _]. by apply good_token_no_quote. }
  assert (t ≠ "" →
     cmd_query b a
     = if bool_decide (tokens = []) then Ok (select_orders b a fallback)
       else match fts_match b query with
            | Ok [] => Ok (select_orders b a fallback)
            | Ok ids => Ok (select_orders b a (restricted ids))
            | Raise OperationalError => Ok (select_orders b a fallback)
            | Raise e => Raise e
            end) as Hcases.
  { intros Hne. rewrite (cmd_query_text b a t Ht), (free_text_cases b t _ Hne).
    fold raw. fold tokens. fold f. change (Tokens.fts_query tokens) with query.
    case_bool_decide; [done |].
    destruct (fts_match b query) as [[|id ids]|e]; [done | done |]. by destruct e. }
  split_and!.
  - apply findall_tokenised.
  - intros Hne. by destruct Hread.
  - intros ->. by rewrite (cmd_query_text b a "" Ht).
  - intros Hne _. by apply Hcases.
  - intros lookup Hindex Hne _ Htok. rewrite (Hcases Hne).
    rewrite bool_decide_eq_false_2 by done.
    destruct Hread as [Hread|]; [| done].
    rewrite (Hindex query tokens Hread). by destruct (lookup tokens).
  - intros Herr. destruct (decide (t = "")) as [->|Hne].
    { rewrite (cmd_query_text b a "" Ht). by eexists. }
    rewrite (Hcases Hne). unfold returns. case_bool_decide; [by eexists |].
    destruct (fts_match b query) as [[|id ids]|e] eqn:Hm; [by eexists | by eexists |].
    rewrite (Herr e eq_refl). by eexists.
Qed.

Lemma store_index_reads rows : index_reads (Store.lookup rows) (Store.backend rows).
Proof. intros q phrases Hq. simpl. by rewrite Hq. Qed.

(** The text [-BB-SK 2307] starts with a hyphen; the index is asked for
    ["BB-SK" AND "2307"] and finds the order with that plate, to which the
    query is restricted. *)
Lemma free_text_query_safe_witness :
  cmd_query (Store.backend [demo_row]) (demo_query "-BB-SK 2307")
  = Ok ("SELECT * FROM orders WHERE id IN (?) ORDER BY shop_date DESC, id DESC LIMIT ?",
        [SInt 1; SInt 200], [demo_row]).
Proof.
  destruct (free_text_query_safe (Store.backend [demo_row])
              (demo_query "-BB-SK 2307") "-BB-SK 2307" eq_refl)
    as (_ & _ & _ & _ & Hindex & _).
  rewrite (Hindex (Store.lookup [demo_row]) (store_index_reads [demo_row]));
    [| discriminate | split; reflexivity | discriminate].
  vm_compute. reflexivity.
Defined.

Example store_like_scan :
  cmd_query (Store.backend [demo_row]) (demo_query "bb-sk 23")
  = Ok ("SELECT * FROM orders WHERE (short_name LIKE ? OR plate LIKE ? OR person LIKE ? OR phone LIKE ? OR email LIKE ?) ORDER BY shop_date DESC, id DESC LIMIT ?",
        replicate 5 (SText "%bb-sk 23%") ++ [SInt 200], [demo_row]) ∧
  cmd_query (Store.backend [demo_row]) (demo_query "-BB-SK 23")
  = Ok ("SELECT * FROM orders WHERE (short_name LIKE ? OR plate LIKE ? OR person LIKE ? OR phone LIKE ? OR email LIKE ?) ORDER BY shop_date DESC, id DESC LIMIT ?",
        replicate 5 (SText "%-BB-SK 23%") ++ [SInt 200], []).
Proof. split; vm_compute; reflexivity. Qed.

(** C10: when the text has tokens and the index answers with no row, the
    query is the LIKE scan of the raw text over the five text columns, with
    no restriction to rows of the index: its result is that of the scan. *)
Theorem empty_index_answer_falls_back (b : sql_backend) (a : query_args) (t : string) :
  q_text a = Some t → t ≠ "" →
  Tokens.findall (Str.strip t) ≠ [] →
  fts_match b (Tokens.fts_query (Tokens.findall (Str.strip t))) = Ok [] →
  cmd_query b a
  = Ok (select_orders b a (like_fallback (Str.strip t) (structured_filters a))).
Proof.
  intros Ht Hne Htok Hm.
  rewrite (cmd_query_text b a t Ht), (free_text_cases b t _ Hne).
  simpl. by rewrite bool_decide_eq_false_2, Hm.
Qed.

(** The index has no row for ["230"]; the scan finds the plate BB-SK 2307. *)
Lemma empty_index_answer_falls_back_witness :
  cmd_query (Store.backend [demo_row]) (demo_query "230")
  = Ok ("SELECT * FROM orders WHERE (short_name LIKE ? OR plate LIKE ? OR person LIKE ? OR phone LIKE ? OR email LIKE ?) ORDER BY shop_date DESC, id DESC LIMIT ?",
        replicate 5 (SText "%230%") ++ [SInt 200], [demo_row]).
Proof.
  rewrite (empty_index_answer_falls_back (Store.backend [demo_row])
             (demo_query "230") "230");
    [vm_compute; reflexivity | reflexivity | discriminate | discriminate
    | vm_compute; reflexivity].
Defined.

(** ** The examples of the source and of its documentation *)

Example date_de : _parse_german_date_or_datetime "16.12.2025" = Ok (Some "2025-12-16", None).
Proof. reflexivity. Qed.

Example date_iso : _parse_german_date_or_datetime "2025-12-18" = Ok (Some "2025-12-18", None).
Proof. reflexivity. Qed.

Example date_leap_day :
  _parse_german_date_or_datetime "29.2.2024" = Ok (Some "2024-02-29", None) ∧
  _parse_german_date_or_datetime "29.2.2025" = Ok (None, None).
Proof. split; reflexivity. Qed.

Example station_finished : parse_station "4@finished" = (Some 4%Z, Some "finished").
Proof. reflexivity. Qed.

Example station_malformed :
  parse_station "active" = (None, None) ∧ parse_station "4@" = (None, None).
Proof. split; reflexivity. Qed.

Example tokens_plate : Tokens.findall "BB-SK 2307" = ["BB-SK"; "2307"].
Proof. reflexivity. Qed.

Example tokens_leading_hyphen : Tokens.findall "-abc" = ["abc"].
Proof. reflexivity. Qed.

Example tokens_hyphen_runs : Tokens.findall "a--b- x-y-z" = ["a"; "b"; "x-y-z"].
Proof. reflexivity. Qed.

Example float_exponent_and_underscore :
  _to_float_de (Some "1e5") = Ok (Some (FDec false 1 5)) ∧
  _to_float_de (Some "1_000") = Ok (Some (FDec false 1000 0)) ∧
  _to_float_de (Some "12 EUR") = Ok None ∧
  _to_float_de (Some "1,2,3") = Ok None ∧
  _to_float_de (Some "12 5") = Ok None ∧
  _to_float_de (Some "neat") = Ok None.
Proof. repeat split; reflexivity. Qed.

(** ** Text clean-up *)

Section collapse_facts.

Variables (p q k : ascii → bool) (by_ : ascii).
Hypothesis Hby : p by_ = true.
Hypothesis Hq_by : q by_ = true.
Hypothesis Hq_p : ∀ c, q c = true → p c = true.
Hypothesis Hk : ∀ c, k c = negb (p c).

Lemma collapse_tidy s b :
  Text.tidy p by_ b (Text.collapse_runs p by_ b s) = true.
Proof.
  revert b; induction s as [|c s IH]; intros b; simpl; [done|].
  destruct (p c) eqn:E.
  - destruct b; [apply IH|]. simpl.
    rewrite Hby, Ascii.eqb_refl. simpl. apply IH.
  - simpl. rewrite E. apply IH.
Qed.

Lemma lstrip_collapse_run s :
  Text.lstrip_by q (Text.collapse_runs p by_ true s)
  = Text.collapse_runs p by_ true s.
Proof.
  induction s as [|c s IH]; simpl; [done|].
  destruct (p c) eqn:E; [done|]. simpl.
  destruct (q c) eqn:Eq; [|done]. apply Hq_p in Eq. congruence.
Qed.

Lemma lstrip_collapse s :
  Text.lstrip_by q (Text.collapse_runs p by_ false s)
  = Text.collapse_runs p by_ true s.
Proof.
  destruct s as [|c s]; simpl; [done|].
  destruct (p c) eqn:E; simpl.
  - rewrite Hq_by. apply lstrip_collapse_run.
  - destruct (q c) eqn:Eq; [|done]. apply Hq_p in Eq. congruence.
Qed.

Lemma rstrip_by_tidy u b :
  Text.tidy p by_ b u = true → Text.tidy p by_ b (Text.rstrip_by q u) = true.
Proof.
  revert b; induction u as [|c u IH]; intros b; simpl; [done|].
  intros H. destruct (q c && Str.is_empty (Text.rstrip_by q u)); [done|].
  simpl. destruct (p c).
  - apply andb_true_iff in H as [H1 H2]. rewrite H1. simpl. by apply IH.
  - by apply IH.
Qed.

Lemma rstrip_by_idem u :
  Text.rstrip_by q (Text.rstrip_by q u) = Text.rstrip_by q u.
Proof.
  induction u as [|c u IH]; simpl; [done|].
  destruct (q c && Str.is_empty (Text.rstrip_by q u)) eqn:E; [done|].
  simpl. by rewrite IH, E.
Qed.

Lemma lstrip_by_idem u :
  Text.lstrip_by q (Text.lstrip_by q u) = Text.lstrip_by q u.
Proof.
  induction u as [|c u IH]; simpl; [done|].
  destruct (q c) eqn:E; [done|]. simpl. by rewrite E.
Qed.

Lemma lstrip_by_tidy u :
  Text.tidy p by_ true u = true → Text.lstrip_by q u = u.
Proof.
  destruct u as [|c u]; simpl; [done|].
  destruct (p c) eqn:E.
  - rewrite andb_false_r. simpl. done.
  - intros _. destruct (q c) eqn:Eq; [|done]. apply Hq_p in Eq. congruence.
Qed.

Lemma collapse_of_tidy u b :
  Text.tidy p by_ b u = true →
  Text.collapse_runs p by_ false u = u ∧
  (b = true → Text.collapse_runs p by_ true u = u).
Proof.
  revert b; induction u as [|c u IH]; intros b; simpl; [done|].
  destruct (p c) eqn:E.
  - intros H. apply andb_true_iff in H as [H1 H2].
    apply andb_true_iff in H1 as [H0 H1].
    apply Ascii.eqb_eq in H0 as ->. destruct b; [done|].
    destruct (IH true H2) as [_ ->]; done.
  - intros H. destruct (IH false H) as [-> _]. done.
Qed.

Lemma tidy_no_pair u b :
  Text.tidy p by_ b u = true →
  Search.contains (String by_ (String by_ EmptyString)) u = false.
Proof.
  revert b; induction u as [|c u IH]; intros b H; [done|].
  cbn [Search.contains Search.prefix]. simpl in H.
  destruct (p c) eqn:E.
  - apply andb_true_iff in H as [H1 H2]. rewrite (IH _ H2), orb_false_r.
    destruct u as [|d u]; [by rewrite andb_false_r|].
    simpl in H2. destruct (p d) eqn:Ed.
    + by rewrite andb_false_r in H2.
    + destruct (Ascii.eqb_spec by_ d) as [<-|]; [congruence|].
      by rewrite andb_false_r.
  - rewrite (IH _ H), orb_false_r.
    destruct (Ascii.eqb_spec by_ c) as [<-|]; [congruence|done].
Qed.

Lemma tidy_chars u b :
  Text.tidy p by_ b u = true →
  Str.all (fun c => k c || Ascii.eqb c by_) u = true.
Proof.
  revert b; induction u as [|c u IH]; intros b H; [done|].
  simpl in *. rewrite Hk. destruct (p c) eqn:E; simpl.
  - apply andb_true_iff in H as [H1 H2].
    apply andb_true_iff in H1 as [-> _]. simpl. by eapply IH.
  - by eapply IH.
Qed.

Lemma keep_collapse s b :
  Text.keep k (Text.collapse_runs p by_ b s) = Text.keep k s.
Proof.
  revert b; induction s as [|c s IH]; intros b; simpl; [done|].
  rewrite Hk. destruct (p c) eqn:E; simpl.
  - destruct b; [apply IH|]. simpl. by rewrite Hk, Hby, IH.
  - by rewrite Hk, E, IH.
Qed.

Lemma keep_lstrip_by u : Text.keep k (Text.lstrip_by q u) = Text.keep k u.
Proof.
  induction u as [|c u IH]; simpl; [done|].
  destruct (q c) eqn:E; [|done].
  by rewrite Hk, (Hq_p _ E).
Qed.

Lemma keep_rstrip_by u : Text.keep k (Text.rstrip_by q u) = Text.keep k u.
Proof.
  induction u as [|c u IH]; simpl; [done|].
  destruct (q c) eqn:E; simpl.
  - rewrite <- IH.
    destruct (Text.rstrip_by q u); simpl; by rewrite Hk, (Hq_p _ E).
  - by rewrite IH.
Qed.

(** The clean-up [strip(collapse(s))] and what it guarantees. *)
Lemma clean_up_facts s :
  let r := Text.strip_by q (Text.collapse_runs p by_ false s) in
  Str.all (fun c => k c || Ascii.eqb c by_) r = true ∧
  Search.contains (String by_ (String by_ EmptyString)) r = false ∧
  Text.strip_by q r = r ∧
  Text.keep k r = Text.keep k s ∧
  Text.strip_by q (Text.collapse_runs p by_ false r) = r.
Proof.
  intros r.
  assert (Hr : r = Text.rstrip_by q (Text.collapse_runs p by_ true s))
    by (unfold r, Text.strip_by; by rewrite lstrip_collapse).
  assert (Ht : Text.tidy p by_ true r = true)
    by (rewrite Hr; apply rstrip_by_tidy, collapse_tidy).
  assert (Hs : Text.strip_by q r = r).
  { unfold Text.strip_by. rewrite (lstrip_by_tidy _ Ht).
    rewrite Hr. apply rstrip_by_idem. }
  split_and!.
  - by eapply tidy_chars.
  - by eapply tidy_no_pair.
  - done.
  - by rewrite Hr, keep_rstrip_by, keep_collapse.
  - destruct (collapse_of_tidy _ _ Ht) as [-> _]. done.
Qed.

Lemma rstrip_by_snoc u c :
  q c = true →
  Text.rstrip_by q (u +:+ String c EmptyString) = Text.rstrip_by q u.
Proof.
  intros Hc. induction u as [|a u IH]; snorm; simpl.
  - by rewrite Hc.
  - fold (String.append u (String c EmptyString)).
    change (u ++ String c "")%string with (u +:+ String c "") in *.
    by rewrite IH.
Qed.

End collapse_facts.

Lemma lstrip_is_lstrip_by s : Str.lstrip s = Text.lstrip_by Chr.is_space s.
Proof. induction s as [|c s IH]; simpl; [done|]. by rewrite IH. Qed.

Lemma rstrip_is_rstrip_by s : Str.rstrip s = Text.rstrip_by Chr.is_space s.
Proof. induction s as [|c s IH]; simpl; [done|]. by rewrite IH. Qed.

Lemma strip_is_strip_by s : Str.strip s = Text.strip_by Chr.is_space s.
Proof.
  unfold Str.strip, Text.strip_by.
  by rewrite lstrip_is_lstrip_by, rstrip_is_rstrip_by.
Qed.

Lemma lower_slug_char c :
  slug_char c || Ascii.eqb c "_" = true → Chr.lower c = c.
Proof.
  destruct c as [[] [] [] [] [] [] [] []]; vm_compute; congruence.
Qed.

Lemma lower_slug s :
  Str.all (fun c => slug_char c || Ascii.eqb c "_") s = true → Str.lower s = s.
Proof.
  induction s as [|c s IH]; simpl; [done|].
  intros [H1 H2]%andb_true_iff. by rewrite (lower_slug_char _ H1), IH.
Qed.

Section fields_facts.

Variables (p q : ascii → bool) (by_ : ascii).
Hypothesis Hq_by : q by_ = true.
Hypothesis Hq_p : ∀ c, q c = true → p c = true.

Lemma rstrip_by_absent u :
  Str.all (fun c => negb (p c)) u = true → Text.rstrip_by q u = u.
Proof.
  induction u as [|c u IH]; [done |]. simpl.
  intros [Hc Hu]%andb_true_iff. rewrite (IH Hu).
  destruct (q c) eqn:E; [| done]. apply Hq_p in E.
  apply negb_true_iff in Hc. congruence.
Qed.

Lemma rstrip_by_app a b :
  Text.rstrip_by q (a +:+ b)
  = if Str.is_empty (Text.rstrip_by q b) then Text.rstrip_by q a
    else a +:+ Text.rstrip_by q b.
Proof.
  induction a as [|c a IH].
  - rewrite !str_app_nil_l. by destruct (Text.rstrip_by q b).
  - rewrite str_app_cons. simpl. rewrite IH.
    destruct (Text.rstrip_by q b) as [|x r]; simpl; [done |].
    rewrite str_app_cons. by destruct a; rewrite andb_false_r.
Qed.

Lemma fields_from_nonempty cur s :
  Forall (fun w => w ≠ "") (Text.fields_from p cur s).
Proof.
  revert cur. induction s as [|c s IH]; intros cur; simpl.
  - destruct (Str.is_empty cur) eqn:E; [done |].
    apply Forall_singleton. by apply is_empty_false.
  - destruct (p c); [| apply IH].
    destruct (Str.is_empty cur) eqn:E; [apply IH |].
    constructor; [by apply is_empty_false | apply IH].
Qed.

Lemma concat_cons_nonempty (sep x : string) l :
  x ≠ "" → String.concat sep (x :: l) ≠ "".
Proof. intros Hx. destruct l; [done |]. simpl. by destruct x. Qed.

Lemma collapse_fields s :
  Text.rstrip_by q (Text.collapse_runs p by_ true s)
  = String.concat (String by_ "") (Text.fields_from p "" s) ∧
  ∀ cur, cur ≠ "" → Str.all (fun c => negb (p c)) cur = true →
    Text.rstrip_by q (cur +:+ Text.collapse_runs p by_ false s)
    = String.concat (String by_ "") (Text.fields_from p cur s).
Proof.
  induction s as [|c s [IHa IHb]].
  - split; [done |]. intros cur Hne Hcur. simpl.
    apply is_empty_false in Hne. rewrite Hne, str_app_nil_r. simpl.
    by apply rstrip_by_absent.
  - simpl. destruct (p c) eqn:Ec.
    + split; [done |]. intros cur Hne Hcur.
      pose proof Hne as Hne'. apply is_empty_false in Hne'. rewrite Hne'.
      assert (Text.rstrip_by q (String by_ (Text.collapse_runs p by_ true s))
              = if Str.is_empty (Text.rstrip_by q (Text.collapse_runs p by_ true s))
                then "" else String by_ (Text.rstrip_by q (Text.collapse_runs p by_ true s)))
        as Hrs by (simpl; by rewrite Hq_by).
      rewrite rstrip_by_app, Hrs, IHa.
      pose proof (fields_from_nonempty "" s) as Hall.
      destruct (Text.fields_from p "" s) as [|w l] eqn:Hf.
      * simpl. by apply rstrip_by_absent.
      * apply Forall_cons in Hall as [Hw _].
        pose proof (concat_cons_nonempty (String by_ "") w l Hw) as Hc.
        apply is_empty_false in Hc. rewrite Hc. done.
    + split.
      * rewrite ?str_app_nil_l.
        rewrite <- (IHb (String c ""));
          [by rewrite str_app_cons, str_app_nil_l | done |].
        simpl. by rewrite Ec.
      * intros cur Hne Hcur.
        rewrite <- (IHb (cur +:+ String c "")).
        -- by rewrite str_app_assoc.
        -- by destruct cur.
        -- rewrite all_app, Hcur. simpl. by rewrite Ec.
Qed.

(** The clean-up [strip(collapse(s))] joins the fields of [s]. *)
Lemma clean_up_fields s :
  Text.strip_by q (Text.collapse_runs p by_ false s)
  = String.concat (String by_ "") (Text.fields p s).
Proof.
  unfold Text.strip_by. rewrite (lstrip_collapse p q by_ Hq_by Hq_p).
  apply collapse_fields.
Qed.

End fields_facts.

(** X1: [_normalize_whitespace] joins the words of an ASCII text, its
    maximal runs of characters other than whitespace, with single spaces.
    So the result has no whitespace character other than the space, no two
    spaces in a row and none at either end; it keeps the other characters of
    the text in their order; and it leaves its own results unchanged. *)
Theorem normalize_whitespace_normal_form s :
  ascii_text s →
  let r := _normalize_whitespace s in
  r = String.concat " " (Text.fields Chr.is_space s) ∧
  Str.all (fun c => not_space c || Ascii.eqb c " ") r = true ∧
  Search.contains "  " r = false ∧
  Str.strip r = r ∧
  Text.keep not_space r = Text.keep not_space s ∧
  _normalize_whitespace r = r.
Proof.
  intros _. cbv zeta. unfold _normalize_whitespace. rewrite !strip_is_strip_by.
  split.
  - exact (clean_up_fields Chr.is_space Chr.is_space " " eq_refl (fun c H => H) s).
  - exact (clean_up_facts Chr.is_space Chr.is_space not_space " "
             eq_refl eq_refl (fun c H => H) (fun c => eq_refl) s).
Qed.

Lemma normalize_whitespace_normal_form_witness :
  _normalize_whitespace "  Reit   GmbH " = "Reit GmbH".
Proof.
  pose proof (normalize_whitespace_normal_form "  Reit   GmbH " eq_refl) as H.
  cbv zeta in H. destruct H as [H _]. exact (eq_trans H eq_refl).
Defined.

(** X2: [_slug] joins the runs of lower-case letters and digits of the
    lower-cased ASCII text with single underscores.  So the result is a name
    of lower-case letters, digits and single underscores, with no
    underscore at either end; the letters and digits are those of the
    lower-cased text, and a slug is its own slug. *)
Theorem slug_normal_form s :
  ascii_text s →
  let r := _slug s in
  r = String.concat "_" (Text.fields (fun c => negb (slug_char c)) (Str.lower s)) ∧
  Str.all (fun c => slug_char c || Ascii.eqb c "_") r = true ∧
  Search.contains "__" r = false ∧
  Text.strip_by (Ascii.eqb "_") r = r ∧
  Text.keep slug_char r = Text.keep slug_char (Str.lower s) ∧
  _slug r = r.
Proof.
  intros _. unfold _slug.
  assert (Hq : ∀ c, Ascii.eqb "_" c = true → negb (slug_char c) = true).
  { intros c <-%Ascii.eqb_eq. done. }
  assert (Hk : ∀ c, slug_char c = negb (negb (slug_char c))).
  { intros c. by rewrite negb_involutive. }
  pose proof (clean_up_facts (fun c => negb (slug_char c)) (Ascii.eqb "_")
                slug_char "_" eq_refl eq_refl Hq Hk (Str.lower s)) as H.
  cbv zeta in *. destruct H as (H1 & H2 & H3 & H4 & H5).
  split.
  { exact (clean_up_fields (fun c => negb (slug_char c)) (Ascii.eqb "_") "_"
             eq_refl Hq (Str.lower s)). }
  split_and!; try done.
  by rewrite (lower_slug _ H1).
Qed.

Lemma slug_normal_form_witness :
  _slug " Sollstunden Karo (h) " = "sollstunden_karo_h".
Proof.
  pose proof (slug_normal_form " Sollstunden Karo (h) " eq_refl) as H.
  cbv zeta in H. destruct H as [H _]. exact (eq_trans H eq_refl).
Defined.

(** ** Addresses *)

Lemma url_not_absolute_slash p : is_absolute_url (String "/" p) = false.
Proof. done. Qed.

Lemma rstrip_by_run c s :
  ∃ n, s = Text.rstrip_by (Ascii.eqb c) s +:+ repeat_char c n ∧
       Env.ends_with c (Text.rstrip_by (Ascii.eqb c) s) = false.
Proof.
  induction s as [|x s (n & Hs & He)]; [by exists 0%nat |]. simpl.
  destruct (Ascii.eqb c x) eqn:Ex; simpl.
  - apply Ascii.eqb_eq in Ex as <-.
    destruct (Text.rstrip_by (Ascii.eqb c) s) as [|y r] eqn:Hr; simpl.
    + exists (S n). split; [| done]. rewrite str_app_nil_l in *.
      simpl. by rewrite <- Hs.
    + exists n. by rewrite str_app_cons, <- Hs.
  - exists n. rewrite str_app_cons, <- Hs. split; [done |].
    destruct (Text.rstrip_by (Ascii.eqb c) s) as [|y r] eqn:Hr; [| done].
    simpl. by rewrite Ascii.eqb_sym.
Qed.

Lemma lstrip_by_run c s :
  ∃ m, s = repeat_char c m +:+ Text.lstrip_by (Ascii.eqb c) s ∧
       Search.prefix (String c "") (Text.lstrip_by (Ascii.eqb c) s) = false.
Proof.
  induction s as [|x s (m & Hs & Hp)]; [by exists 0%nat |]. simpl.
  destruct (Ascii.eqb c x) eqn:Ex.
  - apply Ascii.eqb_eq in Ex as <-. exists (S m). split; [| done].
    simpl repeat_char. rewrite str_app_cons. by rewrite <- Hs.
  - exists 0%nat. split; [done |]. simpl. by rewrite Ex.
Qed.

(** X3: [_url] joins the base address and a relative path with exactly one
    slash: the result is the base without its trailing slashes, a slash, and
    the path without its leading slashes, so a trailing slash of the base or
    a leading slash of the path changes nothing. *)
Theorem url_join_slashes cfg cfg' p :
  is_absolute_url p = false →
  base_url cfg' = base_url cfg +:+ "/" →
  (∃ b r n m,
     base_url cfg = b +:+ repeat_char "/" n ∧ Env.ends_with "/" b = false ∧
     p = repeat_char "/" m +:+ r ∧ Search.prefix "/" r = false ∧
     _url cfg p = b +:+ "/" +:+ r) ∧
  _url cfg (String "/" p) = _url cfg p ∧
  _url cfg' p = _url cfg p.
Proof.
  intros Hp Hb. unfold _url. rewrite Hp, url_not_absolute_slash.
  split_and!.
  - destruct (rstrip_by_run "/" (base_url cfg)) as (n & Hn & He).
    destruct (lstrip_by_run "/" p) as (m & Hm & Hpre).
    by eexists _, _, n, m.
  - done.
  - rewrite Hb. by rewrite rstrip_by_snoc.
Qed.

Lemma url_join_slashes_witness :
  _url {| base_url := "https://reit.planso.de"; cookie_jar_path := "";
          env_path := ""; user := None; password := None; timeout := 30 |}
       "/do"
  = _url {| base_url := "https://reit.planso.de/"; cookie_jar_path := "";
            env_path := ""; user := None; password := None; timeout := 30 |}
         "do".
Proof.
  pose proof (url_join_slashes
    {| base_url := "https://reit.planso.de"; cookie_jar_path := "";
       env_path := ""; user := None; password := None; timeout := 30 |}
    {| base_url := "https://reit.planso.de/"; cookie_jar_path := "";
       env_path := ""; user := None; password := None; timeout := 30 |}
    "do" eq_refl eq_refl) as (_ & H1 & H2).
  exact (eq_trans H1 (eq_sym H2)).
Defined.

(** ** Dates of the section requests *)

Lemma is_empty_app_cons a c b : Str.is_empty (a +:+ String c b) = false.
Proof. by destruct a. Qed.

Lemma isoformat_nonempty d : Str.is_empty (Date.isoformat d) = false.
Proof. unfold Date.isoformat. apply (is_empty_app_cons _ "-"). Qed.

(** X4: [_normalize_iso_date] is the date half of
    [_parse_german_date_or_datetime]: the second test for the ISO shape never
    adds a result. *)
Theorem normalize_iso_date_is_parse s :
  _normalize_iso_date s
  = (r ← _parse_german_date_or_datetime s; Ok r.1).
Proof.
  unfold _normalize_iso_date, _parse_german_date_or_datetime.
  destruct (Str.is_empty s) eqn:Es; [done|].
  destruct (match_iso_date (Str.strip s)) eqn:Ei.
  - simpl. destruct (Str.strip s); [done|done].
  - destruct (match_de_date (Str.strip s)) as [[[d mo] y]|].
    + destruct (Date.make _ _ _) as [dt|e]; simpl; [|done].
      by rewrite ?isoformat_nonempty.
    + destruct (match_de_datetime (Str.strip s)) as [[[[[[d mo] y] hh] mm] ss]|];
        [|done].
      destruct (Date.make_dt _ _ _ _ _ _) as [dt|e]; simpl; [|done].
      by rewrite ?isoformat_nonempty.
Qed.

Lemma days_in_month_bounds y m :
  (1 <= m <= 12)%N → (28 <= Date.days_in_month y m <= 31)%N.
Proof.
  intros Hm.
  assert (m = 1 ∨ m = 2 ∨ m = 3 ∨ m = 4 ∨ m = 5 ∨ m = 6 ∨ m = 7 ∨ m = 8
          ∨ m = 9 ∨ m = 10 ∨ m = 11 ∨ m = 12)%N as Hcases by lia.
  destruct_or! Hcases; subst m; simpl; try lia.
  destruct (Date.is_leap y); lia.
Qed.

Lemma add_days_within y m n d :
  (d + N.of_nat n <= Date.days_in_month y m)%N →
  add_days n (Date.mk y m d) = Some (Date.mk y m (d + N.of_nat n)).
Proof.
  revert d; induction n as [|n IH]; intros d H.
  - simpl. by rewrite N.add_0_r.
  - cbn [add_days next_day].
    rewrite (proj2 (N.ltb_lt d (Date.days_in_month y m))) by lia.
    cbn [mbind option_bind]. rewrite IH by lia. do 2 f_equal. lia.
Qed.

Lemma add_days_plus a b d :
  add_days (a + b) d = add_days a d ≫= add_days b.
Proof.
  revert d; induction a as [|a IH]; intros d; [done|].
  cbn [Nat.add add_days]. destruct (next_day d) as [d'|]; [|done].
  cbn [mbind option_bind]. apply IH.
Qed.

Lemma add_days_32 y m :
  (1 <= y <= 9999)%N → (1 <= m <= 12)%N →
  add_days 32 (Date.mk y m 1)
  = if ((y =? 9999) && (m =? 12))%N then None
    else Some (let d := first_of_next_month y m in
               Date.mk (Date.year d) (Date.month d)
                 (33 - Date.days_in_month y m)).
Proof.
  intros Hy Hm.
  pose proof (days_in_month_bounds y m Hm) as Hd.
  set (k := N.to_nat (Date.days_in_month y m)).
  assert (32 = (k - 1) + S (32 - k))%nat as -> by lia.
  rewrite add_days_plus, add_days_within by lia.
  cbn [mbind option_bind add_days next_day].
  assert (1 + N.of_nat (k - 1) = Date.days_in_month y m)%N as -> by lia.
  rewrite N.ltb_irrefl. unfold first_of_next_month.
  destruct (N.eqb_spec m 12) as [->|Hm12].
  - rewrite andb_true_r. change (12 <? 12)%N with false. cbv iota.
    destruct (N.eqb_spec y 9999) as [->|Hy9]; [done|].
    rewrite (proj2 (N.ltb_lt y 9999)) by lia.
    cbn [mbind option_bind]. rewrite add_days_within.
    + cbn [Date.year Date.month]. do 2 f_equal; lia.
    + pose proof (days_in_month_bounds (y + 1) 1). lia.
  - rewrite andb_false_r.
    rewrite (proj2 (N.ltb_lt m 12)) by lia.
    cbn [mbind option_bind]. rewrite add_days_within.
    + cbn [Date.year Date.month]. do 2 f_equal; lia.
    + pose proof (days_in_month_bounds y (m + 1)). lia.
Qed.

(** X5: on a text of the ISO shape, [_month_range] raises [ValueError] when
    the text names no day of the calendar and an overflow error in December
    9999; otherwise it returns the first day of the month and the first day
    of the following month: 32 days after the first of a month always fall
    in the next month. *)
Theorem month_range_spec t :
  match_iso_date t = true →
  let y := Str.digits_val (String.substring 0 4 t) in
  let m := Str.digits_val (String.substring 5 2 t) in
  let d := Str.digits_val (String.substring 8 2 t) in
  _month_range t =
    if negb (Date.valid y m d) then Raise ValueError
    else if ((y =? 9999) && (m =? 12))%N then Raise overflow_error
    else Ok (Date.isoformat (Date.mk y m 1),
             Date.isoformat (first_of_next_month y m)).
Proof.
  intros Ht y m d. unfold _month_range, date_fromisoformat, Date.make.
  rewrite Ht. fold y m d.
  destruct (Date.valid y m d) eqn:Hv; [|done].
  cbn [mbind res_bind negb Date.year Date.month].
  assert ((1 <= y <= 9999)%N ∧ (1 <= m <= 12)%N) as [Hy Hm].
  { unfold Date.valid in Hv. repeat (apply andb_true_iff in Hv as [Hv ?]).
    repeat match goal with
           | H : (_ <=? _)%N = true |- _ => apply N.leb_le in H
           end. lia. }
  rewrite add_days_32 by done.
  destruct ((y =? 9999) && (m =? 12))%N; [done|].
  cbv zeta. cbn [Date.year Date.month].
  unfold first_of_next_month. by destruct (m =? 12)%N.
Qed.

Lemma month_range_spec_witness :
  _month_range "2025-12-16" = Ok ("2025-12-01", "2026-01-01").
Proof. exact (month_range_spec "2025-12-16" eq_refl). Defined.

Example month_range_february_30 : _month_range "2025-02-30" = Raise ValueError.
Proof. reflexivity. Qed.

(** ** The station token *)

(** X6: on an ASCII text of at most 4300 characters, [parse_station] reads
    exactly the tokens [<digits>@<letters or underscores>], surrounding
    whitespace aside: such a token gives the number and the state in lower
    case, every other text gives [(None, None)]. *)
Theorem parse_station_token s :
  ascii_text s → (String.length s ≤ 4300)%nat →
  (∀ ds w, station_form (Str.strip s) ds w →
     parse_station s = (Some (Z.of_N (Str.digits_val ds)), Some (Str.lower w))) ∧
  ((∀ ds w, ¬ station_form (Str.strip s) ds w) →
     parse_station s = (None, None)).
Proof.
  intros _ _. unfold parse_station, match_station. split.
  - intros ds w (Hds & Hdig & Hw & Hall & Ht).
    destruct (Str.is_empty s) eqn:Es.
    { apply is_empty_true in Es as ->. by destruct ds. }
    rewrite Ht. change (ds +:+ "@" +:+ w) with (ds +:+ String "@" w).
    rewrite span_app_stop by done.
    apply is_empty_false in Hds as ->. simpl.
    apply is_empty_false in Hw as ->. by rewrite Hall.
  - intros Hno. destruct (Str.is_empty s); [done|].
    destruct (Re.span Chr.is_digit (Str.strip s)) as [ds r] eqn:Hs.
    destruct (Str.is_empty ds) eqn:Hds; [done|].
    destruct (Re.lit "@" r) as [w|] eqn:Hl; [|done]. simpl.
    destruct (Str.is_empty w) eqn:Hw; [done|]. simpl.
    destruct (Str.all _ w) eqn:Hall; [|done].
    destruct (span_inv _ _ _ _ Hs) as (Ht & Hdig & _).
    apply lit_inv in Hl as ->.
    destruct (Hno ds w). unfold station_form.
    by rewrite is_empty_false in Hds, Hw.
Qed.

Lemma parse_station_token_witness :
  parse_station " 4@Finished " = (Some 4%Z, Some "finished").
Proof.
  destruct (parse_station_token " 4@Finished ") as [H _].
  - reflexivity.
  - simpl. lia.
  - apply (H "4" "Finished"). by repeat split.
Defined.

(** ** The rows of the parts table *)

Lemma header_index_from_spec i headers inc exc :
  match header_index_from i headers inc exc with
  | Some j =>
      (i ≤ j)%nat ∧
      ∃ h, headers !! (j - i)%nat = Some h ∧ header_matches inc exc h = true ∧
           ∀ k h', (k < j - i)%nat → headers !! k = Some h' →
                   header_matches inc exc h' = false
  | None => ∀ h, h ∈ headers → header_matches inc exc h = false
  end.
Proof.
  revert i; induction headers as [|h0 headers IH]; intros i; simpl.
  - intros h Hh. by apply elem_of_nil in Hh.
  - destruct (header_matches inc exc h0) eqn:E.
    + split; [lia|]. exists h0. rewrite Nat.sub_diag. split; [done|].
      split; [done|]. intros k h' Hk. lia.
    + specialize (IH (S i)).
      destruct (header_index_from (S i) headers inc exc) as [j|].
      * destruct IH as (Hij & h & Hh & Hm & Hless). split; [lia|].
        exists h. replace (j - i)%nat with (S (j - S i)) by lia.
        split; [done|]. split; [done|].
        intros [|k] h' Hk; simpl; [by intros [= <-]|].
        apply Hless. lia.
      * intros h [->|Hh]%elem_of_cons; [done|by apply IH].
Qed.

(** X7: [_header_index] returns the position of the first header that
    contains every wanted text and none of the unwanted ones, letter case
    aside, and [None] when no header does. *)
Theorem header_index_first headers include exclude :
  let good :=
    header_matches (Search.fold_case <$> include) (Search.fold_case <$> exclude) in
  match _header_index headers include exclude with
  | Some i =>
      ∃ h, headers !! i = Some h ∧ good h = true ∧
           ∀ k h', (k < i)%nat → headers !! k = Some h' → good h' = false
  | None => ∀ h, h ∈ headers → good h = false
  end.
Proof.
  intros good. unfold _header_index.
  pose proof (header_index_from_spec 0 headers
                (Search.fold_case <$> include) (Search.fold_case <$> exclude)) as H.
  destruct (header_index_from _ _ _ _) as [j|]; [|done].
  destruct H as (_ & h & Hh & Hm & Hless).
  rewrite Nat.sub_0_r in *. by exists h.
Qed.

Example header_index_description :
  _header_index ["Teile Nr."; "Teil"; "Menge"] ["teil"] ["teile nr"] = Some 1%nat.
Proof. reflexivity. Qed.

Lemma float_at_returns idx vals : returns (float_at idx vals).
Proof.
  unfold float_at. destruct idx as [i|]; [|by eexists].
  destruct (vals !! i); [apply to_float_returns|by eexists].
Qed.

Lemma table_part_fields headers row :
  ∃ p, table_part headers row = Ok p ∧
    Part.is_missing p
      = row_is_missing (row_status_flags row) (Part.status p) ∧
    Part.is_to_order p = status_flag (row_status_flags row) "order_parts" ∧
    Part.is_ordered p = status_flag (row_status_flags row) "bestellt" ∧
    Part.is_delivered p = status_flag (row_status_flags row) "delivered" ∧
    Part.is_backorder p = status_flag (row_status_flags row) "ruckstand" ∧
    Part.description p
      = cell_at (idx_desc (columns_of headers)) (c_text <$> row_cells row) "" ∧
    Part.lead_no p
      = cell_at (idx_lead_no (columns_of headers)) (c_text <$> row_cells row) "" ∧
    Part.order_no p
      = cell_at (idx_order_no (columns_of headers)) (c_text <$> row_cells row) "" ∧
    float_at (idx_qty (columns_of headers)) (c_text <$> row_cells row)
      = Ok (Part.qty p).
Proof.
  unfold table_part.
  destruct (float_at_returns (idx_qty (columns_of headers))
              (c_text <$> row_cells row)) as [q ->].
  destruct (float_at_returns (idx_price_each (columns_of headers))
              (c_text <$> row_cells row)) as [pe ->].
  destruct (float_at_returns (idx_total (columns_of headers))
              (c_text <$> row_cells row)) as [pt ->].
  cbn [mbind res_bind].
  destruct (cell_at (idx_date (columns_of headers)) _ _) as [od dd].
  eexists. split; [reflexivity|]. by cbn.
Qed.

(** X8: in a part read from a row of the parts table, a checked backorder
    box makes the part missing; otherwise a checked delivered box makes it
    not missing, whatever the status text says; otherwise the part is
    missing when it is to order or ordered, or when the status text holds
    one of the keywords. *)
Theorem table_part_missing headers row p :
  table_part headers row = Ok p →
  Part.is_missing p =
    if Part.is_backorder p then true
    else if Part.is_delivered p then false
    else Part.is_to_order p || Part.is_ordered p
         || Search.search_any row_missing_alts (Part.status p).
Proof.
  intros Hp.
  destruct (table_part_fields headers row)
    as (p' & Hp' & H1 & H2 & H3 & H4 & H5 & _).
  assert (p' = p) as -> by congruence.
  rewrite H1, H2, H3, H4, H5. unfold row_is_missing.
  destruct (status_flag _ "order_parts"), (status_flag _ "bestellt"),
    (status_flag _ "delivered"), (status_flag _ "ruckstand"),
    (Search.search_any _ _); reflexivity.
Qed.

Lemma table_part_missing_witness :
  ∃ p, table_part ["Teil"; "Teile Nr."] demo_row_scan = Ok p ∧
       Part.status p = "offen" ∧ Part.is_missing p = false.
Proof.
  eexists. split; [vm_compute; reflexivity|]. split; [reflexivity|].
  refine (eq_trans
    (table_part_missing ["Teil"; "Teile Nr."] demo_row_scan _ eq_refl) _).
  reflexivity.
Defined.

Lemma cell_at_no_cell {A B} (f : A → B) idx (tds : list A) (dflt : B) :
  match idx with Some i => (length tds ≤ i)%nat | None => True end →
  cell_at idx (f <$> tds) dflt = dflt.
Proof.
  destruct idx as [i|]; [|done]. simpl. intros H.
  rewrite list_lookup_fmap, lookup_ge_None_2; done.
Qed.

Lemma float_at_no_cell {A} (f : A → string) idx (tds : list A) :
  match idx with Some i => (length tds ≤ i)%nat | None => True end →
  float_at idx (f <$> tds) = Ok None.
Proof.
  destruct idx as [i|]; [|done]. simpl. intros H.
  rewrite list_lookup_fmap, lookup_ge_None_2; done.
Qed.

Lemma table_part_returns headers row : returns (table_part headers row).
Proof.
  unfold table_part.
  destruct (float_at_returns (idx_qty (columns_of headers))
              (c_text <$> row_cells row)) as [q ->].
  destruct (float_at_returns (idx_price_each (columns_of headers))
              (c_text <$> row_cells row)) as [pe ->].
  destruct (float_at_returns (idx_total (columns_of headers))
              (c_text <$> row_cells row)) as [pt ->].
  cbn [mbind res_bind].
  destruct (cell_at (idx_date (columns_of headers)) _ _) as [od dd].
  by eexists.
Qed.

Lemma table_parts_of_length headers rows parts0 :
  ∃ parts,
    foldl (fun acc row =>
             parts ← acc;
             if bool_decide (row_cells row = []) then Ok parts else
             p ← table_part headers row;
             Ok (parts ++ [p]))
          (Ok parts0) rows = Ok parts ∧
    length parts
    = (length parts0 + length (filter (fun row => row_cells row ≠ []) rows))%nat.
Proof.
  revert parts0. induction rows as [|row rows IH]; intros parts0.
  - exists parts0. split; [done|]. simpl. lia.
  - cbn [foldl mbind res_bind]. rewrite filter_cons.
    destruct (decide (row_cells row ≠ [])) as [Hne|Heq].
    + rewrite bool_decide_eq_false_2 by done.
      destruct (table_part_returns headers row) as [p ->].
      cbn [mbind res_bind].
      destruct (IH (parts0 ++ [p])) as (parts & -> & Hlen).
      exists parts. split; [done|]. rewrite Hlen, length_app. simpl. lia.
    + rewrite bool_decide_eq_true_2
        by (destruct (row_cells row); [done|by destruct Heq]).
      destruct (IH parts0) as (parts & -> & Hlen).
      exists parts. split; [done|]. done.
Qed.

(** X9: reading the parts table never fails, however few cells a row has:
    the table gives one part for each row that has cells, and in the part
    of a row a column that the headers do not name, or for which the row
    has no cell, gives an empty text, and no number for the quantity and the
    prices. *)
Theorem table_part_short_row headers row :
  let cols := columns_of headers in
  (∀ rows, ∃ parts,
     table_parts_of headers rows = Ok parts ∧
     length parts = length (filter (fun row => row_cells row ≠ []) rows)) ∧
  ∃ p, table_part headers row = Ok p ∧
    (no_cell (idx_desc cols) row → Part.description p = "") ∧
    (no_cell (idx_part_no cols) row → Part.part_no p = "") ∧
    (no_cell (idx_lead_no cols) row → Part.lead_no p = "") ∧
    (no_cell (idx_order_no cols) row → Part.order_no p = "") ∧
    (no_cell (idx_qty cols) row → Part.qty p = None) ∧
    (no_cell (idx_price_each cols) row → Part.price_each p = None) ∧
    (no_cell (idx_total cols) row → Part.price_total p = None) ∧
    (no_cell (idx_date cols) row →
       Part.order_date p = "" ∧ Part.delivery_date p = "").
Proof.
  intros cols. split.
  { intros rows. apply (table_parts_of_length headers rows []). }

  unfold table_part. fold cols.
  destruct (float_at (idx_qty cols) _) as [q|e] eqn:Eq;
    [|by destruct (float_at_returns (idx_qty cols) (c_text <$> row_cells row))
          as [? H]; rewrite H in Eq].
  destruct (float_at (idx_price_each cols) _) as [pe|e] eqn:Epe;
    [|by destruct (float_at_returns (idx_price_each cols) (c_text <$> row_cells row))
          as [? H]; rewrite H in Epe].
  destruct (float_at (idx_total cols) _) as [pt|e] eqn:Ept;
    [|by destruct (float_at_returns (idx_total cols) (c_text <$> row_cells row))
          as [? H]; rewrite H in Ept].
  cbn [mbind res_bind].
  destruct (cell_at (idx_date cols) _ _) as [od dd] eqn:Ed.
  eexists. split; [reflexivity|]. cbn [Part.description Part.part_no Part.lead_no
    Part.order_no Part.qty Part.price_each Part.price_total Part.order_date
    Part.delivery_date].
  unfold no_cell. split_and!; intros H.
  - by apply cell_at_no_cell.
  - by rewrite cell_at_no_cell.
  - by apply cell_at_no_cell.
  - by apply cell_at_no_cell.
  - rewrite float_at_no_cell in Eq by done. congruence.
  - rewrite float_at_no_cell in Epe by done. congruence.
  - rewrite float_at_no_cell in Ept by done. congruence.
  - rewrite cell_at_no_cell in Ed by done. by injection Ed as <- <-.
Qed.

Lemma table_part_short_row_witness :
  ∃ p, table_part ["Teil"; "Teile Nr."; "Menge"] demo_row_scan = Ok p ∧
       Part.qty p = None.
Proof.
  destruct (table_part_short_row ["Teil"; "Teile Nr."; "Menge"] demo_row_scan)
    as (_ & p & Hp & _ & _ & _ & _ & Hq & _).
  exists p. split; [exact Hp|]. apply Hq. vm_compute. lia.
Defined.

(** ** Command line: the global options *)

(** A decidable fact about given texts, by evaluation. *)
Ltac by_evaluation := apply (bool_decide_unpack _); vm_compute; exact I.

Section global_args.

Implicit Types (argv pre post rest : list string) (g : dict string pyval)
  (a f v : string).

Lemma extract_global_loop_plain pre argv g rest :
  Forall (fun a => a ∉ GLOBAL_FLAGS) pre →
  extract_global_loop (pre ++ argv) g rest
  = extract_global_loop argv g (rest ++ pre).
Proof.
  intros H. revert rest. induction H as [|a pre Ha _ IH]; intros rest.
  - by rewrite app_nil_r.
  - cbn [app extract_global_loop].
    rewrite bool_decide_eq_false_2 by done.
    rewrite IH. by rewrite <- app_assoc.
Qed.

Lemma extract_global_loop_rest argv g rest g' rest' :
  extract_global_loop argv g rest = inr (g', rest') →
  ∃ more, rest' = rest ++ more ∧
          Forall (fun a => a ∉ GLOBAL_FLAGS) more ∧ sublist more argv ∧
          (PyDict.keys g ⊆ global_keys → PyDict.keys g' ⊆ global_keys).
Proof.
  revert g rest. induction argv as [argv IH] using (induction_ltof1 _ length).
  unfold ltof in IH. intros g rest.
  destruct argv as [|a argv]; cbn [extract_global_loop].
  - intros [= <- <-]. exists []. rewrite app_nil_r. by repeat split.
  - destruct (bool_decide (a ∈ GLOBAL_FLAGS)) eqn:Ea.
    + destruct argv as [|val argv]; [done|].
      assert (∀ g0, PyDict.keys g0 ⊆ global_keys ∨ True →
        extract_global_loop argv g0 rest = inr (g', rest') →
        ∃ more, rest' = rest ++ more ∧
          Forall (fun a => a ∉ GLOBAL_FLAGS) more ∧
          sublist more (a :: val :: argv) ∧
          (PyDict.keys g0 ⊆ global_keys → PyDict.keys g' ⊆ global_keys)) as Hstep.
      { intros g0 _ H. apply IH in H as (more & -> & Hm & Hs & Hk);
          [|simpl; lia].
        exists more. split_and!; try done.
        by do 2 apply sublist_cons. }
      assert (∀ k x, k ∈ global_keys → PyDict.keys g ⊆ global_keys →
                PyDict.keys (PyDict.set k x g) ⊆ global_keys) as Hset.
      { intros k x Hk Hg y Hy. rewrite keys_set in Hy.
        destruct (PyDict.mem k g); [by apply Hg|].
        apply elem_of_app in Hy as [Hy|Hy]; [by apply Hg|].
        by apply list_elem_of_singleton in Hy as ->. }
      repeat match goal with
        | |- context [String.eqb a ?x] => destruct (String.eqb a x)
        end;
        try (intros H; apply Hstep in H as (more & ? & ? & ? & Hk); [|by right];
             exists more; split_and!; try done;
             intros Hg; apply Hk, Hset; [by_evaluation|done]).
      * destruct (Py.int_of_string val) as [z|e]; [|done].
        intros H; apply Hstep in H as (more & ? & ? & ? & Hk); [|by right].
        exists more; split_and!; try done.
        intros Hg; apply Hk, Hset; [by_evaluation|done].
      * intros H; apply Hstep in H as (more & ? & ? & ? & Hk); [|by right].
        exists more; split_and!; try done.
    + intros H. apply IH in H as (more & -> & Hm & Hs & Hk); [|simpl; lia].
      exists (a :: more). rewrite <- app_assoc. split_and!; try done.
      * constructor; [|done]. by apply bool_decide_eq_false in Ea.
      * by apply sublist_skip.
Qed.

End global_args.

(** X10: the global options are read wherever they stand: a global flag
    with its value gives the same options and the same remaining arguments
    after arguments that are no global flags as in front of them, and the
    same failure if its value is refused. *)
Theorem global_args_anywhere pre f v post :
  Forall (fun a => a ∉ GLOBAL_FLAGS) pre → f ∈ GLOBAL_FLAGS →
  _extract_global_args (pre ++ f :: v :: post)
  = _extract_global_args (f :: v :: pre ++ post).
Proof.
  intros Hpre Hf. unfold _extract_global_args.
  rewrite extract_global_loop_plain by done.
  cbn [extract_global_loop app]. rewrite bool_decide_eq_true_2 by done.
  repeat match goal with
    | |- context [String.eqb f ?x] => destruct (String.eqb f x)
    end; try (by rewrite extract_global_loop_plain).
  destruct (Py.int_of_string v); [|done].
  by rewrite extract_global_loop_plain.
Qed.

Lemma global_args_anywhere_witness :
  _extract_global_args ["login"; "--base-url"; "https://reit.planso.de"]
  = _extract_global_args ["--base-url"; "https://reit.planso.de"; "login"].
Proof.
  apply (global_args_anywhere ["login"] "--base-url" "https://reit.planso.de" []).
  - repeat constructor. by_evaluation.
  - by_evaluation.
Defined.

(** X11: the arguments that [_extract_global_args] hands on are the given
    ones in their order without the global flags and their values: none of
    them is a global flag, the options have only the six known keys, and a
    command line without global flags is handed on whole. A command line
    whose only global flag stands at its end, with no value after it, ends
    the program with [SystemExit]. *)
Theorem global_args_rest argv :
  (∀ g rest, _extract_global_args argv = inr (g, rest) →
     Forall (fun a => a ∉ GLOBAL_FLAGS) rest ∧ sublist rest argv ∧
     PyDict.keys g ⊆ global_keys) ∧
  (Forall (fun a => a ∉ GLOBAL_FLAGS) argv →
     _extract_global_args argv = inr ([], argv)) ∧
  (∀ pre f, argv = pre ++ [f] →
     Forall (fun a => a ∉ GLOBAL_FLAGS) pre → f ∈ GLOBAL_FLAGS →
     _extract_global_args argv = inl (SystemExit ("Missing value for " +:+ f))).
Proof.
  unfold _extract_global_args. split_and!.
  - intros g rest H.
    apply extract_global_loop_rest in H as (more & -> & Hm & Hs & Hk).
    split_and!; try done. apply Hk. by intros x Hx%elem_of_nil.
  - intros H. rewrite <- (app_nil_r argv) at 1.
    by rewrite extract_global_loop_plain.
  - intros pre f -> Hpre Hf. rewrite extract_global_loop_plain by done.
    cbn [extract_global_loop]. by rewrite bool_decide_eq_true_2.
Qed.

Lemma global_args_rest_witness :
  _extract_global_args ["sync"; "--db"; "planso.db"; "--timeout"]
  = inl (SystemExit "Missing value for --timeout").
Proof.
  destruct (global_args_rest ["sync"; "--db"; "planso.db"; "--timeout"])
    as (_ & _ & H).
  apply (H ["sync"; "--db"; "planso.db"] "--timeout"); [done| |by_evaluation].
  repeat constructor; by_evaluation.
Defined.

(** ** Sync orchestrator: what a run leaves in the store *)

Section sync_store.

Variable w : world.
Variable args : sync_args.

Implicit Types (st : sync_state) (r : sync_ok) (now sn : string) (pid o : Z)
  (p q : dict string pyval) (order : list (dict string pyval))
  (result : sync_result) (results : list sync_result).

Lemma sync_loop_id_raises now pre p post st e :
  Forall (fun q => returns (sync_one w args now q)) pre →
  Py.int (jget "ID" p) = Raise e →
  sync_loop w args now (pre ++ p :: post) st = Raise e.
Proof.
  intros Hpre Hid. unfold sync_loop. revert st.
  induction Hpre as [|q pre [result Hq] _ IH]; intros st.
  - cbn [app foldl]. unfold sync_one at 2. rewrite Hid.
    cbn [mbind res_bind]. apply sync_loop_raise.
  - cbn [app foldl]. rewrite Hq. cbn [mbind res_bind]. apply IH.
Qed.

Lemma apply_result_other now st result o :
  (∀ sn r, result ≠ SyncOk o sn r) → well_keyed result →
  same_order_data o (con (apply_result w now st result)) (con st).
Proof.
  intros Hne Hkey. destruct result as [pid sn r|pid sn e]; [|done].
  assert (pid ≠ o) as Hpid by (intros ->; by destruct (Hne sn r)).
  simpl in Hkey. split_and!.
  - rewrite apply_ok_orders, lookup_insert_ne; [done|congruence].
  - intros pn d. rewrite apply_ok_parts. case_bool_decide; [done|].
    rewrite lookup_replace_parts. by rewrite decide_False.
  - intros name. rewrite apply_ok_sections, lookup_upsert_sections.
    by rewrite decide_False.
Qed.

Lemma apply_results_other now results st o :
  Forall (fun result => ∀ sn r, result ≠ SyncOk o sn r) results →
  Forall well_keyed results →
  same_order_data o (con (foldl (apply_result w now) st results)) (con st).
Proof.
  intros Hne. revert st.
  induction Hne as [|result results Hr _ IH]; intros st Hkey; [done|].
  apply Forall_cons in Hkey as [Hk Hkey]. cbn [foldl].
  destruct (IH (apply_result w now st result) Hkey) as (H1 & H2 & H3).
  destruct (apply_result_other now st result o Hr Hk) as (G1 & G2 & G3).
  split_and!.
  - by rewrite H1.
  - intros pn d. by rewrite H2.
  - intros name. by rewrite H3.
Qed.

Lemma is_Some_foldl_insert {K V X} `{Countable K}
    (f : X → K * V) (l : list X) (m : gmap K V) k :
  is_Some (m !! k) →
  is_Some (foldl (fun tbl x => <[(f x).1 := (f x).2]> tbl) m l !! k).
Proof.
  revert m. induction l as [|x l IH]; intros m Hm; [done|].
  cbn [foldl]. apply IH.
  destruct (decide ((f x).1 = k)) as [<-|Hne].
  - by rewrite lookup_insert_eq.
  - by rewrite lookup_insert_ne.
Qed.

Lemma apply_result_keeps now st result :
  nothing_deleted (con st) (con (apply_result w now st result)).
Proof.
  destruct result as [pid sn r|pid sn e]; [|done]. split_and!.
  - intros o Ho. rewrite apply_ok_orders.
    destruct (decide (Order.id (r_row r) = o)) as [<-|Hne].
    + by rewrite lookup_insert_eq.
    + by rewrite lookup_insert_ne.
  - intros k Hk. rewrite apply_ok_employees, lookup_upsert_employees.
    by destruct (PyDict.get k (reverse (r_emp_map r))).
  - intros [o name] Hk. rewrite apply_ok_sections, lookup_upsert_sections.
    destruct (decide (o = pid)) as [->|]; [|done].
    by destruct (PyDict.get name (reverse (r_sections r))).
Qed.

Lemma apply_results_keep now results st :
  nothing_deleted (con st) (con (foldl (apply_result w now) st results)).
Proof.
  revert st. induction results as [|result results IH]; intros st; [done|].
  cbn [foldl].
  destruct (IH (apply_result w now st result)) as (H1 & H2 & H3).
  destruct (apply_result_keeps now st result) as (G1 & G2 & G3).
  split_and!; naive_solver.
Qed.

Lemma cmd_sync_inv now db completion st code :
  cmd_sync w args now db completion = Ok (st, code) →
  ∃ projects results,
    fetch_project_stations w = Ok projects ∧
    Forall2 (fun q result => sync_one w args now q = Ok result)
            (applied_order args projects completion) results ∧
    st = foldl (apply_result w now) {| con := db; ok := 0; fail := 0 |} results ∧
    code = (if bool_decide (fail st = 0%nat) then 0%Z else 1%Z).
Proof.
  unfold cmd_sync.
  destruct (fetch_project_stations w) as [projects|]; [|done].
  cbn [mbind res_bind].
  destruct (sync_loop _ _ _ _ _) as [st'|] eqn:Hloop; [|done].
  cbn [mbind res_bind]. intros [= <- <-].
  apply sync_loop_inv in Hloop as (results & Hall & ->).
  by exists projects, results.
Qed.

Lemma filter_ok_split results :
  (length (filter (fun x => is_ok x = true) results)
   + length (filter (fun x => is_ok x = false) results) = length results)%nat.
Proof.
  induction results as [|result results IH]; [done|].
  rewrite !filter_cons. destruct result; simpl; lia.
Qed.

End sync_store.

(** X12: a record whose ID is missing or is no number ends the whole run:
    the conversion stands before the [try] of [sync_one], so [cmd_sync]
    raises the exception of [int()] as soon as the record's turn comes,
    instead of counting a failure. *)
Theorem sync_bad_id_aborts w args now db completion projects pre p post e :
  fetch_project_stations w = Ok projects →
  applied_order args projects completion = pre ++ p :: post →
  Forall (fun q => returns (sync_one w args now q)) pre →
  Py.int (jget "ID" p) = Raise e →
  cmd_sync w args now db completion = Raise e.
Proof.
  intros Hfetch Horder Hpre Hid. unfold cmd_sync.
  rewrite Hfetch. cbn [mbind res_bind]. rewrite Horder.
  by rewrite (sync_loop_id_raises w args now pre p post _ e).
Qed.

Lemma sync_bad_id_aborts_witness :
  cmd_sync demo_world_no_id demo_args "2025-12-16T12:08:59" Db.empty []
  = Raise TypeError.
Proof.
  apply (sync_bad_id_aborts demo_world_no_id demo_args
           "2025-12-16T12:08:59" Db.empty []
           [demo_project 1 "BB-SK 2307"; [("short_name", VStr "S-XY 12")];
            demo_project 3 "M-AB 4711"]
           [demo_project 1 "BB-SK 2307"] [("short_name", VStr "S-XY 12")]
           [demo_project 3 "M-AB 4711"] TypeError).
  - reflexivity.
  - reflexivity.
  - repeat constructor. eexists. vm_compute. reflexivity.
  - reflexivity.
Defined.

(** X13: when [cmd_sync] returns, every record of the run is counted once,
    as a success or as a failure, and the exit code is 0 when no record
    failed and 1 otherwise. *)
Theorem sync_counts_every_record w args now db completion projects st code :
  fetch_project_stations w = Ok projects →
  completion ≡ₚ projects →
  cmd_sync w args now db completion = Ok (st, code) →
  (ok st + fail st = length projects)%nat ∧
  code = (if bool_decide (fail st = 0%nat) then 0%Z else 1%Z).
Proof.
  intros Hfetch Hperm Hrun.
  apply cmd_sync_inv in Hrun as (projects' & results & Hf & Hall & -> & ->).
  assert (projects' = projects) as -> by congruence.
  split; [|done].
  destruct (apply_counts w now results {| con := db; ok := 0; fail := 0 |})
    as [-> ->]. cbn [ok fail].
  pose proof (filter_ok_split results).
  apply Forall2_length in Hall.
  rewrite (applied_order_length args projects completion Hperm) in Hall. lia.
Qed.

Lemma sync_counts_every_record_witness :
  ∃ st, cmd_sync demo_world demo_args "2025-12-16T12:08:59" Db.empty
          [demo_project 1 "BB-SK 2307"; demo_project 2 "S-XY 12";
           demo_project 3 "M-AB 4711"]
        = Ok (st, 1%Z) ∧ (ok st + fail st = 3)%nat.
Proof.
  eexists. split; [vm_compute; reflexivity|].
  refine (proj1 (sync_counts_every_record demo_world demo_args
    "2025-12-16T12:08:59" Db.empty
    [demo_project 1 "BB-SK 2307"; demo_project 2 "S-XY 12";
     demo_project 3 "M-AB 4711"] _ _ 1%Z eq_refl _ _)).
  - reflexivity.
  - vm_compute. reflexivity.
Defined.

(** X14: a run of [cmd_sync] deletes no order, no employee and no section
    snapshot: whatever was in these tables before the run is still there
    after it, with the old or with a new value. *)
Theorem sync_deletes_nothing w args now db completion st code :
  cmd_sync w args now db completion = Ok (st, code) →
  nothing_deleted db (con st).
Proof.
  intros Hrun.
  apply cmd_sync_inv in Hrun as (projects & results & Hf & Hall & -> & _).
  apply (apply_results_keep w now results {| con := db; ok := 0; fail := 0 |}).
Qed.

Lemma sync_deletes_nothing_witness :
  ∃ st, cmd_sync demo_world demo_args "2025-12-16T12:08:59"
          (db_upsert_employees Db.empty [("7", "anna")]) []
        = Ok (st, 1%Z) ∧
        is_Some (Db.employees (con st) !! "7").
Proof.
  eexists. split; [vm_compute; reflexivity|].
  refine (proj1 (proj2 (sync_deletes_nothing demo_world demo_args
    "2025-12-16T12:08:59" (db_upsert_employees Db.empty [("7", "anna")])
    [] _ 1%Z eq_refl)) "7" _).
  vm_compute. by eexists.
Defined.

(** X15: a run of [cmd_sync] changes the stored data of those orders only
    that it syncs with success: an order that is not in the run, or whose
    record fails, keeps its row, its parts and its sections as they
    were. *)
Theorem sync_keeps_other_orders w args now db completion projects st code o :
  fetch_project_stations w = Ok projects →
  cmd_sync w args now db completion = Ok (st, code) →
  (∀ q sn r, q ∈ applied_order args projects completion →
     sync_one w args now q ≠ Ok (SyncOk o sn r)) →
  same_order_data o (con st) db.
Proof.
  intros Hfetch Hrun Hno.
  apply cmd_sync_inv in Hrun as (projects' & results & Hf & Hall & -> & _).
  assert (projects' = projects) as -> by congruence.
  apply (apply_results_other w now results {| con := db; ok := 0; fail := 0 |}).
  - apply Forall_forall. intros result Hin sn r ->.
    destruct (outcome_source w args now _ _ _ Hall Hin) as (q & Hq & Hres).
    by apply (Hno q sn r).
  - by apply (outcomes_keyed w args now (applied_order args projects completion)).
Qed.

Lemma sync_keeps_other_orders_witness :
  ∃ st, cmd_sync demo_world demo_args "2025-12-16T12:08:59"
          (db_upsert_order Db.empty demo_row)
          [demo_project 2 "S-XY 12"; demo_project 3 "M-AB 4711";
           demo_project 1 "BB-SK 2307"]
        = Ok (st, 1%Z) ∧
        same_order_data 2
          (con st) (db_upsert_order Db.empty demo_row).
Proof.
  eexists. split; [vm_compute; reflexivity|].
  refine (sync_keeps_other_orders demo_world demo_args
    "2025-12-16T12:08:59" (db_upsert_order Db.empty demo_row)
    [demo_project 2 "S-XY 12"; demo_project 3 "M-AB 4711";
     demo_project 1 "BB-SK 2307"]
    [demo_project 1 "BB-SK 2307"; demo_project 2 "S-XY 12";
     demo_project 3 "M-AB 4711"] _ 1%Z 2 eq_refl eq_refl _).
  intros q sn r Hq. change (applied_order demo_args _ _)
    with [demo_project 1 "BB-SK 2307"; demo_project 2 "S-XY 12";
          demo_project 3 "M-AB 4711"] in Hq.
  repeat (apply elem_of_cons in Hq as [->|Hq]); [| | |by apply elem_of_nil in Hq];
    vm_compute; congruence.
Defined.

Section plain_sync.

Variable w : world.
Variable args : sync_args.

Lemma sync_one_plain now p pid sn r :
  sync_one w args now p = Ok (SyncOk pid sn r) →
  (with_parts args || full args = false → r_parts_list r = []) ∧
  (full args = false → r_sections r = []).
Proof.
  unfold sync_one. destruct (Py.int (jget "ID" p)) as [pid'|e]; [|done].
  cbn [mbind res_bind].
  destruct (sync_one_body w args now p pid') as [r'|e] eqn:Hbody;
    cbn [mbind res_bind try_except]; [|done].
  intros [= Hpid _ Hr]. subst pid' r'. unfold sync_one_body in Hbody.
  destruct (fetch_shop_view_single w pid) as [sv|]; [|done].
  cbn [mbind res_bind] in Hbody.
  destruct (employee_map_of w sv) as [emp|]; [|done].
  cbn [mbind res_bind] in Hbody.
  destruct (fetch_visual_forms_plain w pid) as [vf|]; [|done].
  cbn [mbind res_bind] in Hbody.
  destruct (try_except _ _) as [[fields warn]|]; [|done].
  cbn [mbind res_bind] in Hbody.
  destruct (with_parts args || full args) eqn:Hp.
  - destruct (fetch_parts_deep w pid) as [[[[ps pl] pm] pp]|]; [|done].
    cbn [mbind res_bind] in Hbody.
    destruct (build_order_row _ _ _ _ _ _ _) as [row|]; [|done].
    cbn [mbind res_bind] in Hbody.
    destruct (full args) eqn:Hfull.
    + destruct (fetch_order_sections w _ _ _ _) as [sections|]; [|done].
      cbn [mbind res_bind] in Hbody. injection Hbody as <-. done.
    + cbn [mbind res_bind] in Hbody. injection Hbody as <-. done.
  - apply orb_false_iff in Hp as [_ Hfull]. rewrite Hfull in Hbody.
    cbn [mbind res_bind] in Hbody.
    destruct (build_order_row _ _ _ _ _ _ _) as [row|]; [|done].
    cbn [mbind res_bind] in Hbody. injection Hbody as <-. done.
Qed.

Lemma apply_results_plain now results st :
  Forall (fun result => ∀ pid sn r, result = SyncOk pid sn r →
            (with_parts args || full args = false → r_parts_list r = []) ∧
            (full args = false → r_sections r = [])) results →
  (with_parts args || full args = false →
     Db.parts (con (foldl (apply_result w now) st results)) = Db.parts (con st)) ∧
  (full args = false →
     Db.order_sections (con (foldl (apply_result w now) st results))
     = Db.order_sections (con st)).
Proof.
  intros Hall. revert st.
  induction Hall as [|result results Hr _ IH]; intros st; [done|].
  cbn [foldl]. destruct (IH (apply_result w now st result)) as [H1 H2].
  destruct result as [pid sn r|pid sn e].
  - destruct (Hr pid sn r eq_refl) as [G1 G2]. split.
    + intros Hp. rewrite (H1 Hp), apply_ok_parts, (G1 Hp).
      by rewrite bool_decide_eq_true_2.
    + intros Hf. rewrite (H2 Hf), apply_ok_sections, (G2 Hf). done.
  - split; intros Hp; [by rewrite (H1 Hp)|by rewrite (H2 Hp)].
Qed.

End plain_sync.

(** X16: a sync without [--with-parts] and [--full] leaves the parts table
    as it was, and a sync without [--full] leaves the section snapshots as
    they were: the stored parts and sections of an order are neither
    refreshed nor removed. *)
Theorem sync_plain_keeps_parts w args now db completion st code :
  cmd_sync w args now db completion = Ok (st, code) →
  (with_parts args || full args = false → Db.parts (con st) = Db.parts db) ∧
  (full args = false → Db.order_sections (con st) = Db.order_sections db).
Proof.
  intros Hrun.
  apply cmd_sync_inv in Hrun as (projects & results & Hf & Hall & -> & _).
  apply (apply_results_plain w args now results {| con := db; ok := 0; fail := 0 |}).
  apply Forall_forall. intros result Hin pid sn r ->.
  destruct (outcome_source w args now _ _ _ Hall Hin) as (q & Hq & Hres).
  by apply (sync_one_plain w args now q pid sn r).
Qed.

Lemma sync_plain_keeps_parts_witness :
  ∃ st, cmd_sync demo_world plain_args "2025-12-16T12:08:59"
          (db_replace_parts (fun _ => "{}") Db.empty 1 [attr_part "B2"]) []
        = Ok (st, 1%Z) ∧
        Db.parts (con st)
        = Db.parts (db_replace_parts (fun _ => "{}") Db.empty 1 [attr_part "B2"]).
Proof.
  eexists. split; [vm_compute; reflexivity|].
  refine (proj1 (sync_plain_keeps_parts demo_world plain_args
    "2025-12-16T12:08:59"
    (db_replace_parts (fun _ => "{}") Db.empty 1 [attr_part "B2"])
    [] _ 1%Z eq_refl) eq_refl).
Defined.

(** X17: an error of the regular-expression engine in the scan of the form
    fragment does not fail the record: the record is synced as if the
    fragment had no labels, with a warning that ends with the text of the
    error; any other exception of the scan ends the [try] of the record. *)
Theorem sync_regex_error_degrades w args now p pid msg :
  ((∀ vf, fetch_visual_forms_plain w pid = Ok vf →
          label_hits_of w vf = Raise (ReError msg)) →
   sync_one_body w args now p pid
   = (r ← sync_one_body (without_labels w) args now p pid;
      Ok (with_warn ("regex parse error in visual_forms_plain: " +:+ msg) r))) ∧
  (∀ sv emp vf e,
     fetch_shop_view_single w pid = Ok sv → employee_map_of w sv = Ok emp →
     fetch_visual_forms_plain w pid = Ok vf →
     label_hits_of w vf = Raise e → (∀ m, e ≠ ReError m) →
     sync_one_body w args now p pid = Raise e).
Proof.
  split.
  - intros Hre. unfold sync_one_body. cbn [without_labels fetch_shop_view_single
      employee_map_of fetch_visual_forms_plain label_hits_of fetch_parts_deep
      dumps_fields fetch_order_sections bs4_available].
    destruct (fetch_shop_view_single w pid) as [sv|]; [|done].
    cbn [mbind res_bind].
    destruct (employee_map_of w sv) as [emp|]; [|done].
    cbn [mbind res_bind].
    destruct (fetch_visual_forms_plain w pid) as [vf|] eqn:Hvf; [|done].
    cbn [mbind res_bind]. rewrite (Hre vf eq_refl).
    cbn [mbind res_bind try_except].
    assert (parse_visual_forms_plain_fields (bs4_available w) [] = []) as ->
      by (unfold parse_visual_forms_plain_fields; by destruct (bs4_available w)).
    destruct (if with_parts args || full args then _ else _)
      as [[[[ps pl] pm] pp]|]; [|done].
    cbn [mbind res_bind].
    destruct (build_order_row _ _ _ _ _ _ _) as [row|]; [|done].
    cbn [mbind res_bind].
    destruct (if full args then _ else _) as [sections|]; [|done].
    done.
  - intros sv emp vf e Hsv Hemp Hvf Hscan Hne. unfold sync_one_body.
    rewrite Hsv. cbn [mbind res_bind]. rewrite Hemp. cbn [mbind res_bind].
    rewrite Hvf. cbn [mbind res_bind]. rewrite Hscan.
    cbn [mbind res_bind try_except].
    destruct e as [| |m|m|]; try done. by destruct (Hne m).
Qed.

Lemma sync_regex_error_degrades_witness :
  ∃ r, sync_one_body demo_world_re_error demo_args "2025-12-16T12:08:59"
         (demo_project 2 "S-XY 12") 2 = Ok r ∧
       r_warn r
       = "regex parse error in visual_forms_plain: missing ), unterminated subpattern".
Proof.
  rewrite (proj1 (sync_regex_error_degrades demo_world_re_error demo_args
             "2025-12-16T12:08:59" (demo_project 2 "S-XY 12") 2
             "missing ), unterminated subpattern")
             (fun vf _ => eq_refl)).
  vm_compute. eexists. split; reflexivity.
Defined.

(** ** The statement of a query *)

Section statement_facts.

Implicit Types (s t sep : string) (c : ascii) (l : list string) (f : filters).

Lemma count_char_app c s t :
  count_char c (s +:+ t) = (count_char c s + count_char c t)%nat.
Proof.
  induction s as [|a s IH]; [done|].
  rewrite str_app_cons. simpl. rewrite IH. lia.
Qed.

Lemma count_char_concat c sep l :
  count_char c sep = 0%nat →
  count_char c (String.concat sep l) = sum_list_with (count_char c) l.
Proof.
  intros Hsep. induction l as [|x l IH]; [done|].
  destruct l as [|y l].
  - simpl. lia.
  - change (String.concat sep (x :: y :: l))
      with (x +:+ sep +:+ String.concat sep (y :: l)).
    rewrite !count_char_app, Hsep, IH. done.
Qed.

Lemma count_marks n : sum_list_with (count_char "?") (replicate n "?") = n.
Proof. induction n as [|n IH]; [done|]. simpl. f_equal. exact IH. Qed.

Lemma count_id_in_clause n : count_char "?" (id_in_clause n) = n.
Proof.
  unfold id_in_clause. rewrite !count_char_app, count_char_concat by done.
  rewrite count_marks. simpl. lia.
Qed.

Lemma filters_push f clause values :
  is_template clause → count_char "?" clause = length values →
  well_formed_filters f →
  well_formed_filters (f.1 ++ [clause], f.2 ++ values).
Proof.
  intros Ht Hc [Hf Hn]. split; cbn [fst snd].
  - apply Forall_app. split; [done|]. by apply Forall_singleton.
  - rewrite sum_list_with_app, length_app, Hn. simpl. lia.
Qed.

Lemma like_well_formed col val f :
  (col +:+ " LIKE ?") ∈ clause_templates →
  count_char "?" (col +:+ " LIKE ?") = 1%nat →
  well_formed_filters f → well_formed_filters (like col val f).
Proof.
  intros Ht Hc Hf. unfold like. destruct val as [v|]; [|done].
  destruct (Str.is_empty v); [done|].
  apply filters_push; [by left|done|done].
Qed.

Lemma bound_well_formed cond val f :
  cond ∈ clause_templates → count_char "?" cond = 1%nat →
  well_formed_filters f → well_formed_filters (bound cond val f).
Proof.
  intros Ht Hc Hf. unfold bound. destruct val as [v|]; [|done].
  destruct (Str.is_empty v); [done|].
  apply filters_push; [by left|done|done].
Qed.

Lemma filters_push_bare f clause :
  is_template clause → count_char "?" clause = 0%nat →
  well_formed_filters f → well_formed_filters (f.1 ++ [clause], f.2).
Proof.
  intros Ht Hc [Hf Hn]. split; cbn [fst snd].
  - apply Forall_app. split; [done|]. by apply Forall_singleton.
  - rewrite sum_list_with_app, Hn. simpl. lia.
Qed.

Lemma structured_filters_well_formed a :
  well_formed_filters (structured_filters a).
Proof.
  unfold structured_filters. cbv zeta.
  repeat (apply bound_well_formed; [by_evaluation|done|]).
  set (f6 := like "damage" _ _).
  assert (well_formed_filters f6) as H6.
  { unfold f6. repeat (apply like_well_formed; [by_evaluation|done|]).
    by split. }
  clearbody f6.
  set (f7 := match q_station a with Some _ => _ | None => _ end).
  assert (well_formed_filters f7) as H7.
  { unfold f7. destruct (q_station a) as [z|]; [|done].
    apply (filters_push f6 "station_id = ?" [SInt z]);
      [left; by_evaluation|done|done]. }
  clearbody f7.
  destruct (q_missing_parts a); [|done].
  apply filters_push_bare; [left; by_evaluation|done|done].
Qed.

Lemma like_fallback_well_formed raw f :
  well_formed_filters f → well_formed_filters (like_fallback raw f).
Proof.
  intros Hf. apply filters_push; [left; by_evaluation|done|done].
Qed.

Lemma restrict_ids_well_formed fts_rows f :
  well_formed_filters f → well_formed_filters (restrict_ids fts_rows f).
Proof.
  intros Hf. destruct fts_rows as [[|id ids]|]; [done| |done].
  apply filters_push; [|by rewrite count_id_in_clause, length_fmap|done].
  right. by eexists.
Qed.

Lemma free_text_well_formed b text f fts_rows f' :
  free_text b text f = Ok (fts_rows, f') →
  well_formed_filters f → well_formed_filters f'.
Proof.
  unfold free_text. intros H Hf. destruct text as [t|]; [|by injection H as <- <-].
  destruct (Str.is_empty t); [by injection H as <- <-|].
  destruct (if bool_decide (Tokens.findall (Str.strip t) = []) then _ else _)
    as [rows|]; [|done].
  cbn [mbind res_bind] in H.
  destruct (_ || _); injection H as <- <-; [|done].
  by apply like_fallback_well_formed.
Qed.

Lemma select_orders_holes b a f :
  well_formed_filters f →
  let '(sql, params, _) := select_orders b a f in
  count_char "?" sql = length params.
Proof.
  intros [_ Hn]. unfold select_orders. cbv zeta.
  rewrite length_app. cbn [length].
  case_bool_decide.
  - rewrite count_char_app. simpl. destruct f as [wh ps]. simpl in *.
    subst wh. simpl in Hn. lia.
  - rewrite !count_char_app, count_char_concat by done. simpl. lia.
Qed.

End statement_facts.

(** X18: the statement of [cmd_query] is assembled from fixed clauses and
    the list of ids of the index; no text of the command line enters it.
    The values are bound to its [?] marks, one value for each mark, and the
    last value is the limit. *)
Theorem query_is_parameterised b a sql params rows :
  cmd_query b a = Ok (sql, params, rows) →
  (∃ clauses values,
     Forall is_template clauses ∧
     (sql, params, rows) = select_orders b a (clauses, values)) ∧
  count_char "?" sql = length params ∧
  last params = Some (SInt (q_limit a)).
Proof.
  unfold cmd_query. intros H.
  destruct (free_text b (q_text a) (structured_filters a))
    as [[fts_rows f]|] eqn:Hft; [|done].
  cbn [mbind res_bind] in H.
  assert (select_orders b a (restrict_ids fts_rows f) = (sql, params, rows))
    as H' by (by inversion H).
  clear H. rename H' into H.
  pose proof (free_text_well_formed _ _ _ _ _ Hft
                (structured_filters_well_formed a)) as Hf.
  apply (restrict_ids_well_formed fts_rows) in Hf.
  split_and!.
  - revert H Hf. destruct (restrict_ids fts_rows f) as [wh ps]. intros H Hf.
    exists wh, ps. split; [apply Hf|done].
  - pose proof (select_orders_holes b a _ Hf) as Hh.
    rewrite H in Hh. done.
  - unfold select_orders in H. injection H as _ <- _. apply last_snoc.
Qed.

Lemma query_is_parameterised_witness :
  ∃ sql params rows,
    cmd_query (Store.backend [demo_row]) (demo_query "BB-SK'; 2307")
    = Ok (sql, params, rows) ∧
    count_char "?" sql = length params.
Proof.
  eexists _, _, _. split; [vm_compute; reflexivity|].
  refine (proj1 (proj2 (query_is_parameterised
    (Store.backend [demo_row]) (demo_query "BB-SK'; 2307") _ _ _ eq_refl))).
Defined.

(** ** Parts: one entry for each key *)

Section uniq_facts.

Implicit Types (p : Part.t) (parts : list Part.t) (k : string * string)
  (uniq : dict (string * string) Part.t).

Lemma keyed_set uniq p : keyed uniq → keyed (PyDict.set (Part.key p) p uniq).
Proof.
  unfold keyed. induction uniq as [|[k0 p0] uniq IH]; intros H; simpl.
  - by repeat constructor.
  - apply Forall_cons in H as [H0 H].
    destruct (decide (Part.key p = k0)); constructor; auto.
Qed.

Lemma keyed_values uniq :
  keyed uniq → Part.key <$> PyDict.values uniq = PyDict.keys uniq.
Proof.
  unfold keyed, PyDict.values, PyDict.keys.
  induction 1 as [|[k0 p0] uniq H0 _ IH]; [done|].
  rewrite !fmap_cons. simpl in *. by rewrite IH, H0.
Qed.

Lemma set_values_from uniq p x :
  x ∈ PyDict.values (PyDict.set (Part.key p) p uniq) →
  x = p ∨ x ∈ PyDict.values uniq.
Proof.
  unfold PyDict.values. induction uniq as [|[k0 p0] uniq IH]; simpl.
  - intros ->%list_elem_of_singleton. by left.
  - destruct (decide (Part.key p = k0)); rewrite !fmap_cons; simpl;
      intros [->|H]%elem_of_cons.
    + by left.
    + right. by apply list_elem_of_further.
    + right. apply list_elem_of_here.
    + destruct (IH H) as [->|H']; [by left|].
      right. by apply list_elem_of_further.
Qed.

Lemma uniq_first_inv uniq parts :
  keyed uniq → NoDup (PyDict.keys uniq) →
  let d := foldl (fun uniq p =>
                    if PyDict.mem (Part.key p) uniq then uniq
                    else PyDict.set (Part.key p) p uniq) uniq parts in
  keyed d ∧ NoDup (PyDict.keys d) ∧
  ∀ x, x ∈ PyDict.values d → x ∈ PyDict.values uniq ∨ x ∈ parts.
Proof.
  revert uniq. induction parts as [|p parts IH]; intros uniq Hk Hn; simpl.
  - split_and!; [done|done|]. intros x Hx. by left.
  - destruct (PyDict.mem (Part.key p) uniq).
    + destruct (IH uniq Hk Hn) as (H1 & H2 & H3). split_and!; [done|done|].
      intros x Hx. destruct (H3 x Hx); [by left|].
      right. by apply list_elem_of_further.
    + destruct (IH _ (keyed_set uniq p Hk) (keys_set_nodup _ p _ Hn))
        as (H1 & H2 & H3).
      split_and!; [done|done|].
      intros x Hx. destruct (H3 x Hx) as [Hx'|Hx'].
      * apply set_values_from in Hx' as [->|Hx']; [|by left].
        right. apply list_elem_of_here.
      * right. by apply list_elem_of_further.
Qed.

Lemma uniq_comprehension_inv uniq parts :
  keyed uniq → NoDup (PyDict.keys uniq) →
  let d := foldl (fun uniq p => PyDict.set (Part.key p) p uniq) uniq parts in
  keyed d ∧ NoDup (PyDict.keys d) ∧
  ∀ x, x ∈ PyDict.values d → x ∈ PyDict.values uniq ∨ x ∈ parts.
Proof.
  revert uniq. induction parts as [|p parts IH]; intros uniq Hk Hn; simpl.
  - split_and!; [done|done|]. intros x Hx. by left.
  - destruct (IH _ (keyed_set uniq p Hk) (keys_set_nodup _ p _ Hn))
      as (H1 & H2 & H3).
    split_and!; [done|done|].
    intros x Hx. destruct (H3 x Hx) as [Hx'|Hx'].
    + apply set_values_from in Hx' as [->|Hx']; [|by left].
      right. apply list_elem_of_here.
    + right. by apply list_elem_of_further.
Qed.

Lemma last_with_key_nodup parts p :
  NoDup (Part.key <$> parts) → p ∈ parts →
  last_with_key (Part.key p) parts = Some p.
Proof.
  unfold last_with_key, first_with_key.
  induction parts as [|q parts IH] using rev_ind; intros Hn Hp.
  - by apply elem_of_nil in Hp.
  - rewrite reverse_snoc. cbn [find].
    rewrite fmap_app in Hn. apply NoDup_app in Hn as (Hn & Hq & _).
    apply elem_of_app in Hp as [Hp|Hp].
    + rewrite bool_decide_eq_false_2; [by apply IH|].
      intros Heq. apply (Hq (Part.key p)).
      * apply list_elem_of_fmap. by exists p.
      * rewrite <- Heq. apply list_elem_of_here.
    + apply list_elem_of_singleton in Hp as ->.
      by rewrite bool_decide_eq_true_2.
Qed.

End uniq_facts.

Lemma parse_parts_nodup v parts meta :
  _parse_parts_from_html v = Ok (parts, meta) → NoDup (Part.key <$> parts).
Proof.
  unfold _parse_parts_from_html.
  destruct (negb (bool_decide (table_parts v = []))).
  - intros [= <- <-].
    destruct (uniq_first_inv [] (table_parts v)) as (Hk & Hn & _);
      [constructor|constructor|].
    unfold uniq_first. by rewrite keyed_values.
  - destruct (if bs4 v then _ else _) as [gp|]; [|done].
    cbn [mbind res_bind]. intros [= <- <-].
    set (found := if bool_decide (gp = []) then _ else _).
    destruct (uniq_comprehension_inv [] found) as (Hk & Hn & _);
      [constructor|constructor|].
    unfold uniq_comprehension. by rewrite keyed_values.
Qed.

(** X19: whatever path [_parse_parts_from_html] takes, the parts it returns
    are parts that the scan found, no two of them have the same part number
    and description, and the metadata are the attributes of the parts
    table. *)
Theorem parsed_parts_unique v parts meta :
  _parse_parts_from_html v = Ok (parts, meta) →
  NoDup (Part.key <$> parts) ∧
  (∃ found, scanned_parts v = Ok found ∧ parts ⊆ found) ∧
  meta = table_meta v.
Proof.
  intros Hv. split; [by eapply parse_parts_nodup|]. revert Hv.
  unfold _parse_parts_from_html, scanned_parts.
  destruct (negb (bool_decide (table_parts v = []))).
  - intros [= <- <-].
    destruct (uniq_first_inv [] (table_parts v)) as (_ & _ & Hin);
      [constructor|constructor|].
    split; [eexists; split; [done|]|done].
    intros x Hx. destruct (Hin x Hx) as [H|H]; [|done].
    by apply elem_of_nil in H.
  - destruct (if bs4 v then _ else _) as [gp|]; [|done].
    cbn [mbind res_bind]. intros [= <- <-].
    set (found := if bool_decide (gp = []) then _ else _).
    destruct (uniq_comprehension_inv [] found) as (_ & _ & Hin);
      [constructor|constructor|].
    split; [eexists; split; [done|]|done].
    intros x Hx. destruct (Hin x Hx) as [H|H]; [|done].
    by apply elem_of_nil in H.
Qed.

Lemma parsed_parts_unique_witness :
  ∃ parts, _parse_parts_from_html two_rows_same_part = Ok (parts, []) ∧
           NoDup (Part.key <$> parts).
Proof.
  eexists. split; [vm_compute; reflexivity|].
  refine (proj1 (parsed_parts_unique two_rows_same_part _ [] eq_refl)).
Defined.

(** X20: the parts that [_parse_parts_from_html] returns are stored by
    [db_replace_parts] without loss: each of them has its own row, holding
    its values, under the order and its part number and description. *)
Theorem parsed_parts_stored json_dumps con oid v parts meta p :
  _parse_parts_from_html v = Ok (parts, meta) → p ∈ parts →
  Db.parts (db_replace_parts json_dumps con oid parts)
    !! (oid, Part.part_no p, Part.description p)
  = Some (parts_row_of json_dumps oid p).
Proof.
  intros Hv Hp.
  pose proof (parse_parts_nodup v parts meta Hv) as Hn.
  rewrite lookup_replace_parts, decide_True by done.
  change (Part.part_no p, Part.description p) with (Part.key p).
  by rewrite last_with_key_nodup.
Qed.

Lemma parsed_parts_stored_witness :
  ∃ p, _parse_parts_from_html two_rows_same_part = Ok ([p], []) ∧
       Db.parts (db_replace_parts (fun _ => "{}") Db.empty 7 [p])
         !! (7%Z, Part.part_no p, Part.description p)
       = Some (parts_row_of (fun _ => "{}") 7 p).
Proof.
  eexists. split; [vm_compute; reflexivity|].
  apply (parsed_parts_stored _ _ _ two_rows_same_part _ []);
    [vm_compute; reflexivity|apply list_elem_of_here].
Defined.

(** ** Where the vehicle summary takes its values from *)

(** The value of a test on given texts. *)
Ltac eval_tests :=
  repeat match goal with
         | |- context [bool_decide (?a = ?b)] =>
             let r := eval vm_compute in (bool_decide (a = b)) in
             match r with
             | true => change (bool_decide (a = b)) with true
             | false => change (bool_decide (a = b)) with false
             end
         end.

Section vehicle_facts.

Implicit Types (vf out : dict string string) (k key label attr v : string).

Lemma get_cond_set k key (c : bool) v out :
  PyDict.get k (if c then PyDict.set key v out else out)
  = if c && bool_decide (k = key) then Some v else PyDict.get k out.
Proof.
  destruct c; [|done]. rewrite get_set. simpl.
  case_bool_decide; by destruct (decide (k = key)).
Qed.

Lemma get_meta_default m attr key out k :
  PyDict.get k (meta_default m attr key out)
  = if bool_decide (k = key)
    then or_else (PyDict.get key out) (meta_value (Some m) attr)
    else PyDict.get k out.
Proof.
  unfold meta_default, meta_value.
  destruct (decide (k = key)) as [->|Hne].
  - rewrite bool_decide_eq_true_2 by done.
    destruct (PyDict.get attr m) as [v|]; [|by destruct (PyDict.get key out)].
    rewrite get_cond_set, mem_get.
    rewrite (bool_decide_eq_true_2 (key = key)), andb_true_r by done.
    destruct (Str.is_empty v); simpl; [by destruct (PyDict.get key out)|].
    by destruct (PyDict.get key out).
  - rewrite bool_decide_eq_false_2 by done.
    destruct (PyDict.get attr m) as [v|]; [|done].
    by rewrite get_cond_set, (bool_decide_eq_false_2 (k = key)), andb_false_r.
Qed.

Lemma fields_fold_get vf (mapping : list (string * string)) out key :
  NoDup mapping.*2 →
  PyDict.get key
    (foldl (fun out '(label, key) =>
              let val := sget_or label vf "" in
              if negb (Str.is_empty val) then PyDict.set key val out else out)
           out mapping)
  = match find (fun lk => bool_decide (lk.2 = key)) mapping with
    | Some lk => or_else (field_value vf lk.1) (PyDict.get key out)
    | None => PyDict.get key out
    end.
Proof.
  revert out. induction mapping as [|[l k0] mapping IH]; intros out Hn; [done|].
  rewrite fmap_cons in Hn. apply NoDup_cons in Hn as [Hk0 Hn].
  cbn [foldl find]. rewrite IH by done. cbv zeta. rewrite get_cond_set.
  cbn [snd fst]. destruct (decide (k0 = key)) as [->|Hne].
  - rewrite !bool_decide_eq_true_2, andb_true_r by done.
    destruct (find _ mapping) as [[l' k']|] eqn:Hf.
    + apply find_some in Hf as [Hin Hk]. apply bool_decide_eq_true in Hk.
      simpl in Hk. subst k'. destruct Hk0.
      apply list_elem_of_fmap. exists (l', key). split; [done|].
      by apply list_elem_of_In.
    + unfold field_value. cbn [fst]. cbv zeta.
      by destruct (Str.is_empty (sget_or l vf "")).
  - rewrite (bool_decide_eq_false_2 (k0 = key)) by done.
    rewrite (bool_decide_eq_false_2 (key = k0)), andb_false_r by done.
    done.
Qed.

Lemma vehicle_fields_get vf key :
  PyDict.get key
    (foldl (fun out '(label, key) =>
              let val := sget_or label vf "" in
              if negb (Str.is_empty val) then PyDict.set key val out else out)
           [] vehicle_mapping)
  = vehicle_label key ≫= field_value vf.
Proof.
  rewrite fields_fold_get by (by_evaluation).
  unfold vehicle_label. destruct (find _ vehicle_mapping) as [[l k]|]; [|done].
  simpl. by destruct (field_value vf l).
Qed.

End vehicle_facts.

(** X21: every key of the vehicle summary takes the value of its form
    field when that is not empty, else the value of its attribute of the
    parts table when that is not empty, and is absent otherwise: a value of
    the form is never replaced by one of the table, and no value of the
    summary is empty. *)
Theorem vehicle_info_sources vf pm key :
  PyDict.get key (_extract_vehicle_info vf pm)
  = or_else (vehicle_label key ≫= field_value vf)
            (vehicle_attr key ≫= meta_value pm).
Proof.
  unfold _extract_vehicle_info.
  set (out := foldl _ [] vehicle_mapping).
  assert (Hout : ∀ k, PyDict.get k out = vehicle_label k ≫= field_value vf)
    by (intros k; apply vehicle_fields_get).
  clearbody out. unfold vehicle_attr.
  destruct pm as [[|e m]|].
  - rewrite Hout. repeat case_decide; by destruct (_ ≫= _).
  - rewrite !get_meta_default.
    destruct (decide (key = "vin")) as [->|H1].
    { eval_tests. cbv iota. rewrite ?get_meta_default. eval_tests. cbv iota.
      by rewrite Hout. }
    rewrite (bool_decide_eq_false_2 (key = "vin")) by done.
    destruct (decide (key = "make")) as [->|H2].
    { eval_tests. cbv iota. rewrite ?get_meta_default. eval_tests. cbv iota.
      by rewrite Hout. }
    rewrite (bool_decide_eq_false_2 (key = "make")) by done.
    destruct (decide (key = "plate")) as [->|H3].
    { eval_tests. cbv iota. rewrite ?get_meta_default. eval_tests. cbv iota.
      by rewrite Hout. }
    rewrite (bool_decide_eq_false_2 (key = "plate")) by done.
    destruct (decide (key = "order_no")) as [->|H4].
    { eval_tests. cbv iota. rewrite ?get_meta_default. eval_tests. cbv iota.
      by rewrite Hout. }
    rewrite (bool_decide_eq_false_2 (key = "order_no")) by done.
    rewrite Hout. by destruct (_ ≫= _).
  - rewrite Hout. repeat case_decide; by destruct (_ ≫= _).
Qed.

Example vehicle_info_form_wins :
  _extract_vehicle_info [("VIN", "W0L000"); ("Kennzeichen", "")]
    (Some [("data-vin", "XXX"); ("data-number_plate", "BB-SK 2307");
           ("data-make", "")])
  = [("vin", "W0L000"); ("plate", "BB-SK 2307")].
Proof. reflexivity. Qed.

(** ** The rows of a generic table *)

Section row_facts.

Implicit Types (headers vals : list string) (h v k : string) (i j off : nat)
  (row : dict string string).

Lemma get_foldl_set {A} (kf : A → string) (l : list (A * string)) row k :
  PyDict.get k (foldl (fun row '(a, v) => PyDict.set (kf a) v row) row l)
  = or_else (last_value kf k l) (PyDict.get k row).
Proof.
  revert row. induction l as [|[a v] l IH]; intros row; [done|].
  cbn [foldl last_value]. rewrite IH, get_set.
  destruct (last_value kf k l); [done|]. simpl.
  by destruct (decide (k = kf a)).
Qed.

Lemma col_key_inj i j : col_key i = col_key j → i = j.
Proof.
  unfold col_key. intros H. apply (inj (String.app "col_")) in H.
  apply (inj pretty) in H. by apply Nat2N.inj.
Qed.

Lemma last_value_below vals off i :
  (i < off)%nat →
  last_value col_key (col_key i) (imap (fun j v => (off + j, v)%nat) vals) = None.
Proof.
  revert off. induction vals as [|x vals IH]; intros off Hlt; [done|].
  rewrite imap_cons. cbn [last_value].
  rewrite (imap_ext _ (fun j v => (S off + j, v)%nat))
    by (intros; simpl; f_equal; lia).
  rewrite IH by lia. rewrite decide_False; [done|].
  intros ?%col_key_inj. lia.
Qed.

Lemma last_value_positional vals off i :
  last_value col_key (col_key (off + i))
    (imap (fun j v => (off + j, v)%nat) vals) = vals !! i.
Proof.
  revert off i. induction vals as [|x vals IH]; intros off i; [done|].
  rewrite imap_cons. cbn [last_value].
  rewrite (imap_ext _ (fun j v => (S off + j, v)%nat))
    by (intros; simpl; f_equal; lia).
  destruct i as [|i].
  - rewrite Nat.add_0_r, last_value_below by lia.
    by rewrite decide_True.
  - replace (off + S i)%nat with (S off + i)%nat by lia.
    rewrite IH. cbn [lookup list_lookup].
    destruct (vals !! i); [done|].
    rewrite decide_False; [done|]. intros ?%col_key_inj. lia.
Qed.

Lemma positional_row_get vals i :
  PyDict.get (col_key i) (positional_row vals) = vals !! i.
Proof.
  unfold positional_row.
  etransitivity;
    [apply (get_foldl_set col_key (imap (fun i v => (i, v)) vals) [] (col_key i))|].
  pose proof (last_value_positional vals 0 i) as H.
  change (last_value col_key (col_key i) (imap (fun i v => (i, v)) vals)
          = vals !! i) in H.
  rewrite H. by destruct (vals !! i).
Qed.

Lemma last_value_zip_absent headers vals h :
  h ∉ headers → last_value id h (zip headers vals) = None.
Proof.
  revert vals. induction headers as [|h0 headers IH]; intros vals Hh; [done|].
  destruct vals as [|v0 vals]; [done|]. cbn [zip zip_with last_value].
  apply not_elem_of_cons in Hh as [Hne Hh].
  rewrite IH by done. by rewrite decide_False.
Qed.

Lemma last_value_zip headers vals i h :
  length headers = length vals → headers !! i = Some h →
  (∀ j, (i < j)%nat → headers !! j ≠ Some h) →
  last_value id h (zip headers vals) = vals !! i.
Proof.
  revert vals i. induction headers as [|h0 headers IH]; intros vals i Hlen Hi Hlast;
    [done|].
  destruct vals as [|v0 vals]; [done|]. cbn [zip zip_with last_value].
  simpl in Hlen. destruct i as [|i].
  - injection Hi as ->. rewrite last_value_zip_absent, decide_True; [done..|].
    intros [j Hj]%list_elem_of_lookup. apply (Hlast (S j)); [lia|done].
  - simpl in Hi. rewrite (IH vals i); [|lia|done|].
    + cbn [lookup list_lookup]. destruct (vals !! i) eqn:Hv; [done|].
      apply lookup_ge_None in Hv. apply lookup_lt_Some in Hi. lia.
    + intros j Hj. apply (Hlast (S j)). lia.
Qed.

End row_facts.

(** X22: a row of a generic table gives each cell under the text of its
    header when there are as many headers as cells, the last cell of the
    name when two headers have the same text; with no headers or another
    number of them, the cells stand under the positional keys [col_0],
    [col_1] and so on. *)
Theorem table_row_lookup headers vals :
  (headers = [] ∨ length headers ≠ length vals →
   ∀ i, PyDict.get (col_key i) (table_row headers vals) = vals !! i) ∧
  (headers ≠ [] → length headers = length vals →
   ∀ i h, headers !! i = Some h →
     (∀ j, (i < j)%nat → headers !! j ≠ Some h) →
     PyDict.get h (table_row headers vals) = vals !! i).
Proof.
  unfold table_row. split.
  - intros Hmis i.
    assert (negb (bool_decide (headers = []))
            && (length headers =? length vals)%nat = false) as ->.
    { destruct Hmis as [->|Hlen]; [done|].
      apply andb_false_iff. right. by apply Nat.eqb_neq. }
    apply positional_row_get.
  - intros Hne Hlen i h Hi Hlast.
    rewrite bool_decide_eq_false_2 by done.
    rewrite (proj2 (Nat.eqb_eq _ _) Hlen). cbn [negb andb].
    etransitivity; [apply (get_foldl_set id (zip headers vals) [] h)|].
    rewrite (last_value_zip headers vals i h Hlen Hi Hlast).
    by destruct (vals !! i).
Qed.

Lemma table_row_lookup_witness :
  PyDict.get "Status" (table_row ["Teilenummer"; "Status"; "Status"]
                                 ["A1"; "offen"; "geliefert"])
  = Some "geliefert".
Proof.
  destruct (table_row_lookup ["Teilenummer"; "Status"; "Status"]
                             ["A1"; "offen"; "geliefert"]) as [_ H].
  apply (H ltac:(done) eq_refl 2%nat "Status" eq_refl).
  intros [|[|[|j]]] Hj; (lia || done).
Defined.

(** ** The section snapshots of an order *)

Section section_facts.

Variable req : string → dict string string → res Sections.response.
Variable build : string → string → res section_payload.
Variable dumps : json → string.

Implicit Types (sections : dict string section_payload) (name method k : string)
  (params : dict string string) (ib : bool)
  (pf : option (dict string json))
  (requests : list (string * string * dict string string)).

Lemma add_section_inv ib pf sections name method params sections' :
  Sections.add_section req build dumps ib pf sections (name, method, params)
    = Ok sections' →
  sections' = sections ∨
  (∃ payload, sections' = PyDict.set name payload sections ∧
     (ib = false → name ∉ Sections.binary_sections) ∧
     (PyDict.get name (default [] pf) = None → ¬ request_fails req method params)).
Proof.
  unfold Sections.add_section, request_fails.
  destruct (negb ib && bool_decide (name ∈ Sections.binary_sections)) eqn:Hb.
  { intros [= <-]. by left. }
  assert (ib = false → name ∉ Sections.binary_sections) as Hbin.
  { intros ->. simpl in Hb. by apply bool_decide_eq_false in Hb. }
  destruct (PyDict.get name (default [] pf)) as [j|].
  - destruct (build _ _) as [payload|]; [|done]. intros [= <-].
    right. exists payload. by split_and!.
  - destruct (req method params) as [r|e]; cbn [mbind res_bind try_except];
      [|intros [= <-]; by left].
    destruct (Sections.status_code r =? 200)%Z eqn:Hs; cbn [negb];
      [|intros [= <-]; by left].
    destruct (build _ _) as [payload|]; cbn [mbind res_bind try_except];
      [|intros [= <-]; by left].
    intros [= <-]. right. exists payload. split_and!; [done|done|].
    intros _ Hr. by apply Z.eqb_eq in Hs.
Qed.

Lemma add_section_returns ib sections request :
  returns (Sections.add_section req build dumps ib None sections request).
Proof.
  destruct request as [[name method] params]. unfold Sections.add_section.
  destruct (_ && _); [by eexists|]. cbn [default PyDict.get].
  destruct (req method params) as [r|e]; cbn [mbind res_bind try_except];
    [|by eexists].
  destruct (negb _); [by eexists|].
  destruct (build _ _); cbn [mbind res_bind try_except]; by eexists.
Qed.

Lemma add_sections_app ib pf requests requests' sections :
  Sections.add_sections req build dumps ib pf (requests ++ requests') sections
  = (s ← Sections.add_sections req build dumps ib pf requests sections;
     Sections.add_sections req build dumps ib pf requests' s).
Proof.
  unfold Sections.add_sections. rewrite foldl_app.
  destruct (foldl _ (Ok sections) requests) as [s|e]; [done|].
  cbn [mbind res_bind].
  induction requests' as [|r requests' IH]; [done|]. apply IH.
Qed.

Lemma add_sections_cons ib pf request requests sections :
  Sections.add_sections req build dumps ib pf (request :: requests) sections
  = (s ← Sections.add_section req build dumps ib pf sections request;
     Sections.add_sections req build dumps ib pf requests s).
Proof. apply (add_sections_app ib pf [request] requests). Qed.

Lemma add_sections_nil ib pf sections :
  Sections.add_sections req build dumps ib pf [] sections = Ok sections.
Proof. done. Qed.

Lemma add_sections_one ib pf request sections :
  Sections.add_sections req build dumps ib pf [request] sections
  = Sections.add_section req build dumps ib pf sections request.
Proof.
  rewrite add_sections_cons.
  by destruct (Sections.add_section _ _ _ _ _ _ _).
Qed.

Lemma fetch_as_fold pid shop_date pf table_id ib dates :
  Sections.section_dates shop_date = Ok dates →
  Sections.fetch_order_sections req build dumps pid shop_date pf table_id ib
  = Sections.add_sections req build dumps ib pf
      (Sections.requests_of (Py.str_of_Z pid) (Py.str_of_Z table_id) dates) [].
Proof.
  intros Hd. unfold Sections.fetch_order_sections, Sections.requests_of.
  rewrite Hd. destruct dates as [date_iso month]. cbn [mbind res_bind fst snd].
  rewrite add_sections_app.
  destruct (Sections.add_sections _ _ _ _ _ _ _) as [s1|e]; [|done].
  cbn [mbind res_bind]. rewrite add_sections_app.
  assert (∀ s2 : dict string section_payload,
    match month with
    | Some (month_from, month_to) =>
        if negb (Str.is_empty month_from) && negb (Str.is_empty month_to)
        then Sections.add_section req build dumps ib pf s2
               (Sections.rental_car_data_request (Py.str_of_Z pid) month_from month_to)
        else Ok s2
    | None => Ok s2
    end
    = Sections.add_sections req build dumps ib pf
        match month with
        | Some (month_from, month_to) =>
            if negb (Str.is_empty month_from) && negb (Str.is_empty month_to)
            then [Sections.rental_car_data_request (Py.str_of_Z pid)
                    month_from month_to]
            else []
        | None => []
        end s2) as Hmonth.
  { intros s2. destruct month as [[mf mt]|]; [|done].
    destruct (_ && _); [|done]. by rewrite add_sections_one. }
  destruct date_iso as [d|]; [destruct (Str.is_empty d)|]; cbv iota.
  - rewrite add_sections_nil. cbn [mbind res_bind]. apply Hmonth.
  - rewrite add_sections_one.
    destruct (Sections.add_section _ _ _ _ _ _ _) as [s2|]; [|done].
    cbn [mbind res_bind]. apply Hmonth.
  - rewrite add_sections_nil. cbn [mbind res_bind]. apply Hmonth.
Qed.

Lemma add_sections_keys ib pf requests sections sections' :
  Sections.add_sections req build dumps ib pf requests sections = Ok sections' →
  ∀ k, is_Some (PyDict.get k sections') →
    is_Some (PyDict.get k sections) ∨
    (k ∈ requests.*1.*1 ∧ (ib = false → k ∉ Sections.binary_sections)).
Proof.
  revert sections. induction requests as [|[[name method] params] requests IH];
    intros sections.
  - intros [= <-] k Hk. by left.
  - rewrite add_sections_cons.
    destruct (Sections.add_section _ _ _ _ _ _ _) as [s|] eqn:Hs; [|done].
    cbn [mbind res_bind]. intros Hrest k Hk.
    destruct (IH s Hrest k Hk) as [Hin|[Hin Hb]].
    + apply add_section_inv in Hs as [->|(payload & -> & Hbin & _)]; [by left|].
      rewrite get_set in Hin. destruct (decide (k = name)) as [->|]; [|by left].
      right. split; [|done]. rewrite !fmap_cons. apply list_elem_of_here.
    + right. split; [|done]. rewrite !fmap_cons. by apply list_elem_of_further.
Qed.

Lemma add_sections_failing ib requests sections :
  ∃ sections',
    Sections.add_sections req build dumps ib None requests sections = Ok sections' ∧
    ∀ k, (∀ method params, (k, method, params) ∈ requests →
            request_fails req method params) →
         PyDict.get k sections' = PyDict.get k sections.
Proof.
  revert sections. induction requests as [|[[name method] params] requests IH];
    intros sections.
  - exists sections. by split.
  - rewrite add_sections_cons.
    destruct (add_section_returns ib sections (name, method, params)) as [s Hs].
    rewrite Hs. cbn [mbind res_bind].
    destruct (IH s) as (sections' & Hrun & Hget).
    exists sections'. split; [done|]. intros k Hk.
    rewrite Hget by (intros m p Hin; apply Hk; by apply list_elem_of_further).
    apply add_section_inv in Hs as [->|(payload & -> & _ & Hok)]; [done|].
    rewrite get_set. destruct (decide (k = name)) as [->|]; [|done].
    destruct (Hok eq_refl). apply Hk. apply list_elem_of_here.
Qed.

End section_facts.

Lemma requests_of_names pid table_id dates :
  (Sections.requests_of pid table_id dates).*1.*1 ⊆ section_names.
Proof.
  unfold Sections.requests_of. destruct dates as [[d|] [[mf mt]|]]; cbn [fst snd];
    try destruct (Str.is_empty d);
    try destruct (negb (Str.is_empty mf) && negb (Str.is_empty mt));
    intros k Hk; apply list_elem_of_In in Hk; apply list_elem_of_In;
    cbn in *; tauto.
Qed.

Lemma requests_of_nodup pid table_id dates :
  NoDup (Sections.requests_of pid table_id dates).*1.*1.
Proof.
  unfold Sections.requests_of. destruct dates as [[d|] [[mf mt]|]]; cbn [fst snd];
    try destruct (Str.is_empty d);
    try destruct (negb (Str.is_empty mf) && negb (Str.is_empty mt));
    by_evaluation.
Qed.

Lemma nodup_names_unique {A B} (l : list (string * A * B)) name a b a' b' :
  NoDup l.*1.*1 → (name, a, b) ∈ l → (name, a', b') ∈ l → a = a' ∧ b = b'.
Proof.
  induction l as [|[[n0 a0] b0] l IH]; [by intros _ ?%elem_of_nil|].
  rewrite !fmap_cons. cbn [fst]. intros [Hn0 Hn]%NoDup_cons H1 H2.
  assert (∀ x y, (n0, x, y) ∈ l → False) as Hno.
  { intros x y Hin. apply Hn0. apply list_elem_of_fmap.
    exists (n0, x). split; [done|]. apply list_elem_of_fmap.
    by exists (n0, x, y). }
  apply elem_of_cons in H1 as [E1|H1];
    apply elem_of_cons in H2 as [E2|H2]; simplify_eq.
  - done.
  - by destruct (Hno a' b').
  - by destruct (Hno a b).
  - by apply IH.
Qed.

Lemma normalize_iso_shape s :
  match_iso_date (Str.strip s) = true →
  _normalize_iso_date s = Ok (Some (Str.strip s)).
Proof.
  intros Hm. unfold _normalize_iso_date, _parse_german_date_or_datetime.
  destruct (Str.is_empty s) eqn:Es.
  { apply is_empty_true in Es as ->. done. }
  rewrite Hm. cbn [mbind res_bind].
  destruct (Str.strip s) eqn:E; [done|done].
Qed.


(** X23: [fetch_order_sections] stores sections under the twenty known
    names only, and without [include_binaries] it never returns the
    sections images and documents, prefetched or not. *)
Theorem sections_skip_binaries req build dumps pid shop_date pf table_id ib sections :
  Sections.fetch_order_sections req build dumps pid shop_date pf table_id ib
    = Ok sections →
  PyDict.keys sections ⊆ section_names ∧
  (ib = false → ∀ name, name ∈ Sections.binary_sections →
     PyDict.get name sections = None).
Proof.
  intros Hrun.
  destruct (Sections.section_dates shop_date) as [dates|e] eqn:Hd;
    [|unfold Sections.fetch_order_sections in Hrun; by rewrite Hd in Hrun].
  rewrite (fetch_as_fold _ _ _ _ _ _ _ _ dates Hd) in Hrun.
  pose proof (add_sections_keys _ _ _ _ _ _ _ _ Hrun) as Hkeys.
  split.
  - intros k Hk. apply mem_keys in Hk. rewrite mem_get in Hk.
    apply bool_decide_eq_true in Hk.
    destruct (Hkeys k Hk) as [[? [=]]|[Hin _]].
    by apply (requests_of_names (Py.str_of_Z pid) (Py.str_of_Z table_id) dates).
  - intros -> name Hname.
    destruct (PyDict.get name sections) eqn:Hg; [|done].
    destruct (Hkeys name) as [[? [=]]|[_ Hb]]; [by rewrite Hg|].
    by destruct (Hb eq_refl).
Qed.

Lemma sections_skip_binaries_witness :
  ∃ sections,
    Sections.fetch_order_sections Sections.failing_req Sections.plain_payload
      (fun _ => "{}") 7 (Some "16.12.2025")
      (Some [("images", JObj []); ("parts", JObj [])]) 12565 false
    = Ok sections ∧
    PyDict.get "images" sections = None.
Proof.
  eexists. split; [vm_compute; reflexivity|].
  refine (proj2 (sections_skip_binaries Sections.failing_req
    Sections.plain_payload (fun _ => "{}") 7 (Some "16.12.2025")
    (Some [("images", JObj []); ("parts", JObj [])]) 12565 false _ eq_refl)
    eq_refl "images" _).
  by_evaluation.
Defined.

(** X24: with nothing prefetched, no request can make
    [fetch_order_sections] fail: once the dates are read it returns, and a
    section whose request raises or is answered with a status other than
    200 is left out of the result. *)
Theorem sections_request_failures req build dumps pid shop_date table_id ib dates :
  Sections.section_dates shop_date = Ok dates →
  ∃ sections,
    Sections.fetch_order_sections req build dumps pid shop_date None table_id ib
      = Ok sections ∧
    ∀ name method params,
      (name, method, params)
        ∈ Sections.requests_of (Py.str_of_Z pid) (Py.str_of_Z table_id) dates →
      request_fails req method params →
      PyDict.get name sections = None.
Proof.
  intros Hd. rewrite (fetch_as_fold _ _ _ _ _ _ _ _ dates Hd).
  destruct (add_sections_failing req build dumps ib
              (Sections.requests_of (Py.str_of_Z pid) (Py.str_of_Z table_id) dates)
              []) as (sections & Hrun & Hget).
  exists sections. split; [done|].
  intros name method params Hin Hfail.
  rewrite Hget; [done|].
  intros m p Hin'.
  destruct (nodup_names_unique _ name m p method params
              (requests_of_nodup _ _ dates) Hin' Hin) as [-> ->].
  done.
Qed.

Lemma sections_request_failures_witness :
  Sections.fetch_order_sections Sections.failing_req Sections.plain_payload
    (fun _ => "{}") 7 (Some "16.12.2025") None 12565 true
  = Ok [].
Proof.
  destruct (sections_request_failures Sections.failing_req
    Sections.plain_payload (fun _ => "{}") 7 (Some "16.12.2025") 12565 true
    (Some "2025-12-16", Some ("2025-12-01", "2026-01-01")) eq_refl)
    as (sections & Hrun & _).
  rewrite Hrun. f_equal. vm_compute in Hrun. by injection Hrun as <-.
Defined.

(** X25: a date of the ISO shape that names no day of the calendar, such as
    2025-02-30, passes [_normalize_iso_date] unchanged and makes
    [fetch_order_sections] raise [ValueError] before any section is
    requested. *)
Theorem sections_reject_impossible_date req build dumps pid s pf table_id ib :
  let t := Str.strip s in
  match_iso_date t = true →
  Date.valid (Str.digits_val (String.substring 0 4 t))
             (Str.digits_val (String.substring 5 2 t))
             (Str.digits_val (String.substring 8 2 t)) = false →
  _normalize_iso_date s = Ok (Some t) ∧
  Sections.fetch_order_sections req build dumps pid (Some s) pf table_id ib
    = Raise ValueError.
Proof.
  intros t Hm Hv.
  assert (Str.is_empty s = false) as Hs.
  { destruct s; [done|done]. }
  assert (Str.is_empty t = false) as Ht.
  { destruct t; [done|done]. }
  pose proof (normalize_iso_shape s Hm) as Hn. fold t in Hn.
  split; [done|].
  unfold Sections.fetch_order_sections, Sections.section_dates.
  cbn [or_s]. rewrite Hs, Hn. cbn [mbind res_bind]. rewrite Ht.
  unfold _month_range, date_fromisoformat, Date.make. by rewrite Hm, Hv.
Qed.

Lemma sections_reject_impossible_date_witness :
  Sections.fetch_order_sections Sections.failing_req Sections.plain_payload
    (fun _ => "{}") 7 (Some " 2025-02-30") None 12565 false
  = Raise ValueError.
Proof.
  exact (proj2 (sections_reject_impossible_date Sections.failing_req
    Sections.plain_payload (fun _ => "{}") 7 " 2025-02-30" None 12565 false
    eq_refl eq_refl)).
Defined.

(** ** The [.env] reader *)

Section env_facts.

Implicit Types (s k v rest : string) (c q : ascii).

Lemma partition_first c k rest :
  Str.all (fun a => negb (Ascii.eqb a c)) k = true →
  Env.partition c (k +:+ String c rest) = Some (k, rest).
Proof.
  induction k as [|a k IH]; intros H.
  - rewrite str_app_nil_l. simpl. by rewrite Ascii.eqb_refl.
  - rewrite str_app_cons. simpl in *.
    apply andb_true_iff in H as [Ha H]. apply negb_true_iff in Ha.
    by rewrite Ha, IH.
Qed.

Lemma rstrip_by_last (p : ascii → bool) (a : string) c :
  p c = false →
  Text.rstrip_by p (a +:+ String c EmptyString) = a +:+ String c EmptyString.
Proof.
  intros Hc. induction a as [|x a IH].
  - rewrite str_app_nil_l. simpl. by rewrite Hc.
  - rewrite str_app_cons. simpl. rewrite IH.
    destruct (a +:+ String c "") eqn:E; [by destruct a|].
    by rewrite andb_false_r.
Qed.

Lemma ends_with_last c (a : string) : Env.ends_with c (a +:+ String c EmptyString) = true.
Proof.
  induction a as [|x a IH].
  - rewrite str_app_nil_l. simpl. apply Ascii.eqb_refl.
  - rewrite str_app_cons. simpl.
    destruct (a +:+ String c "") eqn:E; [by destruct a|]. done.
Qed.

Lemma drop_last_last c (a : string) : Env.drop_last (a +:+ String c EmptyString) = a.
Proof.
  induction a as [|x a IH].
  - by rewrite str_app_nil_l.
  - rewrite str_app_cons. simpl. rewrite IH.
    destruct (a +:+ String c "") eqn:E; [by destruct a|]. done.
Qed.

Lemma strip_by_absent (p : ascii → bool) s :
  Str.all (fun c => negb (p c)) s = true → Text.strip_by p s = s.
Proof.
  intros H. unfold Text.strip_by.
  assert (Text.lstrip_by p s = s) as ->.
  { destruct s as [|c s]; [done|]. simpl in *.
    apply andb_true_iff in H as [Hc _]. apply negb_true_iff in Hc.
    by rewrite Hc. }
  induction s as [|c s IH]; [done|]. simpl in *.
  apply andb_true_iff in H as [Hc H]. apply negb_true_iff in Hc.
  by rewrite Hc, IH.
Qed.

Lemma strip_in_quotes (p : ascii → bool) q v :
  p q = false → Text.strip_by p (in_quotes q v) = in_quotes q v.
Proof.
  intros Hq. unfold Text.strip_by, in_quotes.
  cbn [Text.lstrip_by]. rewrite Hq.
  change (String q (v +:+ String q ""))
    with (String q v +:+ String q "").
  by apply rstrip_by_last.
Qed.

Lemma quoted_in_quotes q v :
  Env.quoted_by q (in_quotes q v) = true ∧ Env.inner (in_quotes q v) = v.
Proof.
  unfold Env.quoted_by, in_quotes, Env.inner. split.
  - cbn [Search.prefix]. rewrite Ascii.eqb_refl. cbn [andb].
    change (String q (v +:+ String q "")) with (String q v +:+ String q "").
    apply ends_with_last.
  - apply drop_last_last.
Qed.

Lemma key_char_facts k :
  k ≠ "" → Str.all key_char k = true →
  Str.all (fun c => negb (Chr.is_space c)) k = true ∧
  Str.all (fun a => negb (Ascii.eqb a "=")) k = true ∧
  Search.prefix "#" k = false ∧
  ∀ rest, Str.lstrip (k +:+ rest) = k +:+ rest ∧
          Str.is_empty (k +:+ rest) = false ∧
          Search.prefix "#" (k +:+ rest) = false.
Proof.
  intros Hne Hk. split_and!.
  - eapply all_impl; [|exact Hk]. intros c Hc. unfold key_char in Hc.
    by repeat (apply andb_true_iff in Hc as [Hc _]).
  - eapply all_impl; [|exact Hk]. intros c Hc. unfold key_char in Hc.
    apply andb_true_iff in Hc as [Hc _]. by apply andb_true_iff in Hc as [_ Hc].
  - destruct k as [|c k]; [done|]. cbn [Str.all] in Hk.
    apply andb_true_iff in Hk as [Hc _]. unfold key_char in Hc.
    apply andb_true_iff in Hc as [_ Hc]. apply negb_true_iff in Hc.
    cbn [Search.prefix]. by rewrite Ascii.eqb_sym, Hc.
  - intros rest. destruct k as [|c k]; [done|]. rewrite str_app_cons.
    cbn [Str.all] in Hk. apply andb_true_iff in Hk as [Hc _].
    unfold key_char in Hc.
    apply andb_true_iff in Hc as [Hc H2]. apply andb_true_iff in Hc as [H0 H1].
    apply negb_true_iff in H0, H2. cbn [Str.lstrip Str.is_empty Search.prefix].
    rewrite H0. split_and!; [done|done|].
    by rewrite Ascii.eqb_sym, H2.
Qed.

End env_facts.

(** X26: the three ways of writing an assignment in the [.env] file give
    the same entry: [KEY=value] for a value without whitespace, semicolons
    and quotes, and [KEY='value'] and [KEY="value"] for any value, which is
    taken as it stands between the quotes; a line that starts with [#] sets
    nothing. *)
Theorem env_line_forms k v :
  k ≠ "" → Str.all key_char k = true →
  (Str.all bare_char v = true → Env.line (k +:+ "=" +:+ v) = Some (k, v)) ∧
  Env.line (k +:+ "=" +:+ in_quotes "'" v) = Some (k, v) ∧
  Env.line (k +:+ "=" +:+ in_quotes "034" v) = Some (k, v) ∧
  Env.line ("#" +:+ k +:+ "=" +:+ v) = None.
Proof.
  intros Hne Hk.
  destruct (key_char_facts k Hne Hk) as (Hsp & Heq & Hhash & Hline).
  assert (Hquoted : ∀ q, Chr.is_space q = false → Ascii.eqb ";" q = false →
            (q = "'"%char ∨ q = "034"%char) →
            Env.line (k +:+ "=" +:+ in_quotes q v) = Some (k, v)).
  { intros q Hq1 Hq2 Hq. unfold Env.line.
    assert (Str.strip (k +:+ "=" +:+ in_quotes q v) = k +:+ "=" +:+ in_quotes q v)
      as ->.
    { unfold Str.strip. destruct (Hline ("=" +:+ in_quotes q v)) as (-> & _ & _).
      rewrite rstrip_is_rstrip_by. unfold in_quotes.
      change (k +:+ "=" +:+ String q (v +:+ String q ""))
        with (k +:+ (String "=" (String q v) +:+ String q "")).
      rewrite <- str_app_assoc. by apply rstrip_by_last. }
    destruct (Hline ("=" +:+ in_quotes q v)) as (_ & -> & ->). cbn [orb].
    change (k +:+ "=" +:+ in_quotes q v) with (k +:+ String "=" (in_quotes q v)).
    rewrite partition_first by done. cbv zeta.
    rewrite (strip_no_space k Hsp), strip_is_strip_by.
    rewrite !strip_in_quotes by done.
    destruct (quoted_in_quotes q v) as [Hqu ->].
    destruct Hq as [-> | ->].
    - by rewrite Hqu.
    - rewrite Hqu. by rewrite orb_true_r. }
  split_and!.
  - intros Hv. unfold Env.line.
    assert (Str.all (fun c => negb (Chr.is_space c)) v = true) as Hvs.
    { eapply all_impl; [|exact Hv]. intros c Hc. unfold bare_char in Hc.
      by repeat (apply andb_true_iff in Hc as [Hc _]). }
    assert (Str.all (fun c => negb (Ascii.eqb ";" c)) v = true) as Hvsemi.
    { eapply all_impl; [|exact Hv]. intros c Hc. unfold bare_char in Hc.
      apply andb_true_iff in Hc as [Hc _]. apply andb_true_iff in Hc as [Hc _].
      apply andb_true_iff in Hc as [_ Hc]. by rewrite Ascii.eqb_sym. }
    rewrite (strip_no_space (k +:+ "=" +:+ v))
      by (rewrite !all_app, Hsp, Hvs; done).
    destruct (Hline ("=" +:+ v)) as (_ & -> & ->). cbn [orb].
    change (k +:+ "=" +:+ v) with (k +:+ String "=" v).
    rewrite partition_first by done. cbv zeta.
    rewrite (strip_no_space k Hsp), (strip_no_space v Hvs).
    rewrite (strip_by_absent _ v Hvsemi).
    assert (Env.quoted_by "'" v = false ∧ Env.quoted_by "034" v = false)
      as [-> ->]; [|done].
    destruct v as [|c v]; [done|]. simpl in Hv.
    apply andb_true_iff in Hv as [Hc _]. unfold bare_char in Hc.
    apply andb_true_iff in Hc as [Hc H4]. apply andb_true_iff in Hc as [_ H3].
    apply negb_true_iff in H3, H4. unfold Env.quoted_by. cbn [Search.prefix].
    rewrite (Ascii.eqb_sym "'" c), (Ascii.eqb_sym "034" c), H3, H4. done.
  - apply Hquoted; [done|done|by left].
  - apply Hquoted; [done|done|by right].
  - unfold Env.line.
    assert (Str.strip ("#" +:+ k +:+ "=" +:+ v)
            = String "#" (Str.rstrip (k +:+ "=" +:+ v))) as ->.
    { unfold Str.strip. change ("#" +:+ k +:+ "=" +:+ v)
        with (String "#" (k +:+ "=" +:+ v)).
      cbn [Str.lstrip]. change (Chr.is_space "#") with false. cbv iota.
      cbn [Str.rstrip]. by rewrite andb_false_l. }
    done.
Qed.

Lemma env_line_forms_witness :
  _load_env_file (Some ["# credentials"; "PLANSO_USER=anna";
                        "PLANSO_PASS='s3 cr;et'"])
  = [("PLANSO_USER", "anna"); ("PLANSO_PASS", "s3 cr;et")].
Proof.
  unfold _load_env_file. cbn [foldl].
  destruct (env_line_forms "PLANSO_USER" "anna") as (H1 & _);
    [done|done|].
  destruct (env_line_forms "PLANSO_PASS" "s3 cr;et") as (_ & H2 & _);
    [done|done|].
  change (Env.line "PLANSO_USER=anna") with
    (Env.line ("PLANSO_USER" +:+ "=" +:+ "anna")).
  rewrite (H1 eq_refl). reflexivity.
Defined.

(** ** The payload of a section *)

Lemma looks_like_html_bracket s :
  _looks_like_html s = Search.prefix "<" (Str.lstrip s).
Proof.
  unfold _looks_like_html. cbv zeta.
  destruct (Str.lstrip s) as [|c t]; [done|].
  cbn [Search.prefix]. destruct (Ascii.eqb "<" c); [|done].
  cbn [andb]. by rewrite !orb_true_r.
Qed.

Lemma get_without_key key (d : dict string json) :
  PyDict.get key (without_key key d) = None.
Proof.
  unfold without_key. induction d as [|[k v] d IH]; [done|].
  rewrite filter_cons. cbn [fst]. destruct (decide (k ≠ key)) as [Hne|Heq].
  - cbn [PyDict.get]. rewrite decide_False by congruence. apply IH.
  - apply IH.
Qed.

Lemma keys_with_meta main (v : json) meta :
  main ≠ "meta" →
  PyDict.keys (with_meta [(main, v)] meta)
  = if bool_decide (meta = []) then [main] else [main; "meta"].
Proof.
  intros Hne. unfold with_meta. case_bool_decide; [done|].
  cbn [PyDict.set]. by rewrite decide_False by congruence.
Qed.

Lemma get_with_meta main (v : json) meta k :
  main ≠ "meta" →
  PyDict.get k (with_meta [(main, v)] meta)
  = if decide (k = main) then Some v
    else if decide (k = "meta")
         then (if bool_decide (meta = []) then None else Some (JObj meta))
         else None.
Proof.
  intros Hne. unfold with_meta. case_bool_decide.
  - cbn [PyDict.get]. destruct (decide (k = main)); [done|].
    by destruct (decide (k = "meta")).
  - cbn [PyDict.set]. rewrite decide_False by congruence.
    cbn [PyDict.get]. destruct (decide (k = main)); [done|].
    by destruct (decide (k = "meta")).
Qed.

(** X27: the payload that [_build_section_payload] returns keeps the text
    and the content type, and its data have one of six shapes: parsed
    markup, sections, or decoded JSON, the first two with the other entries
    of the envelope as metadata when there are any, or the plain text. The
    metadata never hold the markup again; the text is kept as plain text
    only when it does not start with [<]; and decoded JSON appears only when
    the content type names JSON or the text starts with a brace or a
    bracket. *)
Theorem section_payload_shapes loads snapshot text ct p :
  _build_section_payload loads snapshot text ct = Ok p →
  content_type p = ct ∧ raw_text p = text ∧
  ∃ d, data_json p = JObj d ∧ PyDict.keys d ∈ payload_shapes ∧
    (∀ x, PyDict.get "text" d = Some x →
       x = JStr text ∧ Search.prefix "<" (Str.lstrip text) = false) ∧
    (∀ x, PyDict.get "json" d = Some x →
       tries_json text ct = true ∧ loads text = Some x) ∧
    (∀ x, PyDict.get "meta" d = Some x →
       ∃ m, x = JObj m ∧ m ≠ [] ∧ PyDict.get "html" m = None).
Proof.
  unfold _build_section_payload. cbv zeta.
  set (j := if tries_json text ct then loads text else None).
  assert (Hj : ∀ x, j = Some x → tries_json text ct = true ∧ loads text = Some x).
  { unfold j. intros x. by destruct (tries_json text ct). }
  clearbody j.
  assert (Hplain :
    ∀ p, (if _looks_like_html text
          then parsed ← snapshot (JStr text); Ok [("parsed", parsed)]
          else Ok [("text", JStr text)]) ≫= (fun d =>
            Ok {| content_type := ct; raw_text := text; data_json := JObj d |})
         = Ok p →
    content_type p = ct ∧ raw_text p = text ∧
    ∃ d, data_json p = JObj d ∧ PyDict.keys d ∈ payload_shapes ∧
      (∀ x, PyDict.get "text" d = Some x →
         x = JStr text ∧ Search.prefix "<" (Str.lstrip text) = false) ∧
      (∀ x, PyDict.get "json" d = Some x →
         tries_json text ct = true ∧ loads text = Some x) ∧
      (∀ x, PyDict.get "meta" d = Some x →
         ∃ m, x = JObj m ∧ m ≠ [] ∧ PyDict.get "html" m = None)).
  { intros p0. rewrite looks_like_html_bracket.
    destruct (Search.prefix "<" (Str.lstrip text)) eqn:Hlt.
    - destruct (snapshot (JStr text)) as [parsed|]; [|done].
      intros [= <-]. split_and!; [done..|].
      eexists. split; [done|]. split_and!; [by_evaluation|done..].
    - intros [= <-]. split_and!; [done..|].
      eexists. split; [done|]. split_and!; [by_evaluation| |done..].
      intros x [= <-]. done. }
  destruct j as [[ | | | |l|jo]|]; try exact (Hplain p).
  - (* a list *)
    intros [= <-]. split_and!; [done..|].
    eexists. split; [done|]. split_and!; [by_evaluation|done| |done].
    intros x [= <-]. by apply Hj.
  - (* an object *)
    destruct (PyDict.get "html" jo) as [[ | | |html| |ho]|] eqn:Hhtml;
      try (intros [= <-]; split_and!; [done..|];
           eexists; split; [done|]; split_and!; [by_evaluation|done| |done];
           intros x [= <-]; by apply Hj).
    + (* markup *)
      destruct (snapshot (JStr html)) as [parsed|]; [|done].
      intros [= <-]. split_and!; [done..|].
      eexists. split; [done|]. split_and!.
      * rewrite keys_with_meta by done. case_bool_decide; by_evaluation.
      * intros x. by rewrite get_with_meta.
      * intros x. by rewrite get_with_meta.
      * intros x. rewrite get_with_meta by done. cbn.
        case_bool_decide as Hm; [done|]. intros [= <-].
        eexists. split_and!; [done|done|apply get_without_key].
    + (* sections *)
      destruct (foldl _ (Ok []) ho) as [sections|]; [|done].
      intros [= <-]. split_and!; [done..|].
      eexists. split; [done|]. split_and!.
      * rewrite keys_with_meta by done. case_bool_decide; by_evaluation.
      * intros x. by rewrite get_with_meta.
      * intros x. by rewrite get_with_meta.
      * intros x. rewrite get_with_meta by done. cbn.
        case_bool_decide as Hm; [done|]. intros [= <-].
        eexists. split_and!; [done|done|apply get_without_key].
Qed.

Lemma section_payload_shapes_witness :
  ∃ p, _build_section_payload demo_loads demo_snapshot "[]" "text/plain" = Ok p ∧
       PyDict.keys [("json", JArr [])] ∈ payload_shapes ∧ raw_text p = "[]".
Proof.
  eexists. split; [vm_compute; reflexivity|].
  destruct (section_payload_shapes demo_loads demo_snapshot "[]" "text/plain"
              _ eq_refl) as (_ & Hraw & d & Hd & Hshape & _).
  split; [|exact Hraw]. injection Hd as <-. exact Hshape.
Defined.
